(** * CareOps backend: availability resolution, booking lifecycle,
      inventory consumption, idempotency ledger and worker loop.

    A shallow embedding of the scheduling core of the repository together
    with the properties stated about it. The sources embedded are
    - src/utils/types.ts, src/utils/core.ts, src/utils/domain.ts,
    - the store ([state], [emitEvent], [findIdempotency], ...), which the
      other files import as utils/store,
    - the booking routes ([createBookingRoutes]) and the availability rule
      routes of src/routes/serviceRoutes.ts,
    - the worker ([processJob], [runWorkerTick]).

    Conventions of the embedding.
    - An ISO instant string is represented by the epoch-millisecond value
      that [new Date(s)] reads from it; every instant stored by the code is
      produced by [toISOString()], so it is a valid date.
    - A time of day accepted by [HHMM_PATTERN] is kept as its two numeric
      fields, a date key accepted by [DATE_KEY_PATTERN] as its three numeric
      fields; equality of the strings is equality of the fields.
    - JavaScript numbers (minutes, quantities, attempts) are integers.
    - The process-wide [state] object is passed explicitly; an object that
      is mutated in place is replaced at its position in its collection.
    - [createId()] and [nowIso()] are inputs of each operation; the calls
      of [nowIso()] within one request answer the same instant.
    - Free-form fields (names, custom fields, messages) are left out.
    - Persistence, calendar and mail collaborators never change the
      collections modelled here; where their answer is stored it is an
      input of the operation. *)

From Stdlib Require Import ZArith List String DecimalString Bool Lia Permutation Sorted.
Import ListNotations.
Open Scope string_scope.
Open Scope Z_scope.
Open Scope list_scope.

Set Implicit Arguments.

(** ** utils/types.ts *)

Inductive BookingStatus :=
| pending | confirmed | completed | no_show | cancelled.

Inductive FormRequestStatus := form_pending | form_completed | form_overdue.

Inductive JobStatus := queued | running | done | failed.

Inductive JobPriority := high | normal | low.

Inductive AvailabilityRuleType := weekly | date_override | date_block.

Inductive JobType := booking_reminder | form_overdue_check.

Inductive Severity := info | warning | critical.

Definition BookingStatus_eqb (a b : BookingStatus) : bool :=
  match a, b with
  | pending, pending | confirmed, confirmed | completed, completed
  | no_show, no_show | cancelled, cancelled => true
  | _, _ => false
  end.

Definition AvailabilityRuleType_eqb (a b : AvailabilityRuleType) : bool :=
  match a, b with
  | weekly, weekly | date_override, date_override | date_block, date_block => true
  | _, _ => false
  end.

(** [HH:mm] as read by [hhmm.split(":")] and [Number]. *)
Record TimeOfDay := mkTime { hours : Z; minutes : Z }.

(** [YYYY-MM-DD] as read by [date.split("-")] and [Number]. *)
Record DateKey := mkDate { year : Z; month : Z; day : Z }.

Definition DateKey_eqb (a b : DateKey) : bool :=
  (year a =? year b)%Z && (month a =? month b)%Z && (day a =? day b)%Z.

Module Service.
Record InventoryRule := mkRule { itemId : string; quantity : Z }.
Record t := mk {
  id : string;
  workspaceId : string;
  durationMin : Z;
  inventoryRules : list InventoryRule;
  bookingFormTemplateId : option string;
  isActive : bool }.
End Service.

Module AvailabilityRule.
Record t := mk {
  id : string;
  workspaceId : string;
  serviceId : string;
  ruleType : option AvailabilityRuleType;
  weekday : option Z;
  date : option DateKey;
  startTime : option TimeOfDay;
  endTime : option TimeOfDay;
  bufferMin : option Z;
  slotIntervalMin : option Z;
  isClosedAllDay : option bool;
  updatedAt : Z }.
End AvailabilityRule.

Module Booking.
Record t := mk {
  id : string;
  workspaceId : string;
  contactId : string;
  serviceId : string;
  startsAt : Z;
  endsAt : Z;
  status : BookingStatus;
  calendarEventId : option string;
  notes : option string;
  deletedAt : option Z;
  createdAt : Z;
  updatedAt : Z }.

Definition with_status (s : BookingStatus) (b : t) : t :=
  mk (id b) (workspaceId b) (contactId b) (serviceId b) (startsAt b)
     (endsAt b) s (calendarEventId b) (notes b) (deletedAt b)
     (createdAt b) (updatedAt b).
Definition with_updatedAt (u : Z) (b : t) : t :=
  mk (id b) (workspaceId b) (contactId b) (serviceId b) (startsAt b)
     (endsAt b) (status b) (calendarEventId b) (notes b) (deletedAt b)
     (createdAt b) u.
Definition with_calendarEventId (c : option string) (b : t) : t :=
  mk (id b) (workspaceId b) (contactId b) (serviceId b) (startsAt b)
     (endsAt b) (status b) c (notes b) (deletedAt b)
     (createdAt b) (updatedAt b).
Definition with_deletedAt (d : option Z) (b : t) : t :=
  mk (id b) (workspaceId b) (contactId b) (serviceId b) (startsAt b)
     (endsAt b) (status b) (calendarEventId b) (notes b) d
     (createdAt b) (updatedAt b).
Definition with_interval (s e : Z) (b : t) : t :=
  mk (id b) (workspaceId b) (contactId b) (serviceId b) s e
     (status b) (calendarEventId b) (notes b) (deletedAt b)
     (createdAt b) (updatedAt b).
End Booking.

Module Contact.
Record t := mk {
  id : string;
  workspaceId : string;
  email : option string;
  phone : option string }.
End Contact.

Module FormTemplate.
Record t := mk { id : string; workspaceId : string }.
End FormTemplate.

Module FormRequest.
Record t := mk {
  id : string;
  workspaceId : string;
  bookingId : string;
  contactId : string;
  templateId : string;
  status : FormRequestStatus;
  dueAt : Z;
  publicToken : string;
  updatedAt : Z }.
End FormRequest.

Module InventoryItem.
Record t := mk {
  id : string;
  workspaceId : string;
  name : string;
  quantityOnHand : Z;
  lowStockThreshold : Z;
  updatedAt : Z }.

Definition consume (q : Z) (u : Z) (i : t) : t :=
  mk (id i) (workspaceId i) (name i) (quantityOnHand i - q)
     (lowStockThreshold i) u.
End InventoryItem.

(** The payloads the modelled code puts on events. *)
Inductive EventPayload :=
| PayloadBookingCreated (startsAt : Z) (serviceId : string)
| PayloadStatus (status : BookingStatus)
| PayloadCancelled (status : BookingStatus) (cancelledAt : Z)
| PayloadRescheduled (startsAt endsAt : Z)
| PayloadLowStock (quantityOnHand lowStockThreshold : Z)
| PayloadReminder (startsAt : Z)
| PayloadFormRequested (bookingId : string)
| PayloadFormOverdue (dueAt : Z).

Module AutomationEvent.
Record t := mk {
  id : string;
  workspaceId : string;
  eventType : string;
  entityType : string;
  entityId : string;
  payload : EventPayload;
  eventHash : string;
  createdAt : Z }.
End AutomationEvent.

Inductive JobPayload :=
| JobBooking (bookingId : string)
| JobFormRequest (formRequestId : string).

Module ScheduledJob.
Record t := mk {
  id : string;
  workspaceId : string;
  jobType : JobType;
  runAt : Z;
  status : JobStatus;
  priority : JobPriority;
  payload : JobPayload;
  attempts : Z;
  lastError : option string;
  lockedAt : option Z;
  lockOwner : option string;
  updatedAt : Z }.

Definition settle (s : JobStatus) (err : option string) (u : Z) (j : t) : t :=
  mk (id j) (workspaceId j) (jobType j) (runAt j) s (priority j)
     (payload j) (attempts j + 1)
     (match err with Some e => Some e | None => lastError j end)
     (lockedAt j) (lockOwner j) u.
Definition lock (owner : string) (u : Z) (j : t) : t :=
  mk (id j) (workspaceId j) (jobType j) (runAt j) running (priority j)
     (payload j) (attempts j) (lastError j) (Some u) (Some owner) u.
End ScheduledJob.

(** The response snapshot of a created booking holds the booking object
    itself (the one in [state.bookings]) and a copy of four fields of the
    form request. *)
Record FormRequestInfo := mkFormInfo {
  info_id : string;
  info_status : FormRequestStatus;
  info_publicToken : string;
  info_dueAt : Z }.

Record Snapshot := mkSnapshot {
  snap_booking : string;
  snap_formRequest : option FormRequestInfo }.

Module IdempotencyKey.
Record t := mk {
  id : string;
  workspaceId : string;
  key : string;
  method : string;
  path : string;
  requestHash : string;
  responseSnapshot : Snapshot;
  expiresAt : Z }.
End IdempotencyKey.

(** The three message templates of the modelled alerts, by their holes. *)
Inductive AlertMessage :=
| MsgLowStock (itemName : string) (quantityOnHand : Z)
| MsgFormOverdue (formRequestId : string)
| MsgJobFailed (jobType : JobType) (lastError : string).

Module Alert.
Record t := mk {
  id : string;
  workspaceId : string;
  type : string;
  severity : Severity;
  message : AlertMessage;
  createdAt : Z }.
End Alert.

Record AppState := mkState {
  contacts : list Contact.t;
  services : list Service.t;
  availabilityRules : list AvailabilityRule.t;
  bookings : list Booking.t;
  formTemplates : list FormTemplate.t;
  formRequests : list FormRequest.t;
  inventoryItems : list InventoryItem.t;
  automationEvents : list AutomationEvent.t;
  scheduledJobs : list ScheduledJob.t;
  idempotencyKeys : list IdempotencyKey.t;
  alerts : list Alert.t }.

Definition baseState : AppState :=
  mkState [] [] [] [] [] [] [] [] [] [] [].

Definition set_bookings (l : list Booking.t) (s : AppState) : AppState :=
  mkState (contacts s) (services s) (availabilityRules s) l (formTemplates s)
          (formRequests s) (inventoryItems s) (automationEvents s)
          (scheduledJobs s) (idempotencyKeys s) (alerts s).
Definition set_availabilityRules (l : list AvailabilityRule.t) (s : AppState) : AppState :=
  mkState (contacts s) (services s) l (bookings s) (formTemplates s)
          (formRequests s) (inventoryItems s) (automationEvents s)
          (scheduledJobs s) (idempotencyKeys s) (alerts s).
Definition set_formRequests (l : list FormRequest.t) (s : AppState) : AppState :=
  mkState (contacts s) (services s) (availabilityRules s) (bookings s)
          (formTemplates s) l (inventoryItems s) (automationEvents s)
          (scheduledJobs s) (idempotencyKeys s) (alerts s).
Definition set_inventoryItems (l : list InventoryItem.t) (s : AppState) : AppState :=
  mkState (contacts s) (services s) (availabilityRules s) (bookings s)
          (formTemplates s) (formRequests s) l (automationEvents s)
          (scheduledJobs s) (idempotencyKeys s) (alerts s).
Definition set_automationEvents (l : list AutomationEvent.t) (s : AppState) : AppState :=
  mkState (contacts s) (services s) (availabilityRules s) (bookings s)
          (formTemplates s) (formRequests s) (inventoryItems s) l
          (scheduledJobs s) (idempotencyKeys s) (alerts s).
Definition set_scheduledJobs (l : list ScheduledJob.t) (s : AppState) : AppState :=
  mkState (contacts s) (services s) (availabilityRules s) (bookings s)
          (formTemplates s) (formRequests s) (inventoryItems s)
          (automationEvents s) l (idempotencyKeys s) (alerts s).
Definition set_idempotencyKeys (l : list IdempotencyKey.t) (s : AppState) : AppState :=
  mkState (contacts s) (services s) (availabilityRules s) (bookings s)
          (formTemplates s) (formRequests s) (inventoryItems s)
          (automationEvents s) (scheduledJobs s) l (alerts s).
Definition set_alerts (l : list Alert.t) (s : AppState) : AppState :=
  mkState (contacts s) (services s) (availabilityRules s) (bookings s)
          (formTemplates s) (formRequests s) (inventoryItems s)
          (automationEvents s) (scheduledJobs s) (idempotencyKeys s) l.
Definition set_contacts (l : list Contact.t) (s : AppState) : AppState :=
  mkState l (services s) (availabilityRules s) (bookings s)
          (formTemplates s) (formRequests s) (inventoryItems s)
          (automationEvents s) (scheduledJobs s) (idempotencyKeys s) (alerts s).

(** ** Generic helpers for in-place mutation *)

(** [arr.find(p)] and the mutation of the object it returns. *)
Fixpoint updateFirst {A} (p : A -> bool) (f : A -> A) (l : list A) : list A :=
  match l with
  | [] => []
  | x :: r => if p x then f x :: r else x :: updateFirst p f r
  end.

(** [arr.sort(cmp)]: a stable sort; [le a b] stands for [cmp(a, b) <= 0]. *)
Fixpoint insertBy {A} (le : A -> A -> bool) (x : A) (l : list A) : list A :=
  match l with
  | [] => [x]
  | y :: r => if le x y then x :: y :: r else y :: insertBy le x r
  end.

Fixpoint sortBy {A} (le : A -> A -> bool) (l : list A) : list A :=
  match l with
  | [] => []
  | x :: r => insertBy le x (sortBy le r)
  end.

(** JavaScript truthiness of a string. *)
Definition truthy (s : string) : bool := negb (String.eqb s "").

(** [excludeId && id === excludeId] *)
Definition isExcluded (exclude : option string) (id : string) : bool :=
  match exclude with
  | Some e => truthy e && String.eqb id e
  | None => false
  end.

(** ** utils/core.ts *)

Definition addMinutes (dateIso : Z) (mins : Z) : Z := dateIso + mins * 60000.

Definition addHours (dateIso : Z) (h : Z) : Z := addMinutes dateIso (h * 60).

Definition addDays (dateIso : Z) (days : Z) : Z := dateIso + days * 86400000.

Definition overlap (startA endA startB endB : Z) : bool :=
  (startA <? endB) && (startB <? endA).

(** ** utils/domain.ts: the booking conflict guard *)

Definition isBookingOverlapping (st : AppState) (workspaceId : string)
    (startsAt endsAt : Z) (excludeBookingId : option string) : bool :=
  existsb (fun booking =>
    if negb (String.eqb (Booking.workspaceId booking) workspaceId) then false
    else if isExcluded excludeBookingId (Booking.id booking) then false
    else match Booking.status booking with
         | cancelled | no_show => false
         | _ => (startsAt <? Booking.endsAt booking)
                && (Booking.startsAt booking <? endsAt)
         end) (bookings st).

(** ** Requests and replies *)

(** The workspace a route works for: [getWorkspaceById] on public routes,
    [authReq.workspace] behind [requireWorkspace]. *)
Record Workspace := mkWorkspace { ws_id : string; ws_timezone : string }.

(** The JSON body of [POST /public/:workspaceId/bookings]. *)
Record BookingBody := mkBody {
  body_serviceId : string;
  body_startsAt : string;
  body_fields : list (string * string) }.

Record Parts := mkParts {
  p_year : Z; p_month : Z; p_day : Z;
  p_hour : Z; p_minute : Z; p_second : Z }.

(** What the modelled code asks of the platform and of the collaborators
    that the embedding leaves outside. *)
Record Collaborators := mkCollaborators {
  (** [Intl.DateTimeFormat("en-US", {timeZone, ...}).formatToParts] *)
  toPartsInTimeZone : Z -> string -> Parts;
  (** [sha256(JSON.stringify({eventType, entityType, entityId, payload}))] *)
  eventHashOf : string -> string -> string -> EventPayload -> string;
  (** [sha256(JSON.stringify(req.body ?? {}))] *)
  requestHashOf : BookingBody -> string;
  (** [new Date(s).getTime()], [None] when it is [NaN] *)
  parseDate : string -> option Z;
  (** the error, if any, that [findUnexpectedObjectKeys] and then
      [validatePublicFieldSubmission] lead to *)
  unexpectedKeysError : BookingBody -> option string;
  submissionError : BookingBody -> option string;
  (** the e-mail address, phone number and notes found in the submission *)
  submissionEmail : BookingBody -> option string;
  submissionPhone : BookingBody -> option string;
  submissionNotes : BookingBody -> option string;
  (** the exception, if any, that composing and sending the reminder of
      the job with this id throws *)
  reminderError : string -> option string }.

Inductive ErrorBody :=
| ErrWorkspaceNotFound
| ErrServiceNotFound
| ErrBookingNotFound
| ErrRuleNotFound
| ErrIdempotencyKeyRequired
| ErrIdempotencyReuse
| ErrSubmission (msg : string)
| ErrServiceAndStartRequired
| ErrStartsAtRequired
| ErrStartsAtNotIso
| ErrOutsideAvailability
| ErrSlotNotAvailable
| ErrInvalidStatus
| ErrInvalidTransition (from to : BookingStatus)
| ErrInsufficientInventory (itemName : string)
| ErrInventoryBookingNotFound
| ErrInventoryServiceNotFound
| ErrCannotReschedule (status : BookingStatus)
| ErrServiceIdRequired
| ErrRuleValidation (msg : string)
| ErrSlotsQuery
| ErrDateFormat
| ErrOverlappingRule.

Inductive Reply (A : Type) :=
| Sent (status : Z) (body : A)
| Failed (status : Z) (error : ErrorBody).
Arguments Failed {A} status error.

(** ** utils/core.ts: calendar arithmetic *)

(** Day number of a civil date of the proleptic Gregorian calendar,
    counted from 1970-01-01; [m] ranges over 1..12, [d] is unrestricted. *)
Definition daysFromCivil (y m d : Z) : Z :=
  let y' := if m <=? 2 then y - 1 else y in
  let era := y' / 400 in
  let yoe := y' - era * 400 in
  let mp := if 2 <? m then m - 3 else m + 9 in
  let doy := (153 * mp + 2) / 5 + d - 1 in
  let doe := yoe * 365 + yoe / 4 - yoe / 100 + doy in
  era * 146097 + doe - 719468.

(** [Date.UTC(year, monthIndex, day, hours, minutes, seconds)], with its
    reading of the years 0..99 as 1900..1999. *)
Definition dateUTC (y monthIndex d h mi s : Z) : Z :=
  let yr := if (0 <=? y) && (y <=? 99) then 1900 + y else y in
  let ym := yr + monthIndex / 12 in
  let mn := monthIndex mod 12 in
  (daysFromCivil ym (mn + 1) 1 + d - 1) * 86400000
  + h * 3600000 + mi * 60000 + s * 1000.

(** [new Date("2000-01-01T00:00:00.000Z").getTime()] *)
Definition epoch2000 : Z := 946684800000.

(** [dateAtTimeIso("2000-01-01", hhmm)], the only date the code passes. *)
Definition dateAtTimeIso2000 (hhmm : TimeOfDay) : Z :=
  epoch2000 + hours hhmm * 3600000 + minutes hhmm * 60000.

Section Core.

Variable env : Collaborators.

Definition getTimeZoneOffsetMs (date : Z) (timeZone : string) : Z :=
  let parts := toPartsInTimeZone env date timeZone in
  let reconstructedUtc :=
    dateUTC (p_year parts) (p_month parts - 1) (p_day parts)
            (p_hour parts) (p_minute parts) (p_second parts) in
  reconstructedUtc - date.

Definition dateAtTimeInTimeZoneIso (date : DateKey) (hhmm : TimeOfDay)
    (timeZone : string) : Z :=
  let utcGuessMs := dateUTC (year date) (month date - 1) (day date)
                            (hours hhmm) (minutes hhmm) 0 in
  let firstOffset := getTimeZoneOffsetMs utcGuessMs timeZone in
  let adjusted := utcGuessMs - firstOffset in
  let secondOffset := getTimeZoneOffsetMs adjusted timeZone in
  if secondOffset =? firstOffset then adjusted else utcGuessMs - secondOffset.

Definition toDateKeyInTimeZone (dateIso : Z) (timeZone : string) : DateKey :=
  let parts := toPartsInTimeZone env dateIso timeZone in
  mkDate (p_year parts) (p_month parts) (p_day parts).

(** [getUTCDay()] of noon of the date key; 1970-01-01 was a Thursday. *)
Definition weekdayInTimeZone (dateIso : Z) (timeZone : string) : Z :=
  let dateKey := toDateKeyInTimeZone dateIso timeZone in
  (daysFromCivil (year dateKey) (month dateKey) (day dateKey) + 4) mod 7.

(** ** The booking routes: availability resolution *)

Record AvailabilityWindow := mkWindow {
  startIso : Z; endIso : Z; stepMin : Z }.

Record ResolvedAvailability := mkResolved {
  windows : list AvailabilityWindow;
  blockedWindows : list (Z * Z);
  closedAllDay : bool }.

Definition resolveRuleType (rule : AvailabilityRule.t) : AvailabilityRuleType :=
  match AvailabilityRule.ruleType rule with
  | Some t => t
  | None => weekly
  end.

Definition toAvailabilityWindow (dateKey : DateKey) (timeZone : string)
    (rule : AvailabilityRule.t) (defaultStepMin : Z) : option AvailabilityWindow :=
  match AvailabilityRule.startTime rule, AvailabilityRule.endTime rule with
  | Some startTime, Some endTime =>
      let startIso := dateAtTimeInTimeZoneIso dateKey startTime timeZone in
      let endIso := dateAtTimeInTimeZoneIso dateKey endTime timeZone in
      if endIso <=? startIso then None
      else
        let configuredStep :=
          match AvailabilityRule.slotIntervalMin rule with
          | Some n => if 0 <? n then n else defaultStepMin
          | None => defaultStepMin
          end in
        Some (mkWindow startIso endIso (Z.max 1 configuredStep))
  | _, _ => None
  end.

Record ResolveInput := mkResolveInput {
  in_workspaceId : string;
  in_serviceId : string;
  in_dateKey : DateKey;
  in_weekday : Z;
  in_timeZone : string;
  in_serviceDurationMin : Z }.

Definition optZ_eqb (a : option Z) (b : Z) : bool :=
  match a with Some x => x =? b | None => false end.

Definition optDate_eqb (a : option DateKey) (b : DateKey) : bool :=
  match a with Some x => DateKey_eqb x b | None => false end.

Definition defaultStepOf (input : ResolveInput) (rule : AvailabilityRule.t) : Z :=
  in_serviceDurationMin input
  + Z.max 0 (match AvailabilityRule.bufferMin rule with Some b => b | None => 0 end).

Definition pushOpt {A} (l : list A) (x : option A) : list A :=
  match x with Some a => l ++ [a] | None => l end.

(** The accumulators of the loop over [state.availabilityRules]. *)
Record ResolveAcc := mkAcc {
  weeklyWindows : list AvailabilityWindow;
  overrideWindows : list AvailabilityWindow;
  acc_blockedWindows : list (Z * Z);
  acc_closedAllDay : bool }.

(** One iteration of the loop. *)
Definition resolveStep (input : ResolveInput) (acc : ResolveAcc)
    (rule : AvailabilityRule.t) : ResolveAcc :=
  if negb (String.eqb (AvailabilityRule.workspaceId rule) (in_workspaceId input))
     || negb (String.eqb (AvailabilityRule.serviceId rule) (in_serviceId input))
  then acc
  else
    match resolveRuleType rule with
    | weekly =>
        if negb (optZ_eqb (AvailabilityRule.weekday rule) (in_weekday input)) then acc
        else
          let window := toAvailabilityWindow (in_dateKey input) (in_timeZone input)
                          rule (defaultStepOf input rule) in
          mkAcc (pushOpt (weeklyWindows acc) window) (overrideWindows acc)
                (acc_blockedWindows acc) (acc_closedAllDay acc)
    | ruleType =>
        if negb (optDate_eqb (AvailabilityRule.date rule) (in_dateKey input)) then acc
        else
          match ruleType with
          | date_override =>
              let window := toAvailabilityWindow (in_dateKey input) (in_timeZone input)
                              rule (defaultStepOf input rule) in
              mkAcc (weeklyWindows acc) (pushOpt (overrideWindows acc) window)
                    (acc_blockedWindows acc) (acc_closedAllDay acc)
          | _ =>
              match AvailabilityRule.isClosedAllDay rule with
              | Some true =>
                  mkAcc (weeklyWindows acc) (overrideWindows acc)
                        (acc_blockedWindows acc) true
              | _ =>
                  let blocked := toAvailabilityWindow (in_dateKey input)
                                   (in_timeZone input) rule 1 in
                  mkAcc (weeklyWindows acc) (overrideWindows acc)
                        (pushOpt (acc_blockedWindows acc)
                           (option_map (fun w => (startIso w, endIso w)) blocked))
                        (acc_closedAllDay acc)
              end
          end
    end.

Definition resolveLoop (input : ResolveInput) (rules : list AvailabilityRule.t)
    : ResolveAcc :=
  fold_left (resolveStep input) rules (mkAcc [] [] [] false).

Definition resolveAvailabilityForDate (st : AppState) (input : ResolveInput)
    : ResolvedAvailability :=
  let acc := resolveLoop input (availabilityRules st) in
  mkResolved
    (match overrideWindows acc with [] => weeklyWindows acc | _ => overrideWindows acc end)
    (acc_blockedWindows acc)
    (acc_closedAllDay acc).

Definition isBlockedByException (startsAt endsAt : Z)
    (resolved : ResolvedAvailability) : bool :=
  if closedAllDay resolved then true
  else existsb (fun blocked => overlap startsAt endsAt (fst blocked) (snd blocked))
               (blockedWindows resolved).

Definition isWithinAvailabilityRule (st : AppState) (workspaceId serviceId : string)
    (startsAt endsAt : Z) (timeZone : string) (serviceDurationMin : Z) : bool :=
  let dateKey := toDateKeyInTimeZone startsAt timeZone in
  let weekday := weekdayInTimeZone startsAt timeZone in
  let resolved := resolveAvailabilityForDate st
    (mkResolveInput workspaceId serviceId dateKey weekday timeZone serviceDurationMin) in
  match windows resolved with
  | [] => false
  | _ =>
    if closedAllDay resolved then false
    else existsb (fun window =>
           (startIso window <=? startsAt) && (endsAt <=? endIso window)
           && negb (isBlockedByException startsAt endsAt resolved))
         (windows resolved)
  end.

(** ** The booking routes: GET /public/:workspaceId/slots *)

Record Slot := mkSlot { slot_startsAt : Z; slot_endsAt : Z }.

(** The [while] loop over one window. It runs on fuel; [slotFuel] gives a
    number of iterations that the loop never exceeds when the step is
    positive (lemma [slotLoop_fuel_enough]). The accumulator is the pair of
    [slots] and [seen]. *)
Fixpoint slotLoop (fuel : nat) (st : AppState) (workspaceId : string)
    (durationMin : Z) (resolved : ResolvedAvailability)
    (window : AvailabilityWindow) (cursor : Z)
    (acc : list Slot * list Z) : list Slot * list Z :=
  match fuel with
  | O => acc
  | S fuel' =>
    if cursor <? endIso window then
      let end_ := addMinutes cursor durationMin in
      if endIso window <? end_ then acc
      else
        let acc' :=
          if negb (isBookingOverlapping st workspaceId cursor end_ None)
             && negb (isBlockedByException cursor end_ resolved)
             && negb (existsb (Z.eqb cursor) (snd acc))
          then (fst acc ++ [mkSlot cursor end_], snd acc ++ [cursor])
          else acc in
        slotLoop fuel' st workspaceId durationMin resolved window
                 (addMinutes cursor (stepMin window)) acc'
    else acc
  end.

Definition slotFuel (window : AvailabilityWindow) : nat :=
  S (Z.to_nat ((endIso window - startIso window) / (stepMin window * 60000))).

Definition collectSlots (st : AppState) (workspaceId : string) (durationMin : Z)
    (resolved : ResolvedAvailability) : list Slot :=
  if closedAllDay resolved then []
  else
    fst (fold_left
           (fun acc window =>
              slotLoop (slotFuel window) st workspaceId durationMin resolved
                       window (startIso window) acc)
           (windows resolved) ([], [])).

Definition timeZoneOf (workspace : Workspace) : string :=
  if truthy (ws_timezone workspace) then ws_timezone workspace else "UTC".

Definition noon : TimeOfDay := mkTime 12 0.

(** [req.query.date] *)
Inductive RawDate :=
| DateMissing                      (* absent or empty *)
| DateMalformed                    (* not of the form YYYY-MM-DD *)
| DateGiven (date : DateKey).

Definition getPublicSlots (st : AppState) (workspace : option Workspace)
    (serviceId : string) (date : RawDate) : Reply (list Slot) :=
  match workspace with
  | None => Failed 404 ErrWorkspaceNotFound
  | Some workspace =>
    if negb (truthy serviceId) || match date with DateMissing => true | _ => false end
    then Failed 400 ErrSlotsQuery
    else
      match find (fun item => String.eqb (Service.id item) serviceId
                              && String.eqb (Service.workspaceId item) (ws_id workspace)
                              && Service.isActive item) (services st) with
      | None => Failed 404 ErrServiceNotFound
      | Some service =>
        match date with
        | DateGiven date =>
          let timezone := timeZoneOf workspace in
          let anchor := dateAtTimeInTimeZoneIso date noon timezone in
          let weekday := weekdayInTimeZone anchor timezone in
          let resolved := resolveAvailabilityForDate st
            (mkResolveInput (ws_id workspace) (Service.id service) date weekday
                            timezone (Service.durationMin service)) in
          let slots := collectSlots st (ws_id workspace)
                         (Service.durationMin service) resolved in
          Sent 200 (sortBy (fun l r => slot_startsAt l <=? slot_startsAt r) slots)
        | _ => Failed 400 ErrDateFormat
        end
      end
  end.

(** ** The store (utils/store) *)

Definition emitEvent (st : AppState) (newId : string) (now : Z)
    (workspaceId eventType entityType entityId : string)
    (payload : EventPayload) : AppState :=
  let eventHash := eventHashOf env eventType entityType entityId payload in
  match find (fun event =>
          String.eqb (AutomationEvent.workspaceId event) workspaceId
          && String.eqb (AutomationEvent.eventType event) eventType
          && String.eqb (AutomationEvent.entityType event) entityType
          && String.eqb (AutomationEvent.entityId event) entityId
          && String.eqb (AutomationEvent.eventHash event) eventHash)
        (automationEvents st) with
  | Some _ => st
  | None =>
    set_automationEvents
      (automationEvents st
       ++ [AutomationEvent.mk newId workspaceId eventType entityType entityId
                              payload eventHash now]) st
  end.

Definition createAlert (st : AppState) (newId : string) (now : Z)
    (workspaceId type : string) (severity : Severity)
    (message : AlertMessage) : AppState :=
  set_alerts (alerts st ++ [Alert.mk newId workspaceId type severity message now]) st.

Definition enqueueJob (st : AppState) (newId : string) (now : Z)
    (workspaceId : string) (jobType : JobType) (runAt : Z)
    (payload : JobPayload) (priority : option JobPriority) : AppState :=
  set_scheduledJobs
    (scheduledJobs st
     ++ [ScheduledJob.mk newId workspaceId jobType runAt queued
           (match priority with Some p => p | None => normal end)
           payload 0 None None None now]) st.

Definition createFormRequest (st : AppState) (createId : nat -> string) (now : Z)
    (workspaceId bookingId contactId templateId : string) (dueAt : Z)
    : AppState * FormRequest.t :=
  let request := FormRequest.mk (createId 4%nat) workspaceId bookingId contactId
                   templateId form_pending dueAt (createId 5%nat) now in
  let st1 := set_formRequests (formRequests st ++ [request]) st in
  (enqueueJob st1 (createId 6%nat) now workspaceId form_overdue_check
              (addDays now 2) (JobFormRequest (FormRequest.id request)) (Some normal),
   request).

Definition findIdempotency (st : AppState) (workspaceId key method path : string)
    : option IdempotencyKey.t :=
  find (fun item =>
          String.eqb (IdempotencyKey.workspaceId item) workspaceId
          && String.eqb (IdempotencyKey.key item) key
          && String.eqb (IdempotencyKey.method item) method
          && String.eqb (IdempotencyKey.path item) path)
       (idempotencyKeys st).

Definition saveIdempotency (st : AppState) (newId : string) (now : Z)
    (workspaceId key method path requestHash : string)
    (responseSnapshot : Snapshot) : AppState :=
  set_idempotencyKeys
    (idempotencyKeys st
     ++ [IdempotencyKey.mk newId workspaceId key method path requestHash
                           responseSnapshot (addDays now 1)]) st.

(** Sessions are outside the embedding; the sweep over the idempotency
    records removes those with [expiresAt <= now]. *)
Definition cleanupExpiredRecords (st : AppState) (now : Z) : AppState :=
  set_idempotencyKeys
    (filter (fun item => negb (IdempotencyKey.expiresAt item <=? now))
            (idempotencyKeys st)) st.

Definition optString_is (a : option string) (b : option string) : bool :=
  match b with
  | Some y => truthy y && match a with Some x => String.eqb x y | None => false end
  | None => false
  end.

Definition optTruthy (a : option string) : bool :=
  match a with Some x => truthy x | None => false end.

(** The e-mail address and phone number arrive trimmed and lower-cased. *)
Definition findOrCreateContact (st : AppState) (newId : string)
    (workspaceId : string) (email phone : option string)
    : AppState * Contact.t :=
  let matches := fun contact =>
    String.eqb (Contact.workspaceId contact) workspaceId
    && (optString_is (Contact.email contact) email
        || optString_is (Contact.phone contact) phone) in
  match find matches (contacts st) with
  | Some existing =>
    let updated := Contact.mk (Contact.id existing) (Contact.workspaceId existing)
      (if optTruthy email && negb (optTruthy (Contact.email existing))
       then email else Contact.email existing)
      (if optTruthy phone && negb (optTruthy (Contact.phone existing))
       then phone else Contact.phone existing) in
    (set_contacts (updateFirst matches (fun _ => updated) (contacts st)) st, updated)
  | None =>
    let created := Contact.mk newId workspaceId email phone in
    (set_contacts (contacts st ++ [created]) st, created)
  end.

(** ** utils/domain.ts *)

Definition parseBookingStatus (value : string) : option BookingStatus :=
  if String.eqb value "pending" then Some pending
  else if String.eqb value "confirmed" then Some confirmed
  else if String.eqb value "completed" then Some completed
  else if String.eqb value "no_show" then Some no_show
  else if String.eqb value "cancelled" then Some cancelled
  else None.

Definition isInventoryItem (workspaceId itemId : string) (inventoryItem : InventoryItem.t)
    : bool :=
  String.eqb (InventoryItem.workspaceId inventoryItem) workspaceId
  && String.eqb (InventoryItem.id inventoryItem) itemId.

(** The first loop of [applyInventoryOnBookingCompleted]. *)
Fixpoint checkInventory (st : AppState) (workspaceId : string)
    (rules : list Service.InventoryRule) : option ErrorBody :=
  match rules with
  | [] => None
  | rule :: rest =>
    match find (isInventoryItem workspaceId (Service.itemId rule)) (inventoryItems st) with
    | None => checkInventory st workspaceId rest
    | Some item =>
      if InventoryItem.quantityOnHand item <? Service.quantity rule
      then Some (ErrInsufficientInventory (InventoryItem.name item))
      else checkInventory st workspaceId rest
    end
  end.

(** One iteration of the second loop; [k] counts the iterations, to draw
    fresh identifiers. *)
Definition consumeStep (createId : nat -> string) (now : Z) (workspaceId : string)
    (acc : AppState * nat) (rule : Service.InventoryRule) : AppState * nat :=
  let '(st, k) := acc in
  match find (isInventoryItem workspaceId (Service.itemId rule)) (inventoryItems st) with
  | None => (st, S k)
  | Some item =>
    let item' := InventoryItem.consume (Service.quantity rule) now item in
    let st1 := set_inventoryItems
                 (updateFirst (isInventoryItem workspaceId (Service.itemId rule))
                              (fun _ => item') (inventoryItems st)) st in
    if InventoryItem.quantityOnHand item' <=? InventoryItem.lowStockThreshold item'
    then
      (emitEvent
         (createAlert st1 (createId (1 + 2 * k)%nat) now workspaceId
            "inventory.low_stock" warning
            (MsgLowStock (InventoryItem.name item') (InventoryItem.quantityOnHand item')))
         (createId (2 + 2 * k)%nat) now workspaceId
         "inventory.low_stock" "inventory_item" (InventoryItem.id item')
         (PayloadLowStock (InventoryItem.quantityOnHand item')
                          (InventoryItem.lowStockThreshold item')),
       S k)
    else (st1, S k)
  end.

Definition consumeInventory (createId : nat -> string) (now : Z) (workspaceId : string)
    (rules : list Service.InventoryRule) (st : AppState) : AppState :=
  fst (fold_left (consumeStep createId now workspaceId) rules (st, 0%nat)).

Definition applyInventoryOnBookingCompleted (st : AppState) (createId : nat -> string)
    (now : Z) (workspaceId bookingId : string) : AppState * option ErrorBody :=
  match find (fun item => String.eqb (Booking.id item) bookingId
                          && String.eqb (Booking.workspaceId item) workspaceId)
             (bookings st) with
  | None => (st, Some ErrInventoryBookingNotFound)
  | Some booking =>
    match find (fun item => String.eqb (Service.id item) (Booking.serviceId booking)
                            && String.eqb (Service.workspaceId item) workspaceId)
               (services st) with
    | None => (st, Some ErrInventoryServiceNotFound)
    | Some service =>
      match checkInventory st workspaceId (Service.inventoryRules service) with
      | Some e => (st, Some e)
      | None =>
        (consumeInventory createId now workspaceId (Service.inventoryRules service) st,
         None)
      end
    end
  end.

(** ** The booking routes: the booking commands *)

Definition isDeleted (b : Booking.t) : bool :=
  match Booking.deletedAt b with Some _ => true | None => false end.

(** The predicate of the [state.bookings.find] that opens each staff route. *)
Definition isOwnBooking (workspaceId id : string) (item : Booking.t) : bool :=
  String.eqb (Booking.id item) id
  && String.eqb (Booking.workspaceId item) workspaceId
  && negb (isDeleted item).

Definition transitions (s : BookingStatus) : list BookingStatus :=
  match s with
  | pending => [confirmed; cancelled; no_show]
  | confirmed => [completed; cancelled; no_show]
  | completed => []
  | no_show => []
  | cancelled => []
  end.

Definition includes (l : list BookingStatus) (s : BookingStatus) : bool :=
  existsb (BookingStatus_eqb s) l.

Definition optString_eqb (a b : option string) : bool :=
  match a, b with
  | Some x, Some y => String.eqb x y
  | None, None => true
  | _, _ => false
  end.

(** Storing the event id that the calendar collaborator answered. *)
Definition storeCalendarEvent (eventId : option string) (now : Z) (booking : Booking.t)
    : Booking.t :=
  if optTruthy eventId && negb (optString_eqb (Booking.calendarEventId booking) eventId)
  then Booking.with_updatedAt now (Booking.with_calendarEventId eventId booking)
  else booking.

Definition statusEventType (targetStatus : BookingStatus) : string :=
  match targetStatus with
  | confirmed => "booking.confirmed"
  | completed => "booking.completed"
  | _ => "booking.updated"
  end.

(** [PATCH /bookings/:id/status] *)
Definition patchBookingStatus (st : AppState) (createId : nat -> string) (now : Z)
    (workspace : Workspace) (id : string) (rawStatus : string)
    (calendarEventId : option string) : AppState * Reply Booking.t :=
  match find (isOwnBooking (ws_id workspace) id) (bookings st) with
  | None => (st, Failed 404 ErrBookingNotFound)
  | Some booking =>
    match parseBookingStatus rawStatus with
    | None => (st, Failed 400 ErrInvalidStatus)
    | Some targetStatus =>
      if negb (includes (transitions (Booking.status booking)) targetStatus)
      then (st, Failed 400 (ErrInvalidTransition (Booking.status booking) targetStatus))
      else
        let '(st1, inventoryError) :=
          if BookingStatus_eqb targetStatus completed
          then applyInventoryOnBookingCompleted st createId now (ws_id workspace)
                 (Booking.id booking)
          else (st, None) in
        match inventoryError with
        | Some e => (st1, Failed 409 e)
        | None =>
          let booking1 := Booking.with_updatedAt now
                            (Booking.with_status targetStatus booking) in
          let booking2 :=
            match targetStatus with
            | cancelled | no_show =>
                Booking.with_updatedAt now (Booking.with_calendarEventId None booking1)
            | _ =>
              match find (fun item => String.eqb (Service.id item) (Booking.serviceId booking)
                                      && String.eqb (Service.workspaceId item) (ws_id workspace))
                         (services st1),
                    find (fun item => String.eqb (Contact.id item) (Booking.contactId booking)
                                      && String.eqb (Contact.workspaceId item) (ws_id workspace))
                         (contacts st1) with
              | Some _, Some _ => storeCalendarEvent calendarEventId now booking1
              | _, _ => booking1
              end
            end in
          let st2 := set_bookings
                       (updateFirst (isOwnBooking (ws_id workspace) id)
                                    (fun _ => booking2) (bookings st1)) st1 in
          (emitEvent st2 (createId 0%nat) now (ws_id workspace)
                     (statusEventType targetStatus) "booking" (Booking.id booking)
                     (PayloadStatus (Booking.status booking2)),
           Sent 200 booking2)
        end
    end
  end.

(** [DELETE /bookings/:id] *)
Definition deleteBooking (st : AppState) (createId : nat -> string) (now : Z)
    (workspace : Workspace) (id : string) : AppState * Reply Booking.t :=
  match find (isOwnBooking (ws_id workspace) id) (bookings st) with
  | None => (st, Failed 404 ErrBookingNotFound)
  | Some booking =>
    let booking' :=
      Booking.with_calendarEventId None
        (Booking.with_updatedAt now
           (Booking.with_deletedAt (Some now)
              (Booking.with_status cancelled booking))) in
    let st1 := set_bookings
                 (updateFirst (isOwnBooking (ws_id workspace) id)
                              (fun _ => booking') (bookings st)) st in
    (emitEvent st1 (createId 0%nat) now (ws_id workspace)
               "booking.updated" "booking" (Booking.id booking)
               (PayloadCancelled (Booking.status booking') now),
     Sent 200 booking')
  end.

(** [POST /bookings/:id/reschedule] *)
Definition rescheduleBooking (st : AppState) (createId : nat -> string) (now : Z)
    (workspace : Workspace) (id : string) (startsAtInput : string)
    (calendarEventId : option string) : AppState * Reply Booking.t :=
  match find (isOwnBooking (ws_id workspace) id) (bookings st) with
  | None => (st, Failed 404 ErrBookingNotFound)
  | Some booking =>
    match Booking.status booking with
    | completed | cancelled | no_show =>
        (st, Failed 409 (ErrCannotReschedule (Booking.status booking)))
    | _ =>
      if negb (truthy startsAtInput) then (st, Failed 400 ErrStartsAtRequired)
      else
      match parseDate env startsAtInput with
      | None => (st, Failed 400 ErrStartsAtNotIso)
      | Some startsAt =>
        match find (fun item => String.eqb (Service.id item) (Booking.serviceId booking)
                                && String.eqb (Service.workspaceId item) (ws_id workspace))
                   (services st) with
        | None => (st, Failed 404 ErrServiceNotFound)
        | Some service =>
          let endsAt := addMinutes startsAt (Service.durationMin service) in
          if negb (isWithinAvailabilityRule st (ws_id workspace) (Service.id service)
                     startsAt endsAt (timeZoneOf workspace) (Service.durationMin service))
          then (st, Failed 409 ErrOutsideAvailability)
          else if isBookingOverlapping st (ws_id workspace) startsAt endsAt
                    (Some (Booking.id booking))
          then (st, Failed 409 ErrSlotNotAvailable)
          else
            let booking1 := Booking.with_updatedAt now
                              (Booking.with_interval startsAt endsAt booking) in
            let booking2 :=
              match find (fun item => String.eqb (Contact.id item) (Booking.contactId booking)
                                      && String.eqb (Contact.workspaceId item) (ws_id workspace))
                         (contacts st) with
              | Some _ => storeCalendarEvent calendarEventId now booking1
              | None => booking1
              end in
            let st1 := set_bookings
                         (updateFirst (isOwnBooking (ws_id workspace) id)
                                      (fun _ => booking2) (bookings st)) st in
            (emitEvent st1 (createId 0%nat) now (ws_id workspace)
                       "booking.updated" "booking" (Booking.id booking)
                       (PayloadRescheduled startsAt endsAt),
             Sent 200 booking2)
        end
      end
    end
  end.

(** What [res.json] serialises when it is given a snapshot: the booking
    object as it is in [state.bookings] at that moment. *)
Record RenderedSnapshot := mkRendered {
  r_booking : option Booking.t;
  r_formRequest : option FormRequestInfo }.

Definition renderSnapshot (st : AppState) (snapshot : Snapshot) : RenderedSnapshot :=
  mkRendered
    (find (fun b => String.eqb (Booking.id b) (snap_booking snapshot)) (bookings st))
    (snap_formRequest snapshot).

Inductive BookingReply :=
| CreatedBooking (snapshot : RenderedSnapshot)
| ReplayedBooking (data : RenderedSnapshot).

(** The part of [POST /public/:workspaceId/bookings] after the idempotency
    check. *)
Definition commitPublicBooking (st : AppState) (createId : nat -> string) (now : Z)
    (workspace : Workspace) (idempotencyKey path requestHash : string)
    (body : BookingBody) (calendarEventId : option string)
    : AppState * Reply BookingReply :=
  match unexpectedKeysError env body with
  | Some msg => (st, Failed 400 (ErrSubmission msg))
  | None =>
  if negb (truthy (body_serviceId body)) || negb (truthy (body_startsAt body))
  then (st, Failed 400 ErrServiceAndStartRequired)
  else
  match submissionError env body with
  | Some msg => (st, Failed 400 (ErrSubmission msg))
  | None =>
  match find (fun item => String.eqb (Service.workspaceId item) (ws_id workspace)
                          && String.eqb (Service.id item) (body_serviceId body)
                          && Service.isActive item) (services st) with
  | None => (st, Failed 404 ErrServiceNotFound)
  | Some service =>
  match parseDate env (body_startsAt body) with
  | None => (st, Failed 400 ErrStartsAtNotIso)
  | Some bookingStartsAt =>
    let endsAt := addMinutes bookingStartsAt (Service.durationMin service) in
    if negb (isWithinAvailabilityRule st (ws_id workspace) (Service.id service)
               bookingStartsAt endsAt (timeZoneOf workspace)
               (Service.durationMin service))
    then (st, Failed 409 ErrOutsideAvailability)
    else if isBookingOverlapping st (ws_id workspace) bookingStartsAt endsAt None
    then (st, Failed 409 ErrSlotNotAvailable)
    else
      let '(st1, contact) :=
        findOrCreateContact st (createId 0%nat) (ws_id workspace)
          (submissionEmail env body) (submissionPhone env body) in
      let booking :=
        storeCalendarEvent calendarEventId now
          (Booking.mk (createId 1%nat) (ws_id workspace) (Contact.id contact)
             (Service.id service) bookingStartsAt endsAt pending None
             (submissionNotes env body) None now now) in
      let st2 := set_bookings (bookings st1 ++ [booking]) st1 in
      let st3 := emitEvent st2 (createId 2%nat) now (ws_id workspace)
                   "booking.created" "booking" (Booking.id booking)
                   (PayloadBookingCreated (Booking.startsAt booking)
                                          (Booking.serviceId booking)) in
      let st4 := enqueueJob st3 (createId 3%nat) now (ws_id workspace)
                   booking_reminder (Booking.startsAt booking - 24 * 60 * 60 * 1000)
                   (JobBooking (Booking.id booking)) (Some high) in
      let serviceTemplate :=
        match Service.bookingFormTemplateId service with
        | Some templateId =>
          if truthy templateId
          then find (fun template =>
                       String.eqb (FormTemplate.workspaceId template) (ws_id workspace)
                       && String.eqb (FormTemplate.id template) templateId)
                    (formTemplates st4)
          else None
        | None => None
        end in
      let '(st5, formRequest) :=
        match serviceTemplate with
        | Some template =>
          let '(st', request) :=
            createFormRequest st4 createId now (ws_id workspace) (Booking.id booking)
              (Contact.id contact) (FormTemplate.id template) (addHours now 48) in
          (emitEvent st' (createId 7%nat) now (ws_id workspace)
                     "form.requested" "form_request" (FormRequest.id request)
                     (PayloadFormRequested (Booking.id booking)),
           Some request)
        | None => (st4, None)
        end in
      let snapshot :=
        mkSnapshot (Booking.id booking)
          (option_map (fun r => mkFormInfo (FormRequest.id r) (FormRequest.status r)
                                           (FormRequest.publicToken r) (FormRequest.dueAt r))
                      formRequest) in
      let st6 := saveIdempotency st5 (createId 8%nat) now (ws_id workspace)
                   idempotencyKey "POST" path requestHash snapshot in
      (st6, Sent 201 (CreatedBooking (renderSnapshot st6 snapshot)))
  end end end end.

(** [POST /public/:workspaceId/bookings] *)
Definition createPublicBooking (st : AppState) (createId : nat -> string) (now : Z)
    (workspace : option Workspace) (idempotencyKeyHeader : option string)
    (path : string) (body : BookingBody) (calendarEventId : option string)
    : AppState * Reply BookingReply :=
  match workspace with
  | None => (st, Failed 404 ErrWorkspaceNotFound)
  | Some workspace =>
    match idempotencyKeyHeader with
    | None => (st, Failed 400 ErrIdempotencyKeyRequired)
    | Some idempotencyKey =>
      if negb (truthy idempotencyKey) then (st, Failed 400 ErrIdempotencyKeyRequired)
      else
        let requestHash := requestHashOf env body in
        match findIdempotency st (ws_id workspace) idempotencyKey "POST" path with
        | Some existing =>
          if negb (String.eqb (IdempotencyKey.requestHash existing) requestHash)
          then (st, Failed 409 ErrIdempotencyReuse)
          else (st, Sent 200 (ReplayedBooking
                                (renderSnapshot st (IdempotencyKey.responseSnapshot existing))))
        | None =>
          commitPublicBooking st createId now workspace idempotencyKey path
                              requestHash body calendarEventId
        end
    end
  end.

(** ** The worker *)

Definition payloadBookingId (p : JobPayload) : string :=
  match p with JobBooking b => b | _ => "" end.

Definition payloadFormRequestId (p : JobPayload) : string :=
  match p with JobFormRequest f => f | _ => "" end.

Definition FormRequest_overdue (now : Z) (r : FormRequest.t) : FormRequest.t :=
  FormRequest.mk (FormRequest.id r) (FormRequest.workspaceId r) (FormRequest.bookingId r)
    (FormRequest.contactId r) (FormRequest.templateId r) form_overdue
    (FormRequest.dueAt r) (FormRequest.publicToken r) now.

(** The body of the [try] block up to the point where the job is marked
    done: the state it leaves and the exception it throws, if any. *)
Definition runJobHandler (st : AppState) (createId : nat -> string) (now : Z)
    (job : ScheduledJob.t) : AppState * option string :=
  match ScheduledJob.jobType job with
  | booking_reminder =>
    let bookingId := payloadBookingId (ScheduledJob.payload job) in
    match find (fun item => String.eqb (Booking.id item) bookingId
                            && String.eqb (Booking.workspaceId item)
                                          (ScheduledJob.workspaceId job))
               (bookings st) with
    | Some booking =>
      match Booking.status booking with
      | cancelled | completed => (st, None)
      | _ =>
        match find (fun item => String.eqb (Contact.id item) (Booking.contactId booking)
                                && String.eqb (Contact.workspaceId item)
                                              (Booking.workspaceId booking))
                   (contacts st) with
        | Some contact =>
          match reminderError env (ScheduledJob.id job) with
          | Some e => (st, Some e)
          | None =>
            (emitEvent st (createId 0%nat) now (Booking.workspaceId booking)
                       "booking.reminder_due" "booking" (Booking.id booking)
                       (PayloadReminder (Booking.startsAt booking)),
             None)
          end
        | None => (st, None)
        end
      end
    | None => (st, None)
    end
  | form_overdue_check =>
    let formRequestId := payloadFormRequestId (ScheduledJob.payload job) in
    let isRequest := fun item =>
      String.eqb (FormRequest.id item) formRequestId
      && String.eqb (FormRequest.workspaceId item) (ScheduledJob.workspaceId job) in
    match find isRequest (formRequests st) with
    | Some formRequest =>
      match FormRequest.status formRequest with
      | form_pending =>
        if FormRequest.dueAt formRequest <=? now then
          let st1 := set_formRequests
                       (updateFirst isRequest (FormRequest_overdue now) (formRequests st)) st in
          let st2 := createAlert st1 (createId 1%nat) now
                       (FormRequest.workspaceId formRequest) "form.overdue" warning
                       (MsgFormOverdue (FormRequest.id formRequest)) in
          (emitEvent st2 (createId 2%nat) now (FormRequest.workspaceId formRequest)
                     "form.overdue" "form_request" (FormRequest.id formRequest)
                     (PayloadFormOverdue (FormRequest.dueAt formRequest)),
           None)
        else (st, None)
      | _ => (st, None)
      end
    | None => (st, None)
    end
  end.

Definition isJob (jobId : string) (item : ScheduledJob.t) : bool :=
  String.eqb (ScheduledJob.id item) jobId.

Definition processJob (st : AppState) (createId : nat -> string) (now : Z)
    (jobId : string) : AppState :=
  match find (isJob jobId) (scheduledJobs st) with
  | None => st
  | Some job =>
    match runJobHandler st createId now job with
    | (st1, None) =>
      set_scheduledJobs
        (updateFirst (isJob jobId) (ScheduledJob.settle done None now)
                     (scheduledJobs st1)) st1
    | (st1, Some lastError) =>
      let st2 := set_scheduledJobs
                   (updateFirst (isJob jobId)
                                (ScheduledJob.settle failed (Some lastError) now)
                                (scheduledJobs st1)) st1 in
      createAlert st2 (createId 3%nat) now (ScheduledJob.workspaceId job)
                  "job.failed" critical
                  (MsgJobFailed (ScheduledJob.jobType job) lastError)
    end
  end.

Definition priorityWeight (priority : JobPriority) : Z :=
  match priority with high => 0 | normal => 1 | low => 2 end.

(** [cmp(a, b) <= 0] for the comparator of the tick. *)
Definition jobBefore (a b : ScheduledJob.t) : bool :=
  let priorityDelta :=
    priorityWeight (ScheduledJob.priority a) - priorityWeight (ScheduledJob.priority b) in
  if negb (priorityDelta =? 0) then priorityDelta <=? 0
  else ScheduledJob.runAt a - ScheduledJob.runAt b <=? 0.

Definition isDue (now : Z) (job : ScheduledJob.t) : bool :=
  match ScheduledJob.status job with
  | queued => ScheduledJob.runAt job <=? now
  | _ => false
  end.

(** Each job object with its position in [state.scheduledJobs]: the
    position stands for the identity of the object. *)
Definition indexed {A} (l : list A) : list (nat * A) := combine (seq 0 (List.length l)) l.

Definition dueJobs (st : AppState) (now : Z) : list (nat * ScheduledJob.t) :=
  firstn 10
    (sortBy (fun a b => jobBefore (snd a) (snd b))
       (filter (fun e => isDue now (snd e)) (indexed (scheduledJobs st)))).

Fixpoint updateNth {A} (n : nat) (f : A -> A) (l : list A) : list A :=
  match l, n with
  | [], _ => []
  | x :: r, O => f x :: r
  | x :: r, S m => x :: updateNth m f r
  end.

(** One iteration of the [for] loop; [k] counts the iterations. *)
Definition workJob (createId : nat -> nat -> string) (now : Z)
    (acc : AppState * nat) (e : nat * ScheduledJob.t) : AppState * nat :=
  let '(st, k) := acc in
  let st1 := set_scheduledJobs
               (updateNth (fst e) (ScheduledJob.lock "local-worker-1" now)
                          (scheduledJobs st)) st in
  (processJob st1 (createId k) now (ScheduledJob.id (snd e)), S k).

Definition runWorkerTick (st : AppState) (createId : nat -> nat -> string) (now : Z)
    : AppState :=
  let st0 := cleanupExpiredRecords st now in
  fst (fold_left (workJob createId now) (dueJobs st0 now) (st0, 0%nat)).

(** ** routes/serviceRoutes.ts: the availability rule store *)

(** [payload.ruleType] as [resolveRuleType] tells its values apart. *)
Inductive RawRuleType :=
| RawMissing                       (* undefined or null *)
| RawEmpty                         (* the empty string *)
| RawKnown (t : AvailabilityRuleType)
| RawOther.                        (* anything else *)

(** [payload.slotIntervalMin] *)
Inductive RawInterval :=
| IntervalMissing                  (* undefined *)
| IntervalCleared                  (* null or the empty string *)
| IntervalValue (n : Z).

(** The body of the rule routes; a field that is absent, or that the
    route's pattern rejects, is [None]. *)
Record RulePayload := mkRulePayload {
  pl_serviceId : string;
  pl_ruleType : RawRuleType;
  pl_weekday : option Z;
  pl_date : option DateKey;
  pl_startTime : option TimeOfDay;
  pl_endTime : option TimeOfDay;
  pl_bufferMin : option Z;
  pl_slotIntervalMin : RawInterval;
  pl_isClosedAllDay : option bool }.

Record NormalizedAvailabilityRuleInput := mkNormalized {
  n_ruleType : AvailabilityRuleType;
  n_weekday : option Z;
  n_date : option DateKey;
  n_startTime : option TimeOfDay;
  n_endTime : option TimeOfDay;
  n_bufferMin : option Z;
  n_slotIntervalMin : option Z;
  n_isClosedAllDay : option bool }.

Definition resolveExistingRuleType (rule : AvailabilityRule.t) : AvailabilityRuleType :=
  match AvailabilityRule.ruleType rule with
  | Some t => t
  | None => weekly
  end.

Definition normalizeAvailabilityRule (rule : AvailabilityRule.t) : AvailabilityRule.t :=
  let normalizedType := resolveExistingRuleType rule in
  match normalizedType with
  | date_block =>
    AvailabilityRule.mk (AvailabilityRule.id rule) (AvailabilityRule.workspaceId rule)
      (AvailabilityRule.serviceId rule) (Some normalizedType)
      (AvailabilityRule.weekday rule) (AvailabilityRule.date rule)
      (AvailabilityRule.startTime rule) (AvailabilityRule.endTime rule)
      (AvailabilityRule.bufferMin rule) (AvailabilityRule.slotIntervalMin rule)
      (Some (match AvailabilityRule.isClosedAllDay rule with
             | Some b => b | None => false end))
      (AvailabilityRule.updatedAt rule)
  | _ =>
    AvailabilityRule.mk (AvailabilityRule.id rule) (AvailabilityRule.workspaceId rule)
      (AvailabilityRule.serviceId rule) (Some normalizedType)
      (AvailabilityRule.weekday rule) (AvailabilityRule.date rule)
      (AvailabilityRule.startTime rule) (AvailabilityRule.endTime rule)
      (Some (match AvailabilityRule.bufferMin rule with Some b => b | None => 0 end))
      (AvailabilityRule.slotIntervalMin rule)
      (AvailabilityRule.isClosedAllDay rule)
      (AvailabilityRule.updatedAt rule)
  end.

Definition orElse {A} (a b : option A) : option A :=
  match a with Some _ => a | None => b end.

Definition whenType (existing : option AvailabilityRule.t) (t : AvailabilityRuleType)
    {A} (field : AvailabilityRule.t -> option A) : option A :=
  match existing with
  | Some rule =>
    if AvailabilityRuleType_eqb (resolveExistingRuleType rule) t then field rule else None
  | None => None
  end.

(** The start and end time checks shared by the three kinds. *)
Definition parseTimes (payload : RulePayload) (existing : option AvailabilityRule.t)
    (t : AvailabilityRuleType) (formatError : string)
    : string + (TimeOfDay * TimeOfDay) :=
  match orElse (pl_startTime payload) (whenType existing t AvailabilityRule.startTime),
        orElse (pl_endTime payload) (whenType existing t AvailabilityRule.endTime) with
  | Some startTime, Some endTime =>
    if dateAtTimeIso2000 endTime <=? dateAtTimeIso2000 startTime
    then inl "startTime must be before endTime"
    else inr (startTime, endTime)
  | _, _ => inl formatError
  end.

(** The buffer and slot interval checks shared by weekly and override rules. *)
Definition parsePacing (payload : RulePayload) (existing : option AvailabilityRule.t)
    (t : AvailabilityRuleType) : string + (Z * option Z) :=
  let fallbackBuffer :=
    match whenType existing t AvailabilityRule.bufferMin with Some b => b | None => 0 end in
  let bufferMin :=
    match pl_bufferMin payload with Some b => b | None => fallbackBuffer end in
  if bufferMin <? 0 then inl "bufferMin must be >= 0"
  else
    match pl_slotIntervalMin payload with
    | IntervalCleared => inr (bufferMin, None)
    | IntervalValue parsed =>
      if parsed <=? 0 then inl "slotIntervalMin must be a positive integer or null"
      else inr (bufferMin, Some parsed)
    | IntervalMissing =>
      match whenType existing t AvailabilityRule.slotIntervalMin with
      | Some n => if 0 <? n then inr (bufferMin, Some n) else inr (bufferMin, None)
      | None => inr (bufferMin, None)
      end
    end.

Definition parseAvailabilityRuleInput (payload : RulePayload)
    (existing : option AvailabilityRule.t) : string + NormalizedAvailabilityRuleInput :=
  let existingType := option_map resolveExistingRuleType existing in
  let ruleType :=
    match pl_ruleType payload with
    | RawMissing => Some (match existingType with Some t => t | None => weekly end)
    | RawEmpty => Some weekly
    | RawKnown t => Some t
    | RawOther => None
    end in
  match ruleType with
  | None => inl "ruleType must be one of weekly, date_override, date_block"
  | Some weekly =>
    match orElse (pl_weekday payload) (whenType existing weekly AvailabilityRule.weekday) with
    | None => inl "weekday must be in range 0-6 for weekly rules"
    | Some weekday =>
      if (weekday <? 0) || (6 <? weekday)
      then inl "weekday must be in range 0-6 for weekly rules"
      else
        match parseTimes payload existing weekly
                "startTime and endTime must use HH:mm format" with
        | inl e => inl e
        | inr (startTime, endTime) =>
          match parsePacing payload existing weekly with
          | inl e => inl e
          | inr (bufferMin, slotIntervalMin) =>
            inr (mkNormalized weekly (Some weekday) None (Some startTime) (Some endTime)
                              (Some bufferMin) slotIntervalMin (Some false))
          end
        end
    end
  | Some ruleType =>
    let fallbackDate :=
      match existing with
      | Some rule =>
        match resolveExistingRuleType rule with
        | weekly => None
        | _ => AvailabilityRule.date rule
        end
      | None => None
      end in
    match orElse (pl_date payload) fallbackDate with
    | None => inl "date must use YYYY-MM-DD format for exception rules"
    | Some date =>
      match ruleType with
      | date_block =>
        let fallbackClosedAllDay :=
          match whenType existing date_block AvailabilityRule.isClosedAllDay with
          | Some b => b | None => false end in
        let isClosedAllDay :=
          match pl_isClosedAllDay payload with
          | Some b => b | None => fallbackClosedAllDay end in
        if isClosedAllDay
        then inr (mkNormalized date_block None (Some date) None None None None (Some true))
        else
          match parseTimes payload existing date_block
                  "startTime and endTime are required for partial date blocks and must use HH:mm format" with
          | inl e => inl e
          | inr (startTime, endTime) =>
            inr (mkNormalized date_block None (Some date) (Some startTime) (Some endTime)
                              None None (Some false))
          end
      | _ =>
        match parseTimes payload existing date_override
                "startTime and endTime must use HH:mm format" with
        | inl e => inl e
        | inr (startTime, endTime) =>
          match parsePacing payload existing date_override with
          | inl e => inl e
          | inr (bufferMin, slotIntervalMin) =>
            inr (mkNormalized ruleType None (Some date) (Some startTime) (Some endTime)
                              (Some bufferMin) slotIntervalMin (Some false))
          end
        end
      end
    end
  end.

Definition optZ_same (a b : option Z) : bool :=
  match a, b with
  | Some x, Some y => x =? y
  | None, None => true
  | _, _ => false
  end.

Definition optDate_same (a b : option DateKey) : bool :=
  match a, b with
  | Some x, Some y => DateKey_eqb x y
  | None, None => true
  | _, _ => false
  end.

Definition midnight : TimeOfDay := mkTime 0 0.

Definition timeOr0 (t : option TimeOfDay) : Z :=
  dateAtTimeIso2000 (match t with Some x => x | None => midnight end).

Definition isTrue (b : option bool) : bool :=
  match b with Some true => true | _ => false end.

Definition hasOverlappingRule (st : AppState) (workspaceId serviceId : string)
    (candidate : NormalizedAvailabilityRuleInput) (excludeRuleId : option string)
    : bool :=
  existsb (fun rawRule =>
    if negb (String.eqb (AvailabilityRule.workspaceId rawRule) workspaceId)
       || negb (String.eqb (AvailabilityRule.serviceId rawRule) serviceId)
       || isExcluded excludeRuleId (AvailabilityRule.id rawRule)
    then false
    else
      let rule := normalizeAvailabilityRule rawRule in
      if negb (AvailabilityRuleType_eqb (resolveExistingRuleType rule) (n_ruleType candidate))
      then false
      else
        let timesOverlap :=
          overlap (timeOr0 (n_startTime candidate)) (timeOr0 (n_endTime candidate))
                  (timeOr0 (AvailabilityRule.startTime rule))
                  (timeOr0 (AvailabilityRule.endTime rule)) in
        match n_ruleType candidate with
        | weekly =>
          if negb (optZ_same (AvailabilityRule.weekday rule) (n_weekday candidate))
          then false
          else timesOverlap
        | kind =>
          if negb (optDate_same (AvailabilityRule.date rule) (n_date candidate))
          then false
          else
            match kind with
            | date_block =>
              if isTrue (n_isClosedAllDay candidate)
                 || isTrue (AvailabilityRule.isClosedAllDay rule)
              then true
              else timesOverlap
            | _ => timesOverlap
            end
        end)
    (availabilityRules st).

Definition applyRuleShape (target : AvailabilityRule.t)
    (input : NormalizedAvailabilityRuleInput) : AvailabilityRule.t :=
  let weekday := match n_ruleType input with weekly => n_weekday input | _ => None end in
  let date := match n_ruleType input with weekly => None | _ => n_date input end in
  match n_ruleType input with
  | date_block =>
    let closed := isTrue (n_isClosedAllDay input) in
    AvailabilityRule.mk (AvailabilityRule.id target) (AvailabilityRule.workspaceId target)
      (AvailabilityRule.serviceId target) (Some (n_ruleType input)) weekday date
      (if closed then None else n_startTime input)
      (if closed then None else n_endTime input)
      None None (Some closed) (AvailabilityRule.updatedAt target)
  | _ =>
    AvailabilityRule.mk (AvailabilityRule.id target) (AvailabilityRule.workspaceId target)
      (AvailabilityRule.serviceId target) (Some (n_ruleType input)) weekday date
      (n_startTime input) (n_endTime input)
      (Some (match n_bufferMin input with Some b => b | None => 0 end))
      (n_slotIntervalMin input) (Some false) (AvailabilityRule.updatedAt target)
  end.

Definition AvailabilityRule_touch (now : Z) (r : AvailabilityRule.t) : AvailabilityRule.t :=
  AvailabilityRule.mk (AvailabilityRule.id r) (AvailabilityRule.workspaceId r)
    (AvailabilityRule.serviceId r) (AvailabilityRule.ruleType r)
    (AvailabilityRule.weekday r) (AvailabilityRule.date r)
    (AvailabilityRule.startTime r) (AvailabilityRule.endTime r)
    (AvailabilityRule.bufferMin r) (AvailabilityRule.slotIntervalMin r)
    (AvailabilityRule.isClosedAllDay r) now.

(** [POST /availability-rules] *)
Definition postAvailabilityRule (st : AppState) (newId : string) (now : Z)
    (workspace : Workspace) (payload : RulePayload)
    : AppState * Reply AvailabilityRule.t :=
  let serviceId := pl_serviceId payload in
  if negb (truthy serviceId) then (st, Failed 400 ErrServiceIdRequired)
  else
    match find (fun item => String.eqb (Service.id item) serviceId
                            && String.eqb (Service.workspaceId item) (ws_id workspace))
               (services st) with
    | None => (st, Failed 404 ErrServiceNotFound)
    | Some _ =>
      match parseAvailabilityRuleInput payload None with
      | inl e => (st, Failed 400 (ErrRuleValidation e))
      | inr value =>
        if hasOverlappingRule st (ws_id workspace) serviceId value None
        then (st, Failed 409 ErrOverlappingRule)
        else
          let rule :=
            applyRuleShape
              (AvailabilityRule.mk newId (ws_id workspace) serviceId
                 (Some (n_ruleType value)) None None None None None None None now)
              value in
          (set_availabilityRules (availabilityRules st ++ [rule]) st,
           Sent 201 (normalizeAvailabilityRule rule))
      end
    end.

(** [PATCH /availability-rules/:id] *)
Definition patchAvailabilityRule (st : AppState) (now : Z) (workspace : Workspace)
    (id : string) (payload : RulePayload) : AppState * Reply AvailabilityRule.t :=
  let isRule := fun item =>
    String.eqb (AvailabilityRule.id item) id
    && String.eqb (AvailabilityRule.workspaceId item) (ws_id workspace) in
  match find isRule (availabilityRules st) with
  | None => (st, Failed 404 ErrRuleNotFound)
  | Some rule =>
    match parseAvailabilityRuleInput payload (Some rule) with
    | inl e => (st, Failed 400 (ErrRuleValidation e))
    | inr value =>
      if hasOverlappingRule st (ws_id workspace) (AvailabilityRule.serviceId rule)
           value (Some (AvailabilityRule.id rule))
      then (st, Failed 409 ErrOverlappingRule)
      else
        let rule' := AvailabilityRule_touch now (applyRuleShape rule value) in
        (set_availabilityRules
           (updateFirst isRule (fun _ => rule') (availabilityRules st)) st,
         Sent 200 (normalizeAvailabilityRule rule'))
    end
  end.

End Core.


(** ** The booking routes: the read routes *)

(** [GET /public/:workspaceId/services] *)
Definition getPublicServices (st : AppState) (workspace : option Workspace)
    : Reply (list Service.t) :=
  match workspace with
  | None => Failed 404 ErrWorkspaceNotFound
  | Some workspace =>
    Sent 200 (filter (fun service =>
                        String.eqb (Service.workspaceId service) (ws_id workspace)
                        && Service.isActive service) (services st))
  end.

(** A booking as the staff routes answer it: spread, with its contact and
    its service looked up by id. *)
Record BookingView := mkView {
  view_booking : Booking.t;
  view_contact : option Contact.t;
  view_service : option Service.t }.

Definition viewOf (st : AppState) (booking : Booking.t) : BookingView :=
  mkView booking
    (find (fun contact => String.eqb (Contact.id contact) (Booking.contactId booking))
          (contacts st))
    (find (fun service => String.eqb (Service.id service) (Booking.serviceId booking))
          (services st)).

Section ReadRoutes.

Variable env : Collaborators.

(** One of the two date filters; [bound] is what [getOptionalString]
    answered, [keep] compares the start of a booking with the bound. *)
Definition filterByDate (bound : option string) (keep : Z -> Z -> bool)
    (data : list Booking.t) : list Booking.t :=
  match bound with
  | Some text =>
    if truthy text then
      match parseDate env text with
      | Some time => filter (fun booking => keep (Booking.startsAt booking) time) data
      | None => data
      end
    else data
  | None => data
  end.

(** [GET /bookings]; [status] is [req.query.status] when it is a string. *)
Definition getBookings (st : AppState) (workspace : Workspace)
    (status dateFrom dateTo : option string) : list BookingView :=
  let statusFilter :=
    match status with Some value => parseBookingStatus value | None => None end in
  let data := filter (fun booking =>
                        String.eqb (Booking.workspaceId booking) (ws_id workspace)
                        && negb (isDeleted booking)) (bookings st) in
  let data :=
    match statusFilter with
    | Some wanted =>
        filter (fun booking => BookingStatus_eqb (Booking.status booking) wanted) data
    | None => data
    end in
  let data := filterByDate dateFrom (fun startsAt fromTime => fromTime <=? startsAt) data in
  let data := filterByDate dateTo (fun startsAt toTime => startsAt <=? toTime) data in
  map (viewOf st)
      (sortBy (fun a b => Booking.startsAt a <=? Booking.startsAt b) data).

(** [GET /bookings/:id] *)
Definition getBooking (st : AppState) (workspace : Workspace) (id : string)
    : Reply BookingView :=
  match find (isOwnBooking (ws_id workspace) id) (bookings st) with
  | None => Failed 404 ErrBookingNotFound
  | Some booking => Sent 200 (viewOf st booking)
  end.

End ReadRoutes.

(** ** The store: the sweep of the idempotency records *)

(** [arr.splice(i, 1)] *)
Fixpoint removeAt {A} (i : nat) (l : list A) : list A :=
  match l, i with
  | [], _ => []
  | _ :: r, O => r
  | x :: r, S i' => x :: removeAt i' r
  end.

(** The [for] loop of [cleanupExpiredRecords] over [state.idempotencyKeys],
    from the last index down to 0, splicing in place; [n] is the number of
    indices still to visit, so the index visited is [n - 1]. *)
Fixpoint sweepIdempotencyKeys (n : nat) (now : Z) (keys : list IdempotencyKey.t)
    : list IdempotencyKey.t :=
  match n with
  | O => keys
  | S i =>
    sweepIdempotencyKeys i now
      (match nth_error keys i with
       | Some item =>
           if IdempotencyKey.expiresAt item <=? now then removeAt i keys else keys
       | None => keys
       end)
  end.

(** ** routes/serviceRoutes.ts: the delete routes and the rule listing *)

Definition set_services (l : list Service.t) (s : AppState) : AppState :=
  mkState (contacts s) l (availabilityRules s) (bookings s) (formTemplates s)
          (formRequests s) (inventoryItems s) (automationEvents s)
          (scheduledJobs s) (idempotencyKeys s) (alerts s).

(** [arr.findIndex(p)] together with the object at that index, which is
    what [arr.splice(index, 1)] answers; [None] stands for -1. *)
Fixpoint findIndex {A} (p : A -> bool) (l : list A) : option (nat * A) :=
  match l with
  | [] => None
  | x :: r =>
    if p x then Some (O, x)
    else match findIndex p r with
         | Some (i, y) => Some (S i, y)
         | None => None
         end
  end.

Definition isRuleOfServiceIn (workspaceId serviceId : string) (rule : AvailabilityRule.t)
    : bool :=
  String.eqb (AvailabilityRule.workspaceId rule) workspaceId
  && String.eqb (AvailabilityRule.serviceId rule) serviceId.

(** [DELETE /services/:id] *)
Definition deleteService (st : AppState) (workspace : Workspace) (id : string)
    : AppState * Reply unit :=
  match findIndex (fun item => String.eqb (Service.id item) id
                               && String.eqb (Service.workspaceId item) (ws_id workspace))
                  (services st) with
  | None => (st, Failed 404 ErrServiceNotFound)
  | Some (serviceIndex, removedService) =>
    let st1 := set_services (removeAt serviceIndex (services st)) st in
    (set_availabilityRules
       (filter (fun rule => negb (isRuleOfServiceIn (ws_id workspace)
                                    (Service.id removedService) rule))
               (availabilityRules st1)) st1,
     Sent 200 tt)
  end.

(** [GET /availability-rules]; [serviceId] is what [getOptionalString]
    answered. *)
Definition getAvailabilityRules (st : AppState) (workspace : Workspace)
    (serviceId : option string) : list AvailabilityRule.t :=
  let data := filter (fun rule => String.eqb (AvailabilityRule.workspaceId rule)
                                             (ws_id workspace))
                     (availabilityRules st) in
  let data :=
    match serviceId with
    | Some wanted =>
      if truthy wanted
      then filter (fun rule => String.eqb (AvailabilityRule.serviceId rule) wanted) data
      else data
    | None => data
    end in
  map normalizeAvailabilityRule data.

(** [DELETE /availability-rules/:id] *)
Definition deleteAvailabilityRule (st : AppState) (workspace : Workspace) (id : string)
    : AppState * Reply unit :=
  match findIndex (fun item => String.eqb (AvailabilityRule.id item) id
                               && String.eqb (AvailabilityRule.workspaceId item)
                                             (ws_id workspace))
                  (availabilityRules st) with
  | None => (st, Failed 404 ErrRuleNotFound)
  | Some (ruleIndex, removed) =>
    (set_availabilityRules (removeAt ruleIndex (availabilityRules st)) st, Sent 200 tt)
  end.
(** * Vocabulary of the properties *)

(** ** Bookings *)

(** What one booking contributes to the guard. *)
Definition conflictsWith (workspaceId : string) (startsAt endsAt : Z)
    (exclude : option string) (b : Booking.t) : Prop :=
  Booking.workspaceId b = workspaceId
  /\ Booking.status b <> cancelled /\ Booking.status b <> no_show
  /\ exclude <> Some (Booking.id b)
  /\ startsAt < Booking.endsAt b /\ Booking.startsAt b < endsAt.

(** The booking counts for double-booking: neither cancelled nor no-show. *)
Definition active (b : Booking.t) : Prop :=
  Booking.status b <> cancelled /\ Booking.status b <> no_show.

Definition overlaps (b1 b2 : Booking.t) : Prop :=
  Booking.startsAt b1 < Booking.endsAt b2 /\ Booking.startsAt b2 < Booking.endsAt b1.

(** No two distinct booking objects (two positions of [state.bookings]) of
    one tenant that both count overlap. *)
Definition noOverlap (l : list Booking.t) : Prop :=
  forall i j b1 b2,
    i <> j ->
    nth_error l i = Some b1 -> nth_error l j = Some b2 ->
    Booking.workspaceId b1 = Booking.workspaceId b2 ->
    active b1 -> active b2 ->
    ~ overlaps b1 b2.

(** The states that the booking commands produce from the empty store.
    [createId()] answers an id that no stored booking has; the routes of the
    rest of the system (services, rules, inventory, contacts, forms, the
    worker) leave [state.bookings] as it is. *)
Inductive reachable (env : Collaborators) : AppState -> Prop :=
| reach_base : reachable env baseState
| reach_elsewhere st st' :
    reachable env st -> bookings st' = bookings st -> reachable env st'
| reach_create st createId now workspace key path body calendarEventId :
    reachable env st ->
    ~ In (createId 1%nat) (map Booking.id (bookings st)) ->
    reachable env
      (fst (createPublicBooking env st createId now workspace key path body
              calendarEventId))
| reach_reschedule st createId now workspace id startsAtInput calendarEventId :
    reachable env st ->
    reachable env
      (fst (rescheduleBooking env st createId now workspace id startsAtInput
              calendarEventId))
| reach_status st createId now workspace id rawStatus calendarEventId :
    reachable env st ->
    reachable env
      (fst (patchBookingStatus env st createId now workspace id rawStatus
              calendarEventId))
| reach_delete st createId now workspace id :
    reachable env st ->
    reachable env (fst (deleteBooking env st createId now workspace id)).

(** The transition table of the booking lifecycle, as a relation. *)
Definition allowedTransition (from to : BookingStatus) : Prop :=
  (from = pending /\ (to = confirmed \/ to = cancelled \/ to = no_show))
  \/ (from = confirmed /\ (to = completed \/ to = cancelled \/ to = no_show)).

Definition terminal (s : BookingStatus) : Prop :=
  s = completed \/ s = no_show \/ s = cancelled.

(** ** Availability *)

(** Which stored rules a resolution input selects, kind by kind. *)
Definition isRuleOfService (input : ResolveInput) (rule : AvailabilityRule.t) : bool :=
  String.eqb (AvailabilityRule.workspaceId rule) (in_workspaceId input)
  && String.eqb (AvailabilityRule.serviceId rule) (in_serviceId input).

Definition appliesAsOverride (input : ResolveInput) (rule : AvailabilityRule.t) : bool :=
  isRuleOfService input rule
  && AvailabilityRuleType_eqb (resolveRuleType rule) date_override
  && optDate_eqb (AvailabilityRule.date rule) (in_dateKey input).

Definition appliesAsWeekly (input : ResolveInput) (rule : AvailabilityRule.t) : bool :=
  isRuleOfService input rule
  && AvailabilityRuleType_eqb (resolveRuleType rule) weekly
  && optZ_eqb (AvailabilityRule.weekday rule) (in_weekday input).

(** The windows that a list of rules yields on the date of the input; a
    rule without both times, or whose end instant is not after its start
    instant, yields none. *)
Definition windowsOfRules (env : Collaborators) (input : ResolveInput)
    (rules : list AvailabilityRule.t) : list AvailabilityWindow :=
  flat_map
    (fun rule =>
       match toAvailabilityWindow env (in_dateKey input) (in_timeZone input) rule
               (defaultStepOf input rule) with
       | Some w => [w]
       | None => []
       end)
    rules.

Definition overrideWindowsOn (env : Collaborators) (st : AppState) (input : ResolveInput)
    : list AvailabilityWindow :=
  windowsOfRules env input (filter (appliesAsOverride input) (availabilityRules st)).

Definition weeklyWindowsOn (env : Collaborators) (st : AppState) (input : ResolveInput)
    : list AvailabilityWindow :=
  windowsOfRules env input (filter (appliesAsWeekly input) (availabilityRules st)).

(** The slot lies inside the window. *)
Definition slotInside (slot : Slot) (w : AvailabilityWindow) : Prop :=
  startIso w <= slot_startsAt slot /\ slot_endsAt slot <= endIso w.

(** ** The rule store *)

(** A stored rule that is a valid weekly rule for [weekday], open from
    [opens] to [closes]. *)
Definition validWeekly (r : AvailabilityRule.t) (weekday : Z) (opens closes : TimeOfDay)
    : Prop :=
  resolveExistingRuleType r = weekly
  /\ AvailabilityRule.weekday r = Some weekday
  /\ AvailabilityRule.startTime r = Some opens
  /\ AvailabilityRule.endTime r = Some closes
  /\ dateAtTimeIso2000 opens < dateAtTimeIso2000 closes.

(** A parsed input that is a valid weekly rule. *)
Definition validWeeklyInput (v : NormalizedAvailabilityRuleInput) (weekday : Z)
    (opens closes : TimeOfDay) : Prop :=
  n_ruleType v = weekly
  /\ n_weekday v = Some weekday
  /\ n_startTime v = Some opens
  /\ n_endTime v = Some closes
  /\ dateAtTimeIso2000 opens < dateAtTimeIso2000 closes.

(** Half-open overlap of two times-of-day intervals. *)
Definition timesOverlap (opensA closesA opensB closesB : TimeOfDay) : Prop :=
  dateAtTimeIso2000 opensA < dateAtTimeIso2000 closesB
  /\ dateAtTimeIso2000 opensB < dateAtTimeIso2000 closesA.

Definition isRuleOf (workspaceId id : string) (item : AvailabilityRule.t) : bool :=
  String.eqb (AvailabilityRule.id item) id
  && String.eqb (AvailabilityRule.workspaceId item) workspaceId.

Definition isServiceIn (workspaceId serviceId : string) (item : Service.t) : bool :=
  String.eqb (Service.id item) serviceId
  && String.eqb (Service.workspaceId item) workspaceId.

(** ** Inventory *)

(** The predicate with which the inventory step looks up the service. *)
Definition isServiceOf (workspaceId : string) (booking : Booking.t) (item : Service.t)
    : bool :=
  String.eqb (Service.id item) (Booking.serviceId booking)
  && String.eqb (Service.workspaceId item) workspaceId.

(** The inventory after the deduction loop, alerts and events left out. *)
Definition consumeItems (now : Z) (workspaceId : string)
    (rules : list Service.InventoryRule) (items : list InventoryItem.t)
    : list InventoryItem.t :=
  fold_left
    (fun items rule =>
       match find (isInventoryItem workspaceId (Service.itemId rule)) items with
       | None => items
       | Some item =>
         updateFirst (isInventoryItem workspaceId (Service.itemId rule))
           (fun _ => InventoryItem.consume (Service.quantity rule) now item) items
       end)
    rules items.

(** The total quantity that a consumption list configures for an item. *)
Definition demand (itemId : string) (rules : list Service.InventoryRule) : Z :=
  fold_right
    (fun rule acc =>
       if String.eqb (Service.itemId rule) itemId then Service.quantity rule + acc else acc)
    0 rules.

(** Every entry whose item exists finds at least its quantity on hand. *)
Definition sufficient (st : AppState) (workspaceId : string)
    (rules : list Service.InventoryRule) : Prop :=
  forall rule item,
    In rule rules ->
    find (isInventoryItem workspaceId (Service.itemId rule)) (inventoryItems st) = Some item ->
    Service.quantity rule <= InventoryItem.quantityOnHand item.

(** The entry names an item that the tenant's inventory does not hold. *)
Definition unknownItem (st : AppState) (workspaceId : string)
    (rule : Service.InventoryRule) : Prop :=
  find (isInventoryItem workspaceId (Service.itemId rule)) (inventoryItems st) = None.

(** ** Public booking creation *)

(** The predicate with which the public booking route looks up the service. *)
Definition isActiveServiceIn (workspaceId serviceId : string) (item : Service.t) : bool :=
  String.eqb (Service.workspaceId item) workspaceId
  && String.eqb (Service.id item) serviceId
  && Service.isActive item.

(** What a committed public booking leaves behind. *)
Definition committed (env : Collaborators) (st : AppState) (createId : nat -> string) (now : Z)
    (workspace : Workspace) (key path hash : string) (body : BookingBody)
    (st' : AppState) (reply : BookingReply) : Prop :=
  exists service startsAt booking snapshot,
    find (isActiveServiceIn (ws_id workspace) (body_serviceId body)) (services st)
      = Some service
    /\ parseDate env (body_startsAt body) = Some startsAt
    /\ isBookingOverlapping st (ws_id workspace) startsAt
         (addMinutes startsAt (Service.durationMin service)) None = false
    /\ Booking.id booking = createId 1%nat
    /\ Booking.workspaceId booking = ws_id workspace
    /\ Booking.status booking = pending
    /\ Booking.startsAt booking = startsAt
    /\ Booking.endsAt booking = addMinutes startsAt (Service.durationMin service)
    /\ Booking.deletedAt booking = None
    /\ bookings st' = bookings st ++ [booking]
    /\ inventoryItems st' = inventoryItems st
    /\ idempotencyKeys st'
       = idempotencyKeys st
         ++ [IdempotencyKey.mk (createId 8%nat) (ws_id workspace) key "POST" path hash
                               snapshot (addDays now 1)]
    /\ snap_booking snapshot = createId 1%nat
    /\ reply = CreatedBooking (renderSnapshot st' snapshot).

(** ** The worker *)

(** The order of the worker's comparator: priority first, due instant next. *)
Definition jobOrder (a b : ScheduledJob.t) : Prop :=
  priorityWeight (ScheduledJob.priority a) < priorityWeight (ScheduledJob.priority b)
  \/ (priorityWeight (ScheduledJob.priority a) = priorityWeight (ScheduledJob.priority b)
      /\ ScheduledJob.runAt a <= ScheduledJob.runAt b).

(** The job is queued and due. *)
Definition eligible (now : Z) (j : ScheduledJob.t) : Prop :=
  ScheduledJob.status j = queued /\ ScheduledJob.runAt j <= now.

(** The exception that the handler of a job throws in a state, if any; it
    depends on the bookings and contacts only. *)
Definition handlerError (env : Collaborators) (st : AppState) (job : ScheduledJob.t)
    : option string :=
  snd (runJobHandler env st (fun _ => "") 0 job).

(** The candidates of a tick before the cut to ten. *)
Definition sortedDue (st : AppState) (now : Z) : list (nat * ScheduledJob.t) :=
  sortBy (fun a b => jobBefore (snd a) (snd b))
         (filter (fun e => isDue now (snd e)) (indexed (scheduledJobs st))).

(** * A concrete platform and concrete data for the examples *)

(** The civil date of a day number (the inverse of [daysFromCivil]). *)
Definition civilFromDays (z : Z) : Z * Z * Z :=
  let z := z + 719468 in
  let era := z / 146097 in
  let doe := z - era * 146097 in
  let yoe := (doe - doe / 1460 + doe / 36524 - doe / 146096) / 365 in
  let doy := doe - (365 * yoe + yoe / 4 - yoe / 100) in
  let mp := (5 * doy + 2) / 153 in
  let d := doy - (153 * mp + 2) / 5 + 1 in
  let m := if mp <? 10 then mp + 3 else mp - 9 in
  (if m <=? 2 then yoe + era * 400 + 1 else yoe + era * 400, m, d).

(** The parts of the civil time that is [offsetMs] ahead of UTC at [t]. *)
Definition partsAtOffset (offsetMs t : Z) : Parts :=
  let local := t + offsetMs in
  let '(y, m, d) := civilFromDays (local / 86400000) in
  let ms := local mod 86400000 in
  mkParts y m d (ms / 3600000) ((ms mod 3600000) / 60000) ((ms mod 60000) / 1000).

(** 2024-03-10T07:00:00Z, when New York went from UTC-5 to UTC-4. *)
Definition springForward2024 : Z := 1710054000000.

(** The offsets of the two zones of the examples, New York around its 2024
    spring transition. *)
Definition zoneOffsetMs (timeZone : string) (t : Z) : Z :=
  if String.eqb timeZone "America/New_York"
  then if t <? springForward2024 then -18000000 else -14400000
  else 0.

Definition showZ (z : Z) : string := NilZero.string_of_int (Z.to_int z).

Definition showStatus (s : BookingStatus) : string :=
  match s with
  | pending => "pending" | confirmed => "confirmed" | completed => "completed"
  | no_show => "no_show" | cancelled => "cancelled"
  end.

Definition showPayload (p : EventPayload) : string :=
  match p with
  | PayloadBookingCreated s sid => String.append (showZ s) (String.append "," sid)
  | PayloadStatus s => showStatus s
  | PayloadCancelled s t => String.append (showStatus s) (String.append "," (showZ t))
  | PayloadRescheduled s e => String.append (showZ s) (String.append "," (showZ e))
  | PayloadLowStock q t => String.append (showZ q) (String.append "," (showZ t))
  | PayloadReminder s => showZ s
  | PayloadFormRequested b => b
  | PayloadFormOverdue d => showZ d
  end.

(** Instants of Monday 2024-03-11 (UTC) that the examples submit. *)
Definition sampleParseDate (s : string) : option Z :=
  if String.eqb s "2024-03-11T09:00:00.000Z" then Some (dateUTC 2024 2 11 9 0 0)
  else if String.eqb s "2024-03-11T09:15:00.000Z" then Some (dateUTC 2024 2 11 9 15 0)
  else if String.eqb s "2024-03-11T09:30:00.000Z" then Some (dateUTC 2024 2 11 9 30 0)
  else if String.eqb s "2024-03-11T10:00:00.000Z" then Some (dateUTC 2024 2 11 10 0 0)
  else None.

(** A platform for the examples: the two zones above, digests that spell
    out what they digest, and collaborators that never fail. *)
Definition sampleEnv : Collaborators :=
  mkCollaborators
    (fun t timeZone => partsAtOffset (zoneOffsetMs timeZone t) t)
    (fun eventType entityType entityId payload =>
       String.append eventType
         (String.append "|" (String.append entityType
            (String.append "|" (String.append entityId
               (String.append "|" (showPayload payload)))))))
    (fun body => String.append (body_serviceId body)
                   (String.append "|" (body_startsAt body)))
    sampleParseDate
    (fun _ => None) (fun _ => None)
    (fun _ => Some "ann@example.org") (fun _ => None) (fun _ => None)
    (fun _ => None).

Definition sampleIds (n : nat) : string := String.append "id-" (showZ (Z.of_nat n)).

Definition sampleIds2 (k n : nat) : string :=
  String.append "id-" (String.append (showZ (Z.of_nat k))
    (String.append "-" (showZ (Z.of_nat n)))).

Definition clinic : Workspace := mkWorkspace "w1" "UTC".

Definition massage : Service.t :=
  Service.mk "s1" "w1" 30 [Service.mkRule "i1" 2] None true.

Definition oil : InventoryItem.t := InventoryItem.mk "i1" "w1" "oil" 6 5 0.

Definition ann : Contact.t := Contact.mk "c1" "w1" (Some "ann@example.org") None.

Definition monday : DateKey := mkDate 2024 3 11.

(** Mondays 09:00 to 17:00. *)
Definition mondays : AvailabilityRule.t :=
  AvailabilityRule.mk "r1" "w1" "s1" (Some weekly) (Some 1) None
    (Some (mkTime 9 0)) (Some (mkTime 17 0)) (Some 0) None (Some false) 0.

Definition nineOClock : Z := dateUTC 2024 2 11 9 0 0.

Definition bookingAt (id : string) (status : BookingStatus) (startsAt : Z) : Booking.t :=
  Booking.mk id "w1" "c1" "s1" startsAt (addMinutes startsAt 30) status
             None None None 0 0.

(** Two confirmed bookings, back to back, and six units of oil. *)
Definition sampleState : AppState :=
  mkState [ann] [massage] [mondays]
    [bookingAt "b1" confirmed nineOClock;
     bookingAt "b2" confirmed (addMinutes nineOClock 30)]
    [] [] [oil] [] [] [] [].

(** The same with the first booking still pending. *)
Definition pendingState : AppState :=
  set_bookings
    [bookingAt "b1" pending nineOClock;
     bookingAt "b2" confirmed (addMinutes nineOClock 30)]
    sampleState.


(** A service whose consumption list also names an item nobody stocks. *)
Definition ghostRule : Service.InventoryRule := Service.mkRule "ghost" 1.

Definition ghostState : AppState :=
  mkState [ann] [Service.mk "s1" "w1" 30 [Service.mkRule "i1" 2; ghostRule] None true]
    [mondays] (bookings sampleState) [] [] [oil] [] [] [] [].

(** The override of the specification's example: Monday 2024-03-11, 09:00
    to 12:00, next to the weekly rule 09:00 to 17:00. *)
Definition mondayMorning : AvailabilityRule.t :=
  AvailabilityRule.mk "r2" "w1" "s1" (Some date_override) None (Some monday)
    (Some (mkTime 9 0)) (Some (mkTime 12 0)) (Some 0) None (Some false) 0.

Definition overrideState : AppState :=
  set_availabilityRules [mondays; mondayMorning] sampleState.

Definition mondayInput : ResolveInput :=
  mkResolveInput "w1" "s1" monday 1 "UTC" 30.

(** A New York practice, open on Sundays from 09:00 to 17:00. *)
Definition nyClinic : Workspace := mkWorkspace "w2" "America/New_York".

Definition sundays : AvailabilityRule.t :=
  AvailabilityRule.mk "r3" "w2" "s2" (Some weekly) (Some 0) None
    (Some (mkTime 9 0)) (Some (mkTime 17 0)) (Some 0) None (Some false) 0.

Definition nyState : AppState :=
  mkState [] [Service.mk "s2" "w2" 60 [] None true] [sundays] [] [] [] [] [] [] [] [].

(** Sunday 2024-03-10, the day of the spring transition. *)
Definition transitionSunday : DateKey := mkDate 2024 3 10.

(** An override for that Sunday from 01:30 to 02:00 local time. *)
Definition nightOverride : RulePayload :=
  mkRulePayload "s2" (RawKnown date_override) None (Some transitionSunday)
    (Some (mkTime 1 30)) (Some (mkTime 2 0)) None IntervalMissing None.

Definition sundayInput : ResolveInput :=
  mkResolveInput "w2" "s2" transitionSunday 0 "America/New_York" 60.

(** A request for Monday 10:00, which [sampleState] leaves free. *)
Definition tenOClockBody : BookingBody :=
  mkBody "s1" "2024-03-11T10:00:00.000Z" [("email", "ann@example.org")].

Definition bookingsPath : string := "/public/w1/bookings".

(** The practice before any booking. *)
Definition openState : AppState :=
  mkState [ann] [massage] [mondays] [] [] [] [oil] [] [] [] [].

Definition nineOClockBody : BookingBody :=
  mkBody "s1" "2024-03-11T09:00:00.000Z" [("email", "ann@example.org")].

(** A request that starts a quarter past nine. *)
Definition quarterPastBody : BookingBody :=
  mkBody "s1" "2024-03-11T09:15:00.000Z" [("email", "ann@example.org")].

(** The store after two public bookings, for 10:00 and for 09:00. *)
Definition twoBookings : AppState :=
  fst (createPublicBooking sampleEnv
         (fst (createPublicBooking sampleEnv openState sampleIds 9 (Some clinic)
                 (Some "key-1") bookingsPath tenOClockBody None))
         (sampleIds2 1) 10 (Some clinic) (Some "key-2") bookingsPath nineOClockBody None).

(** Three jobs: a due reminder of normal priority, a due reminder of high
    priority that has waited less long, and a reminder that is not due. *)
Definition reminderOf (id bookingId : string) (priority : JobPriority) (runAt : Z)
    : ScheduledJob.t :=
  ScheduledJob.mk id "w1" booking_reminder runAt queued priority
                  (JobBooking bookingId) 0 None None None 0.

Definition jobState : AppState :=
  set_scheduledJobs
    [reminderOf "j1" "b1" normal 100;
     reminderOf "j2" "b2" high 200;
     reminderOf "j3" "b1" high 5000]
    sampleState.

(** * Vocabulary of the further properties *)

(** ** The slot listing *)

(** The resolution input that the slot listing builds for a date. *)
Definition slotsInput (env : Collaborators) (workspace : Workspace)
    (service : Service.t) (date : DateKey) : ResolveInput :=
  mkResolveInput (ws_id workspace) (Service.id service) date
    (weekdayInTimeZone env
       (dateAtTimeInTimeZoneIso env date noon (timeZoneOf workspace))
       (timeZoneOf workspace))
    (timeZoneOf workspace) (Service.durationMin service).

(** The rule closes the whole date [d] for the service. *)
Definition closesDate (workspaceId serviceId : string) (d : DateKey)
    (rule : AvailabilityRule.t) : Prop :=
  AvailabilityRule.workspaceId rule = workspaceId
  /\ AvailabilityRule.serviceId rule = serviceId
  /\ resolveRuleType rule = date_block
  /\ AvailabilityRule.date rule = Some d
  /\ AvailabilityRule.isClosedAllDay rule = Some true.

(** The [k]-th grid point of a window. *)
Definition gridPoint (w : AvailabilityWindow) (k : nat) : Z :=
  startIso w + Z.of_nat k * (stepMin w * 60000).

(** What the loops keep true of the slots collected so far. *)
Definition slotsWellFormed (st : AppState) (w : string) (dur : Z)
    (resolved : ResolvedAvailability) (acc : list Slot * list Z) : Prop :=
  snd acc = map slot_startsAt (fst acc)
  /\ NoDup (snd acc)
  /\ forall slot, In slot (fst acc) ->
       slot_endsAt slot = addMinutes (slot_startsAt slot) dur
       /\ isBookingOverlapping st w (slot_startsAt slot) (slot_endsAt slot) None = false
       /\ isBlockedByException (slot_startsAt slot) (slot_endsAt slot) resolved = false.


(** ** Sample data of the further properties *)

(** What is left of Monday 2024-03-11 in [overrideState]: the morning of the
    override less the two bookings at 09:00 and 09:30. *)
Definition mondaySlots : list Slot :=
  map (fun k => mkSlot (addMinutes nineOClock (30 * k)) (addMinutes nineOClock (30 * k + 30)))
      [2; 3; 4; 5].

(** Monday 2024-03-11 closed for the whole day. *)
Definition holiday : AvailabilityRule.t :=
  AvailabilityRule.mk "r4" "w1" "s1" (Some date_block) None (Some monday)
    None None None None (Some true) 0.

Definition holidayState : AppState :=
  set_availabilityRules [mondays; mondayMorning; holiday] sampleState.

(** ** The booking commands *)

(** The reminder that booking creation queues for a booking. *)
Definition reminderFor (id : string) (now : Z) (booking : Booking.t) : ScheduledJob.t :=
  ScheduledJob.mk id (Booking.workspaceId booking) booking_reminder
    (Booking.startsAt booking - 24 * 60 * 60 * 1000) queued high
    (JobBooking (Booking.id booking)) 0 None None None now.

(** The store holds an event of that kind about that entity. *)
Definition recorded (st : AppState) (workspaceId eventType entityType entityId : string)
    : Prop :=
  exists event,
    In event (automationEvents st)
    /\ AutomationEvent.workspaceId event = workspaceId
    /\ AutomationEvent.eventType event = eventType
    /\ AutomationEvent.entityType event = entityType
    /\ AutomationEvent.entityId event = entityId.

(** The two booking objects are one appointment: same id, tenant, contact,
    service, notes and creation instant. *)
Definition sameBookingIdentity (b b' : Booking.t) : Prop :=
  Booking.id b' = Booking.id b
  /\ Booking.workspaceId b' = Booking.workspaceId b
  /\ Booking.contactId b' = Booking.contactId b
  /\ Booking.serviceId b' = Booking.serviceId b
  /\ Booking.notes b' = Booking.notes b
  /\ Booking.createdAt b' = Booking.createdAt b.

(** [l'] is [l] with the object at one position, [old], changed to [new]. *)
Definition replacedAt {A} (l l' : list A) (old new : A) : Prop :=
  exists n,
    nth_error l n = Some old
    /\ nth_error l' n = Some new
    /\ forall m, m <> n -> nth_error l' m = nth_error l m.

(** ** The read routes *)

(** The date bound, when it is given and parses, admits the start. *)
Definition admits (env : Collaborators) (bound : option string) (keep : Z -> Z -> Prop)
    (startsAt : Z) : Prop :=
  forall text time,
    bound = Some text -> text <> "" -> parseDate env text = Some time ->
    keep startsAt time.

(** The booking is one that [GET /bookings] is asked for: of the tenant,
    not deleted, of the status asked for when that is a status, and inside
    the date bounds that are given and parse. *)
Definition wanted (env : Collaborators) (workspace : Workspace)
    (status dateFrom dateTo : option string) (b : Booking.t) : Prop :=
  Booking.workspaceId b = ws_id workspace
  /\ Booking.deletedAt b = None
  /\ (forall value s, status = Some value -> parseBookingStatus value = Some s ->
                      Booking.status b = s)
  /\ admits env dateFrom (fun startsAt fromTime => fromTime <= startsAt) (Booking.startsAt b)
  /\ admits env dateTo (fun startsAt toTime => startsAt <= toTime) (Booking.startsAt b).

(** The first public booking of the open practice, for Monday 10:00. *)
Definition firstBooking : AppState * Reply BookingReply :=
  createPublicBooking sampleEnv openState sampleIds 9 (Some clinic) (Some "key-1")
    bookingsPath tenOClockBody None.

Definition snapshotOf (reply : Reply BookingReply) : RenderedSnapshot :=
  match reply with
  | Sent _ (CreatedBooking snapshot) => snapshot
  | Sent _ (ReplayedBooking data) => data
  | Failed _ _ => mkRendered None None
  end.

Definition bodyOf {A} (fallback : A) (reply : Reply A) : A :=
  match reply with
  | Sent _ body => body
  | Failed _ _ => fallback
  end.

(** Staff commands on the first booking of [pendingState] and of
    [sampleState]. *)
Definition confirmFirst : AppState * Reply Booking.t :=
  patchBookingStatus sampleEnv pendingState sampleIds 1 clinic "b1" "confirmed" None.

Definition moveFirst : AppState * Reply Booking.t :=
  rescheduleBooking sampleEnv pendingState sampleIds 1 clinic "b1"
    "2024-03-11T10:00:00.000Z" None.

Definition deleteFirst : AppState * Reply Booking.t :=
  deleteBooking sampleEnv sampleState sampleIds 1 clinic "b1".

(** ** The store *)

(** What [emitEvent] compares to tell whether an event is already stored. *)
Definition eventKey (event : AutomationEvent.t)
    : string * string * string * string * string :=
  (AutomationEvent.workspaceId event, AutomationEvent.eventType event,
   AutomationEvent.entityType event, AutomationEvent.entityId event,
   AutomationEvent.eventHash event).

(** What [findIdempotency] looks a record up by. *)
Definition ledgerKey (workspaceId key method path : string)
    : string * string * string * string :=
  (workspaceId, key, method, path).

(** ** The worker *)

(** The store after a job has been marked done, everything else as in [s]. *)
Definition settledDone (now : Z) (jobId : string) (s : AppState) : AppState :=
  set_scheduledJobs
    (updateFirst (isJob jobId) (ScheduledJob.settle done None now) (scheduledJobs s)) s.

(** The booking a reminder job is about, as the handler looks it up. *)
Definition bookingOfReminder (st : AppState) (job : ScheduledJob.t) : option Booking.t :=
  find (fun item => String.eqb (Booking.id item) (payloadBookingId (ScheduledJob.payload job))
                    && String.eqb (Booking.workspaceId item) (ScheduledJob.workspaceId job))
       (bookings st).

(** The form request an overdue check is about. *)
Definition isRequestOfCheck (job : ScheduledJob.t) (item : FormRequest.t) : bool :=
  String.eqb (FormRequest.id item) (payloadFormRequestId (ScheduledJob.payload job))
  && String.eqb (FormRequest.workspaceId item) (ScheduledJob.workspaceId job).

(** ** The availability rule store *)

(** Half-open overlap of the times of day of two stored rules; a missing
    time counts as midnight, as in the route's check. *)
Definition ruleTimesOverlap (a b : AvailabilityRule.t) : Prop :=
  timeOr0 (AvailabilityRule.startTime a) < timeOr0 (AvailabilityRule.endTime b)
  /\ timeOr0 (AvailabilityRule.startTime b) < timeOr0 (AvailabilityRule.endTime a).

(** Two stored rules that the rule routes never let stand side by side:
    same tenant, service and kind; for weekly rules the same weekday and
    overlapping times; for overrides the same date and overlapping times;
    for blocks the same date and either one closing the day or overlapping
    times. *)
Definition rulesClash (a b : AvailabilityRule.t) : Prop :=
  AvailabilityRule.workspaceId a = AvailabilityRule.workspaceId b
  /\ AvailabilityRule.serviceId a = AvailabilityRule.serviceId b
  /\ resolveRuleType a = resolveRuleType b
  /\ match resolveRuleType a with
     | weekly =>
         optZ_same (AvailabilityRule.weekday a) (AvailabilityRule.weekday b) = true
         /\ ruleTimesOverlap a b
     | date_override =>
         optDate_same (AvailabilityRule.date a) (AvailabilityRule.date b) = true
         /\ ruleTimesOverlap a b
     | date_block =>
         optDate_same (AvailabilityRule.date a) (AvailabilityRule.date b) = true
         /\ (AvailabilityRule.isClosedAllDay a = Some true
             \/ AvailabilityRule.isClosedAllDay b = Some true
             \/ ruleTimesOverlap a b)
     end.

(** The rule store is in order: rule ids are distinct and no two rules
    clash. *)
Definition rulesInOrder (l : list AvailabilityRule.t) : Prop :=
  NoDup (map AvailabilityRule.id l)
  /\ forall a b, In a l -> In b l ->
       AvailabilityRule.id a <> AvailabilityRule.id b -> ~ rulesClash a b.

(** What the rule routes store, kind by kind. *)
Definition hasTimes (r : AvailabilityRule.t) : Prop :=
  exists opens closes,
    AvailabilityRule.startTime r = Some opens
    /\ AvailabilityRule.endTime r = Some closes
    /\ dateAtTimeIso2000 opens < dateAtTimeIso2000 closes.

Definition hasPacing (r : AvailabilityRule.t) : Prop :=
  (exists buffer, AvailabilityRule.bufferMin r = Some buffer /\ 0 <= buffer)
  /\ forall step, AvailabilityRule.slotIntervalMin r = Some step -> 0 < step.

Definition wellFormedRule (r : AvailabilityRule.t) : Prop :=
  exists kind,
    AvailabilityRule.ruleType r = Some kind
    /\ match kind with
       | weekly =>
           (exists weekday, AvailabilityRule.weekday r = Some weekday
                            /\ 0 <= weekday <= 6)
           /\ AvailabilityRule.date r = None
           /\ hasTimes r /\ hasPacing r
           /\ AvailabilityRule.isClosedAllDay r = Some false
       | date_override =>
           (exists date, AvailabilityRule.date r = Some date)
           /\ AvailabilityRule.weekday r = None
           /\ hasTimes r /\ hasPacing r
           /\ AvailabilityRule.isClosedAllDay r = Some false
       | date_block =>
           (exists date, AvailabilityRule.date r = Some date)
           /\ AvailabilityRule.weekday r = None
           /\ AvailabilityRule.bufferMin r = None
           /\ AvailabilityRule.slotIntervalMin r = None
           /\ ((AvailabilityRule.isClosedAllDay r = Some true
                /\ AvailabilityRule.startTime r = None
                /\ AvailabilityRule.endTime r = None)
               \/ (AvailabilityRule.isClosedAllDay r = Some false /\ hasTimes r))
       end.

(** A form request that was due at 500 and the job that checks it. *)
Definition dueForm : FormRequest.t :=
  FormRequest.mk "f1" "w1" "b1" "c1" "t1" form_pending 500 "tok" 0.

Definition dueCheck : ScheduledJob.t :=
  ScheduledJob.mk "j9" "w1" form_overdue_check 500 queued normal
                  (JobFormRequest "f1") 0 None None None 0.

Definition checkState : AppState :=
  set_scheduledJobs [dueCheck] (set_formRequests [dueForm] sampleState).

(** ** Time zones *)

(** What the wall clock of the zone shows at an instant, read as if it
    were UTC ([Date.UTC] of the parts). *)
Definition wallClock (env : Collaborators) (timeZone : string) (instant : Z) : Z :=
  let parts := toPartsInTimeZone env instant timeZone in
  dateUTC (p_year parts) (p_month parts - 1) (p_day parts)
          (p_hour parts) (p_minute parts) (p_second parts).

(** The date and time of day asked for, read as if they were UTC. *)
Definition askedFor (date : DateKey) (hhmm : TimeOfDay) : Z :=
  dateUTC (year date) (month date - 1) (day date) (hours hhmm) (minutes hhmm) 0.
(** * Properties *)

Unset Implicit Arguments.

(** ** Equality tests *)

Lemma BookingStatus_eqb_spec a b : BookingStatus_eqb a b = true <-> a = b.
Proof. destruct a, b; simpl; split; congruence. Qed.

Lemma DateKey_eqb_spec a b : DateKey_eqb a b = true <-> a = b.
Proof.
  destruct a, b; unfold DateKey_eqb; simpl.
  rewrite !andb_true_iff, !Z.eqb_eq. split.
  - intros [[-> ->] ->]; reflexivity.
  - intros H; inversion H; auto.
Qed.

Lemma truthy_true s : truthy s = true <-> s <> "".
Proof.
  unfold truthy. rewrite negb_true_iff. split.
  - intros H ->. rewrite String.eqb_refl in H. discriminate.
  - intros H. apply String.eqb_neq. exact H.
Qed.

Lemma isExcluded_true ex id :
  ex <> Some "" -> (isExcluded ex id = true <-> ex = Some id).
Proof.
  intros Hex. destruct ex as [e|]; simpl.
  - rewrite andb_true_iff, truthy_true, String.eqb_eq. split.
    + intros [_ ->]. reflexivity.
    + intros [= ->]. split; [|reflexivity]. intros ->. apply Hex. reflexivity.
  - split; discriminate.
Qed.

(** ** The booking conflict guard *)

(** C3. [isBookingOverlapping] answers true exactly when some booking of the
    tenant, neither cancelled nor no-show and not the excluded one, has
    [start < otherEnd] and [otherStart < end]; when every booking ends at or
    before [start] or starts at or after [end], the answer is false. The
    excluded id, when given, is a non-empty string, as every id is. *)
Theorem isBookingOverlapping_spec (st : AppState) (workspaceId : string)
    (startsAt endsAt : Z) (excludeBookingId : option string) :
  excludeBookingId <> Some "" ->
  (isBookingOverlapping st workspaceId startsAt endsAt excludeBookingId = true
   <-> exists b, In b (bookings st)
                 /\ conflictsWith workspaceId startsAt endsAt excludeBookingId b)
  /\ ((forall b, In b (bookings st) ->
         Booking.endsAt b <= startsAt \/ endsAt <= Booking.startsAt b) ->
      isBookingOverlapping st workspaceId startsAt endsAt excludeBookingId = false).
Proof.
  intros Hex.
  assert (Hiff : isBookingOverlapping st workspaceId startsAt endsAt excludeBookingId = true
   <-> exists b, In b (bookings st)
                 /\ conflictsWith workspaceId startsAt endsAt excludeBookingId b).
  { unfold isBookingOverlapping, conflictsWith. rewrite existsb_exists.
    split; intros [b [Hin H]]; exists b; (split; [exact Hin|]).
    - destruct (String.eqb_spec (Booking.workspaceId b) workspaceId) as [Hw|Hw];
        simpl in H; [|discriminate].
      destruct (isExcluded excludeBookingId (Booking.id b)) eqn:Hx; [discriminate|].
      assert (Hne : excludeBookingId <> Some (Booking.id b)).
      { intros E. apply (isExcluded_true _ (Booking.id b) Hex) in E. congruence. }
      destruct (Booking.status b) eqn:Hs; try discriminate;
        apply andb_true_iff in H; destruct H as [H1 H2];
        apply Z.ltb_lt in H1; apply Z.ltb_lt in H2;
        repeat split; auto; discriminate.
    - destruct H as (Hw & Hc & Hn & Hne & H1 & H2).
      rewrite Hw, String.eqb_refl. simpl.
      destruct (isExcluded excludeBookingId (Booking.id b)) eqn:Hx.
      + apply (isExcluded_true _ (Booking.id b) Hex) in Hx. contradiction.
      + apply Z.ltb_lt in H1. apply Z.ltb_lt in H2.
        destruct (Booking.status b); try congruence; rewrite H1, H2; reflexivity. }
  split; [exact Hiff|].
  intros Htouch.
  apply not_true_is_false. intros E.
  apply Hiff in E. destruct E as [b [Hin (_ & _ & _ & _ & H1 & H2)]].
  destruct (Htouch b Hin); lia.
Qed.

(** ** In-place mutation *)

Lemma find_updateFirst {A} (p : A -> bool) (f : A -> A) (l : list A) (x : A) :
  find p l = Some x -> p (f x) = true -> find p (updateFirst p f l) = Some (f x).
Proof.
  induction l as [|a l IH]; simpl; [discriminate|].
  destruct (p a) eqn:Ha.
  - intros [= ->] Hf. simpl. rewrite Hf. reflexivity.
  - intros Hx Hf. simpl. rewrite Ha. apply IH; assumption.
Qed.

(** ** What the store functions leave alone *)

Section Frames.

Variable env : Collaborators.

Lemma emitEvent_frame st newId now w ty ety eid p :
  let st' := emitEvent env st newId now w ty ety eid p in
  contacts st' = contacts st /\ services st' = services st
  /\ availabilityRules st' = availabilityRules st /\ bookings st' = bookings st
  /\ formTemplates st' = formTemplates st /\ formRequests st' = formRequests st
  /\ inventoryItems st' = inventoryItems st /\ scheduledJobs st' = scheduledJobs st
  /\ idempotencyKeys st' = idempotencyKeys st /\ alerts st' = alerts st.
Proof.
  unfold emitEvent. destruct (find _ _); simpl; repeat split; reflexivity.
Qed.

Lemma emitEvent_bookings st newId now w ty ety eid p :
  bookings (emitEvent env st newId now w ty ety eid p) = bookings st.
Proof. apply emitEvent_frame. Qed.

Lemma emitEvent_inventoryItems st newId now w ty ety eid p :
  inventoryItems (emitEvent env st newId now w ty ety eid p) = inventoryItems st.
Proof. apply emitEvent_frame. Qed.

Lemma emitEvent_scheduledJobs st newId now w ty ety eid p :
  scheduledJobs (emitEvent env st newId now w ty ety eid p) = scheduledJobs st.
Proof. apply emitEvent_frame. Qed.

Lemma emitEvent_services st newId now w ty ety eid p :
  services (emitEvent env st newId now w ty ety eid p) = services st.
Proof. apply emitEvent_frame. Qed.

Lemma emitEvent_contacts st newId now w ty ety eid p :
  contacts (emitEvent env st newId now w ty ety eid p) = contacts st.
Proof. apply emitEvent_frame. Qed.

Lemma emitEvent_formRequests st newId now w ty ety eid p :
  formRequests (emitEvent env st newId now w ty ety eid p) = formRequests st.
Proof. apply emitEvent_frame. Qed.

Lemma emitEvent_idempotencyKeys st newId now w ty ety eid p :
  idempotencyKeys (emitEvent env st newId now w ty ety eid p) = idempotencyKeys st.
Proof. apply emitEvent_frame. Qed.

Lemma emitEvent_alerts st newId now w ty ety eid p :
  alerts (emitEvent env st newId now w ty ety eid p) = alerts st.
Proof. apply emitEvent_frame. Qed.

Lemma consumeStep_frame createId now w acc rule :
  let st := fst acc in
  let st' := fst (consumeStep env createId now w acc rule) in
  contacts st' = contacts st /\ services st' = services st
  /\ availabilityRules st' = availabilityRules st /\ bookings st' = bookings st
  /\ formTemplates st' = formTemplates st /\ formRequests st' = formRequests st
  /\ scheduledJobs st' = scheduledJobs st
  /\ idempotencyKeys st' = idempotencyKeys st.
Proof.
  destruct acc as [st k]. unfold consumeStep. simpl fst at 1.
  destruct (find _ (inventoryItems st)) as [item|]; [|simpl; auto 10].
  destruct (_ <=? _); [|simpl; auto 10].
  cbv zeta. simpl fst.
  match goal with |- context [emitEvent env ?s ?a ?b ?c ?d ?e ?f ?g] =>
    destruct (emitEvent_frame s a b c d e f g)
      as (H1 & H2 & H3 & H4 & H5 & H6 & _ & H8 & H9 & _) end.
  simpl in *. auto 10.
Qed.

Lemma consumeFold_frame createId now w rules : forall acc,
  let st' := fst (fold_left (consumeStep env createId now w) rules acc) in
  contacts st' = contacts (fst acc) /\ services st' = services (fst acc)
  /\ availabilityRules st' = availabilityRules (fst acc)
  /\ bookings st' = bookings (fst acc)
  /\ formTemplates st' = formTemplates (fst acc)
  /\ formRequests st' = formRequests (fst acc)
  /\ scheduledJobs st' = scheduledJobs (fst acc)
  /\ idempotencyKeys st' = idempotencyKeys (fst acc).
Proof.
  induction rules as [|rule rest IH]; intros acc; simpl.
  - auto 10.
  - destruct (IH (consumeStep env createId now w acc rule))
      as (H1 & H2 & H3 & H4 & H5 & H6 & H7 & H8).
    destruct (consumeStep_frame createId now w acc rule)
      as (K1 & K2 & K3 & K4 & K5 & K6 & K7 & K8).
    cbv zeta in *.
    rewrite H1, H2, H3, H4, H5, H6, H7, H8. auto 10.
Qed.

Lemma consumeInventory_frame createId now w rules st :
  let st' := consumeInventory env createId now w rules st in
  contacts st' = contacts st /\ services st' = services st
  /\ availabilityRules st' = availabilityRules st /\ bookings st' = bookings st
  /\ formTemplates st' = formTemplates st /\ formRequests st' = formRequests st
  /\ scheduledJobs st' = scheduledJobs st
  /\ idempotencyKeys st' = idempotencyKeys st.
Proof. apply (consumeFold_frame createId now w rules (st, 0%nat)). Qed.

Lemma applyInventory_frame st createId now w bid st' r :
  applyInventoryOnBookingCompleted env st createId now w bid = (st', r) ->
  bookings st' = bookings st /\ services st' = services st
  /\ contacts st' = contacts st /\ scheduledJobs st' = scheduledJobs st
  /\ idempotencyKeys st' = idempotencyKeys st
  /\ availabilityRules st' = availabilityRules st.
Proof.
  unfold applyInventoryOnBookingCompleted.
  destruct (find _ (bookings st)) as [b|]; [|intros [= <- <-]; auto 10].
  destruct (find _ (services st)) as [s|]; [|intros [= <- <-]; auto 10].
  destruct (checkInventory _ _ _); intros [= <- <-]; auto 10.
  destruct (consumeInventory_frame createId now w (Service.inventoryRules s) st)
    as (H1 & H2 & H3 & H4 & H5 & H6 & H7 & H8).
  auto 10.
Qed.

Lemma applyInventory_failure st createId now w bid st' e :
  applyInventoryOnBookingCompleted env st createId now w bid = (st', Some e) ->
  st' = st.
Proof.
  unfold applyInventoryOnBookingCompleted.
  destruct (find _ (bookings st)) as [b|]; [|intros [= <- <-]; auto].
  destruct (find _ (services st)) as [s|]; [|intros [= <- <-]; auto].
  destruct (checkInventory _ _ _); intros [= <-]; auto.
Qed.

Lemma checkInventory_error st w rules e :
  checkInventory st w rules = Some e ->
  exists item, In item (inventoryItems st) /\ e = ErrInsufficientInventory (InventoryItem.name item).
Proof.
  induction rules as [|r l IH]; simpl; [discriminate|].
  destruct (find _ (inventoryItems st)) as [item|] eqn:Hf; [|exact IH].
  destruct (_ <? _); [|exact IH].
  intros [= <-]. exists item. split; [|reflexivity].
  apply find_some in Hf. apply Hf.
Qed.

Lemma applyInventory_error_kind st createId now w bid st' e :
  applyInventoryOnBookingCompleted env st createId now w bid = (st', Some e) ->
  e = ErrInventoryBookingNotFound \/ e = ErrInventoryServiceNotFound
  \/ exists name, e = ErrInsufficientInventory name.
Proof.
  unfold applyInventoryOnBookingCompleted.
  destruct (find _ (bookings st)) as [b|]; [|intros [= <- <-]; auto].
  destruct (find _ (services st)) as [s|]; [|intros [= <- <-]; auto].
  destruct (checkInventory _ _ _) eqn:Hc; intros [= <- <-].
  apply checkInventory_error in Hc. destruct Hc as [item [_ ->]].
  right. right. eexists. reflexivity.
Qed.

End Frames.

(** ** The booking state machine *)

Section Lifecycle.

Variable env : Collaborators.

Lemma includes_transitions from to :
  includes (transitions from) to = true <-> allowedTransition from to.
Proof.
  unfold allowedTransition.
  destruct from, to; simpl; split; intros H; try discriminate; try reflexivity;
    try (left; split; [reflexivity|]; tauto);
    try (right; split; [reflexivity|]; tauto);
    destruct H as [[H1 [H2|[H2|H2]]]|[H1 [H2|[H2|H2]]]]; discriminate.
Qed.

Lemma isOwnBooking_stable w id (b b' : Booking.t) :
  Booking.id b' = Booking.id b -> Booking.workspaceId b' = Booking.workspaceId b ->
  Booking.deletedAt b' = Booking.deletedAt b ->
  isOwnBooking w id b' = isOwnBooking w id b.
Proof.
  unfold isOwnBooking, isDeleted. intros -> -> ->. reflexivity.
Qed.

Lemma storeCalendarEvent_keeps eventId now b :
  let b' := storeCalendarEvent eventId now b in
  Booking.id b' = Booking.id b /\ Booking.workspaceId b' = Booking.workspaceId b
  /\ Booking.deletedAt b' = Booking.deletedAt b /\ Booking.status b' = Booking.status b
  /\ Booking.startsAt b' = Booking.startsAt b /\ Booking.endsAt b' = Booking.endsAt b.
Proof.
  unfold storeCalendarEvent. destruct (_ && _); simpl; auto 10.
Qed.

(** The booking that a successful status change stores. *)
Lemma patchBookingStatus_cases st createId now workspace id rawStatus cal booking target :
  find (isOwnBooking (ws_id workspace) id) (bookings st) = Some booking ->
  parseBookingStatus rawStatus = Some target ->
  includes (transitions (Booking.status booking)) target = true ->
  (exists e, target = completed
     /\ applyInventoryOnBookingCompleted env st createId now (ws_id workspace)
          (Booking.id booking) = (st, Some e)
     /\ patchBookingStatus env st createId now workspace id rawStatus cal
        = (st, Failed 409 e))
  \/ (exists st' b',
        patchBookingStatus env st createId now workspace id rawStatus cal
        = (st', Sent 200 b')
        /\ Booking.status b' = target
        /\ Booking.id b' = Booking.id booking
        /\ Booking.workspaceId b' = Booking.workspaceId booking
        /\ Booking.deletedAt b' = Booking.deletedAt booking
        /\ Booking.startsAt b' = Booking.startsAt booking
        /\ Booking.endsAt b' = Booking.endsAt booking
        /\ bookings st'
           = updateFirst (isOwnBooking (ws_id workspace) id) (fun _ => b') (bookings st)).
Proof.
  intros Hfind Hparse Hinc. unfold patchBookingStatus.
  rewrite Hfind, Hparse, Hinc. simpl negb. cbv iota.
  destruct (BookingStatus_eqb target completed) eqn:Hc.
  - apply BookingStatus_eqb_spec in Hc. subst target.
    destruct (applyInventoryOnBookingCompleted env st createId now (ws_id workspace)
                (Booking.id booking)) as [st1 [e|]] eqn:Hinv.
    + left. exists e. pose proof (applyInventory_failure _ _ _ _ _ _ _ _ Hinv) as ->.
      repeat split; reflexivity.
    + right. destruct (applyInventory_frame _ _ _ _ _ _ _ _ Hinv) as (Hb & _).
      eexists. eexists. split; [reflexivity|].
      rewrite emitEvent_bookings. simpl. rewrite Hb.
      repeat match goal with
             | |- context [match find ?p ?l with _ => _ end] => destruct (find p l)
             end;
        unfold storeCalendarEvent; try destruct (_ && _); simpl;
        repeat split; reflexivity.
  - right. eexists. eexists. split; [reflexivity|].
    rewrite emitEvent_bookings. simpl.
    destruct target; try discriminate Hc;
      repeat match goal with
             | |- context [match find ?p ?l with _ => _ end] => destruct (find p l)
             end;
      unfold storeCalendarEvent; try destruct (_ && _); simpl;
      repeat split; reflexivity.
Qed.

(** C2. For a booking that the route finds and a target status that parses,
    the status change passes the transition check exactly for
    pending -> confirmed, cancelled, no_show and confirmed -> completed,
    cancelled, no_show. A pair outside the table, in particular every
    target asked of a completed, no-show or cancelled booking, is answered
    with the invalid-transition error and the state, so the booking, stays
    as it was. A pair inside the table is never answered with that error:
    the booking takes the target status, unless the target is completed and
    the inventory step refuses. *)
Theorem booking_status_state_machine (st : AppState) (createId : nat -> string)
    (now : Z) (workspace : Workspace) (id rawStatus : string)
    (calendarEventId : option string) (booking : Booking.t) (target : BookingStatus) :
  find (isOwnBooking (ws_id workspace) id) (bookings st) = Some booking ->
  parseBookingStatus rawStatus = Some target ->
  let result := patchBookingStatus env st createId now workspace id rawStatus
                  calendarEventId in
  (~ allowedTransition (Booking.status booking) target ->
     result = (st, Failed 400 (ErrInvalidTransition (Booking.status booking) target)))
  /\ (terminal (Booking.status booking) ->
     result = (st, Failed 400 (ErrInvalidTransition (Booking.status booking) target)))
  /\ (allowedTransition (Booking.status booking) target ->
       (exists st' booking',
          result = (st', Sent 200 booking')
          /\ Booking.status booking' = target
          /\ find (isOwnBooking (ws_id workspace) id) (bookings st') = Some booking')
       \/ (target = completed
           /\ exists e, result = (st, Failed 409 e)
                        /\ e <> ErrInvalidTransition (Booking.status booking) target)).
Proof.
  intros Hfind Hparse result.
  assert (Hout : ~ allowedTransition (Booking.status booking) target ->
     result = (st, Failed 400 (ErrInvalidTransition (Booking.status booking) target))).
  { intros Hno. unfold result, patchBookingStatus. rewrite Hfind, Hparse.
    destruct (includes (transitions (Booking.status booking)) target) eqn:Hinc.
    - apply includes_transitions in Hinc. contradiction.
    - reflexivity. }
  split; [exact Hout|]. split.
  - intros Hterm. apply Hout. unfold allowedTransition.
    destruct Hterm as [H|[H|H]]; rewrite H; intros [[? _]|[? _]]; discriminate.
  - intros Hok. apply includes_transitions in Hok.
    destruct (patchBookingStatus_cases st createId now workspace id rawStatus
                calendarEventId booking target Hfind Hparse Hok)
      as [(e & Ht & Hinv & Hres)|(st' & b' & Hres & Hs & Hi & Hw & Hd & _ & _ & Hb)].
    + right. split; [exact Ht|]. exists e. split; [exact Hres|].
      destruct (applyInventory_error_kind _ _ _ _ _ _ _ _ Hinv) as [->|[->|[name ->]]];
        discriminate.
    + left. exists st', b'. split; [exact Hres|]. split; [exact Hs|].
      rewrite Hb. apply (find_updateFirst _ (fun _ => b') _ booking Hfind).
      rewrite (isOwnBooking_stable _ _ booking b' Hi Hw Hd).
      apply find_some in Hfind. apply Hfind.
Qed.

(** The soft delete is a command of its own: it does not consult the
    transition table, and cancels and tombstones the booking it finds
    whatever its status. *)
Lemma deleteBooking_cancels st createId now workspace id booking :
  find (isOwnBooking (ws_id workspace) id) (bookings st) = Some booking ->
  exists st' booking',
    deleteBooking env st createId now workspace id = (st', Sent 200 booking')
    /\ Booking.status booking' = cancelled
    /\ Booking.deletedAt booking' = Some now
    /\ Booking.calendarEventId booking' = None.
Proof.
  intros Hfind. unfold deleteBooking. rewrite Hfind.
  eexists. eexists. split; [reflexivity|]. repeat split.
Qed.

End Lifecycle.

(** ** Inventory consumption *)

Section Inventory.

Variable env : Collaborators.

Lemma find_updateFirst_other {A} (p q : A -> bool) (f : A -> A) (l : list A) :
  (forall x, p x = true -> q x = false /\ q (f x) = false) ->
  find q (updateFirst p f l) = find q l.
Proof.
  intros H. induction l as [|a l IH]; simpl; [reflexivity|].
  destruct (p a) eqn:Ha; simpl.
  - destruct (H a Ha) as [H1 H2]. rewrite H1, H2. reflexivity.
  - rewrite IH. reflexivity.
Qed.

Lemma isInventoryItem_true w i x :
  isInventoryItem w i x = true <-> InventoryItem.workspaceId x = w /\ InventoryItem.id x = i.
Proof.
  unfold isInventoryItem. rewrite andb_true_iff, !String.eqb_eq. tauto.
Qed.

Lemma isInventoryItem_consume w i q now x :
  isInventoryItem w i (InventoryItem.consume q now x) = isInventoryItem w i x.
Proof. reflexivity. Qed.

Lemma isInventoryItem_other w i w' j x :
  (w, i) <> (w', j) -> isInventoryItem w i x = true -> isInventoryItem w' j x = false.
Proof.
  intros Hne H. apply isInventoryItem_true in H. destruct H as [<- <-].
  destruct (isInventoryItem _ j x) eqn:E; [|reflexivity].
  apply isInventoryItem_true in E. destruct E as [E1 E2]. congruence.
Qed.

Lemma consumeFold_items createId now w rules : forall acc,
  inventoryItems (fst (fold_left (consumeStep env createId now w) rules acc))
  = consumeItems now w rules (inventoryItems (fst acc)).
Proof.
  induction rules as [|rule rest IH]; intros [st k]; simpl; [reflexivity|].
  rewrite IH. f_equal.
  destruct (find _ (inventoryItems st)) as [item|]; [|reflexivity].
  destruct (_ <=? _); simpl; [|reflexivity].
  rewrite emitEvent_inventoryItems. reflexivity.
Qed.

Lemma consumeInventory_items createId now w rules st :
  inventoryItems (consumeInventory env createId now w rules st)
  = consumeItems now w rules (inventoryItems st).
Proof. apply (consumeFold_items createId now w rules (st, 0%nat)). Qed.

Lemma checkInventory_sufficient st w rules :
  checkInventory st w rules = None <-> sufficient st w rules.
Proof.
  unfold sufficient. induction rules as [|r l IH]; simpl.
  - split; [intros _ ? ? []|reflexivity].
  - destruct (find _ (inventoryItems st)) as [item|] eqn:Hf.
    + destruct (Z.ltb_spec (InventoryItem.quantityOnHand item) (Service.quantity r)).
      * split; [discriminate|]. intros H0.
        specialize (H0 r item (or_introl eq_refl) Hf). lia.
      * rewrite IH. split.
        -- intros Hl rule it [<-|Hin] Hit; [|eauto]. rewrite Hf in Hit.
           inversion Hit; subst; lia.
        -- intros Hl rule it Hin. apply Hl. right. exact Hin.
    + rewrite IH. split.
      * intros Hl rule it [<-|Hin] Hit; [congruence|eauto].
      * intros Hl rule it Hin. apply Hl. right. exact Hin.
Qed.

(** What the deduction loop does to the item found under an id. *)
Lemma consumeItems_find now w rules : forall items w' i item,
  find (isInventoryItem w' i) items = Some item ->
  exists item',
    find (isInventoryItem w' i) (consumeItems now w rules items) = Some item'
    /\ InventoryItem.quantityOnHand item'
       = InventoryItem.quantityOnHand item
         - (if String.eqb w' w then demand i rules else 0)
    /\ InventoryItem.lowStockThreshold item' = InventoryItem.lowStockThreshold item
    /\ InventoryItem.name item' = InventoryItem.name item.
Proof.
  induction rules as [|rule rest IH]; intros items w' i item Hf; simpl.
  - exists item. split; [exact Hf|]. destruct (String.eqb w' w); repeat split; lia.
  - destruct (find (isInventoryItem w (Service.itemId rule)) items) as [it|] eqn:Hj.
    + destruct (String.eqb_spec w' w) as [->|Hw].
      * destruct (String.eqb_spec (Service.itemId rule) i) as [Hi|Hi].
        -- rewrite Hi in Hj. rewrite Hf in Hj. inversion Hj; subst it. clear Hj.
           rewrite Hi.
           destruct (IH (updateFirst (isInventoryItem w i)
                           (fun _ => InventoryItem.consume (Service.quantity rule) now item)
                           items) w i (InventoryItem.consume (Service.quantity rule) now item))
             as (item' & H1 & H2 & H3 & H4).
           { apply (find_updateFirst _ (fun _ => _) _ item Hf).
             rewrite isInventoryItem_consume. apply find_some in Hf. apply Hf. }
           exists item'. split; [exact H1|]. rewrite String.eqb_refl in H2.
           simpl in H2, H3, H4. repeat split; try assumption. lia.
        -- destruct (IH (updateFirst (isInventoryItem w (Service.itemId rule))
                           (fun _ => InventoryItem.consume (Service.quantity rule) now it)
                           items) w i item)
             as (item' & H1 & H2 & H3 & H4).
           { rewrite find_updateFirst_other; [exact Hf|].
             intros x Hx. rewrite isInventoryItem_consume.
             assert (isInventoryItem w i it = false).
             { apply find_some in Hj. destruct Hj as [_ Hj].
               apply (isInventoryItem_other _ _ w i it) in Hj; [exact Hj|congruence]. }
             split; [|assumption].
             apply (isInventoryItem_other _ _ w i x) in Hx; [exact Hx|congruence]. }
           exists item'. rewrite String.eqb_refl in H2. auto.
      * destruct (IH (updateFirst (isInventoryItem w (Service.itemId rule))
                         (fun _ => InventoryItem.consume (Service.quantity rule) now it)
                         items) w' i item)
          as (item' & H1 & H2 & H3 & H4).
        { rewrite find_updateFirst_other; [exact Hf|].
          intros x Hx. rewrite isInventoryItem_consume.
          assert (isInventoryItem w' i it = false).
          { apply find_some in Hj. destruct Hj as [_ Hj].
            apply (isInventoryItem_other _ _ w' i it) in Hj; [exact Hj|congruence]. }
          split; [|assumption].
          apply (isInventoryItem_other _ _ w' i x) in Hx; [exact Hx|congruence]. }
        exists item'. destruct (String.eqb_spec w' w); [contradiction|]. auto.
    + destruct (IH items w' i item Hf) as (item' & H1 & H2 & H3 & H4).
      exists item'. split; [exact H1|]. split; [|auto].
      destruct (String.eqb_spec w' w) as [->|Hw]; [|exact H2].
      destruct (String.eqb_spec (Service.itemId rule) i) as [Hi|Hi]; [|exact H2].
      rewrite Hi in Hj. congruence.
Qed.

Lemma consumeItems_find_none now w rules : forall items w' i,
  find (isInventoryItem w' i) items = None ->
  find (isInventoryItem w' i) (consumeItems now w rules items) = None.
Proof.
  induction rules as [|rule rest IH]; intros items w' i Hf; simpl; [exact Hf|].
  destruct (find (isInventoryItem w (Service.itemId rule)) items) as [it|] eqn:Hj;
    [|apply IH; exact Hf].
  apply IH.
  destruct (find (isInventoryItem w' i) (updateFirst _ _ items)) as [x|] eqn:E;
    [|reflexivity].
  exfalso. revert E. clear IH. induction items as [|a l IHl]; simpl in *; [discriminate|].
  destruct (isInventoryItem w' i a) eqn:Ha; [discriminate|].
  destruct (isInventoryItem w (Service.itemId rule) a) eqn:Hb.
  - inversion Hj; subst it. simpl. rewrite isInventoryItem_consume, Ha.
    rewrite Hf. discriminate.
  - simpl. rewrite Ha. apply IHl; assumption.
Qed.

Lemma find_by_unique_id (l : list Booking.t) (p q : Booking.t -> bool) (b : Booking.t) :
  NoDup (map Booking.id l) ->
  find p l = Some b ->
  q b = true ->
  (forall x, q x = true -> Booking.id x = Booking.id b) ->
  find q l = Some b.
Proof.
  intros Hnd Hp Hq Hid. induction l as [|a l IH]; simpl in *; [discriminate|].
  inversion Hnd as [|? ? Hnotin Hnd']; subst.
  destruct (p a) eqn:Ha.
  - inversion Hp; subst. rewrite Hq. reflexivity.
  - destruct (q a) eqn:Hqa.
    + exfalso. apply Hnotin. rewrite (Hid a Hqa).
      apply in_map. apply find_some in Hp. apply Hp.
    + apply IH; assumption.
Qed.

End Inventory.

Section Completion.

Variable env : Collaborators.

Lemma patch_completed_failure st createId now workspace id cal booking e :
  find (isOwnBooking (ws_id workspace) id) (bookings st) = Some booking ->
  Booking.status booking = confirmed ->
  applyInventoryOnBookingCompleted env st createId now (ws_id workspace)
    (Booking.id booking) = (st, Some e) ->
  patchBookingStatus env st createId now workspace id "completed" cal
  = (st, Failed 409 e).
Proof.
  intros Hfind Hs Hinv. unfold patchBookingStatus.
  rewrite Hfind. simpl parseBookingStatus. cbv iota. rewrite Hs. simpl.
  rewrite Hinv. reflexivity.
Qed.

Lemma patch_completed_success st createId now workspace id cal booking st1 :
  find (isOwnBooking (ws_id workspace) id) (bookings st) = Some booking ->
  Booking.status booking = confirmed ->
  applyInventoryOnBookingCompleted env st createId now (ws_id workspace)
    (Booking.id booking) = (st1, None) ->
  exists st' b',
    patchBookingStatus env st createId now workspace id "completed" cal
    = (st', Sent 200 b')
    /\ Booking.status b' = completed
    /\ inventoryItems st' = inventoryItems st1
    /\ alerts st' = alerts st1.
Proof.
  intros Hfind Hs Hinv. unfold patchBookingStatus.
  rewrite Hfind. simpl parseBookingStatus. cbv iota. rewrite Hs. simpl.
  rewrite Hinv.
  eexists. eexists. split; [reflexivity|].
  rewrite emitEvent_inventoryItems, emitEvent_alerts. simpl.
  repeat match goal with
         | |- context [match find ?p ?l with _ => _ end] => destruct (find p l)
         end;
    unfold storeCalendarEvent; try destruct (_ && _); simpl;
    repeat split; reflexivity.
Qed.

Lemma applyInventory_unfold st createId now workspace id booking service :
  NoDup (map Booking.id (bookings st)) ->
  find (isOwnBooking (ws_id workspace) id) (bookings st) = Some booking ->
  find (isServiceOf (ws_id workspace) booking) (services st) = Some service ->
  applyInventoryOnBookingCompleted env st createId now (ws_id workspace)
    (Booking.id booking)
  = match checkInventory st (ws_id workspace) (Service.inventoryRules service) with
    | Some e => (st, Some e)
    | None => (consumeInventory env createId now (ws_id workspace)
                 (Service.inventoryRules service) st, None)
    end.
Proof.
  intros Hnd Hfind Hsvc. unfold applyInventoryOnBookingCompleted.
  rewrite (find_by_unique_id (bookings st) _
             (fun item => String.eqb (Booking.id item) (Booking.id booking)
                          && String.eqb (Booking.workspaceId item) (ws_id workspace))
             booking Hnd Hfind).
  - unfold isServiceOf in Hsvc. rewrite Hsvc. reflexivity.
  - apply find_some in Hfind. destruct Hfind as [_ H]. unfold isOwnBooking in H.
    apply andb_true_iff in H. destruct H as [H _].
    apply andb_true_iff in H. destruct H as [_ H].
    rewrite String.eqb_refl, H. reflexivity.
  - intros x Hx. apply andb_true_iff in Hx. destruct Hx as [Hx _].
    apply String.eqb_eq in Hx. exact Hx.
Qed.


(** C10. An entry of the consumption list whose item id matches no item of
    the tenant's inventory is skipped by both loops: the sufficiency check
    and the inventory left by the deduction loop are those of the list
    without that entry. So a confirmed booking is completed whenever the
    other entries are satisfied, with nothing deducted for the unknown one;
    when every entry is unknown the completion succeeds and the inventory is
    untouched. *)
Theorem unknown_inventory_items_are_skipped (st : AppState) (createId : nat -> string)
    (now : Z) (workspace : Workspace) (id : string) (calendarEventId : option string)
    (booking : Booking.t) (service : Service.t)
    (before after : list Service.InventoryRule) (entry : Service.InventoryRule) :
  NoDup (map Booking.id (bookings st)) ->
  find (isOwnBooking (ws_id workspace) id) (bookings st) = Some booking ->
  Booking.status booking = confirmed ->
  find (isServiceOf (ws_id workspace) booking) (services st) = Some service ->
  Service.inventoryRules service = before ++ entry :: after ->
  unknownItem st (ws_id workspace) entry ->
  let ws := ws_id workspace in
  let result := patchBookingStatus env st createId now workspace id "completed"
                  calendarEventId in
  checkInventory st ws (before ++ entry :: after) = checkInventory st ws (before ++ after)
  /\ inventoryItems (consumeInventory env createId now ws (before ++ entry :: after) st)
     = inventoryItems (consumeInventory env createId now ws (before ++ after) st)
  /\ (sufficient st ws (before ++ after) ->
      exists st' booking',
        result = (st', Sent 200 booking')
        /\ Booking.status booking' = completed
        /\ inventoryItems st' = consumeItems now ws (before ++ after) (inventoryItems st))
  /\ (Forall (unknownItem st ws) (before ++ after) ->
      exists st' booking',
        result = (st', Sent 200 booking')
        /\ Booking.status booking' = completed
        /\ inventoryItems st' = inventoryItems st).
Proof.
  intros Hnd Hfind Hs Hsvc Hrules Hunk ws result.
  assert (Hcheck : checkInventory st ws (before ++ entry :: after)
                   = checkInventory st ws (before ++ after)).
  { clear Hrules. induction before as [|r l IH]; simpl.
    - unfold unknownItem in Hunk. fold ws in Hunk. rewrite Hunk. reflexivity.
    - destruct (find _ (inventoryItems st)); [|exact IH].
      destruct (_ <? _); [reflexivity|exact IH]. }
  assert (Hitems : consumeItems now ws (before ++ entry :: after) (inventoryItems st)
                   = consumeItems now ws (before ++ after) (inventoryItems st)).
  { unfold consumeItems. rewrite !fold_left_app. simpl.
    fold (consumeItems now ws before (inventoryItems st)).
    rewrite (consumeItems_find_none now ws before (inventoryItems st) ws
               (Service.itemId entry) Hunk).
    reflexivity. }
  assert (Hgo : sufficient st ws (before ++ after) ->
      exists st' booking',
        result = (st', Sent 200 booking')
        /\ Booking.status booking' = completed
        /\ inventoryItems st' = consumeItems now ws (before ++ after) (inventoryItems st)).
  { intros Hsuff.
    pose proof (applyInventory_unfold st createId now workspace id booking service
                  Hnd Hfind Hsvc) as Hinv.
    rewrite Hrules in Hinv. fold ws in Hinv. rewrite Hcheck in Hinv.
    apply checkInventory_sufficient in Hsuff. rewrite Hsuff in Hinv.
    destruct (patch_completed_success st createId now workspace id calendarEventId
                booking _ Hfind Hs Hinv) as (st' & b' & Hres & Hst & Hi & _).
    exists st', b'. split; [exact Hres|]. split; [exact Hst|].
    rewrite Hi, consumeInventory_items. exact Hitems. }
  split; [exact Hcheck|]. split; [|split; [exact Hgo|]].
  - rewrite !consumeInventory_items. exact Hitems.
  - intros Hall.
    assert (Hsuff : sufficient st ws (before ++ after)).
    { intros rule item Hin Hit. rewrite Forall_forall in Hall.
      specialize (Hall rule Hin). unfold unknownItem in Hall. congruence. }
    destruct (Hgo Hsuff) as (st' & b' & Hres & Hst & Hi).
    exists st', b'. split; [exact Hres|]. split; [exact Hst|].
    rewrite Hi. clear - Hall. revert Hall. generalize (before ++ after).
    intros l Hall. induction l as [|r l IH]; simpl; [reflexivity|].
    inversion Hall as [|? ? Hr Hl]; subst. unfold unknownItem in Hr. rewrite Hr.
    apply IH. exact Hl.
Qed.

End Completion.

(** ** Low-stock signalling *)

Section LowStock.

Variable env : Collaborators.

(** C7, as amended. A deduction that leaves the item at or below its
    threshold adds one low-stock alert, and one low-stock event unless an
    event of that item with the same digest is already recorded; whether the
    item was at or below the threshold before the deduction plays no part.
    A deduction that leaves the item above its threshold adds neither. *)
Theorem low_stock_signalled_after_deduction (st : AppState) (createId : nat -> string)
    (now : Z) (workspaceId : string) (k : nat) (rule : Service.InventoryRule)
    (item : InventoryItem.t) :
  find (isInventoryItem workspaceId (Service.itemId rule)) (inventoryItems st) = Some item ->
  let left := InventoryItem.quantityOnHand item - Service.quantity rule in
  let threshold := InventoryItem.lowStockThreshold item in
  let digest := eventHashOf env "inventory.low_stock" "inventory_item"
                  (InventoryItem.id item) (PayloadLowStock left threshold) in
  let st' := fst (consumeStep env createId now workspaceId (st, k) rule) in
  (left <= threshold ->
     alerts st'
     = alerts st ++ [Alert.mk (createId (1 + 2 * k)%nat) workspaceId
                       "inventory.low_stock" warning
                       (MsgLowStock (InventoryItem.name item) left) now]
     /\ (automationEvents st'
         = automationEvents st
           ++ [AutomationEvent.mk (createId (2 + 2 * k)%nat) workspaceId
                 "inventory.low_stock" "inventory_item" (InventoryItem.id item)
                 (PayloadLowStock left threshold) digest now]
         \/ (automationEvents st' = automationEvents st
             /\ exists event,
                  In event (automationEvents st)
                  /\ AutomationEvent.entityId event = InventoryItem.id item
                  /\ AutomationEvent.eventHash event = digest)))
  /\ (threshold < left ->
      alerts st' = alerts st /\ automationEvents st' = automationEvents st).
Proof.
  intros Hfind left threshold digest st'.
  unfold st', consumeStep. rewrite Hfind. cbv zeta. simpl InventoryItem.quantityOnHand.
  simpl InventoryItem.lowStockThreshold. simpl InventoryItem.name. simpl InventoryItem.id.
  fold left. fold threshold. split.
  - intros Hle. apply Z.leb_le in Hle. rewrite Hle. simpl fst.
    rewrite emitEvent_alerts. split; [reflexivity|].
    unfold emitEvent. fold digest.
    match goal with |- context [find ?p ?l] => destruct (find p l) as [ev|] eqn:Hev end.
    + right. split; [reflexivity|]. exists ev.
      apply find_some in Hev. destruct Hev as [Hin Hp]. simpl in Hin.
      split; [exact Hin|].
      repeat (apply andb_true_iff in Hp; destruct Hp as [Hp ?]).
      split; apply String.eqb_eq; assumption.
    + left. reflexivity.
  - intros Hgt. apply Z.leb_gt in Hgt. rewrite Hgt. simpl. split; reflexivity.
Qed.

End LowStock.

(** ** The availability rule store *)

Section RuleStore.

Lemma parseTimes_ok payload existing t msg a b :
  parseTimes payload existing t msg = inr (a, b) ->
  dateAtTimeIso2000 a < dateAtTimeIso2000 b.
Proof.
  unfold parseTimes.
  destruct (orElse (pl_startTime payload) _) as [s|]; [|discriminate].
  destruct (orElse (pl_endTime payload) _) as [e|]; [|discriminate].
  destruct (Z.leb_spec (dateAtTimeIso2000 e) (dateAtTimeIso2000 s)); [discriminate|].
  intros [= <- <-]. assumption.
Qed.

(** A weekly input that passes the parser is a valid weekly rule. *)
Lemma parse_weekly_valid payload existing value :
  parseAvailabilityRuleInput payload existing = inr value ->
  n_ruleType value = weekly ->
  exists weekday opens closes,
    validWeeklyInput value weekday opens closes /\ 0 <= weekday <= 6.
Proof.
  unfold parseAvailabilityRuleInput. intros H Hw.
  destruct (match pl_ruleType payload with
            | RawMissing => _ | RawEmpty => _ | RawKnown t => _ | RawOther => _ end)
    as [[| |]|]; try discriminate.
  - destruct (orElse (pl_weekday payload) _) as [wd|]; [|discriminate].
    destruct ((wd <? 0) || (6 <? wd)) eqn:Hr; [discriminate|].
    destruct (parseTimes payload existing weekly _) as [e|[a b]] eqn:Ht; [discriminate|].
    destruct (parsePacing payload existing weekly) as [e|[bm si]]; [discriminate|].
    inversion H; subst value. exists wd, a, b.
    apply orb_false_iff in Hr. destruct Hr as [H1 H2].
    apply Z.ltb_ge in H1. apply Z.ltb_ge in H2.
    split; [|lia]. unfold validWeeklyInput. simpl.
    repeat split. eapply parseTimes_ok; eassumption.
  - destruct (orElse (pl_date payload) _); [|discriminate].
    destruct (parseTimes payload existing date_override _) as [e|[a b]]; [discriminate|].
    destruct (parsePacing payload existing date_override) as [e|[bm si]]; [discriminate|].
    inversion H; subst value. discriminate Hw.
  - destruct (orElse (pl_date payload) _); [|discriminate].
    destruct (match pl_isClosedAllDay payload with Some b => b | None => _ end).
    + inversion H; subst value. discriminate Hw.
    + destruct (parseTimes payload existing date_block _) as [e|[a b]]; [discriminate|].
      inversion H; subst value. discriminate Hw.
Qed.

Lemma hasOverlappingRule_weekly st workspaceId serviceId value exclude existing
      weekday opensA closesA opensB closesB :
  validWeeklyInput value weekday opensA closesA ->
  In existing (availabilityRules st) ->
  AvailabilityRule.workspaceId existing = workspaceId ->
  AvailabilityRule.serviceId existing = serviceId ->
  isExcluded exclude (AvailabilityRule.id existing) = false ->
  validWeekly existing weekday opensB closesB ->
  timesOverlap opensA closesA opensB closesB ->
  hasOverlappingRule st workspaceId serviceId value exclude = true.
Proof.
  intros (Vt & Vw & Vs & Ve & _) Hin Hws Hsvc Hex (Et & Ew & Es & Ee & _) [O1 O2].
  unfold hasOverlappingRule. apply existsb_exists. exists existing.
  split; [exact Hin|].
  rewrite Hws, Hsvc, !String.eqb_refl, Hex. simpl.
  unfold normalizeAvailabilityRule. rewrite Et. simpl.
  rewrite Vt. simpl. rewrite Ew, Vw, Vs, Ve, Es, Ee. simpl.
  rewrite Z.eqb_refl. simpl. unfold overlap.
  apply andb_true_iff. split; apply Z.ltb_lt; assumption.
Qed.

(** C5. When a stored rule of the service is a valid weekly rule, the
    submitted rule parses as a valid weekly rule for the same weekday, and
    the two times-of-day intervals overlap, then creating the rule, and
    likewise updating another rule of the service to it, is refused with
    the conflict error and the state, so the rule store, stays as it
    was. *)
Theorem overlapping_weekly_rule_is_refused (st : AppState) (now : Z)
    (workspace : Workspace) (payload : RulePayload)
    (value : NormalizedAvailabilityRuleInput) (existing : AvailabilityRule.t)
    (weekday : Z) (opensA closesA opensB closesB : TimeOfDay) :
  In existing (availabilityRules st) ->
  AvailabilityRule.workspaceId existing = ws_id workspace ->
  validWeekly existing weekday opensB closesB ->
  validWeeklyInput value weekday opensA closesA ->
  timesOverlap opensA closesA opensB closesB ->
  (forall newId service,
     truthy (pl_serviceId payload) = true ->
     find (isServiceIn (ws_id workspace) (pl_serviceId payload)) (services st)
       = Some service ->
     AvailabilityRule.serviceId existing = pl_serviceId payload ->
     parseAvailabilityRuleInput payload None = inr value ->
     postAvailabilityRule st newId now workspace payload
     = (st, Failed 409 ErrOverlappingRule))
  /\ (forall id rule,
        find (isRuleOf (ws_id workspace) id) (availabilityRules st) = Some rule ->
        AvailabilityRule.serviceId existing = AvailabilityRule.serviceId rule ->
        AvailabilityRule.id existing <> AvailabilityRule.id rule ->
        parseAvailabilityRuleInput payload (Some rule) = inr value ->
        patchAvailabilityRule st now workspace id payload
        = (st, Failed 409 ErrOverlappingRule)).
Proof.
  intros Hin Hws Hex Hval Hov. split.
  - intros newId service Hsid Hsvc Hsame Hparse.
    unfold postAvailabilityRule. rewrite Hsid. simpl.
    unfold isServiceIn in Hsvc. rewrite Hsvc, Hparse.
    rewrite (hasOverlappingRule_weekly st (ws_id workspace) (pl_serviceId payload)
               value None existing weekday opensA closesA opensB closesB
               Hval Hin Hws Hsame eq_refl Hex Hov).
    reflexivity.
  - intros id rule Hrule Hsame Hne Hparse.
    unfold patchAvailabilityRule. unfold isRuleOf in Hrule. rewrite Hrule, Hparse.
    rewrite (hasOverlappingRule_weekly st (ws_id workspace)
               (AvailabilityRule.serviceId rule)
               value (Some (AvailabilityRule.id rule)) existing weekday
               opensA closesA opensB closesB Hval Hin Hws Hsame);
      [reflexivity| |exact Hex|exact Hov].
    simpl. apply andb_false_iff. right. apply String.eqb_neq. exact Hne.
Qed.

End RuleStore.

(** ** Availability resolution *)

Section Resolution.

Variable env : Collaborators.

Lemma pushOpt_flat {A} (l : list A) (x : option A) :
  pushOpt l x = l ++ match x with Some a => [a] | None => [] end.
Proof. destruct x; simpl; [reflexivity|]. rewrite app_nil_r. reflexivity. Qed.

Lemma resolveLoop_windows input rules : forall acc,
  overrideWindows (fold_left (resolveStep env input) rules acc)
  = overrideWindows acc ++ windowsOfRules env input (filter (appliesAsOverride input) rules)
  /\ weeklyWindows (fold_left (resolveStep env input) rules acc)
     = weeklyWindows acc ++ windowsOfRules env input (filter (appliesAsWeekly input) rules).
Proof.
  induction rules as [|rule rest IH]; intros acc; simpl.
  - rewrite !app_nil_r. split; reflexivity.
  - destruct (IH (resolveStep env input acc rule)) as [IHo IHw].
    rewrite IHo, IHw. clear IH IHo IHw.
    unfold resolveStep, appliesAsOverride, appliesAsWeekly, isRuleOfService.
    destruct (String.eqb (AvailabilityRule.workspaceId rule) (in_workspaceId input));
      simpl; [|split; reflexivity].
    destruct (String.eqb (AvailabilityRule.serviceId rule) (in_serviceId input));
      simpl; [|split; reflexivity].
    destruct (resolveRuleType rule) eqn:Ht; simpl.
    + destruct (optZ_eqb (AvailabilityRule.weekday rule) (in_weekday input));
        simpl; [|split; reflexivity].
      rewrite pushOpt_flat, <- app_assoc. split; reflexivity.
    + destruct (optDate_eqb (AvailabilityRule.date rule) (in_dateKey input));
        simpl; [|split; reflexivity].
      rewrite pushOpt_flat, <- app_assoc. split; reflexivity.
    + destruct (optDate_eqb (AvailabilityRule.date rule) (in_dateKey input));
        simpl; [|split; reflexivity].
      destruct (AvailabilityRule.isClosedAllDay rule) as [[|]|]; simpl;
        split; reflexivity.
Qed.

Lemma resolve_windows st input :
  windows (resolveAvailabilityForDate env st input)
  = match overrideWindowsOn env st input with
    | [] => weeklyWindowsOn env st input
    | _ => overrideWindowsOn env st input
    end.
Proof.
  unfold resolveAvailabilityForDate, resolveLoop, overrideWindowsOn, weeklyWindowsOn.
  simpl.
  destruct (resolveLoop_windows input (availabilityRules st) (mkAcc [] [] [] false))
    as [Ho Hw].
  rewrite Ho, Hw. reflexivity.
Qed.

Lemma toAvailabilityWindow_shape dateKey timeZone rule step w :
  toAvailabilityWindow env dateKey timeZone rule step = Some w ->
  startIso w < endIso w /\ 1 <= stepMin w.
Proof.
  unfold toAvailabilityWindow.
  destruct (AvailabilityRule.startTime rule); [|discriminate].
  destruct (AvailabilityRule.endTime rule); [|discriminate].
  destruct (Z.leb_spec (dateAtTimeInTimeZoneIso env dateKey t0 timeZone)
                       (dateAtTimeInTimeZoneIso env dateKey t timeZone));
    [discriminate|].
  intros [= <-]. simpl. split; lia.
Qed.

Lemma windowsOfRules_shape input rules w :
  In w (windowsOfRules env input rules) -> startIso w < endIso w /\ 1 <= stepMin w.
Proof.
  unfold windowsOfRules. rewrite in_flat_map. intros [rule [_ H]].
  destruct (toAvailabilityWindow _ _ _ _ _) as [w'|] eqn:E; [|destruct H].
  destruct H as [<-|[]]. eapply toAvailabilityWindow_shape. exact E.
Qed.

Lemma resolved_windows_shape st input w :
  In w (windows (resolveAvailabilityForDate env st input)) ->
  startIso w < endIso w /\ 1 <= stepMin w.
Proof.
  rewrite resolve_windows. unfold overrideWindowsOn, weeklyWindowsOn.
  destruct (windowsOfRules env input (filter (appliesAsOverride input) _)) eqn:E.
  - apply windowsOfRules_shape.
  - rewrite <- E. apply windowsOfRules_shape.
Qed.

(** The fuel of the slot loop is never used up. *)
Lemma slotLoop_fuel_more st w dur resolved window : forall n k cursor acc,
  1 <= stepMin window ->
  endIso window - cursor <= Z.of_nat n * (stepMin window * 60000) ->
  slotLoop (n + k) st w dur resolved window cursor acc
  = slotLoop n st w dur resolved window cursor acc.
Proof.
  induction n as [|n IH]; intros k cursor acc Hstep Hfuel.
  - simpl in Hfuel. destruct k; simpl; [reflexivity|].
    destruct (Z.ltb_spec cursor (endIso window)); [lia|reflexivity].
  - simpl. destruct (cursor <? endIso window); [|reflexivity].
    destruct (endIso window <? addMinutes cursor dur); [reflexivity|].
    apply IH; [exact Hstep|]. unfold addMinutes. lia.
Qed.

Lemma slotLoop_fuel_enough st w dur resolved window k acc :
  1 <= stepMin window ->
  slotLoop (slotFuel window + k) st w dur resolved window (startIso window) acc
  = slotLoop (slotFuel window) st w dur resolved window (startIso window) acc.
Proof.
  intros Hstep. apply slotLoop_fuel_more; [exact Hstep|].
  unfold slotFuel. rewrite Nat2Z.inj_succ.
  set (s := stepMin window * 60000). set (d := endIso window - startIso window).
  assert (Hs : 0 < s) by (unfold s; lia).
  destruct (Z_le_gt_dec 0 d) as [Hd|Hd].
  - rewrite Z2Nat.id by (apply Z.div_pos; lia).
    pose proof (Z.mul_succ_div_gt d s Hs). lia.
  - assert (0 <= Z.of_nat (Z.to_nat (d / s))) by lia. nia.
Qed.

Lemma slotLoop_inside st w dur resolved window : forall fuel cursor acc,
  0 <= stepMin window ->
  startIso window <= cursor ->
  (forall slot, In slot (fst acc) -> exists w', In w' (windows resolved) /\ slotInside slot w') ->
  In window (windows resolved) ->
  forall slot,
    In slot (fst (slotLoop fuel st w dur resolved window cursor acc)) ->
    exists w', In w' (windows resolved) /\ slotInside slot w'.
Proof.
  induction fuel as [|fuel IH]; intros cursor acc Hstep Hcur Hacc Hw slot; simpl.
  - apply Hacc.
  - destruct (cursor <? endIso window); [|apply Hacc].
    destruct (Z.ltb_spec (endIso window) (addMinutes cursor dur)); [apply Hacc|].
    apply IH; try assumption.
    + unfold addMinutes. lia.
    + destruct (_ && _); [|exact Hacc].
      simpl. intros s Hin. apply in_app_or in Hin. destruct Hin as [Hin|[<-|[]]].
      * apply Hacc. exact Hin.
      * exists window. split; [exact Hw|]. unfold slotInside. simpl. lia.
Qed.

Lemma collectSlots_inside st w dur input slot :
  let resolved := resolveAvailabilityForDate env st input in
  In slot (collectSlots st w dur resolved) ->
  exists w', In w' (windows resolved) /\ slotInside slot w'.
Proof.
  intros resolved. unfold collectSlots.
  destruct (closedAllDay resolved); [intros []|].
  assert (G : forall ws acc,
    (forall x, In x ws -> In x (windows resolved)) ->
    (forall s, In s (fst acc) -> exists w', In w' (windows resolved) /\ slotInside s w') ->
    forall s,
      In s (fst (fold_left
             (fun acc window =>
                slotLoop (slotFuel window) st w dur resolved window (startIso window) acc)
             ws acc)) ->
      exists w', In w' (windows resolved) /\ slotInside s w').
  { induction ws as [|x ws IH]; intros acc Hsub Hacc s; cbn [fold_left];
      [apply Hacc|].
    apply IH.
    - intros y Hy. apply Hsub. right. exact Hy.
    - intros s0. apply slotLoop_inside.
      + destruct (resolved_windows_shape st input x (Hsub x (or_introl eq_refl))). lia.
      + lia.
      + exact Hacc.
      + apply Hsub. left. reflexivity. }
  apply G; [auto|]. intros s [].
Qed.

(** C4, as amended. The windows of a date are the windows that its
    date_override rules yield, and nothing of the weekly rules, as soon as
    one of those rules yields a window; they are the windows of the weekly
    rules of the weekday otherwise, also when the date has override rules
    that yield no window. Every slot collected for the date lies inside one
    of these windows; so with an override that yields a window, inside a
    window of an override. *)
Theorem override_windows_replace_weekly (st : AppState) (input : ResolveInput)
    (workspaceId : string) (durationMin : Z) :
  let resolved := resolveAvailabilityForDate env st input in
  let overrides := overrideWindowsOn env st input in
  windows resolved
  = match overrides with [] => weeklyWindowsOn env st input | _ => overrides end
  /\ (forall slot,
        In slot (collectSlots st workspaceId durationMin resolved) ->
        exists w, In w (windows resolved) /\ slotInside slot w)
  /\ (overrides <> [] ->
      windows resolved = overrides
      /\ forall slot,
           In slot (collectSlots st workspaceId durationMin resolved) ->
           exists w, In w overrides /\ slotInside slot w).
Proof.
  intros resolved overrides.
  assert (Hw := resolve_windows st input). fold resolved overrides in Hw.
  split; [exact Hw|]. split.
  - intros slot. apply collectSlots_inside.
  - intros Hne.
    assert (E : windows resolved = overrides).
    { rewrite Hw. destruct overrides; [contradiction|reflexivity]. }
    split; [exact E|]. intros slot Hin. rewrite <- E.
    revert Hin. apply collectSlots_inside.
Qed.

End Resolution.

(** ** Public booking creation *)

Section Creation.

Variable env : Collaborators.

Lemma findOrCreateContact_frame st newId w email phone :
  let st' := fst (findOrCreateContact st newId w email phone) in
  services st' = services st /\ availabilityRules st' = availabilityRules st
  /\ bookings st' = bookings st /\ formTemplates st' = formTemplates st
  /\ formRequests st' = formRequests st /\ inventoryItems st' = inventoryItems st
  /\ automationEvents st' = automationEvents st /\ scheduledJobs st' = scheduledJobs st
  /\ idempotencyKeys st' = idempotencyKeys st /\ alerts st' = alerts st.
Proof.
  unfold findOrCreateContact. destruct (find _ (contacts st)); simpl; auto 12.
Qed.

Lemma storeCalendarEvent_new eventId now b :
  let b' := storeCalendarEvent eventId now b in
  Booking.id b' = Booking.id b /\ Booking.workspaceId b' = Booking.workspaceId b
  /\ Booking.status b' = Booking.status b /\ Booking.startsAt b' = Booking.startsAt b
  /\ Booking.endsAt b' = Booking.endsAt b /\ Booking.deletedAt b' = Booking.deletedAt b
  /\ Booking.serviceId b' = Booking.serviceId b.
Proof.
  unfold storeCalendarEvent. destruct (_ && _); simpl; auto 10.
Qed.

Lemma commitPublicBooking_cases st createId now workspace key path hash body cal :
  (exists code e,
     commitPublicBooking env st createId now workspace key path hash body cal
     = (st, Failed code e))
  \/ (exists st' reply,
        commitPublicBooking env st createId now workspace key path hash body cal
        = (st', Sent 201 reply)
        /\ committed env st createId now workspace key path hash body st' reply).
Proof.
  unfold commitPublicBooking.
  destruct (unexpectedKeysError env body); [left; eauto|].
  destruct (negb _ || negb _); [left; eauto|].
  destruct (submissionError env body); [left; eauto|].
  destruct (find _ (services st)) as [service|] eqn:Hsvc; [|left; eauto].
  destruct (parseDate env (body_startsAt body)) as [startsAt|] eqn:Hdate; [|left; eauto].
  destruct (negb (isWithinAvailabilityRule _ _ _ _ _ _ _ _)); [left; eauto|].
  destruct (isBookingOverlapping st _ _ _ None) eqn:Hov; [left; eauto|].
  right.
  pose proof (findOrCreateContact_frame st (createId 0%nat) (ws_id workspace)
                (submissionEmail env body) (submissionPhone env body)) as Hc.
  destruct (findOrCreateContact st (createId 0%nat) (ws_id workspace)
              (submissionEmail env body) (submissionPhone env body)) as [st1 contact].
  cbv zeta in Hc. simpl fst in Hc.
  destruct Hc as (_ & _ & Hb & _ & _ & Hinv & _ & _ & Hk & _).
  set (booking := storeCalendarEvent cal now _).
  pose proof (storeCalendarEvent_new cal now
    (Booking.mk (createId 1%nat) (ws_id workspace) (Contact.id contact)
       (Service.id service) startsAt (addMinutes startsAt (Service.durationMin service))
       pending None (submissionNotes env body) None now now)) as Hs.
  cbv zeta in Hs. fold booking in Hs. simpl in Hs.
  destruct Hs as (S1 & S2 & S3 & S4 & S5 & S6 & S7).
  match goal with
  | |- context [let '(a, b) := ?e in _] => destruct e as [st5 formRequest] eqn:Hform
  end.
  eexists. eexists. split; [reflexivity|].
  exists service, startsAt, booking. eexists.
  split; [exact Hsvc|]. split; [exact Hdate|]. split; [exact Hov|].
  split; [exact S1|]. split; [exact S2|]. split; [exact S3|]. split; [exact S4|].
  split; [exact S5|]. split; [exact S6|].
  assert (Hst5 : bookings st5 = bookings st ++ [booking]
                 /\ inventoryItems st5 = inventoryItems st
                 /\ idempotencyKeys st5 = idempotencyKeys st).
  { revert Hform.
    match goal with
    | |- context [match ?t with Some _ => _ | None => _ end = _] => destruct t
    end.
    - unfold createFormRequest. intros [= <- _].
      rewrite emitEvent_bookings, emitEvent_inventoryItems, emitEvent_idempotencyKeys.
      simpl. rewrite emitEvent_bookings, emitEvent_inventoryItems,
        emitEvent_idempotencyKeys. simpl. rewrite Hb, Hinv, Hk. auto.
    - intros [= <- _]. simpl.
      rewrite emitEvent_bookings, emitEvent_inventoryItems, emitEvent_idempotencyKeys.
      simpl. rewrite Hb, Hinv, Hk. auto. }
  destruct Hst5 as (H5b & H5i & H5k).
  simpl. rewrite H5b, H5i, H5k. rewrite S1.
  repeat split; reflexivity.
Qed.

End Creation.

(** ** The idempotency ledger *)

Section Idempotency.

Variable env : Collaborators.

Lemma find_app_none {A} (p : A -> bool) (l l' : list A) :
  find p l = None -> find p (l ++ l') = find p l'.
Proof.
  induction l as [|a l IH]; simpl; [reflexivity|].
  destruct (p a); [discriminate|exact IH].
Qed.



End Idempotency.

(** ** Sorting *)

Section Sorting.

Context {A : Type} (le : A -> A -> bool).

Lemma insertBy_perm x l : Permutation (insertBy le x l) (x :: l).
Proof.
  induction l as [|y l IH]; simpl; [reflexivity|].
  destruct (le x y); [reflexivity|].
  rewrite IH. apply perm_swap.
Qed.

Lemma sortBy_perm l : Permutation (sortBy le l) l.
Proof.
  induction l as [|x l IH]; simpl; [reflexivity|].
  rewrite insertBy_perm. constructor. exact IH.
Qed.

Hypothesis le_total : forall x y, le x y = false -> le y x = true.
Hypothesis le_trans : forall x y z, le x y = true -> le y z = true -> le x z = true.

Lemma insertBy_sorted x l :
  StronglySorted (fun a b => le a b = true) l ->
  StronglySorted (fun a b => le a b = true) (insertBy le x l).
Proof.
  induction l as [|y l IH]; simpl; intros Hs.
  - constructor; constructor.
  - inversion Hs as [|? ? Hl Hy]; subst.
    destruct (le x y) eqn:Hxy.
    + constructor; [exact Hs|]. constructor; [exact Hxy|].
      rewrite Forall_forall in *. intros z Hz. eapply le_trans; eauto.
    + constructor; [apply IH; exact Hl|].
      rewrite Forall_forall in *. intros z Hz.
      apply (Permutation_in _ (insertBy_perm x l)) in Hz.
      destruct Hz as [<-|Hz]; [apply le_total; exact Hxy|auto].
Qed.

Lemma sortBy_sorted l : StronglySorted (fun a b => le a b = true) (sortBy le l).
Proof.
  induction l as [|x l IH]; simpl; [constructor|].
  apply insertBy_sorted. exact IH.
Qed.

End Sorting.

Lemma StronglySorted_firstn {A} (R : A -> A -> Prop) (n : nat) (l : list A) :
  StronglySorted R l -> StronglySorted R (firstn n l).
Proof.
  revert n. induction l as [|x l IH]; intros [|n] Hs; simpl; try constructor.
  - inversion Hs; subst. apply IH. assumption.
  - inversion Hs as [|? ? _ Hx]; subst. rewrite Forall_forall in *.
    intros y Hy. apply Hx. revert Hy. clear. revert n.
    induction l as [|a l IHl]; intros [|n]; simpl; try tauto.
    intros [->|H]; [left; reflexivity|right; eapply IHl; exact H].
Qed.

Lemma StronglySorted_firstn_skipn {A} (R : A -> A -> Prop) (n : nat) (l : list A) :
  StronglySorted R l ->
  forall x y, In x (firstn n l) -> In y (skipn n l) -> R x y.
Proof.
  revert n. induction l as [|a l IH]; intros [|n] Hs x y; simpl; try tauto.
  inversion Hs as [|? ? Hl Ha]; subst.
  intros [<-|Hx] Hy.
  - rewrite Forall_forall in Ha. apply Ha.
    rewrite <- (firstn_skipn n l). apply in_or_app. right. exact Hy.
  - eapply IH; eauto.
Qed.

(** ** The worker tick *)

Section Worker.

Variable env : Collaborators.

Lemma jobBefore_spec a b : jobBefore a b = true <-> jobOrder a b.
Proof.
  unfold jobBefore, jobOrder.
  destruct (Z.eqb_spec (priorityWeight (ScheduledJob.priority a)
                        - priorityWeight (ScheduledJob.priority b)) 0) as [E|E]; simpl.
  - rewrite Z.leb_le. split; [intros H; right; lia|intros [H|H]; lia].
  - rewrite Z.leb_le. split; [intros H; left; lia|intros [H|H]; lia].
Qed.

Lemma jobBefore_total a b : jobBefore a b = false -> jobBefore b a = true.
Proof.
  intros H. apply jobBefore_spec.
  assert (N : ~ jobOrder a b) by (rewrite <- jobBefore_spec; congruence).
  unfold jobOrder in *. lia.
Qed.

Lemma jobBefore_trans a b c :
  jobBefore a b = true -> jobBefore b c = true -> jobBefore a c = true.
Proof.
  rewrite !jobBefore_spec. unfold jobOrder. lia.
Qed.

Lemma in_combine_seq {A} (l : list A) : forall s i x,
  In (i, x) (combine (seq s (List.length l)) l)
  <-> (s <= i)%nat /\ nth_error l (i - s) = Some x.
Proof.
  induction l as [|a l IH]; intros s i x; simpl.
  - split; [intros []|]. intros [_ H]. destruct (i - s)%nat; discriminate.
  - rewrite IH. split.
    + intros [[= <- <-]|[Hle Hn]].
      * split; [lia|]. rewrite Nat.sub_diag. reflexivity.
      * split; [lia|]. replace (i - s)%nat with (S (i - S s)) by lia. exact Hn.
    + intros [Hle Hn]. destruct (i - s)%nat as [|m] eqn:E.
      * left. inversion Hn. f_equal. lia.
      * right. split; [lia|]. replace (i - S s)%nat with m by lia. exact Hn.
Qed.

Lemma in_indexed {A} (l : list A) i x :
  In (i, x) (indexed l) <-> nth_error l i = Some x.
Proof.
  unfold indexed. rewrite in_combine_seq, Nat.sub_0_r. split; [tauto|].
  intros H. split; [lia|exact H].
Qed.

Lemma indexed_fst {A} (l : list A) : map fst (indexed l) = seq 0 (List.length l).
Proof.
  unfold indexed. generalize 0%nat.
  induction l as [|a l IH]; intros s; simpl; [reflexivity|].
  rewrite IH. reflexivity.
Qed.

Lemma filter_keeps_distinct_positions {V} (keep : nat * V -> bool)
    (entries : list (nat * V)) :
  NoDup (map fst entries) -> NoDup (map fst (filter keep entries)).
Proof.
  induction entries as [|e entries IH]; simpl; intros Hd; [constructor|].
  inversion Hd as [|? ? Hfresh Hrest]; subst.
  destruct (keep e); simpl; [|auto].
  constructor; [|auto]. intros Hin. apply Hfresh.
  apply in_map_iff in Hin. destruct Hin as [x [E Hx]].
  apply filter_In in Hx. apply in_map_iff. exists x. tauto.
Qed.

Lemma NoDup_firstn {A} (n : nat) (l : list A) : NoDup l -> NoDup (firstn n l).
Proof.
  revert n. induction l as [|a l IH]; intros [|n] H; simpl; try constructor.
  - inversion H; subst. intros Hin. apply H2.
    rewrite <- (firstn_skipn n l). apply in_or_app. left. exact Hin.
  - inversion H; subst. apply IH. assumption.
Qed.

Lemma in_firstn {A} (n : nat) (l : list A) x : In x (firstn n l) -> In x l.
Proof.
  intros H. rewrite <- (firstn_skipn n l). apply in_or_app. left. exact H.
Qed.

Lemma firstn_map {A B} (f : A -> B) (n : nat) (l : list A) :
  firstn n (map f l) = map f (firstn n l).
Proof.
  revert n. induction l as [|a l IH]; intros [|n]; simpl; try reflexivity.
  rewrite IH. reflexivity.
Qed.

Lemma isDue_spec now j : isDue now j = true <-> eligible now j.
Proof.
  unfold isDue, eligible. destruct (ScheduledJob.status j); rewrite ?Z.leb_le;
    split; try tauto; try discriminate; intros [H _]; discriminate.
Qed.

Lemma in_sortedDue st now i j :
  In (i, j) (sortedDue st now)
  <-> nth_error (scheduledJobs st) i = Some j /\ eligible now j.
Proof.
  unfold sortedDue. split.
  - intros H. apply (Permutation_in _ (sortBy_perm _ _)) in H.
    apply filter_In in H. destruct H as [H1 H2].
    apply in_indexed in H1. apply isDue_spec in H2. tauto.
  - intros [H1 H2]. apply (Permutation_in _ (Permutation_sym (sortBy_perm _ _))).
    apply filter_In. split; [apply in_indexed; exact H1|apply isDue_spec; exact H2].
Qed.

Lemma sortedDue_sorted st now :
  StronglySorted (fun a b => jobOrder (snd a) (snd b)) (sortedDue st now).
Proof.
  unfold sortedDue.
  assert (H := sortBy_sorted (fun a b : nat * ScheduledJob.t => jobBefore (snd a) (snd b))
    (fun x y => jobBefore_total (snd x) (snd y))
    (fun x y z => jobBefore_trans (snd x) (snd y) (snd z))
    (filter (fun e => isDue now (snd e)) (indexed (scheduledJobs st)))).
  revert H. generalize (sortBy (fun a b : nat * ScheduledJob.t => jobBefore (snd a) (snd b))
    (filter (fun e => isDue now (snd e)) (indexed (scheduledJobs st)))).
  intros l H. induction H as [|x l Hl IH Hx]; constructor; [exact IH|].
  rewrite Forall_forall in *. intros y Hy. apply jobBefore_spec. auto.
Qed.

Lemma dueJobs_indices st now : NoDup (map fst (dueJobs st now)).
Proof.
  unfold dueJobs. rewrite <- firstn_map. apply NoDup_firstn.
  eapply Permutation_NoDup.
  - apply Permutation_map. apply Permutation_sym. apply sortBy_perm.
  - apply filter_keeps_distinct_positions. rewrite indexed_fst. apply seq_NoDup.
Qed.

Lemma nth_error_updateNth {A} (f : A -> A) (l : list A) : forall i k,
  nth_error (updateNth i f l) k
  = if Nat.eqb k i then option_map f (nth_error l k) else nth_error l k.
Proof.
  induction l as [|a l IH]; intros [|i] [|k]; simpl; try reflexivity;
    try (destruct (Nat.eqb _ _); reflexivity).
  apply IH.
Qed.

Lemma map_updateNth {A B} (g : A -> B) (f : A -> A) (l : list A) i :
  (forall x, g (f x) = g x) -> map g (updateNth i f l) = map g l.
Proof.
  intros H. revert i. induction l as [|a l IH]; intros [|i]; simpl;
    try reflexivity; rewrite ?H, ?IH; reflexivity.
Qed.

(** With distinct ids, the first job with the id of the job at a position
    is the job at that position. *)
Lemma updateFirst_by_id (f : ScheduledJob.t -> ScheduledJob.t) (l : list ScheduledJob.t) :
  forall i j,
  NoDup (map ScheduledJob.id l) ->
  nth_error l i = Some j ->
  updateFirst (isJob (ScheduledJob.id j)) f l = updateNth i f l
  /\ find (isJob (ScheduledJob.id j)) l = Some j.
Proof.
  induction l as [|a l IH]; intros [|i] j Hnd Hn; simpl in *; try discriminate.
  - inversion Hn; subst. unfold isJob. rewrite String.eqb_refl. auto.
  - inversion Hnd as [|? ? Hnotin Hl]; subst.
    unfold isJob at 1 3. destruct (String.eqb_spec (ScheduledJob.id a) (ScheduledJob.id j)) as [E|E].
    + exfalso. apply Hnotin. rewrite E. apply in_map. eapply nth_error_In. exact Hn.
    + destruct (IH i j Hl Hn) as [H1 H2]. rewrite H1, H2. auto.
Qed.

Lemma runJobHandler_frame st createId now job :
  let st' := fst (runJobHandler env st createId now job) in
  scheduledJobs st' = scheduledJobs st /\ bookings st' = bookings st
  /\ contacts st' = contacts st.
Proof.
  unfold runJobHandler. destruct (ScheduledJob.jobType job).
  - destruct (find _ (bookings st)) as [b|]; [|simpl; auto].
    destruct (Booking.status b); try (simpl; auto; fail);
      (destruct (find _ (contacts st)); [|simpl; auto];
       destruct (reminderError env _); simpl; [auto|];
       rewrite emitEvent_scheduledJobs, emitEvent_bookings, emitEvent_contacts; auto).
  - destruct (find _ (formRequests st)) as [r|]; [|simpl; auto].
    destruct (FormRequest.status r); try (simpl; auto; fail).
    destruct (_ <=? _); simpl; [|auto].
    rewrite emitEvent_scheduledJobs, emitEvent_bookings, emitEvent_contacts. auto.
Qed.

Lemma runJobHandler_error st createId now job job' st0 :
  bookings st = bookings st0 -> contacts st = contacts st0 ->
  ScheduledJob.id job' = ScheduledJob.id job ->
  ScheduledJob.jobType job' = ScheduledJob.jobType job ->
  ScheduledJob.payload job' = ScheduledJob.payload job ->
  ScheduledJob.workspaceId job' = ScheduledJob.workspaceId job ->
  snd (runJobHandler env st createId now job') = handlerError env st0 job.
Proof.
  intros Hb Hc Hid Hty Hpl Hws. unfold handlerError, runJobHandler.
  rewrite Hty, Hpl, Hws, Hid, Hb, Hc.
  destruct (ScheduledJob.jobType job).
  - destruct (find _ (bookings st0)) as [b|]; [|reflexivity].
    destruct (Booking.status b); try reflexivity;
      (destruct (find _ (contacts st0)); [|reflexivity];
       destruct (reminderError env _); reflexivity).
  - destruct (find _ (formRequests st)) as [r|];
      destruct (find _ (formRequests st0)) as [r0|];
      repeat match goal with
             | |- context [match FormRequest.status ?x with _ => _ end] =>
               destruct (FormRequest.status x)
             | |- context [if ?c then _ else _] => destruct c
             end; reflexivity.
Qed.

(** One iteration of the loop of the tick, on a job that is still as it was
    selected. *)
Lemma workJob_step st createId now k i j st0 :
  NoDup (map ScheduledJob.id (scheduledJobs st)) ->
  nth_error (scheduledJobs st) i = Some j ->
  bookings st = bookings st0 -> contacts st = contacts st0 ->
  let st' := fst (workJob env createId now (st, k) (i, j)) in
  map ScheduledJob.id (scheduledJobs st') = map ScheduledJob.id (scheduledJobs st)
  /\ bookings st' = bookings st0 /\ contacts st' = contacts st0
  /\ (forall n, n <> i -> nth_error (scheduledJobs st') n = nth_error (scheduledJobs st) n)
  /\ exists j',
       nth_error (scheduledJobs st') i = Some j'
       /\ ScheduledJob.id j' = ScheduledJob.id j
       /\ ScheduledJob.attempts j' = ScheduledJob.attempts j + 1
       /\ match handlerError env st0 j with
          | None => ScheduledJob.status j' = done
          | Some e => ScheduledJob.status j' = failed
                      /\ ScheduledJob.lastError j' = Some e
          end.
Proof.
  intros Hnd Hn Hb Hc. unfold workJob. cbv zeta. cbn [fst snd].
  set (jobs1 := updateNth i (ScheduledJob.lock "local-worker-1" now) (scheduledJobs st)).
  set (st1 := set_scheduledJobs jobs1 st).
  assert (Hids1 : map ScheduledJob.id jobs1 = map ScheduledJob.id (scheduledJobs st)).
  { apply map_updateNth. reflexivity. }
  assert (Hn1 : nth_error jobs1 i = Some (ScheduledJob.lock "local-worker-1" now j)).
  { unfold jobs1. rewrite nth_error_updateNth, Nat.eqb_refl, Hn. reflexivity. }
  assert (Hnd1 : NoDup (map ScheduledJob.id jobs1)) by (rewrite Hids1; exact Hnd).
  destruct (updateFirst_by_id (ScheduledJob.settle done None now) jobs1 i _ Hnd1 Hn1)
    as [Hdone Hfind].
  destruct (updateFirst_by_id (fun x => ScheduledJob.settle failed
              (handlerError env st0 j) now x) jobs1 i _ Hnd1 Hn1) as [Hfail _].
  simpl ScheduledJob.id in Hdone, Hfind, Hfail.
  unfold processJob. change (scheduledJobs st1) with jobs1. rewrite Hfind.
  pose proof (runJobHandler_frame st1 (createId k) now
                (ScheduledJob.lock "local-worker-1" now j)) as Hframe.
  pose proof (runJobHandler_error st1 (createId k) now j
                (ScheduledJob.lock "local-worker-1" now j) st0 Hb Hc
                eq_refl eq_refl eq_refl eq_refl) as Herr.
  destruct (runJobHandler env st1 (createId k) now
              (ScheduledJob.lock "local-worker-1" now j)) as [st2 r].
  cbv zeta in Hframe. simpl fst in Hframe. simpl snd in Herr.
  destruct Hframe as (Hj2 & Hb2 & Hc2). change (scheduledJobs st1) with jobs1 in Hj2.
  simpl bookings in Hb2. simpl contacts in Hc2.
  rewrite <- Herr. destruct r as [e|].
  - unfold createAlert. simpl. rewrite Hj2.
    assert (E : updateFirst (isJob (ScheduledJob.id j))
                  (ScheduledJob.settle failed (Some e) now) jobs1
                = updateNth i (ScheduledJob.settle failed (Some e) now) jobs1).
    { rewrite <- Herr in Hfail. exact Hfail. }
    rewrite E. split; [rewrite map_updateNth by reflexivity; exact Hids1|].
    split; [congruence|]. split; [congruence|]. split.
    + intros n Hne. rewrite nth_error_updateNth.
      destruct (Nat.eqb_spec n i); [contradiction|].
      unfold jobs1. rewrite nth_error_updateNth.
      destruct (Nat.eqb_spec n i); [contradiction|reflexivity].
    + eexists. rewrite nth_error_updateNth, Nat.eqb_refl, Hn1. simpl.
      split; [reflexivity|]. repeat split; reflexivity.
  - simpl. rewrite Hj2, Hdone.
    split; [rewrite map_updateNth by reflexivity; exact Hids1|].
    split; [congruence|]. split; [congruence|]. split.
    + intros n Hne. rewrite nth_error_updateNth.
      destruct (Nat.eqb_spec n i); [contradiction|].
      unfold jobs1. rewrite nth_error_updateNth.
      destruct (Nat.eqb_spec n i); [contradiction|reflexivity].
    + eexists. rewrite nth_error_updateNth, Nat.eqb_refl, Hn1. simpl.
      split; [reflexivity|]. repeat split; reflexivity.
Qed.


Lemma tick_loop createId now st0 : forall L st k,
  NoDup (map ScheduledJob.id (scheduledJobs st)) ->
  NoDup (map fst L) ->
  (forall i j, In (i, j) L -> nth_error (scheduledJobs st) i = Some j) ->
  bookings st = bookings st0 -> contacts st = contacts st0 ->
  let st' := fst (fold_left (workJob env createId now) L (st, k)) in
  (forall n, ~ In n (map fst L) ->
     nth_error (scheduledJobs st') n = nth_error (scheduledJobs st) n)
  /\ forall i j, In (i, j) L ->
       exists j',
         nth_error (scheduledJobs st') i = Some j'
         /\ ScheduledJob.id j' = ScheduledJob.id j
         /\ ScheduledJob.attempts j' = ScheduledJob.attempts j + 1
         /\ match handlerError env st0 j with
            | None => ScheduledJob.status j' = done
            | Some e => ScheduledJob.status j' = failed
                        /\ ScheduledJob.lastError j' = Some e
            end.
Proof.
  induction L as [|[i j] L IH]; intros st k Hnd HndL Hnth Hb Hc; cbn [fold_left].
  - split; [reflexivity|]. intros i j [].
  - inversion HndL as [|? ? Hnotin HndL']; subst.
    destruct (workJob_step st createId now k i j st0 Hnd
                (Hnth i j (or_introl eq_refl)) Hb Hc)
      as (Hids & Hb1 & Hc1 & Hother & j' & Hi & Hid & Hatt & Hst).
    destruct (workJob env createId now (st, k) (i, j)) as [st1 k1] eqn:Hstep.
    cbn [fst] in *.
    assert (Hnd1 : NoDup (map ScheduledJob.id (scheduledJobs st1)))
      by (rewrite Hids; exact Hnd).
    assert (Hnth1 : forall i' j0, In (i', j0) L ->
              nth_error (scheduledJobs st1) i' = Some j0).
    { intros i' j0 Hin. rewrite Hother.
      - apply Hnth. right. exact Hin.
      - intros ->. apply Hnotin. apply (in_map fst) in Hin. exact Hin. }
    destruct (IH st1 k1 Hnd1 HndL' Hnth1 Hb1 Hc1) as [IHo IHj].
    split.
    + intros n Hn. rewrite IHo by (intros Hin; apply Hn; right; exact Hin).
      apply Hother. intros ->. apply Hn. left. reflexivity.
    + intros i0 j0 [[= <- <-]|Hin].
      * exists j'. rewrite IHo by exact Hnotin. auto.
      * apply IHj. exact Hin.
Qed.

(** C9. A tick selects at most ten jobs; each is a queued job of the store
    whose due instant is not after now; they come ordered by priority (high
    before normal before low) and, within a priority, by due instant
    ascending; and a queued, due job that is not selected comes, in that
    order, after all ten selected ones. With distinct job ids, a selected
    job whose handler throws no exception ends the tick with status done and
    one attempt more, so a fresh one with attempts = 1. *)
Theorem worker_tick (st : AppState) (createId : nat -> nat -> string) (now : Z) :
  NoDup (map ScheduledJob.id (scheduledJobs st)) ->
  let selected := dueJobs (cleanupExpiredRecords st now) now in
  let st' := runWorkerTick env st createId now in
  (List.length selected <= 10)%nat
  /\ (forall i j, In (i, j) selected ->
        nth_error (scheduledJobs st) i = Some j /\ eligible now j)
  /\ StronglySorted (fun a b => jobOrder (snd a) (snd b)) selected
  /\ (forall i j, nth_error (scheduledJobs st) i = Some j -> eligible now j ->
        In (i, j) selected
        \/ (List.length selected = 10%nat
            /\ forall e, In e selected -> jobOrder (snd e) j))
  /\ (forall i j, In (i, j) selected ->
        handlerError env st j = None ->
        exists j',
          nth_error (scheduledJobs st') i = Some j'
          /\ ScheduledJob.id j' = ScheduledJob.id j
          /\ ScheduledJob.status j' = done
          /\ ScheduledJob.attempts j' = ScheduledJob.attempts j + 1
          /\ (ScheduledJob.attempts j = 0 -> ScheduledJob.attempts j' = 1)).
Proof.
  intros Hnd selected st'.
  set (st0 := cleanupExpiredRecords st now).
  assert (Hjobs : scheduledJobs st0 = scheduledJobs st) by reflexivity.
  assert (Hsel : selected = firstn 10 (sortedDue st0 now)) by reflexivity.
  assert (Hin : forall i j, In (i, j) selected ->
            nth_error (scheduledJobs st) i = Some j /\ eligible now j).
  { intros i j H. rewrite Hsel in H. apply in_firstn in H.
    apply in_sortedDue in H. rewrite Hjobs in H. exact H. }
  split; [rewrite Hsel; apply firstn_le_length|].
  split; [exact Hin|].
  split; [rewrite Hsel; apply StronglySorted_firstn; apply sortedDue_sorted|].
  split.
  - intros i j Hn He.
    assert (Hs : In (i, j) (sortedDue st0 now))
      by (apply in_sortedDue; rewrite Hjobs; auto).
    rewrite <- (firstn_skipn 10 (sortedDue st0 now)) in Hs.
    apply in_app_or in Hs. destruct Hs as [Hs|Hs]; [left; rewrite Hsel; exact Hs|].
    right. split.
    + rewrite Hsel. apply firstn_length_le.
      destruct (le_lt_dec 10 (List.length (sortedDue st0 now))) as [Hl|Hl]; [exact Hl|].
      rewrite skipn_all2 in Hs by lia. destruct Hs.
    + intros e He'. rewrite Hsel in He'.
      apply (StronglySorted_firstn_skipn _ 10 _ (sortedDue_sorted st0 now) e (i, j) He' Hs).
  - intros i j Hsel_ij Herr.
    destruct (tick_loop createId now st0 selected st0 0%nat) as [_ Hloop].
    + rewrite Hjobs. exact Hnd.
    + apply dueJobs_indices.
    + intros i0 j0 H. rewrite Hjobs. apply Hin. exact H.
    + reflexivity.
    + reflexivity.
    + destruct (Hloop i j Hsel_ij) as (j' & H1 & H2 & H3 & H4).
      assert (E : handlerError env st0 j = handlerError env st j)
        by (unfold handlerError at 1; apply runJobHandler_error; reflexivity).
      rewrite E, Herr in H4.
      exists j'. split; [exact H1|]. split; [exact H2|]. split; [exact H4|].
      split; [exact H3|]. intros Hz. rewrite H3, Hz. reflexivity.
Qed.

End Worker.

(** ** The no-overlap invariant *)

Section NoOverlap.

Variable env : Collaborators.

Lemma updateFirst_nth {A} (p : A -> bool) (f : A -> A) (l : list A) (x : A) :
  find p l = Some x ->
  exists n,
    nth_error l n = Some x
    /\ nth_error (updateFirst p f l) n = Some (f x)
    /\ forall m, m <> n -> nth_error (updateFirst p f l) m = nth_error l m.
Proof.
  induction l as [|a l IH]; simpl; [discriminate|].
  destruct (p a) eqn:Ha.
  - intros [= ->]. exists 0%nat. repeat split.
    intros [|m] Hm; [contradiction|reflexivity].
  - intros Hx. destruct (IH Hx) as (n & H1 & H2 & H3).
    exists (S n). repeat split; try assumption.
    intros [|m] Hm; [reflexivity|]. simpl. apply H3. lia.
Qed.

Lemma map_updateFirst {A B} (g : A -> B) (p : A -> bool) (f : A -> A) (l : list A) :
  (forall x, g (f x) = g x) -> map g (updateFirst p f l) = map g l.
Proof.
  intros H. induction l as [|a l IH]; simpl; [reflexivity|].
  destruct (p a); simpl; rewrite ?H, ?IH; reflexivity.
Qed.

Lemma NoDup_nth_id (l : list Booking.t) i j b1 b2 :
  NoDup (map Booking.id l) ->
  nth_error l i = Some b1 -> nth_error l j = Some b2 ->
  Booking.id b1 = Booking.id b2 -> i = j.
Proof.
  intros Hnd H1 H2 E.
  apply (proj1 (NoDup_nth_error (map Booking.id l)) Hnd).
  - apply nth_error_Some. rewrite nth_error_map, H1. discriminate.
  - rewrite !nth_error_map, H1, H2. simpl. congruence.
Qed.

(** What a negative answer of the guard rules out. *)
Lemma guard_false l st w s e ex b :
  bookings st = l ->
  isBookingOverlapping st w s e ex = false ->
  In b l -> Booking.workspaceId b = w -> active b ->
  isExcluded ex (Booking.id b) = false ->
  ~ (s < Booking.endsAt b /\ Booking.startsAt b < e).
Proof.
  intros Hl Hg Hin Hw [Ha1 Ha2] Hex [H1 H2].
  unfold isBookingOverlapping in Hg. rewrite Hl in Hg.
  assert (Ht : existsb (fun booking =>
    if negb (String.eqb (Booking.workspaceId booking) w) then false
    else if isExcluded ex (Booking.id booking) then false
    else match Booking.status booking with
         | cancelled | no_show => false
         | _ => (s <? Booking.endsAt booking) && (Booking.startsAt booking <? e)
         end) l = true).
  { apply existsb_exists. exists b. split; [exact Hin|].
    rewrite Hw, String.eqb_refl, Hex. simpl.
    apply Z.ltb_lt in H1. apply Z.ltb_lt in H2.
    destruct (Booking.status b); try congruence; rewrite H1, H2; reflexivity. }
  congruence.
Qed.

(** Replacing one booking keeps the invariant when the replacement either
    keeps the interval and does not become active, or has passed the guard
    against all the others. *)
Lemma noOverlap_replace (l : list Booking.t) p (b b' : Booking.t) :
  NoDup (map Booking.id l) ->
  noOverlap l ->
  find p l = Some b ->
  Booking.id b' = Booking.id b ->
  Booking.workspaceId b' = Booking.workspaceId b ->
  ((Booking.startsAt b' = Booking.startsAt b /\ Booking.endsAt b' = Booking.endsAt b
    /\ (active b' -> active b))
   \/ (forall b2, In b2 l -> Booking.id b2 <> Booking.id b ->
         Booking.workspaceId b2 = Booking.workspaceId b -> active b2 ->
         ~ (Booking.startsAt b' < Booking.endsAt b2
            /\ Booking.startsAt b2 < Booking.endsAt b'))) ->
  NoDup (map Booking.id (updateFirst p (fun _ => b') l))
  /\ noOverlap (updateFirst p (fun _ => b') l).
Proof.
  intros Hnd Hinv Hfind Hid Hws Hcase.
  destruct (updateFirst_nth p (fun _ => b') l b Hfind) as (n & Hn & Hn' & Hother).
  assert (Hids : map Booking.id (updateFirst p (fun _ => b') l) = map Booking.id l).
  { clear - Hfind Hid. revert Hfind. induction l as [|a l IH]; simpl; [reflexivity|].
    destruct (p a).
    - intros [= ->]. simpl. rewrite Hid. reflexivity.
    - intros H. simpl. rewrite IH by exact H. reflexivity. }
  split; [rewrite Hids; exact Hnd|].
  assert (Hpair : forall j b2, j <> n -> nth_error l j = Some b2 ->
            Booking.workspaceId b' = Booking.workspaceId b2 ->
            active b' -> active b2 -> ~ overlaps b' b2).
  { intros j b2 Hj Hb2 Hw Ha' Ha2 Hov.
    destruct Hcase as [(Hs & He & Hact)|Hguard].
    - apply (Hinv n j b b2); auto; try congruence.
      unfold overlaps in *. rewrite <- Hs, <- He. exact Hov.
    - apply (Hguard b2); auto.
      + eapply nth_error_In. exact Hb2.
      + intros E. apply Hj. eapply NoDup_nth_id; eauto.
      + congruence. }
  intros i j b1 b2 Hij H1 H2 Hw A1 A2.
  destruct (Nat.eq_dec i n) as [->|Hi]; destruct (Nat.eq_dec j n) as [->|Hj].
  - contradiction.
  - rewrite Hn' in H1. inversion H1; subst b1. rewrite Hother in H2 by exact Hj.
    apply (Hpair j b2); auto.
  - rewrite Hn' in H2. inversion H2; subst b2. rewrite Hother in H1 by exact Hi.
    intros [O1 O2]. apply (Hpair i b1); auto. split; assumption.
  - rewrite Hother in H1 by exact Hi. rewrite Hother in H2 by exact Hj.
    apply (Hinv i j b1 b2); auto.
Qed.

(** Adding a booking that has passed the guard keeps the invariant. *)
Lemma noOverlap_add (l : list Booking.t) (b : Booking.t) :
  NoDup (map Booking.id l) ->
  noOverlap l ->
  ~ In (Booking.id b) (map Booking.id l) ->
  (forall b2, In b2 l -> Booking.workspaceId b2 = Booking.workspaceId b -> active b2 ->
     ~ (Booking.startsAt b < Booking.endsAt b2
        /\ Booking.startsAt b2 < Booking.endsAt b)) ->
  NoDup (map Booking.id (l ++ [b])) /\ noOverlap (l ++ [b]).
Proof.
  intros Hnd Hinv Hfresh Hguard. split.
  - rewrite map_app. simpl. apply NoDup_app.
    + exact Hnd.
    + constructor; [intros []|constructor].
    + intros x Hx [<-|[]]. contradiction.
  - assert (Hlast : forall i x, nth_error (l ++ [b]) i = Some x ->
              (i < List.length l)%nat /\ nth_error l i = Some x
              \/ i = List.length l /\ x = b).
    { intros i x H. destruct (Nat.lt_ge_cases i (List.length l)) as [Hl|Hl].
      - left. rewrite nth_error_app1 in H by exact Hl. auto.
      - right. rewrite nth_error_app2 in H by exact Hl.
        destruct (i - List.length l)%nat as [|m] eqn:E; simpl in H.
        + inversion H. split; [lia|reflexivity].
        + destruct m; discriminate. }
    intros i j b1 b2 Hij H1 H2 Hw A1 A2.
    destruct (Hlast i b1 H1) as [[Hi H1']|[Hi ->]];
      destruct (Hlast j b2 H2) as [[Hj H2']|[Hj ->]].
    + apply (Hinv i j b1 b2); auto.
    + intros [O1 O2]. apply (Hguard b1); auto.
      eapply nth_error_In. exact H1'.
    + apply (Hguard b2); auto. eapply nth_error_In. exact H2'.
    + lia.
Qed.


Lemma isOwnBooking_workspace w id b :
  isOwnBooking w id b = true -> Booking.workspaceId b = w /\ Booking.id b = id.
Proof.
  unfold isOwnBooking. intros H.
  apply andb_true_iff in H. destruct H as [H _].
  apply andb_true_iff in H. destruct H as [H1 H2].
  apply String.eqb_eq in H1. apply String.eqb_eq in H2. auto.
Qed.

Lemma patchBookingStatus_bookings st createId now workspace id rawStatus cal :
  let st' := fst (patchBookingStatus env st createId now workspace id rawStatus cal) in
  bookings st' = bookings st
  \/ exists booking b',
       find (isOwnBooking (ws_id workspace) id) (bookings st) = Some booking
       /\ Booking.id b' = Booking.id booking
       /\ Booking.workspaceId b' = Booking.workspaceId booking
       /\ Booking.startsAt b' = Booking.startsAt booking
       /\ Booking.endsAt b' = Booking.endsAt booking
       /\ (active b' -> active booking)
       /\ bookings st'
          = updateFirst (isOwnBooking (ws_id workspace) id) (fun _ => b') (bookings st).
Proof.
  cbv zeta.
  destruct (find (isOwnBooking (ws_id workspace) id) (bookings st)) as [booking|] eqn:Hfind.
  2:{ left. unfold patchBookingStatus. rewrite Hfind. reflexivity. }
  destruct (parseBookingStatus rawStatus) as [target|] eqn:Hparse.
  2:{ left. unfold patchBookingStatus. rewrite Hfind, Hparse. reflexivity. }
  destruct (includes (transitions (Booking.status booking)) target) eqn:Hinc.
  2:{ left. unfold patchBookingStatus. rewrite Hfind, Hparse, Hinc. reflexivity. }
  destruct (patchBookingStatus_cases env st createId now workspace id rawStatus cal
              booking target Hfind Hparse Hinc)
    as [(e & _ & _ & Hres)|(st' & b' & Hres & Hs & Hi & Hw & _ & Hst & Hen & Hb)];
    rewrite Hres; simpl fst.
  - left. reflexivity.
  - right. exists booking, b'. repeat split; try assumption.
    + apply includes_transitions in Hinc.
      destruct Hinc as [[E _]|[E _]]; rewrite E; discriminate.
    + apply includes_transitions in Hinc.
      destruct Hinc as [[E _]|[E _]]; rewrite E; discriminate.
Qed.

Lemma deleteBooking_bookings st createId now workspace id :
  let st' := fst (deleteBooking env st createId now workspace id) in
  bookings st' = bookings st
  \/ exists booking b',
       find (isOwnBooking (ws_id workspace) id) (bookings st) = Some booking
       /\ Booking.id b' = Booking.id booking
       /\ Booking.workspaceId b' = Booking.workspaceId booking
       /\ Booking.startsAt b' = Booking.startsAt booking
       /\ Booking.endsAt b' = Booking.endsAt booking
       /\ (active b' -> active booking)
       /\ bookings st'
          = updateFirst (isOwnBooking (ws_id workspace) id) (fun _ => b') (bookings st).
Proof.
  cbv zeta. unfold deleteBooking.
  destruct (find (isOwnBooking (ws_id workspace) id) (bookings st)) as [booking|] eqn:Hfind.
  2:{ left. reflexivity. }
  right. simpl fst. rewrite emitEvent_bookings. simpl.
  exists booking,
    (Booking.with_calendarEventId None
       (Booking.with_updatedAt now
          (Booking.with_deletedAt (Some now)
             (Booking.with_status cancelled booking)))).
  split; [reflexivity|].
  do 4 (split; [reflexivity|]).
  split; [|reflexivity]. intros [Hc _]. simpl in Hc. congruence.
Qed.

Lemma rescheduleBooking_bookings st createId now workspace id input cal :
  let st' := fst (rescheduleBooking env st createId now workspace id input cal) in
  bookings st' = bookings st
  \/ exists booking b',
       find (isOwnBooking (ws_id workspace) id) (bookings st) = Some booking
       /\ Booking.id b' = Booking.id booking
       /\ Booking.workspaceId b' = Booking.workspaceId booking
       /\ isBookingOverlapping st (ws_id workspace) (Booking.startsAt b')
            (Booking.endsAt b') (Some (Booking.id booking)) = false
       /\ bookings st'
          = updateFirst (isOwnBooking (ws_id workspace) id) (fun _ => b') (bookings st).
Proof.
  cbv zeta. unfold rescheduleBooking.
  destruct (find (isOwnBooking (ws_id workspace) id) (bookings st)) as [booking|] eqn:Hfind;
    [|left; reflexivity].
  destruct (Booking.status booking); try (left; reflexivity);
    (destruct (negb (truthy input)); [left; reflexivity|];
     destruct (parseDate env input) as [startsAt|]; [|left; reflexivity];
     destruct (find _ (services st)) as [service|]; [|left; reflexivity];
     cbv zeta;
     destruct (negb (isWithinAvailabilityRule _ _ _ _ _ _ _ _)); [left; reflexivity|];
     destruct (isBookingOverlapping st _ _ _ _) eqn:Hov; [left; reflexivity|];
     right; simpl fst; rewrite emitEvent_bookings; simpl bookings;
     exists booking; eexists;
     split; [reflexivity|];
     split; [|split; [|split; [|reflexivity]]];
     (destruct (find _ (contacts st));
      [unfold storeCalendarEvent; destruct (_ && _)|]);
     try reflexivity; exact Hov).
Qed.

Lemma createPublicBooking_bookings st createId now workspace key path body cal :
  let st' := fst (createPublicBooking env st createId now workspace key path body cal) in
  bookings st' = bookings st
  \/ exists w b,
       workspace = Some w
       /\ Booking.id b = createId 1%nat
       /\ Booking.workspaceId b = ws_id w
       /\ isBookingOverlapping st (ws_id w) (Booking.startsAt b) (Booking.endsAt b) None
          = false
       /\ bookings st' = bookings st ++ [b].
Proof.
  cbv zeta. unfold createPublicBooking.
  destruct workspace as [w|]; [|left; reflexivity].
  destruct key as [k|]; [|left; reflexivity].
  destruct (negb (truthy k)); [left; reflexivity|].
  destruct (findIdempotency st (ws_id w) k "POST" path) as [existing|].
  { destruct (negb _); left; reflexivity. }
  destruct (commitPublicBooking_cases env st createId now w k path
              (requestHashOf env body) body cal)
    as [(code & e & Hfail)|(st' & reply & Hok & Hshape)].
  - rewrite Hfail. left. reflexivity.
  - rewrite Hok. right. simpl fst.
    destruct Hshape as (service & startsAt & b & snap & _ & _ & Hov & Hid & Hw & _
                        & Hs & He & _ & Hb & _).
    exists w, b. split; [reflexivity|]. split; [exact Hid|]. split; [exact Hw|].
    split; [rewrite Hs, He; exact Hov|exact Hb].
Qed.

(** The invariant that carries the proof: distinct ids and no overlap. *)
Lemma reachable_invariant st :
  reachable env st ->
  NoDup (map Booking.id (bookings st)) /\ noOverlap (bookings st).
Proof.
  induction 1 as [ | st st' _ IH Hsame
                   | st createId now workspace key path body cal _ IH Hfresh
                   | st createId now workspace id input cal _ IH
                   | st createId now workspace id rawStatus cal _ IH
                   | st createId now workspace id _ IH ].
  - simpl. split; [constructor|]. intros [|i] j b1 b2 _ H; discriminate H.
  - rewrite Hsame. exact IH.
  - destruct IH as [Hnd Hinv].
    destruct (createPublicBooking_bookings st createId now workspace key path body cal)
      as [E|(w & b & _ & Hid & Hw & Hov & E)]; rewrite E; [auto|].
    apply noOverlap_add; auto.
    + rewrite Hid. exact Hfresh.
    + intros b2 Hin Hw2 Ha2.
      apply (guard_false (bookings st) st (ws_id w) _ _ None b2 eq_refl Hov Hin);
        [congruence|exact Ha2|reflexivity].
  - destruct IH as [Hnd Hinv].
    destruct (rescheduleBooking_bookings st createId now workspace id input cal)
      as [E|(booking & b' & Hfind & Hid & Hw & Hov & E)]; rewrite E; [auto|].
    apply (noOverlap_replace (bookings st) _ booking b' Hnd Hinv Hfind Hid Hw).
    right. intros b2 Hin Hne Hw2 Ha2.
    apply (guard_false (bookings st) st (ws_id workspace) _ _
             (Some (Booking.id booking)) b2 eq_refl Hov Hin).
    + rewrite Hw2. apply find_some in Hfind. destruct Hfind as [_ Hp].
      apply isOwnBooking_workspace in Hp. apply Hp.
    + exact Ha2.
    + simpl. apply andb_false_iff. right. apply String.eqb_neq. exact Hne.
  - destruct IH as [Hnd Hinv].
    destruct (patchBookingStatus_bookings st createId now workspace id rawStatus cal)
      as [E|(booking & b' & Hfind & Hid & Hw & Hs & He & Hact & E)]; rewrite E; [auto|].
    apply (noOverlap_replace (bookings st) _ booking b' Hnd Hinv Hfind Hid Hw).
    left. auto.
  - destruct IH as [Hnd Hinv].
    destruct (deleteBooking_bookings st createId now workspace id)
      as [E|(booking & b' & Hfind & Hid & Hw & Hs & He & Hact & E)]; rewrite E; [auto|].
    apply (noOverlap_replace (bookings st) _ booking b' Hnd Hinv Hfind Hid Hw).
    left. auto.
Qed.

(** C1. In every state that public booking creation, reschedule, status
    change and soft delete produce from the empty store, two distinct
    bookings of one tenant that are neither cancelled nor no-show do not
    overlap: not both [b1.start < b2.end] and [b2.start < b1.end]. Each of
    the four commands, applied to a state where this holds and ids are
    distinct, gives a state where it holds. *)
Theorem no_overlap_invariant (st : AppState) :
  reachable env st ->
  forall i j b1 b2,
    i <> j ->
    nth_error (bookings st) i = Some b1 ->
    nth_error (bookings st) j = Some b2 ->
    Booking.workspaceId b1 = Booking.workspaceId b2 ->
    Booking.status b1 <> cancelled -> Booking.status b1 <> no_show ->
    Booking.status b2 <> cancelled -> Booking.status b2 <> no_show ->
    ~ (Booking.startsAt b1 < Booking.endsAt b2
       /\ Booking.startsAt b2 < Booking.endsAt b1).
Proof.
  intros Hreach i j b1 b2 Hij H1 H2 Hw A1 A1' A2 A2'.
  destruct (reachable_invariant st Hreach) as [_ Hinv].
  apply (Hinv i j b1 b2 Hij H1 H2 Hw); split; assumption.
Qed.

End NoOverlap.

(** * Further properties of the code *)

(** ** The slot listing *)

Section SlotListing.

Variable env : Collaborators.

Lemma getPublicSlots_sent st workspace serviceId date code slots :
  getPublicSlots env st (Some workspace) serviceId date = Sent code slots ->
  exists service d,
    date = DateGiven d
    /\ find (fun item => String.eqb (Service.id item) serviceId
                         && String.eqb (Service.workspaceId item) (ws_id workspace)
                         && Service.isActive item) (services st) = Some service
    /\ code = 200
    /\ slots = sortBy (fun l r => slot_startsAt l <=? slot_startsAt r)
                 (collectSlots st (ws_id workspace) (Service.durationMin service)
                    (resolveAvailabilityForDate env st
                       (slotsInput env workspace service d))).
Proof.
  unfold getPublicSlots.
  destruct (negb (truthy serviceId) || _); [discriminate|].
  destruct (find _ (services st)) as [service|]; [|discriminate].
  destruct date as [| |d]; try discriminate.
  intros [= <- <-]. exists service, d. repeat split.
Qed.

Lemma existsb_eqb_In (c : Z) (l : list Z) : existsb (Z.eqb c) l = true <-> In c l.
Proof.
  rewrite existsb_exists. split.
  - intros [x [Hin E]]. apply Z.eqb_eq in E. subst. exact Hin.
  - intros H. exists c. split; [exact H|apply Z.eqb_refl].
Qed.

Lemma slotLoop_wellFormed st w dur resolved window : forall fuel cursor acc,
  slotsWellFormed st w dur resolved acc ->
  slotsWellFormed st w dur resolved
    (slotLoop fuel st w dur resolved window cursor acc).
Proof.
  induction fuel as [|fuel IH]; intros cursor acc Hacc; simpl; [exact Hacc|].
  destruct (cursor <? endIso window); [|exact Hacc].
  destruct (endIso window <? addMinutes cursor dur); [exact Hacc|].
  apply IH.
  destruct (isBookingOverlapping st w cursor (addMinutes cursor dur) None) eqn:Hg;
    simpl; [exact Hacc|].
  destruct (isBlockedByException cursor (addMinutes cursor dur) resolved) eqn:Hb;
    simpl; [exact Hacc|].
  destruct (existsb (Z.eqb cursor) (snd acc)) eqn:Hs; simpl; [exact Hacc|].
  destruct Hacc as (H1 & H2 & H3). unfold slotsWellFormed. simpl.
  split; [rewrite map_app, H1; reflexivity|]. split.
  - apply NoDup_app; [exact H2|repeat constructor; intros []|].
    intros x Hx [<-|[]]. apply existsb_eqb_In in Hx. congruence.
  - intros slot Hin. apply in_app_or in Hin. destruct Hin as [Hin|[<-|[]]]; [auto|].
    simpl. auto.
Qed.

Lemma collectLoop_wellFormed st w dur resolved : forall ws acc,
  slotsWellFormed st w dur resolved acc ->
  slotsWellFormed st w dur resolved
    (fold_left
       (fun acc window =>
          slotLoop (slotFuel window) st w dur resolved window (startIso window) acc)
       ws acc).
Proof.
  induction ws as [|x ws IH]; intros acc Hacc; cbn [fold_left]; [exact Hacc|].
  apply IH. apply slotLoop_wellFormed. exact Hacc.
Qed.

Lemma collectSlots_wellFormed st w dur resolved :
  NoDup (map slot_startsAt (collectSlots st w dur resolved))
  /\ forall slot, In slot (collectSlots st w dur resolved) ->
       slot_endsAt slot = addMinutes (slot_startsAt slot) dur
       /\ isBookingOverlapping st w (slot_startsAt slot) (slot_endsAt slot) None = false
       /\ isBlockedByException (slot_startsAt slot) (slot_endsAt slot) resolved = false.
Proof.
  unfold collectSlots. destruct (closedAllDay resolved).
  - split; [constructor|intros slot []].
  - destruct (collectLoop_wellFormed st w dur resolved (windows resolved) ([], []))
      as (H1 & H2 & H3).
    + unfold slotsWellFormed. simpl. split; [reflexivity|].
      split; [constructor|intros slot []].
    + rewrite <- H1. split; assumption.
Qed.

Lemma slotLoop_grid st w dur resolved window : forall fuel j acc,
  0 <= stepMin window ->
  (forall slot, In slot (fst acc) ->
     exists w' k, In w' (windows resolved) /\ slotInside slot w'
                  /\ slot_startsAt slot = gridPoint w' k) ->
  In window (windows resolved) ->
  forall slot,
    In slot (fst (slotLoop fuel st w dur resolved window (gridPoint window j) acc)) ->
    exists w' k, In w' (windows resolved) /\ slotInside slot w'
                 /\ slot_startsAt slot = gridPoint w' k.
Proof.
  induction fuel as [|fuel IH]; intros j acc Hstep Hacc Hw slot; simpl.
  - apply Hacc.
  - destruct (gridPoint window j <? endIso window); [|apply Hacc].
    destruct (Z.ltb_spec (endIso window) (addMinutes (gridPoint window j) dur));
      [apply Hacc|].
    replace (addMinutes (gridPoint window j) (stepMin window))
      with (gridPoint window (S j)) by (unfold gridPoint, addMinutes; lia).
    apply IH; try assumption.
    destruct (_ && _); [|exact Hacc].
    simpl. intros s Hin. apply in_app_or in Hin. destruct Hin as [Hin|[<-|[]]].
    + apply Hacc. exact Hin.
    + exists window, j. split; [exact Hw|]. split; [|reflexivity].
      unfold slotInside, gridPoint in *. simpl. nia.
Qed.

Lemma collectSlots_grid st w dur input slot :
  let resolved := resolveAvailabilityForDate env st input in
  In slot (collectSlots st w dur resolved) ->
  exists w' k, In w' (windows resolved) /\ slotInside slot w'
               /\ slot_startsAt slot = gridPoint w' k.
Proof.
  intros resolved. unfold collectSlots.
  destruct (closedAllDay resolved); [intros []|].
  assert (G : forall ws acc,
    (forall x, In x ws -> In x (windows resolved)) ->
    (forall s, In s (fst acc) ->
       exists w' k, In w' (windows resolved) /\ slotInside s w'
                    /\ slot_startsAt s = gridPoint w' k) ->
    forall s,
      In s (fst (fold_left
             (fun acc window =>
                slotLoop (slotFuel window) st w dur resolved window (startIso window) acc)
             ws acc)) ->
      exists w' k, In w' (windows resolved) /\ slotInside s w'
                   /\ slot_startsAt s = gridPoint w' k).
  { induction ws as [|x ws IH]; intros acc Hsub Hacc s; cbn [fold_left];
      [apply Hacc|].
    apply IH.
    - intros y Hy. apply Hsub. right. exact Hy.
    - intros s0.
      replace (startIso x) with (gridPoint x 0) by (unfold gridPoint; simpl; lia).
      apply slotLoop_grid.
      + destruct (resolved_windows_shape env st input x (Hsub x (or_introl eq_refl))).
        lia.
      + exact Hacc.
      + apply Hsub. left. reflexivity. }
  apply G; [auto|]. intros s [].
Qed.

(** X1. Every slot that the slot listing offers lasts exactly the duration
    of the service, lies inside one of the windows resolved for the date and
    starts on the grid of that window (the window's start plus a multiple of
    its step), overlaps no booking of the tenant that is neither cancelled
    nor no-show, and meets no blocked window of the date. *)
Theorem offered_slots_are_free (st : AppState) (workspace : Workspace)
    (serviceId : string) (date : RawDate) (code : Z) (slots : list Slot) :
  getPublicSlots env st (Some workspace) serviceId date = Sent code slots ->
  exists service d,
    date = DateGiven d
    /\ In service (services st)
    /\ Service.id service = serviceId
    /\ forall slot, In slot slots ->
         let resolved := resolveAvailabilityForDate env st
                           (slotsInput env workspace service d) in
         slot_endsAt slot = addMinutes (slot_startsAt slot) (Service.durationMin service)
         /\ (exists w k, In w (windows resolved) /\ slotInside slot w
                          /\ slot_startsAt slot = gridPoint w k)
         /\ isBookingOverlapping st (ws_id workspace) (slot_startsAt slot)
              (slot_endsAt slot) None = false
         /\ isBlockedByException (slot_startsAt slot) (slot_endsAt slot) resolved = false.
Proof.
  intros Hsent.
  destruct (getPublicSlots_sent st workspace serviceId date code slots Hsent)
    as (service & d & Hd & Hfind & _ & Hslots).
  exists service, d. split; [exact Hd|].
  apply find_some in Hfind. destruct Hfind as [Hin Hp].
  split; [exact Hin|]. split.
  - apply andb_true_iff in Hp. destruct Hp as [Hp _].
    apply andb_true_iff in Hp. destruct Hp as [Hp _].
    apply String.eqb_eq. exact Hp.
  - intros slot Hslot resolved. subst slots.
    apply (Permutation_in _ (sortBy_perm _ _)) in Hslot.
    destruct (collectSlots_wellFormed st (ws_id workspace)
                (Service.durationMin service) resolved) as [_ Hall].
    destruct (Hall slot Hslot) as (H1 & H2 & H3).
    split; [exact H1|]. split; [|split; assumption].
    apply (collectSlots_grid st (ws_id workspace) (Service.durationMin service)
             (slotsInput env workspace service d) slot Hslot).
Qed.

(** X2. The slot listing answers its slots in strictly ascending order of
    their start instants: sorted, and no start instant twice. *)
Theorem offered_slots_strictly_ascending (st : AppState) (workspace : Workspace)
    (serviceId : string) (date : RawDate) (code : Z) (slots : list Slot) :
  getPublicSlots env st (Some workspace) serviceId date = Sent code slots ->
  StronglySorted (fun a b => slot_startsAt a < slot_startsAt b) slots.
Proof.
  intros Hsent.
  destruct (getPublicSlots_sent st workspace serviceId date code slots Hsent)
    as (service & d & _ & _ & _ & Hslots).
  set (collected := collectSlots st (ws_id workspace) (Service.durationMin service)
                      (resolveAvailabilityForDate env st
                         (slotsInput env workspace service d))) in *.
  assert (Hnd : NoDup (map slot_startsAt slots)).
  { subst slots. eapply Permutation_NoDup.
    - apply Permutation_map. apply Permutation_sym. apply sortBy_perm.
    - apply collectSlots_wellFormed. }
  assert (Hs : StronglySorted (fun a b => (slot_startsAt a <=? slot_startsAt b) = true) slots).
  { subst slots. apply sortBy_sorted.
    - intros x y H. apply Z.leb_gt in H. apply Z.leb_le. lia.
    - intros x y z H1 H2. apply Z.leb_le in H1. apply Z.leb_le in H2.
      apply Z.leb_le. lia. }
  clear Hslots Hsent collected. induction Hs as [|a l Hl IH Ha]; [constructor|].
  simpl in Hnd. inversion Hnd as [|? ? Hnotin Hnd']; subst.
  constructor; [apply IH; exact Hnd'|].
  rewrite Forall_forall in *. intros b Hb.
  specialize (Ha b Hb). apply Z.leb_le in Ha.
  assert (slot_startsAt a <> slot_startsAt b).
  { intros E. apply Hnotin. rewrite E. apply in_map. exact Hb. }
  lia.
Qed.


Lemma slotLoop_seen_grows st w dur resolved window x : forall fuel cursor acc,
  In x (snd acc) -> In x (snd (slotLoop fuel st w dur resolved window cursor acc)).
Proof.
  induction fuel as [|fuel IH]; intros cursor acc Hx; simpl; [exact Hx|].
  destruct (cursor <? endIso window); [|exact Hx].
  destruct (endIso window <? addMinutes cursor dur); [exact Hx|].
  apply IH. destruct (_ && _); [|exact Hx].
  simpl. apply in_or_app. left. exact Hx.
Qed.

Lemma collectLoop_seen_grows st w dur resolved x : forall ws acc,
  In x (snd acc) ->
  In x (snd (fold_left
               (fun acc window =>
                  slotLoop (slotFuel window) st w dur resolved window (startIso window) acc)
               ws acc)).
Proof.
  induction ws as [|y ws IH]; intros acc Hx; cbn [fold_left]; [exact Hx|].
  apply IH. apply slotLoop_seen_grows. exact Hx.
Qed.

(** A free grid point that leaves room for the service is seen by the loop. *)
Lemma slotLoop_reaches st w dur resolved window : forall fuel cursor acc j,
  (j < fuel)%nat ->
  0 <= stepMin window ->
  let target := cursor + Z.of_nat j * (stepMin window * 60000) in
  target < endIso window ->
  addMinutes target dur <= endIso window ->
  isBookingOverlapping st w target (addMinutes target dur) None = false ->
  isBlockedByException target (addMinutes target dur) resolved = false ->
  In target (snd (slotLoop fuel st w dur resolved window cursor acc)).
Proof.
  induction fuel as [|fuel IH]; intros cursor acc j Hj Hstep target Hlt Hfit Hg Hb;
    [lia|].
  simpl.
  assert (Hle : cursor <= target) by (unfold target; nia).
  destruct (Z.ltb_spec cursor (endIso window)); [|lia].
  destruct (Z.ltb_spec (endIso window) (addMinutes cursor dur));
    [unfold addMinutes in *; lia|].
  destruct j as [|j].
  - assert (E : target = cursor) by (unfold target; simpl; lia).
    apply slotLoop_seen_grows. rewrite E in *. rewrite Hg, Hb. simpl.
    destruct (existsb (Z.eqb cursor) (snd acc)) eqn:Hs; simpl.
    + apply existsb_eqb_In. exact Hs.
    + apply in_or_app. right. left. reflexivity.
  - assert (E : target = addMinutes cursor (stepMin window)
                         + Z.of_nat j * (stepMin window * 60000))
      by (unfold target, addMinutes; lia).
    rewrite E. apply IH; try (rewrite <- E; assumption); [lia|exact Hstep].
Qed.

Lemma gridPoint_in_fuel window k :
  1 <= stepMin window ->
  gridPoint window k < endIso window ->
  (k < slotFuel window)%nat.
Proof.
  unfold gridPoint, slotFuel. intros Hstep Hlt.
  set (s := stepMin window * 60000) in *.
  set (d := endIso window - startIso window).
  assert (Hs : 0 < s) by (unfold s; lia).
  assert (Hk : Z.of_nat k <= d / s).
  { apply Z.div_le_lower_bound; [exact Hs|]. unfold d. lia. }
  apply Nat2Z.inj_lt. rewrite Nat2Z.inj_succ.
  rewrite Z2Nat.id by lia. lia.
Qed.

Lemma collectSlots_complete st w dur input window k :
  let resolved := resolveAvailabilityForDate env st input in
  let c := gridPoint window k in
  closedAllDay resolved = false ->
  In window (windows resolved) ->
  c < endIso window ->
  addMinutes c dur <= endIso window ->
  isBookingOverlapping st w c (addMinutes c dur) None = false ->
  isBlockedByException c (addMinutes c dur) resolved = false ->
  In (mkSlot c (addMinutes c dur)) (collectSlots st w dur resolved).
Proof.
  intros resolved c Hopen Hw Hlt Hfit Hg Hb.
  destruct (resolved_windows_shape env st input window Hw) as [_ Hstep].
  assert (Hseen : In c (map slot_startsAt (collectSlots st w dur resolved))).
  { unfold collectSlots. rewrite Hopen.
    destruct (collectLoop_wellFormed st w dur resolved (windows resolved) ([], []))
      as (H1 & _).
    { unfold slotsWellFormed. simpl. split; [reflexivity|].
      split; [constructor|intros slot []]. }
    rewrite <- H1. clear H1.
    destruct (in_split _ _ Hw) as (before & after & E). rewrite E.
    rewrite fold_left_app. cbn [fold_left].
    apply collectLoop_seen_grows.
    apply (slotLoop_reaches st w dur resolved window (slotFuel window)
             (startIso window) _ k); try assumption; [|lia].
    apply gridPoint_in_fuel; assumption. }
  apply in_map_iff in Hseen. destruct Hseen as [slot [Hstart Hin]].
  destruct (collectSlots_wellFormed st w dur resolved) as [_ Hall].
  destruct (Hall slot Hin) as (Hend & _).
  destruct slot as [s e]. simpl in *. subst s. rewrite <- Hend. exact Hin.
Qed.

(** X3. The slot listing leaves out no free slot: on a date that is not
    closed, every grid point of a resolved window (window start plus a
    multiple of the step) from which the service fits before the window
    ends, that overlaps no active booking and meets no blocked window, is
    among the slots offered. *)
Theorem free_grid_points_are_offered (st : AppState) (workspace : Workspace)
    (serviceId : string) (date : RawDate) (code : Z) (slots : list Slot) :
  getPublicSlots env st (Some workspace) serviceId date = Sent code slots ->
  exists service d,
    date = DateGiven d
    /\ In service (services st)
    /\ Service.id service = serviceId
    /\ let resolved := resolveAvailabilityForDate env st
                         (slotsInput env workspace service d) in
       forall window k,
         let c := gridPoint window k in
         let e := addMinutes c (Service.durationMin service) in
         closedAllDay resolved = false ->
         In window (windows resolved) ->
         c < endIso window -> e <= endIso window ->
         isBookingOverlapping st (ws_id workspace) c e None = false ->
         isBlockedByException c e resolved = false ->
         In (mkSlot c e) slots.
Proof.
  intros Hsent.
  destruct (getPublicSlots_sent st workspace serviceId date code slots Hsent)
    as (service & d & Hd & Hfind & _ & Hslots).
  exists service, d. split; [exact Hd|].
  apply find_some in Hfind. destruct Hfind as [Hin Hp].
  split; [exact Hin|]. split.
  - apply andb_true_iff in Hp. destruct Hp as [Hp _].
    apply andb_true_iff in Hp. destruct Hp as [Hp _].
    apply String.eqb_eq. exact Hp.
  - intros resolved window k c e Hopen Hw Hlt Hfit Hg Hb. subst slots.
    apply (Permutation_in _ (Permutation_sym (sortBy_perm _ _))).
    apply (collectSlots_complete st (ws_id workspace) (Service.durationMin service)
             (slotsInput env workspace service d) window k); assumption.
Qed.

Lemma resolveLoop_closed input rules : forall acc,
  acc_closedAllDay (fold_left (resolveStep env input) rules acc)
  = acc_closedAllDay acc
    || existsb (fun rule =>
                  isRuleOfService input rule
                  && AvailabilityRuleType_eqb (resolveRuleType rule) date_block
                  && optDate_eqb (AvailabilityRule.date rule) (in_dateKey input)
                  && isTrue (AvailabilityRule.isClosedAllDay rule)) rules.
Proof.
  induction rules as [|rule rest IH]; intros acc; simpl.
  - rewrite orb_false_r. reflexivity.
  - rewrite IH. clear IH. unfold resolveStep, isRuleOfService.
    destruct (String.eqb (AvailabilityRule.workspaceId rule) (in_workspaceId input));
      simpl; [|reflexivity].
    destruct (String.eqb (AvailabilityRule.serviceId rule) (in_serviceId input));
      simpl; [|reflexivity].
    destruct (resolveRuleType rule); simpl.
    + destruct (optZ_eqb _ _); reflexivity.
    + destruct (optDate_eqb _ _); reflexivity.
    + destruct (optDate_eqb _ _); simpl; [|reflexivity].
      destruct (AvailabilityRule.isClosedAllDay rule) as [[|]|]; simpl;
        rewrite ?orb_true_r, ?orb_assoc; try reflexivity;
        destruct (acc_closedAllDay acc); reflexivity.
Qed.

Lemma closesDate_closed st input rule :
  In rule (availabilityRules st) ->
  closesDate (in_workspaceId input) (in_serviceId input) (in_dateKey input) rule ->
  closedAllDay (resolveAvailabilityForDate env st input) = true.
Proof.
  intros Hin (Hw & Hs & Ht & Hd & Hc).
  unfold resolveAvailabilityForDate, resolveLoop. simpl.
  rewrite resolveLoop_closed. simpl. apply existsb_exists. exists rule.
  split; [exact Hin|].
  unfold isRuleOfService. rewrite Hw, Hs, Ht, Hd, Hc, !String.eqb_refl. simpl.
  rewrite (proj2 (DateKey_eqb_spec _ _) eq_refl). reflexivity.
Qed.

(** X4. A date_block rule with the all-day flag closes its date for its
    service whatever the weekly and override rules say: the date resolves as
    closed, the slot listing answers no slot, and the availability check
    before a booking is committed or rescheduled refuses every interval that
    starts on that date. *)
Theorem all_day_block_closes_the_date (st : AppState) (workspace : Workspace)
    (serviceId : string) (d : DateKey) (rule : AvailabilityRule.t) :
  In rule (availabilityRules st) ->
  closesDate (ws_id workspace) serviceId d rule ->
  (forall weekday timeZone dur,
     closedAllDay (resolveAvailabilityForDate env st
                     (mkResolveInput (ws_id workspace) serviceId d weekday timeZone dur))
     = true)
  /\ (forall code slots,
        getPublicSlots env st (Some workspace) serviceId (DateGiven d) = Sent code slots ->
        slots = [])
  /\ (forall startsAt endsAt timeZone dur,
        toDateKeyInTimeZone env startsAt timeZone = d ->
        isWithinAvailabilityRule env st (ws_id workspace) serviceId startsAt endsAt
          timeZone dur = false).
Proof.
  intros Hin Hrule.
  assert (Hclosed : forall weekday timeZone dur,
     closedAllDay (resolveAvailabilityForDate env st
                     (mkResolveInput (ws_id workspace) serviceId d weekday timeZone dur))
     = true).
  { intros. apply (closesDate_closed st _ rule Hin). exact Hrule. }
  split; [exact Hclosed|]. split.
  - intros code slots Hsent.
    destruct (getPublicSlots_sent st workspace serviceId _ code slots Hsent)
      as (service & d' & Hd & Hfind & _ & Hslots).
    inversion Hd; subst d'. subst slots.
    assert (Hid : Service.id service = serviceId).
    { apply find_some in Hfind. destruct Hfind as [_ Hp].
      apply andb_true_iff in Hp. destruct Hp as [Hp _].
      apply andb_true_iff in Hp. destruct Hp as [Hp _].
      apply String.eqb_eq. exact Hp. }
    unfold collectSlots, slotsInput. rewrite Hid, Hclosed. reflexivity.
  - intros startsAt endsAt timeZone dur Hkey.
    unfold isWithinAvailabilityRule. rewrite Hkey, Hclosed.
    destruct (windows _); reflexivity.
Qed.

(** X5. The listing and the commit agree: a slot that the listing offers
    passes both checks that booking creation and reschedule make before they
    commit, the availability check and the conflict guard, provided the zone
    conversion places the slot's start, and noon of the date, on the date
    asked for. *)
Theorem offered_slot_passes_commit_checks (st : AppState) (workspace : Workspace)
    (serviceId : string) (d : DateKey) (code : Z) (slots : list Slot) (slot : Slot) :
  getPublicSlots env st (Some workspace) serviceId (DateGiven d) = Sent code slots ->
  In slot slots ->
  toDateKeyInTimeZone env (slot_startsAt slot) (timeZoneOf workspace) = d ->
  toDateKeyInTimeZone env (dateAtTimeInTimeZoneIso env d noon (timeZoneOf workspace))
    (timeZoneOf workspace) = d ->
  exists service,
    In service (services st)
    /\ Service.id service = serviceId
    /\ slot_endsAt slot = addMinutes (slot_startsAt slot) (Service.durationMin service)
    /\ isWithinAvailabilityRule env st (ws_id workspace) (Service.id service)
         (slot_startsAt slot) (slot_endsAt slot) (timeZoneOf workspace)
         (Service.durationMin service) = true
    /\ isBookingOverlapping st (ws_id workspace) (slot_startsAt slot)
         (slot_endsAt slot) None = false.
Proof.
  intros Hsent Hslot Hkey Hnoon.
  destruct (getPublicSlots_sent st workspace serviceId _ code slots Hsent)
    as (service & d' & Hd & Hfind & _ & Hslots).
  inversion Hd; subst d'. clear Hd.
  apply find_some in Hfind. destruct Hfind as [Hin Hp].
  assert (Hid : Service.id service = serviceId).
  { apply andb_true_iff in Hp. destruct Hp as [Hp _].
    apply andb_true_iff in Hp. destruct Hp as [Hp _].
    apply String.eqb_eq. exact Hp. }
  subst slots. apply (Permutation_in _ (sortBy_perm _ _)) in Hslot.
  destruct (collectSlots_wellFormed st (ws_id workspace)
              (Service.durationMin service)
              (resolveAvailabilityForDate env st (slotsInput env workspace service d)))
    as [_ Hall].
  destruct (Hall slot Hslot) as (Hend & Hg & Hb).
  destruct (collectSlots_inside env st (ws_id workspace) (Service.durationMin service)
              (slotsInput env workspace service d) slot Hslot) as (w & Hw & Hs & He).
  exists service. split; [exact Hin|]. split; [exact Hid|]. split; [exact Hend|].
  split; [|exact Hg].
  unfold isWithinAvailabilityRule.
  assert (Einput : mkResolveInput (ws_id workspace) (Service.id service)
                     (toDateKeyInTimeZone env (slot_startsAt slot) (timeZoneOf workspace))
                     (weekdayInTimeZone env (slot_startsAt slot) (timeZoneOf workspace))
                     (timeZoneOf workspace) (Service.durationMin service)
                   = slotsInput env workspace service d).
  { unfold slotsInput, weekdayInTimeZone. rewrite Hkey, Hnoon. reflexivity. }
  rewrite Einput.
  set (resolved := resolveAvailabilityForDate env st (slotsInput env workspace service d)) in *.
  destruct (windows resolved) as [|w0 ws] eqn:Hws; [destruct Hw|].
  assert (Hopen : closedAllDay resolved = false).
  { unfold isBlockedByException in Hb. destruct (closedAllDay resolved);
      [discriminate|reflexivity]. }
  rewrite Hopen. apply existsb_exists. exists w. split; [exact Hw|].
  rewrite Hb. simpl.
  apply andb_true_iff. split; [|reflexivity].
  apply andb_true_iff. split; apply Z.leb_le; assumption.
Qed.

End SlotListing.

(** ** The read routes *)

Lemma isOwnBooking_live w id b :
  isOwnBooking w id b = true -> Booking.deletedAt b = None.
Proof.
  unfold isOwnBooking, isDeleted. intros H.
  apply andb_true_iff in H. destruct H as [_ H].
  destruct (Booking.deletedAt b); [discriminate|reflexivity].
Qed.

Section Reading.

Variable env : Collaborators.

Lemma filterByDate_In bound (keep : Z -> Z -> bool) (keepP : Z -> Z -> Prop) data b :
  (forall a t, keep a t = true <-> keepP a t) ->
  In b (filterByDate env bound keep data)
  <-> In b data /\ admits env bound keepP (Booking.startsAt b).
Proof.
  intros Hkeep. unfold filterByDate, admits.
  destruct bound as [text|].
  2:{ split; [intros H; split; [exact H|discriminate]|tauto]. }
  destruct (truthy text) eqn:Ht.
  2:{ apply not_true_iff_false in Ht. rewrite truthy_true in Ht.
      split; [intros H; split; [exact H|]|tauto].
      intros text' time [= <-] Hne. exfalso. apply Ht. exact Hne. }
  apply truthy_true in Ht.
  destruct (parseDate env text) as [time|] eqn:Hp.
  - rewrite filter_In, Hkeep. split.
    + intros [H1 H2]. split; [exact H1|].
      intros text' time' [= <-] _. rewrite Hp. intros [= <-]. exact H2.
    + intros [H1 H2]. split; [exact H1|]. apply (H2 text time); auto.
  - split; [intros H; split; [exact H|]|tauto].
    intros text' time [= <-] _. rewrite Hp. discriminate.
Qed.

Lemma getBookings_In st workspace status dateFrom dateTo b :
  In b (map view_booking (getBookings env st workspace status dateFrom dateTo))
  <-> In b (bookings st) /\ wanted env workspace status dateFrom dateTo b.
Proof.
  unfold getBookings, wanted. rewrite map_map. simpl. rewrite map_id.
  split.
  - intros H. apply (Permutation_in _ (sortBy_perm _ _)) in H.
    apply (filterByDate_In _ _ (fun a t => a <= t)) in H; [|intros; apply Z.leb_le].
    destruct H as [H Hto].
    apply (filterByDate_In _ _ (fun a t => t <= a)) in H; [|intros; apply Z.leb_le].
    destruct H as [H Hfrom].
    assert (Hbase : In b (filter (fun booking =>
                       String.eqb (Booking.workspaceId booking) (ws_id workspace)
                       && negb (isDeleted booking)) (bookings st))
                    /\ forall value s, status = Some value ->
                         parseBookingStatus value = Some s -> Booking.status b = s).
    { destruct status as [value|]; [|split; [exact H|discriminate]].
      destruct (parseBookingStatus value) as [s|] eqn:Hparse.
      - apply filter_In in H. destruct H as [H Hs]. split; [exact H|].
        intros value' s' [= <-] Hs'. rewrite Hparse in Hs'. injection Hs' as <-.
        apply BookingStatus_eqb_spec. exact Hs.
      - split; [exact H|]. intros value' s' [= <-] Hs'. rewrite Hparse in Hs'.
        discriminate. }
    destruct Hbase as [Hbase Hstatus].
    apply filter_In in Hbase. destruct Hbase as [Hin Hp].
    apply andb_true_iff in Hp. destruct Hp as [Hw Hd].
    apply String.eqb_eq in Hw. unfold isDeleted in Hd.
    split; [exact Hin|]. split; [exact Hw|].
    split; [destruct (Booking.deletedAt b); [discriminate|reflexivity]|].
    auto.
  - intros (Hin & Hw & Hd & Hs & Hfrom & Hto).
    apply (Permutation_in _ (Permutation_sym (sortBy_perm _ _))).
    apply (filterByDate_In _ _ (fun a t => a <= t)); [intros; apply Z.leb_le|].
    split; [|exact Hto].
    apply (filterByDate_In _ _ (fun a t => t <= a)); [intros; apply Z.leb_le|].
    split; [|exact Hfrom].
    assert (Hbase : In b (filter (fun booking =>
                       String.eqb (Booking.workspaceId booking) (ws_id workspace)
                       && negb (isDeleted booking)) (bookings st))).
    { apply filter_In. split; [exact Hin|].
      unfold isDeleted. rewrite Hw, Hd, String.eqb_refl. reflexivity. }
    destruct status as [value|]; [|exact Hbase].
    destruct (parseBookingStatus value) as [s|] eqn:Hparse; [|exact Hbase].
    apply filter_In. split; [exact Hbase|].
    apply BookingStatus_eqb_spec. apply (Hs value s); auto.
Qed.

(** X12. The booking listing answers exactly the bookings asked for: a
    booking is listed if and only if it is stored, belongs to the tenant, is
    not deleted, has the status asked for (a status value that is no status
    filters nothing) and starts inside the date bounds that are given and
    parse (a bound that does not parse filters nothing); the listing is in
    ascending order of start, and each entry carries the contact and the
    service found by the ids of its booking. *)
Theorem booking_listing_is_exact (st : AppState) (workspace : Workspace)
    (status dateFrom dateTo : option string) :
  let listing := getBookings env st workspace status dateFrom dateTo in
  (forall b, In b (map view_booking listing)
             <-> In b (bookings st) /\ wanted env workspace status dateFrom dateTo b)
  /\ StronglySorted
       (fun v v' => Booking.startsAt (view_booking v) <= Booking.startsAt (view_booking v'))
       listing
  /\ forall view, In view listing -> view = viewOf st (view_booking view).
Proof.
  intros listing. split; [intros b; apply getBookings_In|]. split.
  - unfold listing, getBookings.
    match goal with
    | |- StronglySorted _ (map _ (sortBy ?le ?data)) =>
        pose proof (sortBy_sorted le) as Hsorted; specialize (Hsorted
          (fun x y H => proj2 (Z.leb_le _ _)
                          (Z.lt_le_incl _ _ (proj1 (Z.leb_gt _ _) H))));
        specialize (Hsorted
          (fun x y z H1 H2 => proj2 (Z.leb_le _ _)
                                (Z.le_trans _ _ _ (proj1 (Z.leb_le _ _) H1)
                                   (proj1 (Z.leb_le _ _) H2))));
        specialize (Hsorted data); induction Hsorted as [|x l Hl IH Hx]
    end.
    + constructor.
    + simpl. constructor; [exact IH|].
      rewrite Forall_forall in *. intros v Hv. apply in_map_iff in Hv.
      destruct Hv as (y & <- & Hy). simpl. apply Z.leb_le. apply Hx. exact Hy.
  - intros view Hview. unfold listing, getBookings in Hview.
    apply in_map_iff in Hview. destruct Hview as (b & <- & _). reflexivity.
Qed.

(** X13. The read of one booking and the listing agree: with distinct
    booking ids, the read of an id answers a booking exactly when the
    unfiltered listing of the tenant shows a booking with that id, and then
    it answers that very entry. *)
Theorem booking_read_agrees_with_listing (st : AppState) (workspace : Workspace)
    (id : string) :
  NoDup (map Booking.id (bookings st)) ->
  forall view,
    getBooking st workspace id = Sent 200 view
    <-> In view (getBookings env st workspace None None None)
        /\ Booking.id (view_booking view) = id.
Proof.
  intros Hnd view. unfold getBooking. split.
  - destruct (find (isOwnBooking (ws_id workspace) id) (bookings st))
      as [booking|] eqn:Hfind; [|discriminate].
    intros [= <-]. apply find_some in Hfind. destruct Hfind as [Hin Hown].
    destruct (isOwnBooking_workspace _ _ _ Hown) as [Hw Hid].
    split; [|exact Hid].
    assert (Hl : In booking (map view_booking (getBookings env st workspace None None None))).
    { apply getBookings_In. split; [exact Hin|].
      unfold wanted, admits. split; [exact Hw|].
      split; [apply (isOwnBooking_live _ _ _ Hown)|].
      repeat split; intros; discriminate. }
    apply in_map_iff in Hl. destruct Hl as (v & Hv & Hvin).
    unfold getBookings in Hvin. apply in_map_iff in Hvin.
    destruct Hvin as (b & <- & Hb). simpl in Hv. subst b.
    unfold getBookings. apply in_map. exact Hb.
  - intros [Hview Hid].
    assert (Hl : In (view_booking view)
                   (map view_booking (getBookings env st workspace None None None)))
      by (apply in_map; exact Hview).
    apply getBookings_In in Hl. destruct Hl as (Hin & Hw & Hd & _).
    assert (Hown : isOwnBooking (ws_id workspace) id (view_booking view) = true).
    { unfold isOwnBooking, isDeleted. rewrite Hid, Hw, Hd, !String.eqb_refl. reflexivity. }
    rewrite (find_by_unique_id (bookings st)
               (fun b => String.eqb (Booking.id b) id)
               (isOwnBooking (ws_id workspace) id) (view_booking view)).
    + unfold getBookings in Hview. apply in_map_iff in Hview.
      destruct Hview as (b & <- & _). reflexivity.
    + exact Hnd.
    + clear Hown. induction (bookings st) as [|a l IH]; [destruct Hin|].
      simpl. apply NoDup_cons_iff in Hnd. destruct Hnd as [Hnotin Hnd'].
      destruct Hin as [->|Hin].
      * rewrite Hid, String.eqb_refl. reflexivity.
      * destruct (String.eqb_spec (Booking.id a) id) as [E|E].
        -- exfalso. apply Hnotin. rewrite E, <- Hid. apply in_map. exact Hin.
        -- apply IH; assumption.
    + exact Hown.
    + intros x Hx. destruct (isOwnBooking_workspace _ _ _ Hx) as [_ Hx'].
      rewrite Hx', Hid. reflexivity.
Qed.

End Reading.

(** ** The booking commands *)

Section Commands.

Variable env : Collaborators.

Lemma emitEvent_recorded st newId now w ty ety eid p :
  recorded (emitEvent env st newId now w ty ety eid p) w ty ety eid.
Proof.
  unfold emitEvent, recorded.
  destruct (find _ (automationEvents st)) as [existing|] eqn:Hfind.
  - apply find_some in Hfind. destruct Hfind as [Hin Hp].
    repeat (apply andb_true_iff in Hp; destruct Hp as [Hp ?]).
    exists existing. split; [exact Hin|].
    repeat split; apply String.eqb_eq; assumption.
  - eexists. split; [simpl; apply in_or_app; right; left; reflexivity|].
    simpl. repeat split.
Qed.

Lemma emitEvent_keeps st newId now w ty ety eid p event :
  In event (automationEvents st) ->
  In event (automationEvents (emitEvent env st newId now w ty ety eid p)).
Proof.
  unfold emitEvent. destruct (find _ _); simpl; [auto|].
  intros H. apply in_or_app. left. exact H.
Qed.

Lemma recorded_keeps st st' w ty ety eid :
  (forall event, In event (automationEvents st) -> In event (automationEvents st')) ->
  recorded st w ty ety eid -> recorded st' w ty ety eid.
Proof.
  intros Hsub (event & Hin & H). exists event. split; [apply Hsub; exact Hin|exact H].
Qed.


(** What a committed public booking leaves in every collection. *)
Lemma commitPublicBooking_sent st createId now workspace key path hash body cal
    st' code reply :
  commitPublicBooking env st createId now workspace key path hash body cal
  = (st', Sent code reply) ->
  exists service startsAt booking later,
    unexpectedKeysError env body = None
    /\ submissionError env body = None
    /\ find (isActiveServiceIn (ws_id workspace) (body_serviceId body)) (services st)
       = Some service
    /\ parseDate env (body_startsAt body) = Some startsAt
    /\ isWithinAvailabilityRule env st (ws_id workspace) (Service.id service) startsAt
         (addMinutes startsAt (Service.durationMin service)) (timeZoneOf workspace)
         (Service.durationMin service) = true
    /\ isBookingOverlapping st (ws_id workspace) startsAt
         (addMinutes startsAt (Service.durationMin service)) None = false
    /\ booking = storeCalendarEvent cal now
         (Booking.mk (createId 1%nat) (ws_id workspace)
            (Contact.id (snd (findOrCreateContact st (createId 0%nat) (ws_id workspace)
                                (submissionEmail env body) (submissionPhone env body))))
            (Service.id service) startsAt
            (addMinutes startsAt (Service.durationMin service)) pending None
            (submissionNotes env body) None now now)
    /\ bookings st' = bookings st ++ [booking]
    /\ scheduledJobs st'
       = scheduledJobs st ++ reminderFor (createId 3%nat) now booking :: later
    /\ (forall job, In job later -> ScheduledJob.jobType job = form_overdue_check)
    /\ services st' = services st
    /\ availabilityRules st' = availabilityRules st
    /\ inventoryItems st' = inventoryItems st
    /\ alerts st' = alerts st
    /\ recorded st' (ws_id workspace) "booking.created" "booking" (Booking.id booking).
Proof.
  unfold commitPublicBooking.
  destruct (unexpectedKeysError env body); [discriminate|].
  destruct (negb _ || negb _); [discriminate|].
  destruct (submissionError env body); [discriminate|].
  destruct (find _ (services st)) as [service|] eqn:Hsvc; [|discriminate].
  destruct (parseDate env (body_startsAt body)) as [startsAt|] eqn:Hdate; [|discriminate].
  destruct (isWithinAvailabilityRule _ _ _ _ _ _ _ _) eqn:Hin; [|discriminate].
  destruct (isBookingOverlapping st _ _ _ None) eqn:Hov; [discriminate|].
  simpl negb. cbv iota.
  pose proof (findOrCreateContact_frame st (createId 0%nat) (ws_id workspace)
                (submissionEmail env body) (submissionPhone env body)) as Hc.
  destruct (findOrCreateContact st (createId 0%nat) (ws_id workspace)
              (submissionEmail env body) (submissionPhone env body)) as [st1 contact].
  cbv zeta in Hc. simpl fst in Hc. simpl snd.
  destruct Hc as (Hsv & Hru & Hb & _ & _ & Hinv & Hev & Hj & _ & Hal).
  set (booking := storeCalendarEvent cal now _).
  pose proof (storeCalendarEvent_new cal now
    (Booking.mk (createId 1%nat) (ws_id workspace) (Contact.id contact)
       (Service.id service) startsAt (addMinutes startsAt (Service.durationMin service))
       pending None (submissionNotes env body) None now now)) as Hs.
  cbv zeta in Hs. fold booking in Hs. simpl in Hs.
  destruct Hs as (S1 & S2 & S3 & S4 & S5 & S6 & S7).
  set (st3 := emitEvent env (set_bookings (bookings st1 ++ [booking]) st1) _ _ _ _ _ _ _).
  assert (Hrec : recorded st3 (ws_id workspace) "booking.created" "booking"
                   (Booking.id booking)) by apply emitEvent_recorded.
  set (st4 := enqueueJob st3 _ _ _ _ _ _ _).
  assert (H4 : bookings st4 = bookings st ++ [booking]
               /\ scheduledJobs st4
                  = scheduledJobs st ++ [reminderFor (createId 3%nat) now booking]
               /\ services st4 = services st
               /\ availabilityRules st4 = availabilityRules st
               /\ inventoryItems st4 = inventoryItems st
               /\ alerts st4 = alerts st
               /\ automationEvents st4 = automationEvents st3).
  { unfold st4, enqueueJob, st3. simpl.
    rewrite emitEvent_bookings, emitEvent_scheduledJobs, emitEvent_services,
      emitEvent_inventoryItems, emitEvent_alerts.
    destruct (emitEvent_frame env (set_bookings (bookings st1 ++ [booking]) st1)
                (createId 2%nat) now (ws_id workspace) "booking.created" "booking"
                (Booking.id booking)
                (PayloadBookingCreated (Booking.startsAt booking)
                   (Booking.serviceId booking))) as (_ & _ & Hr & _).
    rewrite Hr. simpl. rewrite Hb, Hj, Hsv, Hru, Hinv, Hal.
    unfold reminderFor. rewrite S2. auto 10. }
  destruct H4 as (H4b & H4j & H4s & H4r & H4i & H4a & H4e).
  clearbody st4. clearbody st3.
  match goal with
  | |- context [let '(a, b) := ?e in _] => destruct e as [st5 formRequest] eqn:Hform
  end.
  intros [= <- _ _].
  exists service, startsAt, booking.
  assert (H5 : exists later,
             bookings st5 = bookings st ++ [booking]
             /\ scheduledJobs st5
                = scheduledJobs st ++ reminderFor (createId 3%nat) now booking :: later
             /\ (forall job, In job later -> ScheduledJob.jobType job = form_overdue_check)
             /\ services st5 = services st
             /\ availabilityRules st5 = availabilityRules st
             /\ inventoryItems st5 = inventoryItems st
             /\ alerts st5 = alerts st
             /\ forall event, In event (automationEvents st3) ->
                              In event (automationEvents st5)).
  { revert Hform.
    match goal with
    | |- context [match ?t with Some _ => _ | None => _ end = _] => destruct t
    end.
    - unfold createFormRequest. intros [= <- _].
      eexists. rewrite emitEvent_bookings, emitEvent_scheduledJobs, emitEvent_services,
        emitEvent_inventoryItems, emitEvent_alerts.
      match goal with
      | |- context [availabilityRules (emitEvent env ?s ?a ?b ?c ?d ?e ?f ?g)] =>
          destruct (emitEvent_frame env s a b c d e f g) as (_ & _ & Hr & _); rewrite Hr
      end.
      simpl. rewrite H4b, H4j, H4s, H4r, H4i, H4a. rewrite <- app_assoc. simpl.
      split; [reflexivity|]. split; [reflexivity|].
      split; [intros job [<-|[]]; reflexivity|].
      do 4 (split; [reflexivity|]).
      intros event Hev'. apply emitEvent_keeps. simpl. rewrite H4e. exact Hev'.
    - intros [= <- _]. exists [].
      rewrite H4b, H4j, H4s, H4r, H4i, H4a, H4e.
      do 2 (split; [reflexivity|]). split; [intros job []|].
      do 4 (split; [reflexivity|]). auto. }
  destruct H5 as (later & H5b & H5j & H5l & H5s & H5r & H5i & H5a & H5e).
  exists later.
  do 4 (split; [reflexivity|]). split; [exact Hin|]. split; [exact Hov|].
  split; [reflexivity|].
  split; [exact H5b|]. split; [exact H5j|]. split; [exact H5l|].
  split; [exact H5s|]. split; [exact H5r|]. split; [exact H5i|]. split; [exact H5a|].
  apply (recorded_keeps st3); [|exact Hrec].
  exact H5e.
Qed.


Lemma createPublicBooking_created st createId now workspace key path body cal
    st' code snapshot :
  createPublicBooking env st createId now workspace key path body cal
  = (st', Sent code (CreatedBooking snapshot)) ->
  exists w k,
    workspace = Some w /\ key = Some k /\ truthy k = true
    /\ findIdempotency st (ws_id w) k "POST" path = None
    /\ commitPublicBooking env st createId now w k path (requestHashOf env body) body cal
       = (st', Sent code (CreatedBooking snapshot)).
Proof.
  unfold createPublicBooking.
  destruct workspace as [w|]; [|discriminate].
  destruct key as [k|]; [|discriminate].
  destruct (truthy k) eqn:Hk; [|discriminate]. simpl negb. cbv iota.
  destruct (findIdempotency st (ws_id w) k "POST" path) as [existing|] eqn:Hfind.
  { destruct (negb _); discriminate. }
  intros H. exists w, k. auto.
Qed.

(** X6. A booking that the public route creates is stored last, pending,
    not deleted, for the workspace and the service asked for, from the
    parsed start to the start plus the duration of the service, inside the
    availability of the service; one reminder job is queued for it, due 24
    hours before the start, with high priority, and any further job queued
    is a form overdue check; a booking.created event about it is on
    record. *)
Theorem created_booking_is_pending_with_reminder (st : AppState)
    (createId : nat -> string) (now : Z) (workspace : option Workspace)
    (key : option string) (path : string) (body : BookingBody)
    (calendarEventId : option string)
    (st' : AppState) (code : Z) (snapshot : RenderedSnapshot) :
  createPublicBooking env st createId now workspace key path body calendarEventId
  = (st', Sent code (CreatedBooking snapshot)) ->
  exists w service startsAt booking later,
    workspace = Some w
    /\ find (isActiveServiceIn (ws_id w) (body_serviceId body)) (services st)
       = Some service
    /\ parseDate env (body_startsAt body) = Some startsAt
    /\ isWithinAvailabilityRule env st (ws_id w) (Service.id service) startsAt
         (addMinutes startsAt (Service.durationMin service)) (timeZoneOf w)
         (Service.durationMin service) = true
    /\ bookings st' = bookings st ++ [booking]
    /\ Booking.workspaceId booking = ws_id w
    /\ Booking.serviceId booking = Service.id service
    /\ Booking.status booking = pending
    /\ Booking.startsAt booking = startsAt
    /\ Booking.endsAt booking = addMinutes startsAt (Service.durationMin service)
    /\ Booking.deletedAt booking = None
    /\ scheduledJobs st'
       = scheduledJobs st ++ reminderFor (createId 3%nat) now booking :: later
    /\ (forall job, In job later -> ScheduledJob.jobType job = form_overdue_check)
    /\ recorded st' (ws_id w) "booking.created" "booking" (Booking.id booking).
Proof.
  intros Hcreated.
  destruct (createPublicBooking_created _ _ _ _ _ _ _ _ _ _ _ Hcreated)
    as (w & k & -> & -> & _ & _ & Hcommit).
  destruct (commitPublicBooking_sent _ _ _ _ _ _ _ _ _ _ _ _ Hcommit)
    as (service & startsAt & booking & later & _ & _ & Hsvc & Hdate & Hin & _ & Hbk
        & Hb & Hj & Hl & _ & _ & _ & _ & Hrec).
  pose proof (storeCalendarEvent_new calendarEventId now
    (Booking.mk (createId 1%nat) (ws_id w)
       (Contact.id (snd (findOrCreateContact st (createId 0%nat) (ws_id w)
                           (submissionEmail env body) (submissionPhone env body))))
       (Service.id service) startsAt (addMinutes startsAt (Service.durationMin service))
       pending None (submissionNotes env body) None now now)) as Hs.
  cbv zeta in Hs. rewrite <- Hbk in Hs. simpl in Hs.
  destruct Hs as (S1 & S2 & S3 & S4 & S5 & S6 & S7).
  exists w, service, startsAt, booking, later.
  repeat (split; [first [reflexivity | assumption]|]). exact Hrec.
Qed.

Lemma guard_hit st w s e b :
  In b (bookings st) ->
  Booking.workspaceId b = w ->
  active b ->
  s < Booking.endsAt b -> Booking.startsAt b < e ->
  isBookingOverlapping st w s e None = true.
Proof.
  intros Hin Hw [Ha1 Ha2] H1 H2. unfold isBookingOverlapping.
  apply existsb_exists. exists b. split; [exact Hin|].
  rewrite Hw, String.eqb_refl. simpl.
  apply Z.ltb_lt in H1. apply Z.ltb_lt in H2.
  destruct (Booking.status b); try congruence; rewrite H1, H2; reflexivity.
Qed.


(** X8. A booking command that is refused changes nothing: whenever public
    creation, the status change, the soft delete or the reschedule answers
    an error, the state after it is the state before it; in particular a
    completion that fails on one inventory item deducts none. *)
Theorem refused_commands_change_nothing (st : AppState) (createId : nat -> string)
    (now : Z) (st' : AppState) (code : Z) (e : ErrorBody) :
  (forall workspace key path body calendarEventId,
     createPublicBooking env st createId now workspace key path body calendarEventId
     = (st', Failed code e) -> st' = st)
  /\ (forall workspace id rawStatus calendarEventId,
        patchBookingStatus env st createId now workspace id rawStatus calendarEventId
        = (st', Failed code e) -> st' = st)
  /\ (forall workspace id,
        deleteBooking env st createId now workspace id = (st', Failed code e) -> st' = st)
  /\ (forall workspace id startsAtInput calendarEventId,
        rescheduleBooking env st createId now workspace id startsAtInput calendarEventId
        = (st', Failed code e) -> st' = st).
Proof.
  split; [|split; [|split]].
  - intros workspace key path body cal. unfold createPublicBooking.
    destruct workspace as [w|]; [|intros [= <-]; reflexivity].
    destruct key as [k|]; [|intros [= <-]; reflexivity].
    destruct (negb (truthy k)); [intros [= <-]; reflexivity|].
    destruct (findIdempotency st (ws_id w) k "POST" path) as [existing|].
    { destruct (negb _); [intros [= <-]; reflexivity|discriminate]. }
    destruct (commitPublicBooking_cases env st createId now w k path
                (requestHashOf env body) body cal)
      as [(code' & e' & Hfail)|(st1 & reply & Hok & _)].
    + rewrite Hfail. intros [= <-]. reflexivity.
    + rewrite Hok. discriminate.
  - intros workspace id rawStatus cal.
    destruct (find (isOwnBooking (ws_id workspace) id) (bookings st))
      as [booking|] eqn:Hfind.
    2:{ unfold patchBookingStatus. rewrite Hfind. intros [= <-]. reflexivity. }
    destruct (parseBookingStatus rawStatus) as [target|] eqn:Hparse.
    2:{ unfold patchBookingStatus. rewrite Hfind, Hparse. intros [= <-]. reflexivity. }
    destruct (includes (transitions (Booking.status booking)) target) eqn:Hinc.
    2:{ unfold patchBookingStatus. rewrite Hfind, Hparse, Hinc.
        intros [= <-]. reflexivity. }
    destruct (patchBookingStatus_cases env st createId now workspace id rawStatus cal
                booking target Hfind Hparse Hinc)
      as [(e' & _ & _ & Hres)|(st1 & b' & Hres & _)]; rewrite Hres.
    + intros [= <-]. reflexivity.
    + discriminate.
  - intros workspace id. unfold deleteBooking.
    destruct (find _ (bookings st)); [discriminate|intros [= <-]; reflexivity].
  - intros workspace id input cal. unfold rescheduleBooking.
    destruct (find _ (bookings st)) as [booking|]; [|intros [= <-]; reflexivity].
    destruct (Booking.status booking); try (intros [= <-]; reflexivity);
      (destruct (negb (truthy input)); [intros [= <-]; reflexivity|];
       destruct (parseDate env input) as [startsAt|]; [|intros [= <-]; reflexivity];
       destruct (find _ (services st)) as [service|]; [|intros [= <-]; reflexivity];
       cbv zeta;
       destruct (negb (isWithinAvailabilityRule _ _ _ _ _ _ _ _));
         [intros [= <-]; reflexivity|];
       destruct (isBookingOverlapping st _ _ _ _); [intros [= <-]; reflexivity|];
       discriminate).
Qed.


Lemma replacedAt_updateFirst {A} (p : A -> bool) (l : list A) (old new : A) :
  find p l = Some old -> replacedAt l (updateFirst p (fun _ => new) l) old new.
Proof.
  intros H. destruct (updateFirst_nth p (fun _ => new) l old H) as (n & H1 & H2 & H3).
  exists n. auto.
Qed.

(** X9. A successful status change touches one booking object and nothing
    else about it than status, update stamp and calendar reference: the
    booking keeps its identity, its interval and stays undeleted, every
    other position of the booking list is left as it was, a change to
    cancelled or no_show clears the calendar reference, the jobs queued
    (so the reminder), the services, contacts and rules are untouched,
    inventory and alerts move only on completion, and an event about the
    booking is on record. *)
Theorem status_change_touches_one_booking (st : AppState) (createId : nat -> string)
    (now : Z) (workspace : Workspace) (id rawStatus : string)
    (calendarEventId : option string)
    (st' : AppState) (code : Z) (updated : Booking.t) :
  patchBookingStatus env st createId now workspace id rawStatus calendarEventId
  = (st', Sent code updated) ->
  exists booking,
    find (isOwnBooking (ws_id workspace) id) (bookings st) = Some booking
    /\ parseBookingStatus rawStatus = Some (Booking.status updated)
    /\ sameBookingIdentity booking updated
    /\ Booking.startsAt updated = Booking.startsAt booking
    /\ Booking.endsAt updated = Booking.endsAt booking
    /\ Booking.deletedAt updated = None
    /\ (Booking.status updated = cancelled \/ Booking.status updated = no_show ->
        Booking.calendarEventId updated = None)
    /\ replacedAt (bookings st) (bookings st') booking updated
    /\ scheduledJobs st' = scheduledJobs st
    /\ services st' = services st
    /\ contacts st' = contacts st
    /\ availabilityRules st' = availabilityRules st
    /\ (Booking.status updated <> completed ->
        inventoryItems st' = inventoryItems st /\ alerts st' = alerts st)
    /\ recorded st' (ws_id workspace) (statusEventType (Booking.status updated))
         "booking" id.
Proof.
  unfold patchBookingStatus.
  destruct (find (isOwnBooking (ws_id workspace) id) (bookings st))
    as [booking|] eqn:Hfind; [|discriminate].
  destruct (parseBookingStatus rawStatus) as [target|] eqn:Hparse; [|discriminate].
  destruct (includes (transitions (Booking.status booking)) target) eqn:Hinc;
    [|discriminate].
  simpl negb. cbv iota.
  assert (Hown := find_some _ _ Hfind). destruct Hown as [_ Hown].
  assert (Hlive := isOwnBooking_live _ _ _ Hown).
  assert (Hid : Booking.id booking = id) by (apply (isOwnBooking_workspace _ _ _ Hown)).
  assert (Hframe : exists st1,
            (if BookingStatus_eqb target completed
             then applyInventoryOnBookingCompleted env st createId now (ws_id workspace)
                    (Booking.id booking)
             else (st, None)) = (st1, snd (if BookingStatus_eqb target completed
             then applyInventoryOnBookingCompleted env st createId now (ws_id workspace)
                    (Booking.id booking)
             else (st, None)))
            /\ bookings st1 = bookings st /\ services st1 = services st
            /\ contacts st1 = contacts st /\ scheduledJobs st1 = scheduledJobs st
            /\ availabilityRules st1 = availabilityRules st
            /\ (target <> completed -> st1 = st)).
  { destruct (BookingStatus_eqb target completed) eqn:Hc.
    - destruct (applyInventoryOnBookingCompleted env st createId now (ws_id workspace)
                  (Booking.id booking)) as [st1 r] eqn:Hinv.
      destruct (applyInventory_frame _ _ _ _ _ _ _ _ Hinv) as (F1 & F2 & F3 & F4 & _ & F6).
      exists st1. simpl. repeat (split; [first [reflexivity|assumption]|]).
      intros Hne. apply BookingStatus_eqb_spec in Hc. contradiction.
    - exists st. simpl. repeat (split; [reflexivity|]). reflexivity. }
  destruct Hframe as (st1 & Hst1 & F1 & F2 & F3 & F4 & F6 & Fother).
  rewrite Hst1. clear Hst1.
  destruct (snd _) as [e|]; [discriminate|].
  intros [= <- _ <-].
  set (booking1 := Booking.with_updatedAt now (Booking.with_status target booking)).
  set (booking2 := match target with
                   | cancelled | no_show => _
                   | _ => _
                   end).
  assert (Hshape : Booking.status booking2 = target
                   /\ sameBookingIdentity booking booking2
                   /\ Booking.startsAt booking2 = Booking.startsAt booking
                   /\ Booking.endsAt booking2 = Booking.endsAt booking
                   /\ Booking.deletedAt booking2 = Booking.deletedAt booking
                   /\ (target = cancelled \/ target = no_show ->
                       Booking.calendarEventId booking2 = None)).
  { unfold booking2, sameBookingIdentity.
    destruct target;
      repeat match goal with
             | |- context [match find ?p ?l with _ => _ end] => destruct (find p l)
             end;
      unfold storeCalendarEvent; try destruct (_ && _); simpl;
      repeat split; try reflexivity; intros [H|H]; discriminate H. }
  clearbody booking2. destruct Hshape as (Hs & Hsame & Hstart & Hend & Hdel & Hcal).
  exists booking. rewrite Hs.
  split; [reflexivity|]. split; [reflexivity|]. split; [exact Hsame|].
  split; [exact Hstart|]. split; [exact Hend|]. split; [congruence|].
  split; [exact Hcal|].
  rewrite emitEvent_bookings, emitEvent_scheduledJobs, emitEvent_services,
    emitEvent_contacts, emitEvent_inventoryItems, emitEvent_alerts.
  match goal with
  | |- context [availabilityRules (emitEvent env ?s ?a ?b ?c ?d ?e ?f ?g)] =>
      destruct (emitEvent_frame env s a b c d e f g) as (_ & _ & Hr & _); rewrite Hr
  end.
  simpl. rewrite F1.
  split; [apply replacedAt_updateFirst; exact Hfind|].
  split; [exact F4|]. split; [exact F2|]. split; [exact F3|]. split; [exact F6|].
  split.
  - intros Hne. rewrite (Fother Hne). split; reflexivity.
  - rewrite <- Hid at 2. apply emitEvent_recorded.
Qed.

(** X10. A successful reschedule touches one booking object: only a pending
    or confirmed booking moves, it keeps its identity and its status, its
    new interval runs from the parsed start for the duration of its service
    (looked up without regard to the active flag), lies inside the
    availability of the service and overlaps no other counted booking of
    the tenant; every other position of the booking list is left as it was,
    the jobs queued, so the reminder with its due instant, are untouched,
    and a booking.updated event is on record. *)
Theorem reschedule_moves_one_booking (st : AppState) (createId : nat -> string)
    (now : Z) (workspace : Workspace) (id startsAtInput : string)
    (calendarEventId : option string)
    (st' : AppState) (code : Z) (moved : Booking.t) :
  rescheduleBooking env st createId now workspace id startsAtInput calendarEventId
  = (st', Sent code moved) ->
  exists booking service startsAt,
    find (isOwnBooking (ws_id workspace) id) (bookings st) = Some booking
    /\ (Booking.status booking = pending \/ Booking.status booking = confirmed)
    /\ parseDate env startsAtInput = Some startsAt
    /\ find (isServiceOf (ws_id workspace) booking) (services st) = Some service
    /\ sameBookingIdentity booking moved
    /\ Booking.status moved = Booking.status booking
    /\ Booking.startsAt moved = startsAt
    /\ Booking.endsAt moved = addMinutes startsAt (Service.durationMin service)
    /\ isWithinAvailabilityRule env st (ws_id workspace) (Service.id service)
         (Booking.startsAt moved) (Booking.endsAt moved) (timeZoneOf workspace)
         (Service.durationMin service) = true
    /\ isBookingOverlapping st (ws_id workspace) (Booking.startsAt moved)
         (Booking.endsAt moved) (Some id) = false
    /\ replacedAt (bookings st) (bookings st') booking moved
    /\ scheduledJobs st' = scheduledJobs st
    /\ services st' = services st
    /\ inventoryItems st' = inventoryItems st
    /\ recorded st' (ws_id workspace) "booking.updated" "booking" id.
Proof.
  unfold rescheduleBooking.
  destruct (find (isOwnBooking (ws_id workspace) id) (bookings st))
    as [booking|] eqn:Hfind; [|discriminate].
  assert (Hown := find_some _ _ Hfind). destruct Hown as [_ Hown].
  assert (Hid : Booking.id booking = id) by (apply (isOwnBooking_workspace _ _ _ Hown)).
  destruct (Booking.status booking) eqn:Hstatus; try discriminate;
    (destruct (negb (truthy startsAtInput)); [discriminate|];
     destruct (parseDate env startsAtInput) as [startsAt|]; [|discriminate];
     destruct (find _ (services st)) as [service|] eqn:Hsvc; [|discriminate];
     cbv zeta;
     destruct (isWithinAvailabilityRule _ _ _ _ _ _ _ _) eqn:Hin; [|discriminate];
     simpl negb; cbv iota;
     destruct (isBookingOverlapping st _ _ _ _) eqn:Hov; [discriminate|];
     intros [= <- _ <-];
     exists booking, service, startsAt;
     rewrite emitEvent_bookings, emitEvent_scheduledJobs, emitEvent_services,
       emitEvent_inventoryItems;
     split; [reflexivity|]; split; [auto|]; split; [reflexivity|];
     split; [exact Hsvc|];
     match goal with
     | |- context [match find ?p (contacts st) with _ => _ end] =>
         set (moved := match find p (contacts st) with Some _ => _ | None => _ end)
     end;
     assert (Hshape : sameBookingIdentity booking moved
                      /\ Booking.status moved = Booking.status booking
                      /\ Booking.startsAt moved = startsAt
                      /\ Booking.endsAt moved
                         = addMinutes startsAt (Service.durationMin service))
       by (unfold moved, sameBookingIdentity;
           destruct (find _ (contacts st));
           unfold storeCalendarEvent; try destruct (_ && _); simpl;
           rewrite ?Hstatus; repeat split; reflexivity);
     clearbody moved;
     destruct Hshape as (Hsame & Hs & Hstart & Hend);
     rewrite <- ?Hstatus, Hstart, Hend;
     split; [exact Hsame|]; split; [exact Hs|]; split; [reflexivity|];
     split; [reflexivity|]; split; [exact Hin|];
     split; [rewrite <- Hid; exact Hov|];
     split; [simpl; apply replacedAt_updateFirst; exact Hfind|];
     split; [reflexivity|]; split; [reflexivity|]; split; [reflexivity|];
     rewrite <- Hid at 2; apply emitEvent_recorded).
Qed.

Lemma updateFirst_length {A} (p : A -> bool) (f : A -> A) (l : list A) :
  List.length (updateFirst p f l) = List.length l.
Proof.
  induction l as [|a l IH]; simpl; [reflexivity|].
  destruct (p a); simpl; [reflexivity|]. rewrite IH. reflexivity.
Qed.

Lemma find_all_false {A} (p : A -> bool) (l : list A) :
  (forall x, In x l -> p x = false) -> find p l = None.
Proof.
  induction l as [|a l IH]; simpl; intros H; [reflexivity|].
  rewrite (H a) by (left; reflexivity). apply IH. intros x Hx. apply H. right. exact Hx.
Qed.

(** After the first booking with an id has been replaced, a booking with
    that id is the replacement. *)
Lemma updateFirst_only w id (l : list Booking.t) (b b' : Booking.t) :
  NoDup (map Booking.id l) ->
  find (isOwnBooking w id) l = Some b ->
  forall x, In x (updateFirst (isOwnBooking w id) (fun _ => b') l) ->
            Booking.id x = id -> x = b'.
Proof.
  induction l as [|a l IH]; simpl; [discriminate|].
  intros Hnd Hfind x Hx Hidx. apply NoDup_cons_iff in Hnd. destruct Hnd as [Hnotin Hnd'].
  destruct (isOwnBooking w id a) eqn:Ha.
  - destruct Hx as [<-|Hx]; [reflexivity|].
    exfalso. apply Hnotin.
    destruct (isOwnBooking_workspace _ _ _ Ha) as [_ <-].
    rewrite <- Hidx. apply in_map. exact Hx.
  - destruct Hx as [<-|Hx].
    + exfalso. apply Hnotin. rewrite Hidx.
      apply find_some in Hfind. destruct Hfind as [Hin Hb].
      destruct (isOwnBooking_workspace _ _ _ Hb) as [_ <-].
      apply in_map. exact Hin.
    + apply IH; assumption.
Qed.

(** X11. The soft delete hides a booking without removing it: with distinct
    booking ids, after a successful delete the booking object is still
    stored, cancelled, stamped as deleted and without calendar reference,
    the list is as long as before, and every later staff command on that id
    (status change, reschedule, delete) as well as the read of that id
    answers 404 booking not found and changes nothing; the listing shows no
    booking with that id. *)
Theorem deleted_booking_is_gone_for_staff (st : AppState) (createId : nat -> string)
    (now : Z) (workspace : Workspace) (id : string)
    (st' : AppState) (code : Z) (deleted : Booking.t) :
  NoDup (map Booking.id (bookings st)) ->
  deleteBooking env st createId now workspace id = (st', Sent code deleted) ->
  In deleted (bookings st')
  /\ Booking.id deleted = id
  /\ Booking.status deleted = cancelled
  /\ Booking.deletedAt deleted = Some now
  /\ Booking.calendarEventId deleted = None
  /\ List.length (bookings st') = List.length (bookings st)
  /\ (forall createId' now' rawStatus calendarEventId,
        patchBookingStatus env st' createId' now' workspace id rawStatus calendarEventId
        = (st', Failed 404 ErrBookingNotFound))
  /\ (forall createId' now' startsAtInput calendarEventId,
        rescheduleBooking env st' createId' now' workspace id startsAtInput
          calendarEventId
        = (st', Failed 404 ErrBookingNotFound))
  /\ (forall createId' now',
        deleteBooking env st' createId' now' workspace id
        = (st', Failed 404 ErrBookingNotFound))
  /\ getBooking st' workspace id = Failed 404 ErrBookingNotFound
  /\ (forall status dateFrom dateTo view,
        In view (getBookings env st' workspace status dateFrom dateTo) ->
        Booking.id (view_booking view) <> id).
Proof.
  intros Hnd. unfold deleteBooking.
  destruct (find (isOwnBooking (ws_id workspace) id) (bookings st))
    as [booking|] eqn:Hfind; [|discriminate].
  intros [= <- _ <-].
  assert (Hown := find_some _ _ Hfind). destruct Hown as [_ Hown].
  assert (Hid : Booking.id booking = id) by (apply (isOwnBooking_workspace _ _ _ Hown)).
  set (deleted := Booking.with_calendarEventId None _).
  set (st' := emitEvent env _ _ _ _ _ _ _ _).
  assert (Hb : bookings st'
               = updateFirst (isOwnBooking (ws_id workspace) id) (fun _ => deleted)
                   (bookings st)).
  { unfold st'. rewrite emitEvent_bookings. reflexivity. }
  clearbody st'.
  assert (Honly : forall x, In x (bookings st') -> Booking.id x = id -> x = deleted).
  { rewrite Hb. apply (updateFirst_only _ _ _ booking); assumption. }
  assert (Hnone : find (isOwnBooking (ws_id workspace) id) (bookings st') = None).
  { apply find_all_false. intros x Hx.
    destruct (isOwnBooking (ws_id workspace) id x) eqn:Hp; [|reflexivity].
    destruct (isOwnBooking_workspace _ _ _ Hp) as [_ Hx'].
    rewrite (Honly x Hx Hx') in Hp. unfold isOwnBooking, isDeleted in Hp.
    simpl in Hp. rewrite andb_false_r in Hp. discriminate. }
  split.
  { rewrite Hb. destruct (replacedAt_updateFirst (isOwnBooking (ws_id workspace) id)
                            (bookings st) booking deleted Hfind) as (n & _ & Hn & _).
    apply (nth_error_In _ n). exact Hn. }
  split; [exact Hid|]. do 3 (split; [reflexivity|]).
  split.
  { rewrite Hb. apply updateFirst_length. }
  split; [intros; unfold patchBookingStatus; rewrite Hnone; reflexivity|].
  split; [intros; unfold rescheduleBooking; rewrite Hnone; reflexivity|].
  split; [intros; unfold deleteBooking; rewrite Hnone; reflexivity|].
  split; [unfold getBooking; rewrite Hnone; reflexivity|].
  intros status dateFrom dateTo view Hview Hidv.
  assert (Hl : In (view_booking view)
                 (map view_booking (getBookings env st' workspace status dateFrom dateTo)))
    by (apply in_map; exact Hview).
  apply getBookings_In in Hl. destruct Hl as (Hinb & _ & Hd & _).
  rewrite (Honly _ Hinb Hidv) in Hd. discriminate Hd.
Qed.

(** X14. The public service listing shows exactly the services that the
    public routes serve: the slot listing answers 404 service not found for
    a service id (given with a date) exactly when no listed service has that
    id, and every booking that the public route creates is for a listed
    service. *)
Theorem only_listed_services_are_bookable (st : AppState) (workspace : Workspace)
    (code : Z) (listed : list Service.t) :
  getPublicServices st (Some workspace) = Sent code listed ->
  (forall serviceId date,
     truthy serviceId = true -> date <> DateMissing ->
     (getPublicSlots env st (Some workspace) serviceId date
      = Failed 404 ErrServiceNotFound
      <-> forall service, In service listed -> Service.id service <> serviceId))
  /\ (forall createId now key path body calendarEventId st' code' snapshot,
        createPublicBooking env st createId now (Some workspace) key path body
          calendarEventId
        = (st', Sent code' (CreatedBooking snapshot)) ->
        exists service, In service listed /\ Service.id service = body_serviceId body).
Proof.
  unfold getPublicServices. intros [= _ <-]. split.
  - intros serviceId date Hsid Hdate. unfold getPublicSlots. rewrite Hsid.
    replace (match date with DateMissing => true | _ => false end) with false
      by (destruct date; [contradiction|reflexivity|reflexivity]).
    simpl negb. cbv iota.
    destruct (find _ (services st)) as [service|] eqn:Hfind.
    + apply find_some in Hfind. destruct Hfind as [Hin Hp].
      apply andb_true_iff in Hp. destruct Hp as [Hp Hact].
      apply andb_true_iff in Hp. destruct Hp as [Hid Hw].
      apply String.eqb_eq in Hid.
      split; [destruct date; discriminate|].
      intros Hnone. exfalso. apply (Hnone service); [|exact Hid].
      apply filter_In. split; [exact Hin|]. rewrite Hw, Hact. reflexivity.
    + split; [|reflexivity]. intros _ service Hin Hid.
      apply filter_In in Hin. destruct Hin as [Hin Hp].
      apply (find_none _ _ Hfind) in Hin.
      rewrite Hid, String.eqb_refl in Hin. simpl in Hin. congruence.
  - intros createId now key path body cal st' code' snapshot Hcreated.
    destruct (createPublicBooking_created _ _ _ _ _ _ _ _ _ _ _ Hcreated)
      as (w & k & [= <-] & _ & _ & _ & Hcommit).
    destruct (commitPublicBooking_sent _ _ _ _ _ _ _ _ _ _ _ _ Hcommit)
      as (service & _ & _ & _ & _ & _ & Hsvc & _).
    apply find_some in Hsvc. destruct Hsvc as [Hin Hp].
    unfold isActiveServiceIn in Hp.
    apply andb_true_iff in Hp. destruct Hp as [Hp Hact].
    apply andb_true_iff in Hp. destruct Hp as [Hw Hid].
    exists service. split; [|apply String.eqb_eq; exact Hid].
    apply filter_In. split; [exact Hin|]. rewrite Hw, Hact. reflexivity.
Qed.

End Commands.

(** ** The store *)

Section Store.

Variable env : Collaborators.

Lemma eventKey_fresh (l : list AutomationEvent.t) w ty ety eid h :
  find (fun event =>
          String.eqb (AutomationEvent.workspaceId event) w
          && String.eqb (AutomationEvent.eventType event) ty
          && String.eqb (AutomationEvent.entityType event) ety
          && String.eqb (AutomationEvent.entityId event) eid
          && String.eqb (AutomationEvent.eventHash event) h) l = None ->
  ~ In (w, ty, ety, eid, h) (map eventKey l).
Proof.
  intros Hfind Hin. apply in_map_iff in Hin. destruct Hin as (event & Hk & Hin).
  apply (find_none _ _ Hfind) in Hin. unfold eventKey in Hk.
  injection Hk as <- <- <- <- <-. rewrite !String.eqb_refl in Hin. discriminate.
Qed.

(** X15. An event is stored once: emitting an event that is already on
    record (same tenant, type, entity and payload hash) changes nothing, so
    emitting twice is emitting once whatever id and clock the second call
    draws; an emission appends at most one event and touches no other
    collection; and a log without two events of the same key stays so. *)
Theorem event_is_stored_once (st : AppState) (newId : string) (now : Z)
    (workspaceId eventType entityType entityId : string) (payload : EventPayload) :
  let st1 := emitEvent env st newId now workspaceId eventType entityType entityId
               payload in
  (forall newId' now',
     emitEvent env st1 newId' now' workspaceId eventType entityType entityId payload
     = st1)
  /\ (st1 = st
      \/ automationEvents st1
         = automationEvents st
           ++ [AutomationEvent.mk newId workspaceId eventType entityType entityId
                 payload (eventHashOf env eventType entityType entityId payload) now])
  /\ (NoDup (map eventKey (automationEvents st)) ->
      NoDup (map eventKey (automationEvents st1))).
Proof.
  intros st1. unfold st1, emitEvent.
  destruct (find _ (automationEvents st)) as [existing|] eqn:Hfind.
  - split; [|split; [left; reflexivity|auto]].
    intros newId' now'. rewrite Hfind. reflexivity.
  - split; [|split].
    + intros newId' now'. cbn [automationEvents set_automationEvents].
      rewrite find_app_none by exact Hfind.
      simpl. rewrite !String.eqb_refl. reflexivity.
    + right. reflexivity.
    + intros Hnd. cbn [automationEvents set_automationEvents].
      rewrite map_app. simpl.
      apply NoDup_app; [exact Hnd|repeat constructor; intros []|].
      intros key Hin [<-|[]]. revert Hin. apply eventKey_fresh. exact Hfind.
Qed.

Lemma find_filter_none {A} (p q : A -> bool) (l : list A) :
  find p l = None -> find p (filter q l) = None.
Proof.
  intros H. apply find_all_false. intros x Hx. apply filter_In in Hx.
  apply (find_none _ _ H). apply Hx.
Qed.

(** X16. A saved idempotency record lives for a day: when no record is
    stored for a tenant, key, method and path, saving one makes the lookup
    answer exactly that record, with the hash and snapshot given and an
    expiry 24 hours after the save; lookups under any other tenant, key,
    method or path answer what they answered before; the sweep of expired
    records keeps the record while the clock is before the expiry and drops
    it from the expiry instant on. *)
Theorem idempotency_record_lives_a_day (st : AppState) (newId : string) (now : Z)
    (workspaceId key method path requestHash : string) (snapshot : Snapshot) :
  findIdempotency st workspaceId key method path = None ->
  let st1 := saveIdempotency st newId now workspaceId key method path requestHash
               snapshot in
  let record := IdempotencyKey.mk newId workspaceId key method path requestHash
                  snapshot (now + 24 * 60 * 60 * 1000) in
  findIdempotency st1 workspaceId key method path = Some record
  /\ (forall workspaceId' key' method' path',
        ledgerKey workspaceId' key' method' path'
        <> ledgerKey workspaceId key method path ->
        findIdempotency st1 workspaceId' key' method' path'
        = findIdempotency st workspaceId' key' method' path')
  /\ (forall now', now' < now + 24 * 60 * 60 * 1000 ->
        findIdempotency (cleanupExpiredRecords st1 now') workspaceId key method path
        = Some record)
  /\ (forall now', now + 24 * 60 * 60 * 1000 <= now' ->
        findIdempotency (cleanupExpiredRecords st1 now') workspaceId key method path
        = None).
Proof.
  intros Hfresh st1 record.
  assert (Hrec : record = IdempotencyKey.mk newId workspaceId key method path
                            requestHash snapshot (addDays now 1)).
  { unfold record, addDays. f_equal; lia. }
  unfold findIdempotency in *. unfold st1, saveIdempotency, cleanupExpiredRecords.
  cbn [idempotencyKeys set_idempotencyKeys]. rewrite <- Hrec.
  split; [|split; [|split]].
  - rewrite find_app_none by exact Hfresh. unfold record. simpl.
    rewrite !String.eqb_refl. reflexivity.
  - intros w' k' m' p' Hne.
    induction (idempotencyKeys st) as [|a l IH]; simpl.
    + unfold record. simpl.
      destruct (String.eqb_spec workspaceId w'); [|reflexivity].
      destruct (String.eqb_spec key k'); [|reflexivity].
      destruct (String.eqb_spec method m'); [|reflexivity].
      destruct (String.eqb_spec path p'); [|reflexivity].
      exfalso. apply Hne. unfold ledgerKey. congruence.
    + destruct (_ && _); [reflexivity|]. apply IH.
      simpl in Hfresh. destruct (_ && _) in Hfresh; [discriminate|exact Hfresh].
  - intros now' Hlt. rewrite filter_app.
    rewrite find_app_none by (apply find_filter_none; exact Hfresh).
    cbn [filter]. replace (IdempotencyKey.expiresAt record <=? now') with false
      by (symmetry; apply Z.leb_gt; exact Hlt).
    unfold record. simpl. rewrite !String.eqb_refl. reflexivity.
  - intros now' Hle. rewrite filter_app.
    rewrite find_app_none by (apply find_filter_none; exact Hfresh).
    cbn [filter]. replace (IdempotencyKey.expiresAt record <=? now') with true
      by (symmetry; apply Z.leb_le; exact Hle).
    reflexivity.
Qed.

Lemma removeAt_last {A} (pre : list A) (x : A) (post : list A) :
  removeAt (List.length pre) (pre ++ x :: post) = pre ++ post.
Proof.
  induction pre as [|a pre IH]; simpl; [reflexivity|]. rewrite IH. reflexivity.
Qed.

Lemma sweep_from_the_end now : forall n pre post,
  List.length pre = n ->
  sweepIdempotencyKeys n now (pre ++ post)
  = filter (fun item => negb (IdempotencyKey.expiresAt item <=? now)) pre ++ post.
Proof.
  induction n as [|n IH]; intros pre post Hlen.
  - destruct pre; [reflexivity|discriminate].
  - destruct (exists_last (l := pre)) as (pre' & x & ->);
      [intros ->; discriminate|].
    rewrite length_app in Hlen. simpl in Hlen.
    assert (Hn : List.length pre' = n) by lia.
    cbn [sweepIdempotencyKeys]. rewrite <- app_assoc. cbn [app].
    assert (Hx : nth_error (pre' ++ x :: post) n = Some x).
    { rewrite nth_error_app2 by lia. rewrite Hn, Nat.sub_diag. reflexivity. }
    rewrite Hx, filter_app. cbn [filter].
    destruct (IdempotencyKey.expiresAt x <=? now); cbn [negb].
    + replace (removeAt n (pre' ++ x :: post)) with (pre' ++ post)
        by (rewrite <- Hn; symmetry; apply removeAt_last).
      rewrite IH by exact Hn. rewrite app_nil_r. reflexivity.
    + rewrite IH by exact Hn. rewrite <- app_assoc. reflexivity.
Qed.

(** X17. The sweep of the idempotency records, which walks the list from
    the last index down and splices expired records out in place, removes
    exactly the records whose expiry is not after the clock and keeps all
    the others in their order: it leaves the store that
    [cleanupExpiredRecords] stands for. *)
Theorem sweep_removes_exactly_the_expired (st : AppState) (now : Z) :
  let swept := sweepIdempotencyKeys (List.length (idempotencyKeys st)) now
                 (idempotencyKeys st) in
  set_idempotencyKeys swept st = cleanupExpiredRecords st now
  /\ (forall item, In item swept
                   <-> In item (idempotencyKeys st)
                       /\ now < IdempotencyKey.expiresAt item)
  /\ exists removed, Permutation (idempotencyKeys st) (swept ++ removed)
                     /\ forall item, In item removed ->
                                     IdempotencyKey.expiresAt item <= now.
Proof.
  intros swept.
  assert (E : swept = filter (fun item => negb (IdempotencyKey.expiresAt item <=? now))
                        (idempotencyKeys st)).
  { unfold swept. rewrite <- (app_nil_r (idempotencyKeys st)) at 2.
    rewrite sweep_from_the_end by reflexivity. apply app_nil_r. }
  rewrite E. split; [reflexivity|]. split.
  - intros item. rewrite filter_In. rewrite negb_true_iff, Z.leb_gt. reflexivity.
  - exists (filter (fun item => IdempotencyKey.expiresAt item <=? now)
                   (idempotencyKeys st)).
    split.
    + clear E swept.
      induction (idempotencyKeys st) as [|a l IH]; simpl; [constructor|].
      destruct (IdempotencyKey.expiresAt a <=? now); simpl.
      * apply Permutation_cons_app. exact IH.
      * constructor. exact IH.
    + intros item Hin. apply filter_In in Hin. apply Z.leb_le. apply Hin.
Qed.




End Store.

(** ** The worker *)

Section WorkerRuns.

Variable env : Collaborators.

Lemma runJobHandler_alerts st createId now job alert :
  In alert (alerts st) -> In alert (alerts (fst (runJobHandler env st createId now job))).
Proof.
  intros Hin. unfold runJobHandler. destruct (ScheduledJob.jobType job).
  - destruct (find _ (bookings st)) as [b|]; [|exact Hin].
    destruct (Booking.status b); try exact Hin;
      (destruct (find _ (contacts st)); [|exact Hin];
       destruct (reminderError env _); simpl; [exact Hin|];
       rewrite emitEvent_alerts; exact Hin).
  - destruct (find _ (formRequests st)) as [r|]; [|exact Hin].
    destruct (FormRequest.status r); try exact Hin.
    destruct (_ <=? _); simpl; [|exact Hin].
    rewrite emitEvent_alerts. simpl. apply in_or_app. left. exact Hin.
Qed.

(** The alerts of one iteration of the loop of the tick. *)
Lemma workJob_alerts st createId now k i j st0 :
  NoDup (map ScheduledJob.id (scheduledJobs st)) ->
  nth_error (scheduledJobs st) i = Some j ->
  bookings st = bookings st0 -> contacts st = contacts st0 ->
  let st' := fst (workJob env createId now (st, k) (i, j)) in
  (forall alert, In alert (alerts st) -> In alert (alerts st'))
  /\ forall e, handlerError env st0 j = Some e ->
       In (Alert.mk (createId k 3%nat) (ScheduledJob.workspaceId j) "job.failed" critical
             (MsgJobFailed (ScheduledJob.jobType j) e) now) (alerts st').
Proof.
  intros Hnd Hn Hb Hc. unfold workJob. cbv zeta. cbn [fst snd].
  set (jobs1 := updateNth i (ScheduledJob.lock "local-worker-1" now) (scheduledJobs st)).
  set (st1 := set_scheduledJobs jobs1 st).
  assert (Hids1 : map ScheduledJob.id jobs1 = map ScheduledJob.id (scheduledJobs st)).
  { apply map_updateNth. reflexivity. }
  assert (Hn1 : nth_error jobs1 i = Some (ScheduledJob.lock "local-worker-1" now j)).
  { unfold jobs1. rewrite nth_error_updateNth, Nat.eqb_refl, Hn. reflexivity. }
  assert (Hnd1 : NoDup (map ScheduledJob.id jobs1)) by (rewrite Hids1; exact Hnd).
  destruct (updateFirst_by_id (ScheduledJob.settle done None now) jobs1 i _ Hnd1 Hn1)
    as [_ Hfind].
  simpl ScheduledJob.id in Hfind.
  unfold processJob. change (scheduledJobs st1) with jobs1. rewrite Hfind.
  pose proof (fun alert => runJobHandler_alerts st1 (createId k) now
                (ScheduledJob.lock "local-worker-1" now j) alert) as Hgrow.
  pose proof (runJobHandler_error env st1 (createId k) now j
                (ScheduledJob.lock "local-worker-1" now j) st0 Hb Hc
                eq_refl eq_refl eq_refl eq_refl) as Herr.
  destruct (runJobHandler env st1 (createId k) now
              (ScheduledJob.lock "local-worker-1" now j)) as [st2 r].
  simpl fst in Hgrow. simpl snd in Herr. change (alerts st1) with (alerts st) in Hgrow.
  rewrite <- Herr. destruct r as [e|].
  - unfold createAlert. simpl. split.
    + intros alert Hin. apply in_or_app. left. apply Hgrow. exact Hin.
    + intros e' [= <-]. apply in_or_app. right. left. reflexivity.
  - simpl. split; [exact Hgrow|]. intros e' H. discriminate H.
Qed.

Lemma tick_alerts createId now st0 : forall L st k,
  NoDup (map ScheduledJob.id (scheduledJobs st)) ->
  NoDup (map fst L) ->
  (forall i j, In (i, j) L -> nth_error (scheduledJobs st) i = Some j) ->
  bookings st = bookings st0 -> contacts st = contacts st0 ->
  let st' := fst (fold_left (workJob env createId now) L (st, k)) in
  (forall alert, In alert (alerts st) -> In alert (alerts st'))
  /\ forall i j e, In (i, j) L -> handlerError env st0 j = Some e ->
       exists alert,
         In alert (alerts st')
         /\ Alert.workspaceId alert = ScheduledJob.workspaceId j
         /\ Alert.type alert = "job.failed"
         /\ Alert.severity alert = critical
         /\ Alert.message alert = MsgJobFailed (ScheduledJob.jobType j) e.
Proof.
  induction L as [|[i j] L IH]; intros st k Hnd HndL Hnth Hb Hc; cbn [fold_left].
  - split; [auto|]. intros i j e [].
  - apply NoDup_cons_iff in HndL. destruct HndL as [Hnotin HndL'].
    destruct (workJob_step env st createId now k i j st0 Hnd
                (Hnth i j (or_introl eq_refl)) Hb Hc)
      as (Hids & Hb1 & Hc1 & Hother & _).
    destruct (workJob_alerts st createId now k i j st0 Hnd
                (Hnth i j (or_introl eq_refl)) Hb Hc) as [Hgrow Hfail].
    destruct (workJob env createId now (st, k) (i, j)) as [st1 k1] eqn:Hstep.
    cbn [fst] in *.
    assert (Hnd1 : NoDup (map ScheduledJob.id (scheduledJobs st1)))
      by (rewrite Hids; exact Hnd).
    assert (Hnth1 : forall i' j0, In (i', j0) L ->
              nth_error (scheduledJobs st1) i' = Some j0).
    { intros i' j0 Hin. rewrite Hother.
      - apply Hnth. right. exact Hin.
      - intros ->. apply Hnotin. apply (in_map fst) in Hin. exact Hin. }
    destruct (IH st1 k1 Hnd1 HndL' Hnth1 Hb1 Hc1) as [IHgrow IHfail].
    split; [auto|].
    intros i0 j0 e [[= <- <-]|Hin] He.
    + eexists. split; [apply IHgrow; apply (Hfail e He)|]. simpl. auto.
    + apply (IHfail i0 j0 e Hin He).
Qed.

(** X19. What a tick does to the jobs beyond marking the successful ones
    done: with distinct job ids, a job the tick did not select is left
    exactly as it was; a selected job whose handler throws ends the tick
    failed, with the message as its last error and one attempt more, and a
    critical job.failed alert of its tenant naming the job type and the
    message is raised; and no selected job is selected again by any later
    tick, whatever the clock, so a failed job is never retried. Alerts that
    existed stay, and the bookings are not touched. *)
Theorem tick_settles_what_it_selects (st : AppState) (createId : nat -> nat -> string)
    (now : Z) :
  NoDup (map ScheduledJob.id (scheduledJobs st)) ->
  let selected := dueJobs (cleanupExpiredRecords st now) now in
  let st' := runWorkerTick env st createId now in
  (forall n, ~ In n (map fst selected) ->
     nth_error (scheduledJobs st') n = nth_error (scheduledJobs st) n)
  /\ (forall i j e, In (i, j) selected -> handlerError env st j = Some e ->
        (exists j',
           nth_error (scheduledJobs st') i = Some j'
           /\ ScheduledJob.id j' = ScheduledJob.id j
           /\ ScheduledJob.status j' = failed
           /\ ScheduledJob.lastError j' = Some e
           /\ ScheduledJob.attempts j' = ScheduledJob.attempts j + 1)
        /\ exists alert,
             In alert (alerts st')
             /\ Alert.workspaceId alert = ScheduledJob.workspaceId j
             /\ Alert.type alert = "job.failed"
             /\ Alert.severity alert = critical
             /\ Alert.message alert = MsgJobFailed (ScheduledJob.jobType j) e)
  /\ (forall i j, In (i, j) selected ->
        forall createId' now',
          ~ In i (map fst (dueJobs (cleanupExpiredRecords st' now') now'))
          /\ ~ In i (map fst (dueJobs (cleanupExpiredRecords
                                         (runWorkerTick env st' createId' now') now') now')))
  /\ (forall alert, In alert (alerts st) -> In alert (alerts st'))
  /\ bookings st' = bookings st.
Proof.
  intros Hnd selected st'.
  set (st0 := cleanupExpiredRecords st now).
  assert (Hjobs : scheduledJobs st0 = scheduledJobs st) by reflexivity.
  assert (Hsel : forall i j, In (i, j) selected ->
            nth_error (scheduledJobs st0) i = Some j).
  { intros i j H. unfold selected, dueJobs in H. apply in_firstn in H.
    apply in_sortedDue in H. apply H. }
  assert (Herr : forall j, handlerError env st0 j = handlerError env st j).
  { intros j. unfold handlerError at 1. apply runJobHandler_error; reflexivity. }
  assert (Hnd0 : NoDup (map ScheduledJob.id (scheduledJobs st0)))
    by (rewrite Hjobs; exact Hnd).
  destruct (tick_loop env createId now st0 selected st0 0%nat Hnd0
              (dueJobs_indices st0 now) Hsel eq_refl eq_refl) as [Hother Hloop].
  destruct (tick_alerts createId now st0 selected st0 0%nat Hnd0
              (dueJobs_indices st0 now) Hsel eq_refl eq_refl) as [Hgrow Hfail].
  assert (Est : st' = fst (fold_left (workJob env createId now) selected (st0, 0%nat)))
    by reflexivity.
  rewrite <- Est in Hother, Hloop, Hgrow, Hfail.
  assert (Hsettled : forall i j, In (i, j) selected ->
            exists j', nth_error (scheduledJobs st') i = Some j'
                       /\ ScheduledJob.status j' <> queued).
  { intros i j Hin. destruct (Hloop i j Hin) as (j' & H1 & _ & _ & H4).
    exists j'. split; [exact H1|].
    destruct (handlerError env st0 j); [destruct H4 as [-> _]|rewrite H4]; discriminate. }
  assert (Hnever : forall (s : AppState) i now',
            (exists j', nth_error (scheduledJobs s) i = Some j'
                        /\ ScheduledJob.status j' <> queued) ->
            ~ In i (map fst (dueJobs (cleanupExpiredRecords s now') now'))).
  { intros s i now' (j' & Hn & Hq) Hin. apply in_map_iff in Hin.
    destruct Hin as ([i' j''] & Hi & Hin). simpl in Hi. subst i'.
    unfold dueJobs in Hin. apply in_firstn in Hin. apply in_sortedDue in Hin.
    destruct Hin as [Hn' [Hqueued _]].
    change (scheduledJobs (cleanupExpiredRecords s now')) with (scheduledJobs s) in Hn'.
    congruence. }
  split; [exact Hother|]. split; [|split; [|split]].
  - intros i j e Hin He. rewrite <- Herr in He. split.
    + destruct (Hloop i j Hin) as (j' & H1 & H2 & H3 & H4). rewrite He in H4.
      exists j'. tauto.
    + apply (Hfail i j e Hin He).
  - intros i j Hin createId' now'.
    destruct (Hsettled i j Hin) as (j' & Hn & Hq).
    split; [apply Hnever; eauto|].
    apply Hnever. exists j'. split; [|exact Hq].
    set (st1 := cleanupExpiredRecords st' now').
    assert (Hnd' : NoDup (map ScheduledJob.id (scheduledJobs st1))).
    { change (scheduledJobs st1) with (scheduledJobs st').
      assert (Hids : map ScheduledJob.id (scheduledJobs st')
                     = map ScheduledJob.id (scheduledJobs st)).
      { apply nth_error_ext. intros n. rewrite !nth_error_map.
        destruct (in_dec Nat.eq_dec n (map fst selected)) as [Hsel'|Hsel'].
        - apply in_map_iff in Hsel'. destruct Hsel' as ([i' j0] & Hi & Hin0).
          simpl in Hi. subst i'.
          destruct (Hloop n j0 Hin0) as (j1 & H1 & H2 & _).
          rewrite H1, <- Hjobs, (Hsel n j0 Hin0). simpl. rewrite H2. reflexivity.
        - rewrite (Hother n Hsel'). reflexivity. }
      rewrite Hids. exact Hnd. }
    assert (Hsel1 : forall i0 j0, In (i0, j0) (dueJobs st1 now') ->
              nth_error (scheduledJobs st1) i0 = Some j0).
    { intros i0 j0 H. unfold dueJobs in H. apply in_firstn in H.
      apply in_sortedDue in H. apply H. }
    destruct (tick_loop env createId' now' st1 (dueJobs st1 now') st1 0%nat Hnd'
                (dueJobs_indices st1 now') Hsel1 eq_refl eq_refl) as [Hother1 _].
    change (runWorkerTick env st' createId' now')
      with (fst (fold_left (workJob env createId' now') (dueJobs st1 now') (st1, 0%nat))).
    rewrite Hother1; [exact Hn|].
    apply Hnever. eauto.
  - exact Hgrow.
  - unfold st', runWorkerTick. fold st0. fold selected.
    clear -Hsel Hnd0.
    assert (H : forall L s k,
              bookings (fst (fold_left (workJob env createId now) L (s, k))) = bookings s).
    { induction L as [|[i j] L IH]; intros s k; cbn [fold_left]; [reflexivity|].
      unfold workJob at 2. cbv zeta. cbn [fst snd]. rewrite IH.
      unfold processJob. cbn [scheduledJobs set_scheduledJobs].
      destruct (find _ _) as [job|]; [|reflexivity].
      pose proof (runJobHandler_frame env
                    (set_scheduledJobs
                       (updateNth i (ScheduledJob.lock "local-worker-1" now)
                          (scheduledJobs s)) s) (createId k) now job) as Hf.
      destruct (runJobHandler env _ (createId k) now job) as [s1 [e|]];
        cbv zeta in Hf; simpl in Hf; destruct Hf as (_ & Hb & _); simpl; exact Hb. }
    rewrite H. reflexivity.
Qed.

(** X20. A reminder follows the status of its booking: when the booking
    of a reminder job is gone, cancelled or completed, or its contact is
    gone, processing the job sends nothing and records nothing, and only
    marks the job done with one attempt more; for any other booking (pending,
    confirmed, and no_show as well) whose contact exists and whose message
    goes out, a booking.reminder_due event about the booking is emitted and
    the job is marked done. *)
Theorem reminder_follows_booking_status (st : AppState) (createId : nat -> string)
    (now : Z) (job : ScheduledJob.t) :
  find (isJob (ScheduledJob.id job)) (scheduledJobs st) = Some job ->
  ScheduledJob.jobType job = booking_reminder ->
  let result := processJob env st createId now (ScheduledJob.id job) in
  let contactOf := fun booking : Booking.t =>
    find (fun item => String.eqb (Contact.id item) (Booking.contactId booking)
                      && String.eqb (Contact.workspaceId item) (Booking.workspaceId booking))
         (contacts st) in
  (bookingOfReminder st job = None -> result = settledDone now (ScheduledJob.id job) st)
  /\ (forall booking,
        bookingOfReminder st job = Some booking ->
        Booking.status booking = cancelled \/ Booking.status booking = completed
        \/ contactOf booking = None ->
        result = settledDone now (ScheduledJob.id job) st)
  /\ (forall booking contact,
        bookingOfReminder st job = Some booking ->
        Booking.status booking <> cancelled -> Booking.status booking <> completed ->
        contactOf booking = Some contact ->
        reminderError env (ScheduledJob.id job) = None ->
        result
        = settledDone now (ScheduledJob.id job)
            (emitEvent env st (createId 0%nat) now (Booking.workspaceId booking)
               "booking.reminder_due" "booking" (Booking.id booking)
               (PayloadReminder (Booking.startsAt booking)))).
Proof.
  intros Hfind Htype result contactOf. unfold result, processJob, bookingOfReminder.
  rewrite Hfind. unfold runJobHandler. rewrite Htype. unfold contactOf.
  split; [|split].
  - intros ->. reflexivity.
  - intros booking -> [Hs|[Hs|Hc]].
    + rewrite Hs. reflexivity.
    + rewrite Hs. reflexivity.
    + rewrite Hc. destruct (Booking.status booking); reflexivity.
  - intros booking contact -> Hn1 Hn2 -> ->.
    unfold settledDone.
    destruct (Booking.status booking); try contradiction; reflexivity.
Qed.

(** X21. The overdue check marks a form request once it is due: when the
    request of the job is found pending with its due instant not after the
    clock, processing the job turns the first such request overdue, raises a
    form.overdue warning, emits a form.overdue event and marks the job done;
    when the request is gone, not pending any more, or not yet due, nothing
    happens except that the job is marked done, so the check is never
    repeated. *)
Theorem overdue_check_marks_due_requests (st : AppState) (createId : nat -> string)
    (now : Z) (job : ScheduledJob.t) :
  find (isJob (ScheduledJob.id job)) (scheduledJobs st) = Some job ->
  ScheduledJob.jobType job = form_overdue_check ->
  let result := processJob env st createId now (ScheduledJob.id job) in
  (forall request,
     find (isRequestOfCheck job) (formRequests st) = Some request ->
     FormRequest.status request = form_pending ->
     FormRequest.dueAt request <= now ->
     formRequests result
     = updateFirst (isRequestOfCheck job) (FormRequest_overdue now) (formRequests st)
     /\ alerts result
        = alerts st ++ [Alert.mk (createId 1%nat) (FormRequest.workspaceId request)
                          "form.overdue" warning
                          (MsgFormOverdue (FormRequest.id request)) now]
     /\ recorded result (FormRequest.workspaceId request) "form.overdue" "form_request"
          (FormRequest.id request)
     /\ scheduledJobs result
        = updateFirst (isJob (ScheduledJob.id job)) (ScheduledJob.settle done None now)
            (scheduledJobs st))
  /\ ((forall request,
         find (isRequestOfCheck job) (formRequests st) = Some request ->
         FormRequest.status request <> form_pending \/ now < FormRequest.dueAt request) ->
      result = settledDone now (ScheduledJob.id job) st).
Proof.
  intros Hfind Htype result. unfold result, processJob.
  rewrite Hfind. unfold runJobHandler. rewrite Htype. unfold isRequestOfCheck.
  split.
  - intros request -> -> Hdue. apply Z.leb_le in Hdue. rewrite Hdue.
    cbn [fst snd]. cbn [formRequests alerts scheduledJobs set_scheduledJobs].
    rewrite emitEvent_formRequests, emitEvent_alerts, emitEvent_scheduledJobs.
    split; [reflexivity|]. split; [reflexivity|]. split; [|reflexivity].
    unfold recorded. cbn [automationEvents set_scheduledJobs].
    apply emitEvent_recorded.
  - intros Hnot.
    destruct (find _ (formRequests st)) as [request|]; [|reflexivity].
    destruct (Hnot request eq_refl) as [Hs|Hd].
    + destruct (FormRequest.status request); try contradiction; reflexivity.
    + apply Z.leb_gt in Hd. rewrite Hd.
      destruct (FormRequest.status request); reflexivity.
Qed.

End WorkerRuns.

(** ** The availability rule store *)

Section RuleRoutes.

Lemma parsePacing_ok payload existing t buffer step :
  parsePacing payload existing t = inr (buffer, step) ->
  0 <= buffer /\ forall n, step = Some n -> 0 < n.
Proof.
  unfold parsePacing.
  match goal with
  | |- context [if ?b <? 0 then _ else _] => destruct (Z.ltb_spec b 0); [discriminate|]
  end.
  destruct (pl_slotIntervalMin payload) as [| |parsed].
  - destruct (whenType existing t AvailabilityRule.slotIntervalMin) as [n|].
    + destruct (Z.ltb_spec 0 n); intros [= <- <-]; split; try assumption;
        intros m Hm; [injection Hm as <-; assumption|discriminate].
    + intros [= <- <-]. split; [assumption|discriminate].
  - intros [= <- <-]. split; [assumption|discriminate].
  - destruct (Z.leb_spec parsed 0); [discriminate|].
    intros [= <- <-]. split; [assumption|]. intros m [= <-]. assumption.
Qed.

(** What passes the validation of the rule routes is stored well formed. *)
Lemma parse_wellFormed payload existing value target :
  parseAvailabilityRuleInput payload existing = inr value ->
  wellFormedRule (applyRuleShape target value).
Proof.
  unfold parseAvailabilityRuleInput. intros H.
  destruct (match pl_ruleType payload with
            | RawMissing => _ | RawEmpty => _ | RawKnown t => _ | RawOther => _ end)
    as [[| |]|]; try discriminate.
  - destruct (orElse (pl_weekday payload) _) as [wd|]; [|discriminate].
    destruct ((wd <? 0) || (6 <? wd)) eqn:Hr; [discriminate|].
    destruct (parseTimes payload existing weekly _) as [e|[a b]] eqn:Ht; [discriminate|].
    destruct (parsePacing payload existing weekly) as [e|[bm si]] eqn:Hp; [discriminate|].
    inversion H; subst value. clear H.
    apply orb_false_iff in Hr. destruct Hr as [H1 H2].
    apply Z.ltb_ge in H1. apply Z.ltb_ge in H2.
    apply parseTimes_ok in Ht. apply parsePacing_ok in Hp. destruct Hp as [Hb Hs].
    exists weekly. split; [reflexivity|]. simpl.
    split; [exists wd; split; [reflexivity|lia]|]. split; [reflexivity|].
    split; [exists a, b; auto|]. split; [|reflexivity].
    split; [exists bm; auto|exact Hs].
  - destruct (orElse (pl_date payload) _) as [date|]; [|discriminate].
    destruct (parseTimes payload existing date_override _) as [e|[a b]] eqn:Ht;
      [discriminate|].
    destruct (parsePacing payload existing date_override) as [e|[bm si]] eqn:Hp;
      [discriminate|].
    inversion H; subst value. clear H.
    apply parseTimes_ok in Ht. apply parsePacing_ok in Hp. destruct Hp as [Hb Hs].
    exists date_override. split; [reflexivity|]. simpl.
    split; [exists date; reflexivity|]. split; [reflexivity|].
    split; [exists a, b; auto|]. split; [|reflexivity].
    split; [exists bm; auto|exact Hs].
  - destruct (orElse (pl_date payload) _) as [date|]; [|discriminate].
    destruct (match pl_isClosedAllDay payload with Some b => b | None => _ end).
    + inversion H; subst value. clear H.
      exists date_block. split; [reflexivity|]. simpl.
      split; [exists date; reflexivity|]. do 3 (split; [reflexivity|]).
      left. auto.
    + destruct (parseTimes payload existing date_block _) as [e|[a b]] eqn:Ht;
        [discriminate|].
      inversion H; subst value. clear H. apply parseTimes_ok in Ht.
      exists date_block. split; [reflexivity|]. simpl.
      split; [exists date; reflexivity|]. do 3 (split; [reflexivity|]).
      right. split; [reflexivity|]. exists a, b. auto.
Qed.

Lemma wellFormed_normal r : wellFormedRule r -> normalizeAvailabilityRule r = r.
Proof.
  intros (kind & Hk & H). unfold normalizeAvailabilityRule, resolveExistingRuleType.
  destruct r as [id w s ty wd d st en bm si cl u]. simpl in *. subst ty.
  unfold hasPacing, hasTimes in H.
  destruct kind; simpl in *.
  - destruct H as (_ & _ & _ & ((b & Hb & _) & _) & _). subst bm. reflexivity.
  - destruct H as (_ & _ & _ & ((b & Hb & _) & _) & _). subst bm. reflexivity.
  - destruct H as (_ & _ & _ & _ & [(Hc & _)|(Hc & _)]); subst cl; reflexivity.
Qed.

Lemma wellFormed_touch now r : wellFormedRule r -> wellFormedRule (AvailabilityRule_touch now r).
Proof. intros H. exact H. Qed.

(** X22. What the rule routes store is well formed: a rule that POST
    appends or PATCH puts in place carries its kind; a weekly rule has a
    weekday in 0..6, no date, a start before its end, a buffer that is not
    negative and a step that is positive when given; an override has a date
    and the same times and pacing; a block has a date and either closes the
    day and has no times, or has a start before its end. The rule belongs
    to the tenant and, on POST, to a service of the tenant; PATCH keeps id,
    tenant and service; the answer is the stored rule itself. *)
Theorem stored_rules_are_well_formed (st : AppState) (now : Z) (workspace : Workspace)
    (payload : RulePayload) (st' : AppState) (code : Z) (reply : AvailabilityRule.t) :
  (forall newId,
     postAvailabilityRule st newId now workspace payload = (st', Sent code reply) ->
     availabilityRules st' = availabilityRules st ++ [reply]
     /\ wellFormedRule reply
     /\ AvailabilityRule.id reply = newId
     /\ AvailabilityRule.workspaceId reply = ws_id workspace
     /\ AvailabilityRule.serviceId reply = pl_serviceId payload
     /\ exists service,
          In service (services st)
          /\ Service.id service = pl_serviceId payload
          /\ Service.workspaceId service = ws_id workspace)
  /\ (forall id,
        patchAvailabilityRule st now workspace id payload = (st', Sent code reply) ->
        exists old,
          find (isRuleOf (ws_id workspace) id) (availabilityRules st) = Some old
          /\ replacedAt (availabilityRules st) (availabilityRules st') old reply
          /\ wellFormedRule reply
          /\ AvailabilityRule.id reply = id
          /\ AvailabilityRule.workspaceId reply = ws_id workspace
          /\ AvailabilityRule.serviceId reply = AvailabilityRule.serviceId old
          /\ AvailabilityRule.updatedAt reply = now).
Proof.
  split.
  - intros newId. unfold postAvailabilityRule.
    destruct (negb (truthy (pl_serviceId payload))); [discriminate|].
    destruct (find _ (services st)) as [service|] eqn:Hsvc; [|discriminate].
    destruct (parseAvailabilityRuleInput payload None) as [e|value] eqn:Hparse;
      [discriminate|].
    destruct (hasOverlappingRule _ _ _ _ _); [discriminate|].
    set (rule := applyRuleShape _ value).
    assert (Hwf : wellFormedRule rule) by (apply (parse_wellFormed _ _ _ _ Hparse)).
    rewrite (wellFormed_normal _ Hwf).
    intros [= <- _ <-]. simpl.
    split; [reflexivity|]. split; [exact Hwf|].
    assert (Hkeep : AvailabilityRule.id rule = newId
                    /\ AvailabilityRule.workspaceId rule = ws_id workspace
                    /\ AvailabilityRule.serviceId rule = pl_serviceId payload).
    { unfold rule, applyRuleShape. destruct (n_ruleType value); simpl; auto. }
    destruct Hkeep as (K1 & K2 & K3).
    split; [exact K1|]. split; [exact K2|]. split; [exact K3|].
    apply find_some in Hsvc. destruct Hsvc as [Hin Hp].
    apply andb_true_iff in Hp. destruct Hp as [H1 H2].
    exists service. split; [exact Hin|].
    split; apply String.eqb_eq; assumption.
  - intros id. unfold patchAvailabilityRule.
    destruct (find _ (availabilityRules st)) as [old|] eqn:Hfind; [|discriminate].
    destruct (parseAvailabilityRuleInput payload (Some old)) as [e|value] eqn:Hparse;
      [discriminate|].
    destruct (hasOverlappingRule _ _ _ _ _); [discriminate|].
    set (rule := AvailabilityRule_touch now (applyRuleShape old value)).
    assert (Hwf : wellFormedRule rule)
      by (apply wellFormed_touch; apply (parse_wellFormed _ _ _ _ Hparse)).
    rewrite (wellFormed_normal _ Hwf).
    intros [= <- _ <-]. simpl.
    exists old. split; [reflexivity|].
    split; [apply replacedAt_updateFirst; exact Hfind|]. split; [exact Hwf|].
    assert (Hown := find_some _ _ Hfind). destruct Hown as [_ Hown].
    apply andb_true_iff in Hown. destruct Hown as [H1 H2].
    apply String.eqb_eq in H1. apply String.eqb_eq in H2.
    unfold rule, AvailabilityRule_touch, applyRuleShape.
    destruct (n_ruleType value); simpl; auto.
Qed.

Lemma optZ_same_sym a b : optZ_same a b = optZ_same b a.
Proof. destruct a, b; simpl; try reflexivity. apply Z.eqb_sym. Qed.

Lemma optDate_same_sym a b : optDate_same a b = optDate_same b a.
Proof.
  destruct a as [x|], b as [y|]; simpl; try reflexivity.
  destruct (DateKey_eqb x y) eqn:H1, (DateKey_eqb y x) eqn:H2; try reflexivity.
  - apply DateKey_eqb_spec in H1. subst y.
    rewrite (proj2 (DateKey_eqb_spec x x) eq_refl) in H2. discriminate.
  - apply DateKey_eqb_spec in H2. subst y.
    rewrite (proj2 (DateKey_eqb_spec x x) eq_refl) in H1. discriminate.
Qed.

Lemma rulesClash_sym a b : rulesClash a b -> rulesClash b a.
Proof.
  unfold rulesClash, ruleTimesOverlap. intros (Hw & Hs & Hk & H).
  split; [auto|]. split; [auto|]. split; [auto|].
  rewrite <- Hk. destruct (resolveRuleType a).
  - rewrite optZ_same_sym. tauto.
  - rewrite optDate_same_sym. tauto.
  - rewrite optDate_same_sym. tauto.
Qed.

Lemma AvailabilityRuleType_eqb_refl t : AvailabilityRuleType_eqb t t = true.
Proof. destruct t; reflexivity. Qed.

(** A candidate that passes the overlap check clashes with no stored rule
    that the check looked at. *)
Lemma check_rules_out_clash st workspaceId serviceId value exclude target b :
  hasOverlappingRule st workspaceId serviceId value exclude = false ->
  AvailabilityRule.workspaceId target = workspaceId ->
  AvailabilityRule.serviceId target = serviceId ->
  In b (availabilityRules st) ->
  isExcluded exclude (AvailabilityRule.id b) = false ->
  ~ rulesClash (applyRuleShape target value) b.
Proof.
  intros Hcheck Hw Hs Hin Hex (Cw & Cs & Ck & C).
  assert (Ht : hasOverlappingRule st workspaceId serviceId value exclude = true);
    [|congruence].
  unfold hasOverlappingRule. apply existsb_exists. exists b. split; [exact Hin|].
  assert (Kw : AvailabilityRule.workspaceId (applyRuleShape target value)
               = AvailabilityRule.workspaceId target)
    by (unfold applyRuleShape; destruct (n_ruleType value); reflexivity).
  assert (Ks : AvailabilityRule.serviceId (applyRuleShape target value)
               = AvailabilityRule.serviceId target)
    by (unfold applyRuleShape; destruct (n_ruleType value); reflexivity).
  assert (Kk : resolveRuleType (applyRuleShape target value) = n_ruleType value)
    by (unfold applyRuleShape; destruct (n_ruleType value); reflexivity).
  rewrite <- Hw, <- Kw, Cw, <- Hs, <- Ks, Cs, !String.eqb_refl, Hex. simpl.
  assert (Kn : resolveExistingRuleType (normalizeAvailabilityRule b) = resolveRuleType b)
    by (unfold normalizeAvailabilityRule, resolveExistingRuleType, resolveRuleType;
        destruct (AvailabilityRule.ruleType b) as [[| |]|]; reflexivity).
  assert (Kf : AvailabilityRule.weekday (normalizeAvailabilityRule b)
               = AvailabilityRule.weekday b
               /\ AvailabilityRule.date (normalizeAvailabilityRule b)
                  = AvailabilityRule.date b
               /\ AvailabilityRule.startTime (normalizeAvailabilityRule b)
                  = AvailabilityRule.startTime b
               /\ AvailabilityRule.endTime (normalizeAvailabilityRule b)
                  = AvailabilityRule.endTime b
               /\ isTrue (AvailabilityRule.isClosedAllDay (normalizeAvailabilityRule b))
                  = isTrue (AvailabilityRule.isClosedAllDay b))
    by (unfold normalizeAvailabilityRule;
        destruct (resolveExistingRuleType b); simpl; repeat split;
        destruct (AvailabilityRule.isClosedAllDay b) as [[|]|]; reflexivity).
  destruct Kf as (F1 & F2 & F3 & F4 & F5).
  rewrite Kn, <- Ck, Kk, AvailabilityRuleType_eqb_refl, F1, F2, F3, F4, F5. simpl.
  rewrite Kk in C. unfold ruleTimesOverlap, overlap in *.
  unfold applyRuleShape in C.
  destruct (n_ruleType value) eqn:Hkind; simpl in C.
  - destruct C as (Hd & O1 & O2). rewrite optZ_same_sym, Hd. simpl.
    apply andb_true_iff. split; apply Z.ltb_lt; assumption.
  - destruct C as (Hd & O1 & O2). rewrite optDate_same_sym, Hd. simpl.
    apply andb_true_iff. split; apply Z.ltb_lt; assumption.
  - destruct C as (Hd & C). rewrite optDate_same_sym, Hd. simpl.
    destruct (isTrue (n_isClosedAllDay value)) eqn:Hclosed; [reflexivity|].
    simpl in C. destruct C as [C|[C|(O1 & O2)]].
    + discriminate C.
    + rewrite C. reflexivity.
    + destruct (isTrue (AvailabilityRule.isClosedAllDay b)); [reflexivity|].
      apply andb_true_iff. split; apply Z.ltb_lt; assumption.
Qed.

Lemma removeAt_incl {A} (l : list A) : forall i x, In x (removeAt i l) -> In x l.
Proof.
  induction l as [|a l IH]; intros [|i] x H; simpl in *; auto.
  destruct H as [<-|H]; [auto|]. right. apply (IH i). exact H.
Qed.

Lemma removeAt_distinct {A B} (g : A -> B) (l : list A) : forall i,
  NoDup (map g l) -> NoDup (map g (removeAt i l)).
Proof.
  induction l as [|a l IH]; intros [|i] H; simpl in *; auto.
  - apply NoDup_cons_iff in H. apply H.
  - apply NoDup_cons_iff in H. destruct H as [Hnotin H].
    constructor; [|apply IH; exact H].
    intros Hin. apply Hnotin. apply in_map_iff in Hin.
    destruct Hin as (x & <- & Hx). apply in_map. apply (removeAt_incl _ _ _ Hx).
Qed.

Lemma filter_distinct {A B} (g : A -> B) (keep : A -> bool) (l : list A) :
  NoDup (map g l) -> NoDup (map g (filter keep l)).
Proof.
  induction l as [|a l IH]; simpl; intros H; [constructor|].
  apply NoDup_cons_iff in H. destruct H as [Hnotin H].
  destruct (keep a); simpl; [|apply IH; exact H].
  constructor; [|apply IH; exact H].
  intros Hin. apply Hnotin. apply in_map_iff in Hin.
  destruct Hin as (x & <- & Hx). apply in_map. apply filter_In in Hx. apply Hx.
Qed.

Lemma rulesInOrder_part (l l' : list AvailabilityRule.t) :
  (forall x, In x l' -> In x l) ->
  NoDup (map AvailabilityRule.id l') ->
  rulesInOrder l -> rulesInOrder l'.
Proof.
  intros Hsub Hnd [_ Hok]. split; [exact Hnd|].
  intros a b Ha Hb. apply Hok; apply Hsub; assumption.
Qed.

Lemma updateFirst_ids (p : AvailabilityRule.t -> bool) (l : list AvailabilityRule.t)
    (old new : AvailabilityRule.t) :
  find p l = Some old ->
  AvailabilityRule.id new = AvailabilityRule.id old ->
  map AvailabilityRule.id (updateFirst p (fun _ => new) l) = map AvailabilityRule.id l.
Proof.
  induction l as [|a l IH]; simpl; [reflexivity|].
  destruct (p a).
  - intros [= ->] H. simpl. rewrite H. reflexivity.
  - intros H1 H2. simpl. rewrite IH by assumption. reflexivity.
Qed.

Lemma updateFirst_members {A} (p : A -> bool) (new : A) (l : list A) x :
  In x (updateFirst p (fun _ => new) l) -> x = new \/ In x l.
Proof.
  induction l as [|a l IH]; simpl; [tauto|].
  destruct (p a); simpl; intros [<-|H]; auto.
  destruct (IH H); auto.
Qed.

(** X23. The rule routes keep the rule store in order: when rule ids are
    distinct and no two stored rules clash (same tenant, service and kind,
    on the same weekday or date, with overlapping times or a block closing
    the day), the same holds after POST (with a fresh id), after PATCH,
    after DELETE of a rule and after DELETE of a service, whether the
    request succeeds or is refused. *)
Theorem rule_store_stays_in_order (st : AppState) (workspace : Workspace) :
  rulesInOrder (availabilityRules st) ->
  (forall newId now payload,
     ~ In newId (map AvailabilityRule.id (availabilityRules st)) ->
     rulesInOrder
       (availabilityRules (fst (postAvailabilityRule st newId now workspace payload))))
  /\ (forall now id payload,
        rulesInOrder
          (availabilityRules (fst (patchAvailabilityRule st now workspace id payload))))
  /\ (forall id,
        rulesInOrder (availabilityRules (fst (deleteAvailabilityRule st workspace id))))
  /\ (forall id,
        rulesInOrder (availabilityRules (fst (deleteService st workspace id)))).
Proof.
  intros Hinv. pose proof Hinv as [Hnd Hok]. split; [|split; [|split]].
  - intros newId now payload Hfresh. unfold postAvailabilityRule.
    destruct (negb (truthy (pl_serviceId payload))); [exact Hinv|].
    destruct (find _ (services st)); [|exact Hinv].
    destruct (parseAvailabilityRuleInput payload None) as [e|value]; [exact Hinv|].
    destruct (hasOverlappingRule _ _ _ _ _) eqn:Hcheck; [exact Hinv|].
    set (target := AvailabilityRule.mk newId _ _ _ _ _ _ _ _ _ _ _).
    assert (Hid : AvailabilityRule.id (applyRuleShape target value) = newId)
      by (unfold applyRuleShape; destruct (n_ruleType value); reflexivity).
    assert (Hno : forall b, In b (availabilityRules st) ->
                            ~ rulesClash (applyRuleShape target value) b).
    { intros b Hb. apply (check_rules_out_clash _ _ _ _ _ _ _ Hcheck); auto. }
    simpl. split.
    + rewrite map_app. simpl. rewrite Hid.
      apply NoDup_app; [exact Hnd|repeat constructor; intros []|].
      intros x Hx [<-|[]]. contradiction.
    + intros a b Ha Hb Hne. apply in_app_or in Ha. apply in_app_or in Hb.
      destruct Ha as [Ha|[<-|[]]], Hb as [Hb|[<-|[]]].
      * apply Hok; assumption.
      * intros Hc. apply (Hno a Ha). apply rulesClash_sym. exact Hc.
      * apply Hno. exact Hb.
      * contradiction.
  - intros now id payload. unfold patchAvailabilityRule.
    destruct (find _ (availabilityRules st)) as [old|] eqn:Hfind; [|exact Hinv].
    destruct (parseAvailabilityRuleInput payload (Some old)) as [e|value]; [exact Hinv|].
    destruct (hasOverlappingRule _ _ _ _ _) eqn:Hcheck; [exact Hinv|].
    assert (Hown := find_some _ _ Hfind). destruct Hown as [_ Hown].
    apply andb_true_iff in Hown. destruct Hown as [_ Hws].
    apply String.eqb_eq in Hws.
    set (new := AvailabilityRule_touch now (applyRuleShape old value)).
    assert (Hid : AvailabilityRule.id new = AvailabilityRule.id old)
      by (unfold new, applyRuleShape; destruct (n_ruleType value); reflexivity).
    assert (Hno : forall b, In b (availabilityRules st) ->
                            AvailabilityRule.id b <> AvailabilityRule.id old ->
                            ~ rulesClash new b).
    { intros b Hb Hne.
      assert (H := check_rules_out_clash _ _ _ _ _ old b Hcheck Hws eq_refl Hb).
      intros Hc. apply H; [|exact Hc].
      simpl. apply andb_false_iff. right. apply String.eqb_neq. exact Hne. }
    simpl. split.
    + rewrite (updateFirst_ids _ _ old new Hfind Hid). exact Hnd.
    + intros a b Ha Hb Hne.
      apply updateFirst_members in Ha. apply updateFirst_members in Hb.
      destruct Ha as [->|Ha], Hb as [->|Hb].
      * contradiction.
      * apply Hno; [exact Hb|]. rewrite <- Hid. auto.
      * intros Hc. apply (Hno a Ha); [rewrite <- Hid; exact Hne|].
        apply rulesClash_sym. exact Hc.
      * apply Hok; assumption.
  - intros id. unfold deleteAvailabilityRule.
    destruct (findIndex _ (availabilityRules st)) as [[i removed]|]; [|exact Hinv].
    simpl. apply (rulesInOrder_part (availabilityRules st));
      [intros x; apply removeAt_incl|apply removeAt_distinct; exact Hnd|exact Hinv].
  - intros id. unfold deleteService.
    destruct (findIndex _ (services st)) as [[i removed]|]; [|exact Hinv].
    simpl. apply (rulesInOrder_part (availabilityRules st));
      [|apply filter_distinct; exact Hnd|exact Hinv].
    intros x Hx. apply filter_In in Hx. apply Hx.
Qed.

End RuleRoutes.

(** ** Deleting a service, and reading rules *)

Section ServiceRoutes.

Variable env : Collaborators.

Lemma findIndex_found {A} (p : A -> bool) (l : list A) : forall i x,
  findIndex p l = Some (i, x) ->
  nth_error l i = Some x /\ p x = true /\ find p l = Some x.
Proof.
  induction l as [|a l IH]; simpl; intros i x; [discriminate|].
  destruct (p a) eqn:Ha.
  - intros [= <- <-]. auto.
  - destruct (findIndex p l) as [[j y]|]; [|discriminate].
    intros [= <- <-]. destruct (IH j y eq_refl) as (H1 & H2 & H3). auto.
Qed.

Lemma removeAt_shorter {A} (l : list A) : forall i x,
  nth_error l i = Some x -> S (List.length (removeAt i l)) = List.length l.
Proof.
  induction l as [|a l IH]; intros [|i] x H; simpl in *; try discriminate; auto.
  rewrite (IH i x H). reflexivity.
Qed.

Lemma removeAt_others {A B} (g : A -> B) (l : list A) : forall i r x,
  NoDup (map g l) -> nth_error l i = Some r -> In x (removeAt i l) -> g x <> g r.
Proof.
  induction l as [|a l IH]; intros [|i] r x Hnd Hn Hx; simpl in *; try discriminate.
  - injection Hn as <-. apply NoDup_cons_iff in Hnd. destruct Hnd as [Hnotin _].
    intros E. apply Hnotin. rewrite <- E. apply in_map. exact Hx.
  - apply NoDup_cons_iff in Hnd. destruct Hnd as [Hnotin Hnd].
    destruct Hx as [<-|Hx].
    + intros E. apply Hnotin. rewrite E. apply in_map. apply (nth_error_In _ _ Hn).
    + apply (IH i r x Hnd Hn Hx).
Qed.

(** X24. Deleting a service removes the service and all its rules and
    nothing else: exactly one service object, of the id and tenant asked
    for, leaves the service list; a rule stays if and only if it is not a
    rule of that tenant and service; bookings and jobs are untouched. With
    distinct service ids the service is then gone for the routes: the slot
    listing answers 404 service not found for it, and a booking of the
    service that could otherwise be rescheduled is refused with 404
    service not found. *)
Theorem deleting_a_service_removes_its_rules (st : AppState) (workspace : Workspace)
    (id : string) (st' : AppState) (code : Z) :
  deleteService st workspace id = (st', Sent code tt) ->
  (exists removed,
     In removed (services st)
     /\ Service.id removed = id
     /\ Service.workspaceId removed = ws_id workspace
     /\ S (List.length (services st')) = List.length (services st)
     /\ forall service, In service (services st') -> In service (services st))
  /\ (forall rule,
        In rule (availabilityRules st')
        <-> In rule (availabilityRules st)
            /\ ~ (AvailabilityRule.workspaceId rule = ws_id workspace
                  /\ AvailabilityRule.serviceId rule = id))
  /\ bookings st' = bookings st
  /\ scheduledJobs st' = scheduledJobs st
  /\ (NoDup (map Service.id (services st)) ->
      (forall date, truthy id = true -> date <> DateMissing ->
         getPublicSlots env st' (Some workspace) id date = Failed 404 ErrServiceNotFound)
      /\ forall createId now bookingId booking startsAtInput startsAt calendarEventId,
           find (isOwnBooking (ws_id workspace) bookingId) (bookings st') = Some booking ->
           Booking.serviceId booking = id ->
           Booking.status booking = pending \/ Booking.status booking = confirmed ->
           truthy startsAtInput = true ->
           parseDate env startsAtInput = Some startsAt ->
           rescheduleBooking env st' createId now workspace bookingId startsAtInput
             calendarEventId
           = (st', Failed 404 ErrServiceNotFound)).
Proof.
  unfold deleteService.
  destruct (findIndex _ (services st)) as [[i removed]|] eqn:Hfind; [|discriminate].
  intros [= <- _]. simpl.
  destruct (findIndex_found _ _ _ _ Hfind) as (Hn & Hp & _).
  apply andb_true_iff in Hp. destruct Hp as [Hid Hw].
  apply String.eqb_eq in Hid. apply String.eqb_eq in Hw.
  split; [|split; [|split; [reflexivity|split; [reflexivity|]]]].
  - exists removed. split; [apply (nth_error_In _ _ Hn)|].
    split; [exact Hid|]. split; [exact Hw|].
    split; [apply (removeAt_shorter _ _ _ Hn)|]. intros service. apply removeAt_incl.
  - intros rule. rewrite filter_In. unfold isRuleOfServiceIn. rewrite Hid.
    rewrite negb_true_iff, andb_false_iff, !String.eqb_neq.
    split; intros [H1 H2]; (split; [exact H1|]).
    + intros [Ha Hb]. destruct H2; contradiction.
    + destruct (String.eqb_spec (AvailabilityRule.workspaceId rule) (ws_id workspace));
        [right; intros E; apply H2; auto|left; assumption].
  - intros Hnd.
    assert (Hgone : forall (q : Service.t -> bool),
              (forall x, q x = true -> Service.id x = id) ->
              find q (removeAt i (services st)) = None).
    { intros q Hq. apply find_all_false. intros x Hx.
      destruct (q x) eqn:Hqx; [|reflexivity].
      exfalso. apply (removeAt_others Service.id _ _ _ _ Hnd Hn Hx).
      rewrite Hid. apply Hq. exact Hqx. }
    split.
    + intros date Hid' Hdate. unfold getPublicSlots. rewrite Hid'.
      replace (match date with DateMissing => true | _ => false end) with false
        by (destruct date; [contradiction|reflexivity|reflexivity]).
      simpl. rewrite Hgone; [reflexivity|].
      intros x Hx. apply andb_true_iff in Hx. destruct Hx as [Hx _].
      apply andb_true_iff in Hx. destruct Hx as [Hx _].
      apply String.eqb_eq. exact Hx.
    + intros createId now bookingId booking input startsAt cal Hb Hsvc Hstatus Hin Hdate.
      unfold rescheduleBooking. simpl in Hb. simpl. rewrite Hb, Hin, Hdate. simpl.
      rewrite Hgone.
      * destruct Hstatus as [->| ->]; reflexivity.
      * intros x Hx. apply andb_true_iff in Hx. destruct Hx as [Hx _].
        apply String.eqb_eq in Hx. congruence.
Qed.

Lemma resolveStep_normal input acc rule :
  resolveStep env input acc (normalizeAvailabilityRule rule) = resolveStep env input acc rule.
Proof.
  unfold resolveStep, normalizeAvailabilityRule, resolveExistingRuleType, resolveRuleType,
    toAvailabilityWindow, defaultStepOf.
  destruct rule as [id w s ty wd d st en bm si cl u].
  destruct ty as [[| |]|];
    cbn [AvailabilityRule.id AvailabilityRule.workspaceId AvailabilityRule.serviceId
         AvailabilityRule.ruleType AvailabilityRule.weekday AvailabilityRule.date
         AvailabilityRule.startTime AvailabilityRule.endTime AvailabilityRule.bufferMin
         AvailabilityRule.slotIntervalMin AvailabilityRule.isClosedAllDay];
    try reflexivity; try (destruct bm; reflexivity).
  destruct cl as [[|]|]; reflexivity.
Qed.

(** X25. Reading rules normalized changes nothing about availability: the
    rule listing answers each rule of the tenant (of the service asked for,
    when one is) normalized, always with a kind, a rule stored without kind
    being shown as weekly; normalizing again changes nothing; and the
    availability of every date resolves the same from the normalized rules
    as from the stored ones. *)
Theorem normalized_rules_resolve_the_same (st : AppState) (workspace : Workspace)
    (serviceId : option string) :
  (forall shown,
     In shown (getAvailabilityRules st workspace serviceId)
     <-> exists rule,
           In rule (availabilityRules st)
           /\ AvailabilityRule.workspaceId rule = ws_id workspace
           /\ (forall wanted, serviceId = Some wanted -> wanted <> "" ->
                 AvailabilityRule.serviceId rule = wanted)
           /\ shown = normalizeAvailabilityRule rule)
  /\ (forall rule,
        AvailabilityRule.ruleType (normalizeAvailabilityRule rule)
        = Some (resolveRuleType rule)
        /\ normalizeAvailabilityRule (normalizeAvailabilityRule rule)
           = normalizeAvailabilityRule rule)
  /\ (forall input,
        resolveAvailabilityForDate env
          (set_availabilityRules (map normalizeAvailabilityRule (availabilityRules st)) st)
          input
        = resolveAvailabilityForDate env st input).
Proof.
  split; [|split].
  - intros shown. unfold getAvailabilityRules. rewrite in_map_iff. split.
    + intros (rule & <- & Hin). exists rule.
      destruct serviceId as [wanted|].
      * destruct (truthy wanted) eqn:Ht.
        -- apply filter_In in Hin. destruct Hin as [Hin Hs].
           apply filter_In in Hin. destruct Hin as [Hin Hw].
           apply String.eqb_eq in Hs. apply String.eqb_eq in Hw.
           repeat split; try assumption. intros wanted' [= <-] _. exact Hs.
        -- apply filter_In in Hin. destruct Hin as [Hin Hw].
           apply String.eqb_eq in Hw. repeat split; try assumption.
           intros wanted' [= <-] Hne. apply truthy_true in Hne. congruence.
      * apply filter_In in Hin. destruct Hin as [Hin Hw].
        apply String.eqb_eq in Hw. repeat split; try assumption. discriminate.
    + intros (rule & Hin & Hw & Hs & ->). exists rule. split; [reflexivity|].
      assert (Hbase : In rule (filter (fun rule => String.eqb
                         (AvailabilityRule.workspaceId rule) (ws_id workspace))
                         (availabilityRules st))).
      { apply filter_In. split; [exact Hin|]. apply String.eqb_eq. exact Hw. }
      destruct serviceId as [wanted|]; [|exact Hbase].
      destruct (truthy wanted) eqn:Ht; [|exact Hbase].
      apply filter_In. split; [exact Hbase|]. apply String.eqb_eq.
      apply (Hs wanted eq_refl). apply truthy_true. exact Ht.
  - intros rule. unfold normalizeAvailabilityRule, resolveExistingRuleType, resolveRuleType.
    destruct rule as [id w s ty wd d st0 en bm si cl u]. simpl.
    destruct ty as [[| |]|]; simpl; split; reflexivity.
  - intros input. unfold resolveAvailabilityForDate, resolveLoop. simpl.
    assert (H : forall rules acc,
              fold_left (resolveStep env input) (map normalizeAvailabilityRule rules) acc
              = fold_left (resolveStep env input) rules acc).
    { induction rules as [|r rules IH]; intros acc; simpl; [reflexivity|].
      rewrite resolveStep_normal. apply IH. }
    rewrite H. reflexivity.
Qed.

End ServiceRoutes.

(** ** Inventory on completion *)

Section Stock.

Variable env : Collaborators.

(** With distinct item ids, the demand for an item is the quantity of its
    one entry, or nothing. *)
Lemma demand_of_distinct_entries i (rules : list Service.InventoryRule) :
  NoDup (map Service.itemId rules) ->
  (demand i rules = 0 /\ forall rule, In rule rules -> Service.itemId rule <> i)
  \/ exists rule, In rule rules /\ Service.itemId rule = i
                  /\ demand i rules = Service.quantity rule.
Proof.
  induction rules as [|r rules IH]; simpl; intros Hnd.
  - left. split; [reflexivity|]. intros rule [].
  - apply NoDup_cons_iff in Hnd. destruct Hnd as [Hnotin Hnd].
    destruct (String.eqb_spec (Service.itemId r) i) as [E|E].
    + right. exists r. split; [left; reflexivity|]. split; [exact E|].
      destruct (IH Hnd) as [[Hz _]|(r' & Hin & Hi & _)]; [lia|].
      exfalso. apply Hnotin. rewrite E, <- Hi. apply in_map. exact Hin.
    + destruct (IH Hnd) as [[Hz Hno]|(r' & Hin & Hi & Hd)].
      * left. split; [exact Hz|]. intros rule [<-|Hin]; auto.
      * right. exists r'. auto.
Qed.

(** X26. A completion never overdraws an item when the consumption list of
    the service names each item once: with distinct booking ids and
    distinct item ids in the list, after a successful change to completed
    every stocked item is still found under its id, an item of another
    tenant or without an entry keeps its quantity, and an item with an
    entry ends at its quantity less that of the entry, which is not
    negative. *)
Theorem completion_never_overdraws (st : AppState) (createId : nat -> string) (now : Z)
    (workspace : Workspace) (id : string) (calendarEventId : option string)
    (booking : Booking.t) (service : Service.t)
    (st' : AppState) (code : Z) (updated : Booking.t) :
  NoDup (map Booking.id (bookings st)) ->
  find (isOwnBooking (ws_id workspace) id) (bookings st) = Some booking ->
  find (isServiceOf (ws_id workspace) booking) (services st) = Some service ->
  NoDup (map Service.itemId (Service.inventoryRules service)) ->
  patchBookingStatus env st createId now workspace id "completed" calendarEventId
  = (st', Sent code updated) ->
  forall w i item,
    find (isInventoryItem w i) (inventoryItems st) = Some item ->
    exists item',
      find (isInventoryItem w i) (inventoryItems st') = Some item'
      /\ ((w <> ws_id workspace
           \/ forall rule, In rule (Service.inventoryRules service) ->
                           Service.itemId rule <> i) ->
          InventoryItem.quantityOnHand item' = InventoryItem.quantityOnHand item)
      /\ (forall rule, w = ws_id workspace ->
            In rule (Service.inventoryRules service) -> Service.itemId rule = i ->
            InventoryItem.quantityOnHand item'
            = InventoryItem.quantityOnHand item - Service.quantity rule
            /\ 0 <= InventoryItem.quantityOnHand item').
Proof.
  intros Hnd Hfind Hsvc Hrules Hpatch w i item Hitem.
  assert (Hconfirmed : Booking.status booking = confirmed).
  { revert Hpatch. unfold patchBookingStatus. rewrite Hfind.
    simpl parseBookingStatus. cbv iota.
    destruct (Booking.status booking); simpl; try discriminate. reflexivity. }
  destruct (applyInventoryOnBookingCompleted env st createId now (ws_id workspace)
              (Booking.id booking)) as [st1 [e|]] eqn:Hinv.
  { pose proof (applyInventory_failure _ _ _ _ _ _ _ _ Hinv) as ->.
    rewrite (patch_completed_failure env st createId now workspace id calendarEventId
               booking e Hfind Hconfirmed Hinv) in Hpatch. discriminate. }
  destruct (patch_completed_success env st createId now workspace id calendarEventId
              booking st1 Hfind Hconfirmed Hinv) as (st'' & b' & Hres & _ & Hitems & _).
  rewrite Hres in Hpatch. injection Hpatch as <- _ _.
  rewrite (applyInventory_unfold env st createId now workspace id booking service
             Hnd Hfind Hsvc) in Hinv.
  destruct (checkInventory st (ws_id workspace) (Service.inventoryRules service))
    eqn:Hcheck; [discriminate|].
  injection Hinv as <-. apply checkInventory_sufficient in Hcheck.
  rewrite Hitems, consumeInventory_items.
  destruct (consumeItems_find now (ws_id workspace) (Service.inventoryRules service)
              (inventoryItems st) w i item Hitem) as (item' & H1 & H2 & _).
  exists item'. split; [exact H1|].
  destruct (demand_of_distinct_entries i (Service.inventoryRules service) Hrules)
    as [[Hz Hno]|(r & Hin & Hi & Hd)].
  - split.
    + intros _. rewrite H2. destruct (String.eqb w (ws_id workspace)); lia.
    + intros rule _ Hin Hi. exfalso. apply (Hno rule Hin Hi).
  - split.
    + intros [Hw|Hno].
      * rewrite H2. apply String.eqb_neq in Hw. rewrite Hw. lia.
      * exfalso. apply (Hno r Hin Hi).
    + intros rule -> Hin' Hi'. rewrite String.eqb_refl in H2.
      assert (rule = r).
      { destruct (In_nth_error _ _ Hin) as [n Hn].
        destruct (In_nth_error _ _ Hin') as [n' Hn'].
        assert (n' = n).
        { apply (proj1 (NoDup_nth_error (map Service.itemId
                                           (Service.inventoryRules service))) Hrules).
          - apply nth_error_Some. rewrite nth_error_map, Hn'. discriminate.
          - rewrite !nth_error_map, Hn, Hn'. simpl. congruence. }
        subst n'. congruence. }
      subst rule. split; [lia|].
      assert (Hs := Hcheck r item Hin). rewrite Hi in Hs. specialize (Hs Hitem). lia.
Qed.

End Stock.

(** ** Time zones *)

Section Zones.

Variable env : Collaborators.

Lemma dateAtTimeInTimeZoneIso_steps (date : DateKey) (hhmm : TimeOfDay)
    (timeZone : string) :
  dateAtTimeInTimeZoneIso env date hhmm timeZone
  = if getTimeZoneOffsetMs env
         (askedFor date hhmm - getTimeZoneOffsetMs env (askedFor date hhmm) timeZone)
         timeZone
       =? getTimeZoneOffsetMs env (askedFor date hhmm) timeZone
    then askedFor date hhmm - getTimeZoneOffsetMs env (askedFor date hhmm) timeZone
    else askedFor date hhmm
         - getTimeZoneOffsetMs env
             (askedFor date hhmm - getTimeZoneOffsetMs env (askedFor date hhmm) timeZone)
             timeZone.
Proof.
  unfold dateAtTimeInTimeZoneIso, askedFor.
  generalize (dateUTC (year date) (month date - 1) (day date) (hours hhmm)
                (minutes hhmm) 0).
  intros guess. reflexivity.
Qed.

(** X27. The conversion of a local date and time to an instant always
    answers the time asked for less the offset that the zone shows at the
    first adjustment, in both branches of its last test; the instant reads
    back, on the wall clock of the zone, as the date and time asked for
    whenever the zone shows the same offset at the instant answered, and in
    particular in every zone whose offset never changes. *)
Theorem zone_conversion_reads_back (date : DateKey) (hhmm : TimeOfDay)
    (timeZone : string) :
  let instant := dateAtTimeInTimeZoneIso env date hhmm timeZone in
  let adjusted := askedFor date hhmm
                  - getTimeZoneOffsetMs env (askedFor date hhmm) timeZone in
  instant = askedFor date hhmm - getTimeZoneOffsetMs env adjusted timeZone
  /\ (getTimeZoneOffsetMs env instant timeZone
      = getTimeZoneOffsetMs env adjusted timeZone ->
      wallClock env timeZone instant = askedFor date hhmm)
  /\ (forall offset,
        (forall t, getTimeZoneOffsetMs env t timeZone = offset) ->
        instant = askedFor date hhmm - offset
        /\ wallClock env timeZone instant = askedFor date hhmm).
Proof.
  intros instant adjusted.
  assert (E : instant = askedFor date hhmm - getTimeZoneOffsetMs env adjusted timeZone).
  { unfold instant. rewrite dateAtTimeInTimeZoneIso_steps. fold adjusted.
    destruct (Z.eqb_spec (getTimeZoneOffsetMs env adjusted timeZone)
                (getTimeZoneOffsetMs env (askedFor date hhmm) timeZone)) as [H|H];
      [|reflexivity].
    unfold adjusted at 1. rewrite H. reflexivity. }
  assert (W : forall t, wallClock env timeZone t = t + getTimeZoneOffsetMs env t timeZone).
  { intros t. unfold wallClock, getTimeZoneOffsetMs. lia. }
  split; [exact E|]. split.
  - intros H. rewrite W, H, E. lia.
  - intros offset Hconst. split; [rewrite E, Hconst; reflexivity|].
    rewrite W, Hconst, E, Hconst. lia.
Qed.

End Zones.

(** ** Bookings and the slots they take *)

Section Occupancy.

Variable env : Collaborators.

(** X28. A booking takes its interval out of the listing of every service
    of the tenant: after the public route has created a booking, no slot
    that the slot listing answers for the tenant, for whatever service and
    date, overlaps the interval of that booking. *)
Theorem booked_interval_leaves_the_listing (st : AppState) (createId : nat -> string)
    (now : Z) (workspace : Workspace) (key : option string) (path : string)
    (body : BookingBody) (calendarEventId : option string)
    (st' : AppState) (code : Z) (snapshot : RenderedSnapshot) :
  createPublicBooking env st createId now (Some workspace) key path body calendarEventId
  = (st', Sent code (CreatedBooking snapshot)) ->
  exists booking,
    bookings st' = bookings st ++ [booking]
    /\ forall serviceId date code' slots slot,
         getPublicSlots env st' (Some workspace) serviceId date = Sent code' slots ->
         In slot slots ->
         slot_endsAt slot <= Booking.startsAt booking
         \/ Booking.endsAt booking <= slot_startsAt slot.
Proof.
  intros Hcreated.
  destruct (createPublicBooking_created _ _ _ _ _ _ _ _ _ _ _ _ Hcreated)
    as (w & k & [= <-] & _ & _ & _ & Hcommit).
  destruct (commitPublicBooking_sent _ _ _ _ _ _ _ _ _ _ _ _ _ Hcommit)
    as (service & startsAt & booking & later & _ & _ & _ & _ & _ & _ & Hbk & Hb & _).
  pose proof (storeCalendarEvent_new calendarEventId now
    (Booking.mk (createId 1%nat) (ws_id workspace)
       (Contact.id (snd (findOrCreateContact st (createId 0%nat) (ws_id workspace)
                           (submissionEmail env body) (submissionPhone env body))))
       (Service.id service) startsAt (addMinutes startsAt (Service.durationMin service))
       pending None (submissionNotes env body) None now now)) as Hs.
  cbv zeta in Hs. rewrite <- Hbk in Hs. simpl in Hs.
  destruct Hs as (_ & S2 & S3 & _).
  exists booking. split; [exact Hb|].
  intros serviceId date code' slots slot Hsent Hslot.
  destruct (getPublicSlots_sent env st' workspace serviceId date code' slots Hsent)
    as (service' & d & _ & _ & _ & Hslots).
  subst slots. apply (Permutation_in _ (sortBy_perm _ _)) in Hslot.
  destruct (collectSlots_wellFormed st' (ws_id workspace) (Service.durationMin service')
              (resolveAvailabilityForDate env st' (slotsInput env workspace service' d)))
    as [_ Hall].
  destruct (Hall slot Hslot) as (_ & Hfree & _).
  destruct (Z.le_gt_cases (slot_endsAt slot) (Booking.startsAt booking)) as [H1|H1];
    [left; exact H1|].
  destruct (Z.le_gt_cases (Booking.endsAt booking) (slot_startsAt slot)) as [H2|H2];
    [right; exact H2|].
  exfalso.
  assert (Htaken : isBookingOverlapping st' (ws_id workspace) (slot_startsAt slot)
                     (slot_endsAt slot) None = true).
  { apply (guard_hit st' (ws_id workspace) _ _ booking).
    - rewrite Hb. apply in_or_app. right. left. reflexivity.
    - exact S2.
    - unfold active. rewrite S3. split; discriminate.
    - lia.
    - lia. }
  congruence.
Qed.

Lemma updateFirst_keeps_others {A} (p : A -> bool) (f : A -> A) (l : list A) x :
  In x l -> p x = false -> In x (updateFirst p f l).
Proof.
  induction l as [|a l IH]; simpl; [tauto|].
  intros [->|Hin] Hp.
  - rewrite Hp. left. reflexivity.
  - destruct (p a); right; auto.
Qed.

(** Once a booking is released, the guard answers as if it were excluded. *)
Lemma guard_skips_released (st st' : AppState) w id (booking released : Booking.t)
    w' s e :
  NoDup (map Booking.id (bookings st)) ->
  find (isOwnBooking w id) (bookings st) = Some booking ->
  bookings st' = updateFirst (isOwnBooking w id) (fun _ => released) (bookings st) ->
  Booking.id released = id ->
  Booking.status released = cancelled \/ Booking.status released = no_show ->
  truthy id = true ->
  isBookingOverlapping st' w' s e None = isBookingOverlapping st w' s e (Some id).
Proof.
  intros Hnd Hfind Hb Hid Hstatus Hid'.
  assert (Hex : forall x : Booking.t,
            isExcluded (Some id) (Booking.id x) = String.eqb (Booking.id x) id).
  { intros x. unfold isExcluded. rewrite Hid'. reflexivity. }
  apply eq_true_iff_eq. unfold isBookingOverlapping.
  rewrite !existsb_exists. rewrite Hb. split.
  - intros (x & Hin & Hx).
    destruct (String.eqb_spec (Booking.id x) id) as [E|E].
    + rewrite (updateFirst_only _ _ _ booking released Hnd Hfind x Hin E) in Hx.
      destruct (negb _) in Hx; [discriminate|]. simpl in Hx.
      destruct Hstatus as [Hs|Hs]; rewrite Hs in Hx; discriminate.
    + exists x. split.
      * apply updateFirst_members in Hin. destruct Hin as [->|Hin]; [|exact Hin].
        contradiction.
      * rewrite Hex. apply String.eqb_neq in E. rewrite E. exact Hx.
  - intros (x & Hin & Hx).
    destruct (String.eqb_spec (Booking.id x) id) as [E|E].
    + rewrite Hex in Hx. apply String.eqb_eq in E. rewrite E in Hx.
      destruct (negb _) in Hx; discriminate.
    + exists x. split.
      * apply updateFirst_keeps_others; [exact Hin|].
        unfold isOwnBooking. apply String.eqb_neq in E. rewrite E. reflexivity.
      * rewrite Hex in Hx. apply String.eqb_neq in E. rewrite E in Hx. exact Hx.
Qed.

(** X29. Releasing a booking frees its interval: with distinct booking
    ids, after a status change to cancelled or no_show, and after a soft
    delete, the conflict guard answers every question, for every tenant and
    interval, as it answered before with that booking excluded. *)
Theorem released_booking_frees_its_interval (st : AppState) (createId : nat -> string)
    (now : Z) (workspace : Workspace) (id : string) :
  NoDup (map Booking.id (bookings st)) ->
  truthy id = true ->
  (forall rawStatus calendarEventId st' code updated,
     patchBookingStatus env st createId now workspace id rawStatus calendarEventId
     = (st', Sent code updated) ->
     Booking.status updated = cancelled \/ Booking.status updated = no_show ->
     forall w s e,
       isBookingOverlapping st' w s e None = isBookingOverlapping st w s e (Some id))
  /\ (forall st' code deleted,
        deleteBooking env st createId now workspace id = (st', Sent code deleted) ->
        forall w s e,
          isBookingOverlapping st' w s e None = isBookingOverlapping st w s e (Some id)).
Proof.
  intros Hnd Hid. split.
  - intros rawStatus cal st' code updated Hpatch Hstatus w s e.
    destruct (find (isOwnBooking (ws_id workspace) id) (bookings st))
      as [booking|] eqn:Hfind;
      [|unfold patchBookingStatus in Hpatch; rewrite Hfind in Hpatch; discriminate].
    destruct (parseBookingStatus rawStatus) as [target|] eqn:Hparse;
      [|unfold patchBookingStatus in Hpatch; rewrite Hfind, Hparse in Hpatch;
        discriminate].
    destruct (includes (transitions (Booking.status booking)) target) eqn:Hinc;
      [|unfold patchBookingStatus in Hpatch; rewrite Hfind, Hparse, Hinc in Hpatch;
        discriminate].
    destruct (patchBookingStatus_cases env st createId now workspace id rawStatus cal
                booking target Hfind Hparse Hinc)
      as [(e' & _ & _ & Hres)|(st1 & b' & Hres & _ & Hbid & _ & _ & _ & _ & Hb)];
      rewrite Hres in Hpatch; [discriminate|].
    injection Hpatch as <- _ <-.
    apply (guard_skips_released st st1 (ws_id workspace) id booking b'); auto.
    rewrite Hbid. apply find_some in Hfind. destruct Hfind as [_ Hown].
    apply (isOwnBooking_workspace _ _ _ Hown).
  - intros st' code deleted. unfold deleteBooking.
    destruct (find (isOwnBooking (ws_id workspace) id) (bookings st))
      as [booking|] eqn:Hfind; [|discriminate].
    intros [= <- _ <-] w s e.
    apply (guard_skips_released st _ (ws_id workspace) id booking
             (Booking.with_calendarEventId None
                (Booking.with_updatedAt now
                   (Booking.with_deletedAt (Some now)
                      (Booking.with_status cancelled booking))))); auto.
    + rewrite emitEvent_bookings. reflexivity.
    + simpl. apply find_some in Hfind. destruct Hfind as [_ Hown].
      apply (isOwnBooking_workspace _ _ _ Hown).
Qed.

End Occupancy.

(** * The properties at concrete inputs *)

Lemma sampleState_ids : NoDup (map Booking.id (bookings sampleState)).
Proof.
  simpl. constructor.
  - simpl. intros [H|[]]. discriminate H.
  - constructor; [intros []|constructor].
Defined.

Lemma isBookingOverlapping_spec_witness :
  (isBookingOverlapping sampleState "w1" nineOClock (addMinutes nineOClock 45)
     (Some "b1") = true
   <-> exists b, In b (bookings sampleState)
                 /\ conflictsWith "w1" nineOClock (addMinutes nineOClock 45) (Some "b1") b)
  /\ ((forall b, In b (bookings sampleState) ->
         Booking.endsAt b <= nineOClock
         \/ addMinutes nineOClock 45 <= Booking.startsAt b) ->
      isBookingOverlapping sampleState "w1" nineOClock (addMinutes nineOClock 45)
        (Some "b1") = false).
Proof.
  apply (isBookingOverlapping_spec sampleState "w1" nineOClock
           (addMinutes nineOClock 45) (Some "b1")).
  discriminate.
Defined.

Lemma booking_status_state_machine_witness :
  let booking := bookingAt "b1" pending nineOClock in
  let result := patchBookingStatus sampleEnv pendingState sampleIds 1 clinic "b1"
                  "confirmed" None in
  (~ allowedTransition (Booking.status booking) confirmed ->
     result = (pendingState,
               Failed 400 (ErrInvalidTransition (Booking.status booking) confirmed)))
  /\ (terminal (Booking.status booking) ->
     result = (pendingState,
               Failed 400 (ErrInvalidTransition (Booking.status booking) confirmed)))
  /\ (allowedTransition (Booking.status booking) confirmed ->
       (exists st' booking',
          result = (st', Sent 200 booking')
          /\ Booking.status booking' = confirmed
          /\ find (isOwnBooking (ws_id clinic) "b1") (bookings st') = Some booking')
       \/ (confirmed = completed
           /\ exists e, result = (pendingState, Failed 409 e)
                        /\ e <> ErrInvalidTransition (Booking.status booking) confirmed)).
Proof.
  apply (booking_status_state_machine sampleEnv pendingState sampleIds 1 clinic "b1"
           "confirmed" None (bookingAt "b1" pending nineOClock) confirmed).
  - reflexivity.
  - reflexivity.
Defined.



Lemma unknown_inventory_items_are_skipped_witness :
  let result := patchBookingStatus sampleEnv ghostState sampleIds 1 clinic "b1"
                  "completed" None in
  checkInventory ghostState "w1" ([Service.mkRule "i1" 2] ++ ghostRule :: [])
  = checkInventory ghostState "w1" ([Service.mkRule "i1" 2] ++ [])
  /\ inventoryItems (consumeInventory sampleEnv sampleIds 1 "w1"
                       ([Service.mkRule "i1" 2] ++ ghostRule :: []) ghostState)
     = inventoryItems (consumeInventory sampleEnv sampleIds 1 "w1"
                         ([Service.mkRule "i1" 2] ++ []) ghostState)
  /\ (sufficient ghostState "w1" ([Service.mkRule "i1" 2] ++ []) ->
      exists st' booking',
        result = (st', Sent 200 booking')
        /\ Booking.status booking' = completed
        /\ inventoryItems st'
           = consumeItems 1 "w1" ([Service.mkRule "i1" 2] ++ []) (inventoryItems ghostState))
  /\ (Forall (unknownItem ghostState "w1") ([Service.mkRule "i1" 2] ++ []) ->
      exists st' booking',
        result = (st', Sent 200 booking')
        /\ Booking.status booking' = completed
        /\ inventoryItems st' = inventoryItems ghostState).
Proof.
  apply (unknown_inventory_items_are_skipped sampleEnv ghostState sampleIds 1 clinic
           "b1" None (bookingAt "b1" confirmed nineOClock)
           (Service.mk "s1" "w1" 30 [Service.mkRule "i1" 2; ghostRule] None true)
           [Service.mkRule "i1" 2] [] ghostRule).
  - exact sampleState_ids.
  - reflexivity.
  - reflexivity.
  - reflexivity.
  - reflexivity.
  - reflexivity.
Defined.

Lemma low_stock_signalled_after_deduction_witness :
  let left := InventoryItem.quantityOnHand oil - 2 in
  let threshold := InventoryItem.lowStockThreshold oil in
  let digest := eventHashOf sampleEnv "inventory.low_stock" "inventory_item"
                  (InventoryItem.id oil) (PayloadLowStock left threshold) in
  let st' := fst (consumeStep sampleEnv sampleIds 1 "w1" (sampleState, 0%nat)
                    (Service.mkRule "i1" 2)) in
  (left <= threshold ->
     alerts st'
     = alerts sampleState ++ [Alert.mk (sampleIds (1 + 2 * 0)%nat) "w1"
                       "inventory.low_stock" warning
                       (MsgLowStock (InventoryItem.name oil) left) 1]
     /\ (automationEvents st'
         = automationEvents sampleState
           ++ [AutomationEvent.mk (sampleIds (2 + 2 * 0)%nat) "w1"
                 "inventory.low_stock" "inventory_item" (InventoryItem.id oil)
                 (PayloadLowStock left threshold) digest 1]
         \/ (automationEvents st' = automationEvents sampleState
             /\ exists event,
                  In event (automationEvents sampleState)
                  /\ AutomationEvent.entityId event = InventoryItem.id oil
                  /\ AutomationEvent.eventHash event = digest)))
  /\ (threshold < left ->
      alerts st' = alerts sampleState
      /\ automationEvents st' = automationEvents sampleState).
Proof.
  apply (low_stock_signalled_after_deduction sampleEnv sampleState sampleIds 1 "w1"
           0%nat (Service.mkRule "i1" 2) oil).
  reflexivity.
Defined.

(** C7, as first stated, at two completions in a row: six units with a
    threshold of five, two units per completion. The first deduction
    crosses the threshold (6 to 4), the second starts and ends below it
    (4 to 2), and each of them adds a low-stock alert and a low-stock
    event. *)
Lemma low_stock_signalled_again_below_threshold :
  let st1 := fst (patchBookingStatus sampleEnv sampleState sampleIds 1 clinic "b1"
                    "completed" None) in
  let st2 := fst (patchBookingStatus sampleEnv st1 sampleIds 2 clinic "b2"
                    "completed" None) in
  map InventoryItem.quantityOnHand (inventoryItems sampleState) = [6]
  /\ map InventoryItem.quantityOnHand (inventoryItems st1) = [4]
  /\ map InventoryItem.quantityOnHand (inventoryItems st2) = [2]
  /\ map InventoryItem.lowStockThreshold (inventoryItems st2) = [5]
  /\ map Alert.message (alerts st1) = [MsgLowStock "oil" 4]
  /\ map Alert.message (alerts st2) = [MsgLowStock "oil" 4; MsgLowStock "oil" 2]
  /\ map AutomationEvent.payload
         (filter (fun e => String.eqb (AutomationEvent.eventType e) "inventory.low_stock")
                 (automationEvents st2))
     = [PayloadLowStock 4 5; PayloadLowStock 2 5].
Proof. vm_compute. repeat split; reflexivity. Qed.

Lemma override_windows_replace_weekly_witness :
  let resolved := resolveAvailabilityForDate sampleEnv overrideState mondayInput in
  let overrides := overrideWindowsOn sampleEnv overrideState mondayInput in
  windows resolved = overrides
  /\ overrides = [mkWindow (dateUTC 2024 2 11 9 0 0) (dateUTC 2024 2 11 12 0 0) 30]
  /\ forall slot,
       In slot (collectSlots overrideState "w1" 30 resolved) ->
       exists w, In w overrides /\ slotInside slot w.
Proof.
  destruct (override_windows_replace_weekly sampleEnv overrideState mondayInput "w1" 30)
    as (_ & _ & H).
  assert (Hne : overrideWindowsOn sampleEnv overrideState mondayInput <> [])
    by (vm_compute; discriminate).
  destruct (H Hne) as [H1 H2].
  split; [exact H1|]. split; [reflexivity|exact H2].
Defined.

(** C4, as first stated, at a practice in New York on Sunday 2024-03-10. The
    rule store accepts an override for that date from 01:30 to 02:00; that
    night the clocks skip from 02:00 to 03:00, the end instant of the
    override is not after its start instant, and the override yields no
    window. The date has an override rule, yet its windows are those of the
    weekly rule and slots are offered from 09:00 to 17:00 local time. *)
Lemma override_without_window_keeps_weekly :
  let posted := postAvailabilityRule nyState "r4" 5 nyClinic nightOverride in
  let st := fst posted in
  let resolved := resolveAvailabilityForDate sampleEnv st sundayInput in
  (exists rule, snd posted = Sent 201 rule)
  /\ List.length (filter (appliesAsOverride sundayInput) (availabilityRules st)) = 1%nat
  /\ dateAtTimeInTimeZoneIso sampleEnv transitionSunday (mkTime 1 30) "America/New_York"
     = dateUTC 2024 2 10 6 30 0
  /\ dateAtTimeInTimeZoneIso sampleEnv transitionSunday (mkTime 2 0) "America/New_York"
     = dateUTC 2024 2 10 6 0 0
  /\ overrideWindowsOn sampleEnv st sundayInput = []
  /\ windows resolved
     = [mkWindow (dateUTC 2024 2 10 13 0 0) (dateUTC 2024 2 10 21 0 0) 60]
  /\ windows resolved = weeklyWindowsOn sampleEnv st sundayInput
  /\ exists slots,
       getPublicSlots sampleEnv st (Some nyClinic) "s2" (DateGiven transitionSunday)
       = Sent 200 slots
       /\ List.length slots = 8%nat
       /\ In (mkSlot (dateUTC 2024 2 10 13 0 0) (dateUTC 2024 2 10 14 0 0)) slots.
Proof.
  cbv zeta. split; [eexists; reflexivity|].
  repeat (split; [vm_compute; reflexivity|]).
  eexists. split; [vm_compute; reflexivity|].
  split; [reflexivity|]. left. reflexivity.
Qed.

Lemma overlapping_weekly_rule_is_refused_witness :
  let payload :=
    mkRulePayload "s1" RawMissing (Some 1) None (Some (mkTime 16 0)) (Some (mkTime 19 0))
                  None IntervalMissing None in
  let evening :=
    AvailabilityRule.mk "r5" "w1" "s1" (Some weekly) (Some 1) None
      (Some (mkTime 18 0)) (Some (mkTime 19 0)) (Some 0) None (Some false) 0 in
  let st := set_availabilityRules [mondays; evening] sampleState in
  postAvailabilityRule st "r6" 7 clinic payload = (st, Failed 409 ErrOverlappingRule)
  /\ patchAvailabilityRule st 7 clinic "r5" payload = (st, Failed 409 ErrOverlappingRule).
Proof.
  intros payload evening st.
  destruct (overlapping_weekly_rule_is_refused st 7 clinic payload
              (mkNormalized weekly (Some 1) None (Some (mkTime 16 0)) (Some (mkTime 19 0))
                            (Some 0) None (Some false))
              mondays 1 (mkTime 16 0) (mkTime 19 0) (mkTime 9 0) (mkTime 17 0))
    as [Hpost Hpatch].
  - left. reflexivity.
  - reflexivity.
  - unfold validWeekly. repeat split.
  - unfold validWeeklyInput. repeat split.
  - unfold timesOverlap. split; reflexivity.
  - split.
    + apply (Hpost "r6" massage); reflexivity.
    + apply (Hpatch "r5" evening); try reflexivity. discriminate.
Defined.


Lemma twoBookings_reachable : reachable sampleEnv twoBookings.
Proof.
  unfold twoBookings. apply reach_create.
  - apply reach_create.
    + apply reach_elsewhere with (st := baseState).
      * apply reach_base.
      * reflexivity.
    + simpl. tauto.
  - vm_compute. intros [E|[]]. discriminate E.
Defined.

Lemma no_overlap_invariant_witness :
  exists b1 b2,
    nth_error (bookings twoBookings) 0 = Some b1
    /\ nth_error (bookings twoBookings) 1 = Some b2
    /\ Booking.startsAt b1 = dateUTC 2024 2 11 10 0 0
    /\ Booking.startsAt b2 = dateUTC 2024 2 11 9 0 0
    /\ ~ (Booking.startsAt b1 < Booking.endsAt b2
          /\ Booking.startsAt b2 < Booking.endsAt b1).
Proof.
  exists (Booking.mk "id-1" "w1" "c1" "s1" (dateUTC 2024 2 11 10 0 0)
            (dateUTC 2024 2 11 10 30 0) pending None None None 9 9),
         (Booking.mk "id-1-1" "w1" "c1" "s1" (dateUTC 2024 2 11 9 0 0)
            (dateUTC 2024 2 11 9 30 0) pending None None None 10 10).
  split; [vm_compute; reflexivity|]. split; [vm_compute; reflexivity|].
  split; [reflexivity|]. split; [reflexivity|].
  apply (no_overlap_invariant sampleEnv twoBookings twoBookings_reachable 0%nat 1%nat).
  - discriminate.
  - vm_compute. reflexivity.
  - vm_compute. reflexivity.
  - reflexivity.
  - discriminate.
  - discriminate.
  - discriminate.
  - discriminate.
Defined.

(** A third public request, for 09:15, meets the guard and is refused. *)
Lemma occupied_slot_is_refused :
  createPublicBooking sampleEnv twoBookings (sampleIds2 2) 11 (Some clinic)
    (Some "key-3") bookingsPath quarterPastBody None
  = (twoBookings, Failed 409 ErrSlotNotAvailable).
Proof. vm_compute. reflexivity. Qed.

Lemma jobState_ids : NoDup (map ScheduledJob.id (scheduledJobs jobState)).
Proof.
  simpl. constructor; [|constructor; [|constructor; [|constructor]]]; simpl.
  - intros [E|[E|[]]]; discriminate E.
  - intros [E|[]]; discriminate E.
  - intros [].
Defined.

Lemma worker_tick_witness :
  map fst (dueJobs (cleanupExpiredRecords jobState 1000) 1000) = [1%nat; 0%nat]
  /\ exists j',
       nth_error (scheduledJobs (runWorkerTick sampleEnv jobState sampleIds2 1000)) 1
       = Some j'
       /\ ScheduledJob.id j' = "j2"
       /\ ScheduledJob.status j' = done
       /\ ScheduledJob.attempts j' = 1.
Proof.
  split; [vm_compute; reflexivity|].
  destruct (worker_tick sampleEnv jobState sampleIds2 1000 jobState_ids)
    as (_ & _ & _ & _ & H).
  destruct (H 1%nat (reminderOf "j2" "b2" high 200)) as (j' & H1 & H2 & H3 & H4 & H5).
  - vm_compute. left. reflexivity.
  - vm_compute. reflexivity.
  - exists j'. split; [exact H1|]. split; [exact H2|]. split; [exact H3|].
    apply H5. reflexivity.
Defined.

(** * The further properties at concrete inputs *)

Lemma offered_slots_are_free_witness :
  exists service d,
    DateGiven monday = DateGiven d
    /\ In service (services overrideState)
    /\ Service.id service = "s1"
    /\ forall slot, In slot mondaySlots ->
         let resolved := resolveAvailabilityForDate sampleEnv overrideState
                           (slotsInput sampleEnv clinic service d) in
         slot_endsAt slot = addMinutes (slot_startsAt slot) (Service.durationMin service)
         /\ (exists w k, In w (windows resolved) /\ slotInside slot w
                          /\ slot_startsAt slot = gridPoint w k)
         /\ isBookingOverlapping overrideState (ws_id clinic) (slot_startsAt slot)
              (slot_endsAt slot) None = false
         /\ isBlockedByException (slot_startsAt slot) (slot_endsAt slot) resolved = false.
Proof.
  apply (offered_slots_are_free sampleEnv overrideState clinic "s1" (DateGiven monday)
           200 mondaySlots).
  vm_compute. reflexivity.
Defined.

Lemma offered_slots_strictly_ascending_witness :
  StronglySorted (fun a b => slot_startsAt a < slot_startsAt b) mondaySlots.
Proof.
  apply (offered_slots_strictly_ascending sampleEnv overrideState clinic "s1"
           (DateGiven monday) 200 mondaySlots).
  vm_compute. reflexivity.
Defined.

Lemma free_grid_points_are_offered_witness :
  exists service d,
    DateGiven monday = DateGiven d
    /\ In service (services overrideState)
    /\ Service.id service = "s1"
    /\ let resolved := resolveAvailabilityForDate sampleEnv overrideState
                         (slotsInput sampleEnv clinic service d) in
       forall window k,
         let c := gridPoint window k in
         let e := addMinutes c (Service.durationMin service) in
         closedAllDay resolved = false ->
         In window (windows resolved) ->
         c < endIso window -> e <= endIso window ->
         isBookingOverlapping overrideState (ws_id clinic) c e None = false ->
         isBlockedByException c e resolved = false ->
         In (mkSlot c e) mondaySlots.
Proof.
  apply (free_grid_points_are_offered sampleEnv overrideState clinic "s1"
           (DateGiven monday) 200 mondaySlots).
  vm_compute. reflexivity.
Defined.

Lemma all_day_block_closes_the_date_witness :
  (forall weekday timeZone dur,
     closedAllDay (resolveAvailabilityForDate sampleEnv holidayState
                     (mkResolveInput (ws_id clinic) "s1" monday weekday timeZone dur))
     = true)
  /\ (forall code slots,
        getPublicSlots sampleEnv holidayState (Some clinic) "s1" (DateGiven monday)
        = Sent code slots ->
        slots = [])
  /\ (forall startsAt endsAt timeZone dur,
        toDateKeyInTimeZone sampleEnv startsAt timeZone = monday ->
        isWithinAvailabilityRule sampleEnv holidayState (ws_id clinic) "s1" startsAt endsAt
          timeZone dur = false).
Proof.
  apply (all_day_block_closes_the_date sampleEnv holidayState clinic "s1" monday holiday).
  - simpl. right. right. left. reflexivity.
  - unfold closesDate. simpl. repeat split.
Defined.

Lemma offered_slot_passes_commit_checks_witness :
  let slot := mkSlot (addMinutes nineOClock 60) (addMinutes nineOClock 90) in
  exists service,
    In service (services overrideState)
    /\ Service.id service = "s1"
    /\ slot_endsAt slot = addMinutes (slot_startsAt slot) (Service.durationMin service)
    /\ isWithinAvailabilityRule sampleEnv overrideState (ws_id clinic) (Service.id service)
         (slot_startsAt slot) (slot_endsAt slot) (timeZoneOf clinic)
         (Service.durationMin service) = true
    /\ isBookingOverlapping overrideState (ws_id clinic) (slot_startsAt slot)
         (slot_endsAt slot) None = false.
Proof.
  apply (offered_slot_passes_commit_checks sampleEnv overrideState clinic "s1" monday
           200 mondaySlots).
  - vm_compute. reflexivity.
  - simpl. left. reflexivity.
  - vm_compute. reflexivity.
  - vm_compute. reflexivity.
Defined.

Lemma refused_commands_change_nothing_witness :
  let attempt := createPublicBooking sampleEnv sampleState sampleIds 9 (Some clinic)
                   (Some "key-9") bookingsPath nineOClockBody None in
  snd attempt = Failed 409 ErrSlotNotAvailable /\ fst attempt = sampleState.
Proof.
  split; [vm_compute; reflexivity|].
  apply (proj1 (refused_commands_change_nothing sampleEnv sampleState sampleIds 9
                  (fst (createPublicBooking sampleEnv sampleState sampleIds 9
                          (Some clinic) (Some "key-9") bookingsPath nineOClockBody None))
                  409 ErrSlotNotAvailable)
           (Some clinic) (Some "key-9") bookingsPath nineOClockBody None).
  vm_compute. reflexivity.
Defined.

Lemma event_is_stored_once_witness :
  NoDup (map eventKey
           (automationEvents
              (emitEvent sampleEnv sampleState "e1" 1 "w1" "booking.updated" "booking"
                 "b1" (PayloadStatus confirmed)))).
Proof.
  apply (event_is_stored_once sampleEnv sampleState "e1" 1 "w1" "booking.updated"
           "booking" "b1" (PayloadStatus confirmed)).
  simpl. constructor.
Defined.



Lemma booking_read_agrees_with_listing_witness :
  let view := viewOf sampleState (bookingAt "b1" confirmed nineOClock) in
  getBooking sampleState clinic "b1" = Sent 200 view
  <-> In view (getBookings sampleEnv sampleState clinic None None None)
      /\ Booking.id (view_booking view) = "b1".
Proof.
  exact (booking_read_agrees_with_listing sampleEnv sampleState clinic "b1"
           sampleState_ids (viewOf sampleState (bookingAt "b1" confirmed nineOClock))).
Defined.

Lemma stored_rules_are_well_formed_witness :
  let result := postAvailabilityRule nyState "r9" 5 nyClinic nightOverride in
  wellFormedRule (bodyOf sundays (snd result)).
Proof.
  refine (proj1 (proj2 (proj1 (stored_rules_are_well_formed nyState 5 nyClinic
                                 nightOverride
                                 (fst (postAvailabilityRule nyState "r9" 5 nyClinic
                                         nightOverride))
                                 201
                                 (bodyOf sundays
                                    (snd (postAvailabilityRule nyState "r9" 5 nyClinic
                                            nightOverride))))
                          "r9" _))).
  vm_compute. reflexivity.
Defined.

Lemma zone_conversion_reads_back_witness :
  wallClock sampleEnv "America/New_York"
    (dateAtTimeInTimeZoneIso sampleEnv monday (mkTime 9 0) "America/New_York")
  = askedFor monday (mkTime 9 0).
Proof.
  apply (proj1 (proj2 (zone_conversion_reads_back sampleEnv monday (mkTime 9 0)
                         "America/New_York"))).
  vm_compute. reflexivity.
Defined.

Lemma created_booking_is_pending_with_reminder_witness :
  let env := sampleEnv in
  let st := openState in
  let createId := sampleIds in
  let now := 9 in
  let workspace := Some clinic in
  let key := Some "key-1" in
  let path := bookingsPath in
  let body := tenOClockBody in
  let calendarEventId := @None string in
  let st' := fst firstBooking in
  let code := 201 in
  let snapshot := snapshotOf (snd firstBooking) in
  exists w service startsAt booking later,
    workspace = Some w
    /\ find (isActiveServiceIn (ws_id w) (body_serviceId body)) (services st)
       = Some service
    /\ parseDate env (body_startsAt body) = Some startsAt
    /\ isWithinAvailabilityRule env st (ws_id w) (Service.id service) startsAt
         (addMinutes startsAt (Service.durationMin service)) (timeZoneOf w)
         (Service.durationMin service) = true
    /\ bookings st' = bookings st ++ [booking]
    /\ Booking.workspaceId booking = ws_id w
    /\ Booking.serviceId booking = Service.id service
    /\ Booking.status booking = pending
    /\ Booking.startsAt booking = startsAt
    /\ Booking.endsAt booking = addMinutes startsAt (Service.durationMin service)
    /\ Booking.deletedAt booking = None
    /\ scheduledJobs st'
       = scheduledJobs st ++ reminderFor (createId 3%nat) now booking :: later
    /\ (forall job, In job later -> ScheduledJob.jobType job = form_overdue_check)
    /\ recorded st' (ws_id w) "booking.created" "booking" (Booking.id booking).
Proof.
  refine (created_booking_is_pending_with_reminder sampleEnv openState sampleIds 9 (Some clinic) (Some "key-1") bookingsPath tenOClockBody (@None string) (fst firstBooking) 201 (snapshotOf (snd firstBooking)) _).
  - vm_compute. reflexivity.
Defined.

Lemma status_change_touches_one_booking_witness :
  let env := sampleEnv in
  let st := pendingState in
  let createId := sampleIds in
  let now := 1 in
  let workspace := clinic in
  let id := "b1" in
  let rawStatus := "confirmed" in
  let calendarEventId := @None string in
  let st' := fst confirmFirst in
  let code := 200 in
  let updated := bodyOf (bookingAt "b1" pending nineOClock) (snd confirmFirst) in
  exists booking,
    find (isOwnBooking (ws_id workspace) id) (bookings st) = Some booking
    /\ parseBookingStatus rawStatus = Some (Booking.status updated)
    /\ sameBookingIdentity booking updated
    /\ Booking.startsAt updated = Booking.startsAt booking
    /\ Booking.endsAt updated = Booking.endsAt booking
    /\ Booking.deletedAt updated = None
    /\ (Booking.status updated = cancelled \/ Booking.status updated = no_show ->
        Booking.calendarEventId updated = None)
    /\ replacedAt (bookings st) (bookings st') booking updated
    /\ scheduledJobs st' = scheduledJobs st
    /\ services st' = services st
    /\ contacts st' = contacts st
    /\ availabilityRules st' = availabilityRules st
    /\ (Booking.status updated <> completed ->
        inventoryItems st' = inventoryItems st /\ alerts st' = alerts st)
    /\ recorded st' (ws_id workspace) (statusEventType (Booking.status updated))
         "booking" id.
Proof.
  refine (status_change_touches_one_booking sampleEnv pendingState sampleIds 1 clinic "b1" "confirmed" (@None string) (fst confirmFirst) 200 (bodyOf (bookingAt "b1" pending nineOClock) (snd confirmFirst)) _).
  - vm_compute. reflexivity.
Defined.

Lemma reschedule_moves_one_booking_witness :
  let env := sampleEnv in
  let st := pendingState in
  let createId := sampleIds in
  let now := 1 in
  let workspace := clinic in
  let id := "b1" in
  let startsAtInput := "2024-03-11T10:00:00.000Z" in
  let calendarEventId := @None string in
  let st' := fst moveFirst in
  let code := 200 in
  let moved := bodyOf (bookingAt "b1" pending nineOClock) (snd moveFirst) in
  exists booking service startsAt,
    find (isOwnBooking (ws_id workspace) id) (bookings st) = Some booking
    /\ (Booking.status booking = pending \/ Booking.status booking = confirmed)
    /\ parseDate env startsAtInput = Some startsAt
    /\ find (isServiceOf (ws_id workspace) booking) (services st) = Some service
    /\ sameBookingIdentity booking moved
    /\ Booking.status moved = Booking.status booking
    /\ Booking.startsAt moved = startsAt
    /\ Booking.endsAt moved = addMinutes startsAt (Service.durationMin service)
    /\ isWithinAvailabilityRule env st (ws_id workspace) (Service.id service)
         (Booking.startsAt moved) (Booking.endsAt moved) (timeZoneOf workspace)
         (Service.durationMin service) = true
    /\ isBookingOverlapping st (ws_id workspace) (Booking.startsAt moved)
         (Booking.endsAt moved) (Some id) = false
    /\ replacedAt (bookings st) (bookings st') booking moved
    /\ scheduledJobs st' = scheduledJobs st
    /\ services st' = services st
    /\ inventoryItems st' = inventoryItems st
    /\ recorded st' (ws_id workspace) "booking.updated" "booking" id.
Proof.
  refine (reschedule_moves_one_booking sampleEnv pendingState sampleIds 1 clinic "b1" "2024-03-11T10:00:00.000Z" (@None string) (fst moveFirst) 200 (bodyOf (bookingAt "b1" pending nineOClock) (snd moveFirst)) _).
  - vm_compute. reflexivity.
Defined.

Lemma deleted_booking_is_gone_for_staff_witness :
  let env := sampleEnv in
  let st := sampleState in
  let createId := sampleIds in
  let now := 1 in
  let workspace := clinic in
  let id := "b1" in
  let st' := fst deleteFirst in
  let code := 200 in
  let deleted := bodyOf (bookingAt "b1" pending nineOClock) (snd deleteFirst) in
  In deleted (bookings st')
  /\ Booking.id deleted = id
  /\ Booking.status deleted = cancelled
  /\ Booking.deletedAt deleted = Some now
  /\ Booking.calendarEventId deleted = None
  /\ List.length (bookings st') = List.length (bookings st)
  /\ (forall createId' now' rawStatus calendarEventId,
        patchBookingStatus env st' createId' now' workspace id rawStatus calendarEventId
        = (st', Failed 404 ErrBookingNotFound))
  /\ (forall createId' now' startsAtInput calendarEventId,
        rescheduleBooking env st' createId' now' workspace id startsAtInput
          calendarEventId
        = (st', Failed 404 ErrBookingNotFound))
  /\ (forall createId' now',
        deleteBooking env st' createId' now' workspace id
        = (st', Failed 404 ErrBookingNotFound))
  /\ getBooking st' workspace id = Failed 404 ErrBookingNotFound
  /\ (forall status dateFrom dateTo view,
        In view (getBookings env st' workspace status dateFrom dateTo) ->
        Booking.id (view_booking view) <> id).
Proof.
  refine (deleted_booking_is_gone_for_staff sampleEnv sampleState sampleIds 1 clinic "b1" (fst deleteFirst) 200 (bodyOf (bookingAt "b1" pending nineOClock) (snd deleteFirst)) _ _).
  - exact sampleState_ids.
  - vm_compute. reflexivity.
Defined.

Lemma only_listed_services_are_bookable_witness :
  let env := sampleEnv in
  let st := openState in
  let workspace := clinic in
  let code := 200 in
  let listed := [massage] in
  (forall serviceId date,
     truthy serviceId = true -> date <> DateMissing ->
     (getPublicSlots env st (Some workspace) serviceId date
      = Failed 404 ErrServiceNotFound
      <-> forall service, In service listed -> Service.id service <> serviceId))
  /\ (forall createId now key path body calendarEventId st' code' snapshot,
        createPublicBooking env st createId now (Some workspace) key path body
          calendarEventId
        = (st', Sent code' (CreatedBooking snapshot)) ->
        exists service, In service listed /\ Service.id service = body_serviceId body).
Proof.
  refine (only_listed_services_are_bookable sampleEnv openState clinic 200 [massage] _).
  - vm_compute. reflexivity.
Defined.

Lemma idempotency_record_lives_a_day_witness :
  let st := openState in
  let newId := "k1" in
  let now := 9 in
  let workspaceId := "w1" in
  let key := "key-1" in
  let method := "POST" in
  let path := bookingsPath in
  let requestHash := "h" in
  let snapshot := mkSnapshot "b1" None in
  let st1 := saveIdempotency st newId now workspaceId key method path requestHash
               snapshot in
  let record := IdempotencyKey.mk newId workspaceId key method path requestHash
                  snapshot (now + 24 * 60 * 60 * 1000) in
  findIdempotency st1 workspaceId key method path = Some record
  /\ (forall workspaceId' key' method' path',
        ledgerKey workspaceId' key' method' path'
        <> ledgerKey workspaceId key method path ->
        findIdempotency st1 workspaceId' key' method' path'
        = findIdempotency st workspaceId' key' method' path')
  /\ (forall now', now' < now + 24 * 60 * 60 * 1000 ->
        findIdempotency (cleanupExpiredRecords st1 now') workspaceId key method path
        = Some record)
  /\ (forall now', now + 24 * 60 * 60 * 1000 <= now' ->
        findIdempotency (cleanupExpiredRecords st1 now') workspaceId key method path
        = None).
Proof.
  refine (idempotency_record_lives_a_day openState "k1" 9 "w1" "key-1" "POST" bookingsPath "h" (mkSnapshot "b1" None) _).
  - reflexivity.
Defined.

Lemma tick_settles_what_it_selects_witness :
  let env := sampleEnv in
  let st := jobState in
  let createId := sampleIds2 in
  let now := 1000 in
  let selected := dueJobs (cleanupExpiredRecords st now) now in
  let st' := runWorkerTick env st createId now in
  (forall n, ~ In n (map fst selected) ->
     nth_error (scheduledJobs st') n = nth_error (scheduledJobs st) n)
  /\ (forall i j e, In (i, j) selected -> handlerError env st j = Some e ->
        (exists j',
           nth_error (scheduledJobs st') i = Some j'
           /\ ScheduledJob.id j' = ScheduledJob.id j
           /\ ScheduledJob.status j' = failed
           /\ ScheduledJob.lastError j' = Some e
           /\ ScheduledJob.attempts j' = ScheduledJob.attempts j + 1)
        /\ exists alert,
             In alert (alerts st')
             /\ Alert.workspaceId alert = ScheduledJob.workspaceId j
             /\ Alert.type alert = "job.failed"
             /\ Alert.severity alert = critical
             /\ Alert.message alert = MsgJobFailed (ScheduledJob.jobType j) e)
  /\ (forall i j, In (i, j) selected ->
        forall createId' now',
          ~ In i (map fst (dueJobs (cleanupExpiredRecords st' now') now'))
          /\ ~ In i (map fst (dueJobs (cleanupExpiredRecords
                                         (runWorkerTick env st' createId' now') now') now')))
  /\ (forall alert, In alert (alerts st) -> In alert (alerts st'))
  /\ bookings st' = bookings st.
Proof.
  refine (tick_settles_what_it_selects sampleEnv jobState sampleIds2 1000 _).
  - exact jobState_ids.
Defined.

Lemma reminder_follows_booking_status_witness :
  let env := sampleEnv in
  let st := jobState in
  let createId := sampleIds in
  let now := 1000 in
  let job := reminderOf "j1" "b1" normal 100 in
  let result := processJob env st createId now (ScheduledJob.id job) in
  let contactOf := fun booking : Booking.t =>
    find (fun item => String.eqb (Contact.id item) (Booking.contactId booking)
                      && String.eqb (Contact.workspaceId item) (Booking.workspaceId booking))
         (contacts st) in
  (bookingOfReminder st job = None -> result = settledDone now (ScheduledJob.id job) st)
  /\ (forall booking,
        bookingOfReminder st job = Some booking ->
        Booking.status booking = cancelled \/ Booking.status booking = completed
        \/ contactOf booking = None ->
        result = settledDone now (ScheduledJob.id job) st)
  /\ (forall booking contact,
        bookingOfReminder st job = Some booking ->
        Booking.status booking <> cancelled -> Booking.status booking <> completed ->
        contactOf booking = Some contact ->
        reminderError env (ScheduledJob.id job) = None ->
        result
        = settledDone now (ScheduledJob.id job)
            (emitEvent env st (createId 0%nat) now (Booking.workspaceId booking)
               "booking.reminder_due" "booking" (Booking.id booking)
               (PayloadReminder (Booking.startsAt booking)))).
Proof.
  refine (reminder_follows_booking_status sampleEnv jobState sampleIds 1000 (reminderOf "j1" "b1" normal 100) _ _).
  - reflexivity.
  - reflexivity.
Defined.

Lemma overdue_check_marks_due_requests_witness :
  let env := sampleEnv in
  let st := checkState in
  let createId := sampleIds in
  let now := 1000 in
  let job := dueCheck in
  let result := processJob env st createId now (ScheduledJob.id job) in
  (forall request,
     find (isRequestOfCheck job) (formRequests st) = Some request ->
     FormRequest.status request = form_pending ->
     FormRequest.dueAt request <= now ->
     formRequests result
     = updateFirst (isRequestOfCheck job) (FormRequest_overdue now) (formRequests st)
     /\ alerts result
        = alerts st ++ [Alert.mk (createId 1%nat) (FormRequest.workspaceId request)
                          "form.overdue" warning
                          (MsgFormOverdue (FormRequest.id request)) now]
     /\ recorded result (FormRequest.workspaceId request) "form.overdue" "form_request"
          (FormRequest.id request)
     /\ scheduledJobs result
        = updateFirst (isJob (ScheduledJob.id job)) (ScheduledJob.settle done None now)
            (scheduledJobs st))
  /\ ((forall request,
         find (isRequestOfCheck job) (formRequests st) = Some request ->
         FormRequest.status request <> form_pending \/ now < FormRequest.dueAt request) ->
      result = settledDone now (ScheduledJob.id job) st).
Proof.
  refine (overdue_check_marks_due_requests sampleEnv checkState sampleIds 1000 dueCheck _ _).
  - reflexivity.
  - reflexivity.
Defined.

Lemma rule_store_stays_in_order_witness :
  let st := nyState in
  let workspace := nyClinic in
  (forall newId now payload,
     ~ In newId (map AvailabilityRule.id (availabilityRules st)) ->
     rulesInOrder
       (availabilityRules (fst (postAvailabilityRule st newId now workspace payload))))
  /\ (forall now id payload,
        rulesInOrder
          (availabilityRules (fst (patchAvailabilityRule st now workspace id payload))))
  /\ (forall id,
        rulesInOrder (availabilityRules (fst (deleteAvailabilityRule st workspace id))))
  /\ (forall id,
        rulesInOrder (availabilityRules (fst (deleteService st workspace id)))).
Proof.
  refine (rule_store_stays_in_order nyState nyClinic _).
  - split; [repeat constructor; intros []|]. intros a b [<-|[]] [<-|[]] H. exfalso. apply H. reflexivity.
Defined.

Lemma deleting_a_service_removes_its_rules_witness :
  let env := sampleEnv in
  let st := openState in
  let workspace := clinic in
  let id := "s1" in
  let st' := fst (deleteService openState clinic "s1") in
  let code := 200 in
  (exists removed,
     In removed (services st)
     /\ Service.id removed = id
     /\ Service.workspaceId removed = ws_id workspace
     /\ S (List.length (services st')) = List.length (services st)
     /\ forall service, In service (services st') -> In service (services st))
  /\ (forall rule,
        In rule (availabilityRules st')
        <-> In rule (availabilityRules st)
            /\ ~ (AvailabilityRule.workspaceId rule = ws_id workspace
                  /\ AvailabilityRule.serviceId rule = id))
  /\ bookings st' = bookings st
  /\ scheduledJobs st' = scheduledJobs st
  /\ (NoDup (map Service.id (services st)) ->
      (forall date, truthy id = true -> date <> DateMissing ->
         getPublicSlots env st' (Some workspace) id date = Failed 404 ErrServiceNotFound)
      /\ forall createId now bookingId booking startsAtInput startsAt calendarEventId,
           find (isOwnBooking (ws_id workspace) bookingId) (bookings st') = Some booking ->
           Booking.serviceId booking = id ->
           Booking.status booking = pending \/ Booking.status booking = confirmed ->
           truthy startsAtInput = true ->
           parseDate env startsAtInput = Some startsAt ->
           rescheduleBooking env st' createId now workspace bookingId startsAtInput
             calendarEventId
           = (st', Failed 404 ErrServiceNotFound)).
Proof.
  refine (deleting_a_service_removes_its_rules sampleEnv openState clinic "s1" (fst (deleteService openState clinic "s1")) 200 _).
  - vm_compute. reflexivity.
Defined.

Lemma completion_never_overdraws_witness :
  let env := sampleEnv in
  let st := sampleState in
  let createId := sampleIds in
  let now := 1 in
  let workspace := clinic in
  let id := "b1" in
  let calendarEventId := @None string in
  let booking := bookingAt "b1" confirmed nineOClock in
  let service := massage in
  let st' := fst (patchBookingStatus sampleEnv sampleState sampleIds 1 clinic "b1" "completed" None) in
  let code := 200 in
  let updated := bodyOf (bookingAt "b1" confirmed nineOClock) (snd (patchBookingStatus sampleEnv sampleState sampleIds 1 clinic "b1" "completed" None)) in
  let w := "w1" in
  let i := "i1" in
  let item := oil in
  exists item',
      find (isInventoryItem w i) (inventoryItems st') = Some item'
      /\ ((w <> ws_id workspace
           \/ forall rule, In rule (Service.inventoryRules service) ->
                           Service.itemId rule <> i) ->
          InventoryItem.quantityOnHand item' = InventoryItem.quantityOnHand item)
      /\ (forall rule, w = ws_id workspace ->
            In rule (Service.inventoryRules service) -> Service.itemId rule = i ->
            InventoryItem.quantityOnHand item'
            = InventoryItem.quantityOnHand item - Service.quantity rule
            /\ 0 <= InventoryItem.quantityOnHand item').
Proof.
  refine (completion_never_overdraws sampleEnv sampleState sampleIds 1 clinic "b1" (@None string) (bookingAt "b1" confirmed nineOClock) massage (fst (patchBookingStatus sampleEnv sampleState sampleIds 1 clinic "b1" "completed" None)) 200 (bodyOf (bookingAt "b1" confirmed nineOClock) (snd (patchBookingStatus sampleEnv sampleState sampleIds 1 clinic "b1" "completed" None))) _ _ _ _ _ "w1" "i1" oil _).
  - exact sampleState_ids.
  - reflexivity.
  - reflexivity.
  - simpl. repeat constructor. intros [].
  - vm_compute. reflexivity.
  - reflexivity.
Defined.

Lemma booked_interval_leaves_the_listing_witness :
  let env := sampleEnv in
  let st := openState in
  let createId := sampleIds in
  let now := 9 in
  let workspace := clinic in
  let key := Some "key-1" in
  let path := bookingsPath in
  let body := tenOClockBody in
  let calendarEventId := @None string in
  let st' := fst firstBooking in
  let code := 201 in
  let snapshot := snapshotOf (snd firstBooking) in
  exists booking,
    bookings st' = bookings st ++ [booking]
    /\ forall serviceId date code' slots slot,
         getPublicSlots env st' (Some workspace) serviceId date = Sent code' slots ->
         In slot slots ->
         slot_endsAt slot <= Booking.startsAt booking
         \/ Booking.endsAt booking <= slot_startsAt slot.
Proof.
  refine (booked_interval_leaves_the_listing sampleEnv openState sampleIds 9 clinic (Some "key-1") bookingsPath tenOClockBody (@None string) (fst firstBooking) 201 (snapshotOf (snd firstBooking)) _).
  - vm_compute. reflexivity.
Defined.

Lemma released_booking_frees_its_interval_witness :
  let env := sampleEnv in
  let st := sampleState in
  let createId := sampleIds in
  let now := 1 in
  let workspace := clinic in
  let id := "b1" in
  (forall rawStatus calendarEventId st' code updated,
     patchBookingStatus env st createId now workspace id rawStatus calendarEventId
     = (st', Sent code updated) ->
     Booking.status updated = cancelled \/ Booking.status updated = no_show ->
     forall w s e,
       isBookingOverlapping st' w s e None = isBookingOverlapping st w s e (Some id))
  /\ (forall st' code deleted,
        deleteBooking env st createId now workspace id = (st', Sent code deleted) ->
        forall w s e,
          isBookingOverlapping st' w s e None = isBookingOverlapping st w s e (Some id)).
Proof.
  refine (released_booking_frees_its_interval sampleEnv sampleState sampleIds 1 clinic "b1" _ _).
  - exact sampleState_ids.
  - reflexivity.
Defined.

